(** * docdb-autoscaler: the decision-and-reconciliation engine

    A shallow embedding of [pkg/autoscaling] (the [DocumentDB] type and its
    methods), of [pkg/notifications] and of the Lambda entry point (the
    handlers, [processScaling], [executeWithRetry]).

    Conventions.
    - Go's [int] and [time.Duration] are 64-bit: they are [Z] values and
      every addition, subtraction and multiplication of the source goes
      through [wrap64].
    - Go's [float64] is modelled by exact rationals ([Q]): finite values,
      no rounding error, no NaN or infinity.  The capacity calculator is
      also given over IEEE binary64 ([Binary64]), to run its test table
      with the arithmetic of the machine.
    - Go strings are byte strings ([string], a list of [ascii] bytes).
    - Functions that talk to AWS, log, sleep or read the clock run in the
      monad [M] over a [World]; a Go [error] return is the [Err] outcome and
      a run-time panic the [Panic] outcome. *)

From Stdlib Require Import ZArith QArith Qround Lia List Bool.
From Stdlib Require Import Ascii String DecimalString DecimalPos.
From Stdlib Require Import Floats.PrimFloat Numbers.Cyclic.Int63.Uint63.
Import ListNotations.

Local Open Scope string_scope.
Local Open Scope Z_scope.

(* ================================================================== *)
(** * Machine integers *)

Module Int64.

Definition modulus : Z := 2 ^ 64.
Definition half : Z := 2 ^ 63.
Definition MaxInt64 : Z := half - 1.
Definition MinInt64 : Z := - half.

(** Two's-complement wrap-around of a mathematical integer. *)
Definition wrap64 (x : Z) : Z := (x + half) mod modulus - half.

Definition add (x y : Z) : Z := wrap64 (x + y).
Definition sub (x y : Z) : Z := wrap64 (x - y).
Definition mul (x y : Z) : Z := wrap64 (x * y).

Definition in_range (x : Z) : Prop := MinInt64 <= x <= MaxInt64.

End Int64.

(* ================================================================== *)
(** * float64, idealised *)

Module Float64.

Definition float64 : Type := Q.

(** [float64(n)] for an [int] n. *)
Definition of_int (n : Z) : float64 := inject_Z n.

(** [int(x)]: conversion truncates toward zero. *)
Definition to_int (x : float64) : Z := Z.quot (Qnum x) (Zpos (Qden x)).

(** [math.Ceil] and [math.Floor]. *)
Definition Ceil (x : float64) : float64 := inject_Z (Qceiling x).
Definition Floor (x : float64) : float64 := inject_Z (Qfloor x).

Definition ltb (x y : float64) : bool := negb (Qle_bool y x).
Definition gtb (x y : float64) : bool := ltb y x.

End Float64.

(* ================================================================== *)
(** * The autoscaler configuration *)

(** [type DocumentDB struct]; the client, notifier and logger fields are the
    [World] the methods run in. *)
Record DocumentDB : Type := {
  ClusterID : string;
  MinCapacity : Z;
  MaxCapacity : Z;
  MetricName : string;
  TargetValue : Q;
  ScaleInCooldown : Z;
  ScaleOutCooldown : Z;
  InstanceType : string;
  DryRun : bool;
  ScheduledScaling : bool;
  ScheduleNumberReplicas : Z
}.

(* ================================================================== *)
(** * Capacity calculator *)

Section Capacity.
Import Float64.

Definition CalculateDesiredCapacity (d : DocumentDB)
    (currentMetricValue : float64) (currentCapacity : Z) : Z :=
  let proportionalCapacity :=
    ((currentMetricValue / TargetValue d) * of_int currentCapacity)%Q in
  let desiredCapacity :=
    if gtb proportionalCapacity (of_int currentCapacity)
    then Ceil proportionalCapacity
    else Floor proportionalCapacity in
  let desiredCapacity :=
    if ltb desiredCapacity (of_int (MinCapacity d))
    then of_int (MinCapacity d)
    else if gtb desiredCapacity (of_int (MaxCapacity d))
         then of_int (MaxCapacity d)
         else desiredCapacity in
  to_int desiredCapacity.

(** The formula of the specification, written from its words:
    [clamp(round(metric/target * current), min, max)]. *)
Definition clamp (x lo hi : Z) : Z := Z.max lo (Z.min x hi).

Definition spec_round (proportional : Q) (current : Z) : Z :=
  match (proportional ?= inject_Z current)%Q with
  | Gt => Qceiling proportional
  | _ => Qfloor proportional
  end.

Definition spec_desired (metric target : Q) (current lo hi : Z) : Z :=
  clamp (spec_round (metric / target * inject_Z current)%Q current) lo hi.

End Capacity.

(** The same function over IEEE binary64 (Rocq's primitive floats). *)
Module Binary64.

(** For a finite [x], [|x| = mant * 2^k]. *)
Definition decompose (x : float) : Z * Z :=
  let (m, e) := frshiftexp x in
  (Uint63.to_Z (normfr_mantissa m), Uint63.to_Z e - 2101 - 53).

(** The integer part of [|x|], and whether [|x|] has a fractional part. *)
Definition integral (x : float) : Z * bool :=
  let (mant, k) := decompose (PrimFloat.abs x) in
  if 0 <=? k then (mant * 2 ^ k, false)
  else (Z.shiftr mant (- k), negb (Z.land mant (Z.ones (- k)) =? 0)).

(** [float64(n)] for an [int] n below 2^53 in magnitude. *)
Definition of_int (n : Z) : float :=
  if n <? 0 then PrimFloat.opp (of_uint63 (Uint63.of_Z (- n)))
  else of_uint63 (Uint63.of_Z n).

(** [int(x)], [math.Floor] and [math.Ceil] on finite values. *)
Definition to_int (x : float) : Z :=
  let (q, _) := integral x in
  if PrimFloat.ltb x 0%float then - q else q.

Definition Floor (x : float) : float :=
  let (q, frac) := integral x in
  if PrimFloat.ltb x 0%float then of_int (- (q + if frac then 1 else 0))
  else of_int q.

Definition Ceil (x : float) : float :=
  let (q, frac) := integral x in
  if PrimFloat.ltb x 0%float then of_int (- q)
  else of_int (q + if frac then 1 else 0).

Definition CalculateDesiredCapacity (targetValue : float)
    (minCapacity maxCapacity : Z) (currentMetricValue : float)
    (currentCapacity : Z) : Z :=
  let proportionalCapacity :=
    PrimFloat.mul (PrimFloat.div currentMetricValue targetValue)
      (of_int currentCapacity) in
  let desiredCapacity :=
    if PrimFloat.ltb (of_int currentCapacity) proportionalCapacity
    then Ceil proportionalCapacity
    else Floor proportionalCapacity in
  let desiredCapacity :=
    if PrimFloat.ltb desiredCapacity (of_int minCapacity)
    then of_int minCapacity
    else if PrimFloat.ltb (of_int maxCapacity) desiredCapacity
         then of_int maxCapacity
         else desiredCapacity in
  to_int desiredCapacity.

End Binary64.

Definition mkBounds (lo hi : Z) (target : Q) : DocumentDB :=
  {| ClusterID := "test-cluster"; MinCapacity := lo; MaxCapacity := hi;
     MetricName := "CPUUtilization"; TargetValue := target;
     ScaleInCooldown := 0; ScaleOutCooldown := 0; InstanceType := "";
     DryRun := false; ScheduledScaling := false;
     ScheduleNumberReplicas := 0 |}.

(* ================================================================== *)
(** * The world the engine runs in *)

(** Go [error] values, carried as their message. *)
Definition error : Type := string.

(** [fmt.Sprintf("%d", n)]. *)
Definition itoa (n : Z) : string := NilZero.string_of_int (Z.to_int n).

(** ** Directory data (aws-sdk types, the fields the engine reads) *)

Record DBInstance : Type := {
  DBInstanceIdentifier : string;
  DBInstanceArn : string;
  DBInstanceClass : string;
  DBInstanceStatus : string
}.

Record Tag : Type := { Key : string; Value : string }.

Record DBClusterMember : Type := {
  MemberInstanceIdentifier : string;
  IsClusterWriter : bool
}.

Record DBCluster : Type := {
  DBClusterIdentifier : string;
  DBClusterMembers : list DBClusterMember
}.

Record Datapoint : Type := {
  Timestamp : Z;
  Average : option Q
}.

(** The state of the three AWS services behind [DocDBAPI], [RDSAPI] and
    [CloudWatchAPI]: the inventory of the configured cluster, its
    membership, the tags of each resource (by ARN) and the datapoints of
    each instance (by identifier). *)
Record Directory : Type := {
  instances : list DBInstance;
  clusters : list DBCluster;
  tags : list (string * list Tag);
  datapoints : list (string * list Datapoint)
}.

(** ** Directory updates *)

Fixpoint lookup {A} (k : string) (l : list (string * A)) : option A :=
  match l with
  | [] => None
  | (k', v) :: rest => if String.eqb k' k then Some v else lookup k rest
  end.

Definition tagsOf (dir : Directory) (resourceName : string) : list Tag :=
  match lookup resourceName (tags dir) with
  | Some l => l
  | None => []
  end.

(** The ARN the directory gives a new instance. *)
Definition arnOf (identifier : string) : string :=
  "arn:aws:rds:db:" ++ identifier.

Definition newInstance (class identifier : string) : DBInstance :=
  {| DBInstanceIdentifier := identifier;
     DBInstanceArn := arnOf identifier;
     DBInstanceClass := class;
     DBInstanceStatus := "creating" |}.

Fixpoint removeInstance (identifier : string) (l : list DBInstance)
    : list DBInstance :=
  match l with
  | [] => []
  | i :: rest =>
      if String.eqb (DBInstanceIdentifier i) identifier then rest
      else i :: removeInstance identifier rest
  end.

Fixpoint putTag (resourceName : string) (t : Tag)
    (l : list (string * list Tag)) : list (string * list Tag) :=
  match l with
  | [] => [(resourceName, [t])]
  | (r, ts) :: rest =>
      if String.eqb r resourceName
      then (r, (filter (fun t' => negb (String.eqb (Key t') (Key t))) ts
                  ++ [t])%list)
           :: rest
      else (r, ts) :: putTag resourceName t rest
  end.

(** ** Calls issued to the outside *)

Inductive Call : Type :=
| DescribeDBInstancesCall (clusterFilter : string)
| DescribeDBClustersCall (cluster : string)
| ListTagsForResourceCall (resourceName : string)
| GetMetricStatisticsCall (metricName instanceID : string)
| CreateDBInstanceCall (cluster class identifier : string)
| AddTagsToResourceCall (resourceName key value : string)
| DeleteDBInstanceCall (identifier : string)
| PublishCall (message : string).

(** What the outside answers to a call: the scripted [plan] of a world
    decides, call by call, whether the service fails.  [SucceedNoArn] is a
    successful [CreateDBInstance] whose response carries no instance ARN. *)
Inductive Reply : Type :=
| Succeed
| SucceedNoArn
| Fail (e : error).

Inductive Level : Type := INFO | WARN | ERROR.

Record World : Type := {
  directory : Directory;
  clock : nat -> Z;          (* successive readings of time.Now().UnixNano() *)
  clockReads : nat;
  plan : list Reply;         (* replies to the calls still to come *)
  calls : list (Call * Reply); (* every call answered so far, oldest first *)
  slept : list Z;            (* every time.Sleep so far, oldest first *)
  logged : list (Level * string)
}.

Definition set_instances (f : list DBInstance -> list DBInstance)
    (dir : Directory) : Directory :=
  {| instances := f (instances dir); clusters := clusters dir;
     tags := tags dir; datapoints := datapoints dir |}.

Definition set_tags (f : list (string * list Tag) -> list (string * list Tag))
    (dir : Directory) : Directory :=
  {| instances := instances dir; clusters := clusters dir;
     tags := f (tags dir); datapoints := datapoints dir |}.

(** ** The monad *)

Inductive Outcome (A : Type) : Type :=
| Ok (a : A)
| Err (e : error)
| Panic (msg : string).
Arguments Ok {A} a.
Arguments Err {A} e.
Arguments Panic {A} msg.

Definition M (A : Type) : Type := World -> Outcome A * World.

Definition ret {A} (a : A) : M A := fun w => (Ok a, w).

Definition bind {A B} (m : M A) (k : A -> M B) : M B :=
  fun w =>
    match m w with
    | (Ok a, w') => k a w'
    | (Err e, w') => (Err e, w')
    | (Panic msg, w') => (Panic msg, w')
    end.

(** [return err]. *)
Definition fail {A} (e : error) : M A := fun w => (Err e, w).

Definition panic {A} (msg : string) : M A := fun w => (Panic msg, w).

(** [x, err := m; if err != nil { ... }]: the error is handed to the code
    instead of being returned. *)
Definition try {A} (m : M A) : M (A + error) :=
  fun w =>
    match m w with
    | (Ok a, w') => (Ok (inl a), w')
    | (Err e, w') => (Ok (inr e), w')
    | (Panic msg, w') => (Panic msg, w')
    end.

Declare Scope go_scope.
Delimit Scope go_scope with go.
Notation "x <- m ;; k" := (bind m (fun x => k))
  (at level 61, m at next level, right associativity) : go_scope.
Notation "m ;; k" := (bind m (fun _ => k))
  (at level 61, right associativity) : go_scope.
Local Open Scope go_scope.

(** [x, err := m; if err != nil { h(err); return err }]. *)
Definition orElse {A} (m : M A) (h : error -> M unit) : M A :=
  r <- try m ;;
  match r with
  | inl a => ret a
  | inr e => h e ;; fail e
  end.

(** ** Primitive effects *)

Definition Log (l : Level) (msg : string) : M unit :=
  fun w =>
    (Ok tt,
     {| directory := directory w; clock := clock w;
        clockReads := clockReads w; plan := plan w; calls := calls w;
        slept := slept w; logged := logged w ++ [(l, msg)] |}).

(** [time.Sleep(d)]. *)
Definition Sleep (d : Z) : M unit :=
  fun w =>
    (Ok tt,
     {| directory := directory w; clock := clock w;
        clockReads := clockReads w; plan := plan w; calls := calls w;
        slept := slept w ++ [d]; logged := logged w |}).

(** [time.Now().UnixNano()]. *)
Definition UnixNano : M Z :=
  fun w =>
    (Ok (clock w (clockReads w)),
     {| directory := directory w; clock := clock w;
        clockReads := S (clockReads w); plan := plan w; calls := calls w;
        slept := slept w; logged := logged w |}).

(** What a call does to the directory once the service has accepted it: a
    create adds the instance to the inventory, a delete takes it out, a tag
    write sets the tag; the other calls only read. *)
Definition effect (c : Call) (r : Reply) (dir : Directory) : Directory :=
  match r, c with
  | Fail _, _ => dir
  | _, CreateDBInstanceCall _ class identifier =>
      set_instances (fun l => (l ++ [newInstance class identifier])%list) dir
  | _, AddTagsToResourceCall resourceName key value =>
      set_tags (putTag resourceName {| Key := key; Value := value |}) dir
  | _, DeleteDBInstanceCall identifier =>
      set_instances (removeInstance identifier) dir
  | _, _ => dir
  end.

(** Issue a call: the next reply of the plan is consumed (an exhausted plan
    answers [Succeed]), the call is recorded with its reply, the directory
    processes it, and a [Fail] reply is the call's error. *)
Definition request (c : Call) : M Reply :=
  fun w =>
    let r := hd Succeed (plan w) in
    let w' :=
      {| directory := effect c r (directory w); clock := clock w;
         clockReads := clockReads w; plan := tl (plan w);
         calls := calls w ++ [(c, r)]; slept := slept w;
         logged := logged w |} in
    match r with
    | Fail e => (Err e, w')
    | _ => (Ok r, w')
    end.

Definition getDirectory : M Directory := fun w => (Ok (directory w), w).

(* ================================================================== *)
(** * Retrying executor (cmd/lambda: executeWithRetry) *)

Module Duration.
Definition Second : Z := 1000000000.
End Duration.

Section Retry.

Variable action : M unit.
Variable maxRetries : Z.

(** The body of [for attempt := 1; attempt <= maxRetries; attempt++],
    with [remaining] iterations still to run. *)
Fixpoint retryLoop (remaining : nat) (attempt backoff : Z) : M unit :=
  match remaining with
  | O =>
      fail ("scaling action failed after " ++ itoa maxRetries ++ " attempts")
  | S remaining' =>
      r <- try action ;;
      match r with
      | inl _ => ret tt
      | inr err =>
          Log WARN "Scaling action failed, retrying..." ;;
          (* Wait before the next retry *)
          Sleep backoff ;;
          (* Exponential backoff with a maximum cap (e.g., 32 seconds) *)
          let backoff := Int64.mul backoff 2 in
          let backoff :=
            if backoff >? Int64.mul 32 Duration.Second
            then Int64.mul 32 Duration.Second
            else backoff in
          retryLoop remaining' (Int64.add attempt 1) backoff
      end
  end.

(** [attempt] runs from 1 to [maxRetries]: [maxRetries] iterations when it
    is positive, none otherwise.  (At [maxRetries = MaxInt64] the counter of
    the source would wrap and the loop would not end; the model is for
    smaller values.) *)
Definition executeWithRetry (initialBackoff : Z) : M unit :=
  let backoff := initialBackoff in
  retryLoop (Z.to_nat maxRetries) 1 backoff.

End Retry.

(* ================================================================== *)
(** * Strings (the parts of Go's [strings] and [unicode/utf8] the engine uses) *)

Module Strings.

Definition byte (a : ascii) : Z := Z.of_N (N_of_ascii a).

Definition chr (b : Z) : ascii := ascii_of_N (Z.to_N b).

Definition len (s : string) : Z := Z.of_nat (String.length s).

(** [s[:n]] and [s[n:]] on bytes. *)
Definition take (n : Z) (s : string) : string :=
  substring 0 (Z.to_nat n) s.

Definition drop (n : Z) (s : string) : string :=
  substring (Z.to_nat n) (String.length s - Z.to_nat n) s.

(** [strings.TrimLeft], [strings.TrimRight] and [strings.Trim] with a
    cutset of one byte. *)
Fixpoint TrimLeft (s : string) (c : ascii) : string :=
  match s with
  | EmptyString => EmptyString
  | String a rest => if Ascii.eqb a c then TrimLeft rest c else s
  end.

Fixpoint TrimRight (s : string) (c : ascii) : string :=
  match s with
  | EmptyString => EmptyString
  | String a rest =>
      match TrimRight rest c with
      | EmptyString => if Ascii.eqb a c then EmptyString else String a EmptyString
      | r => String a r
      end
  end.

Definition Trim (s : string) (c : ascii) : string :=
  TrimRight (TrimLeft s c) c.

(** [strings.ReplaceAll(s, old, new)] for a non-empty [old]: occurrences
    are replaced from left to right and do not overlap; [skip] counts the
    bytes of the occurrence just replaced that are still to be passed. *)
Fixpoint replaceFrom (old new : string) (skip : nat) (s : string) : string :=
  match s with
  | EmptyString => EmptyString
  | String a rest =>
      match skip with
      | S skip' => replaceFrom old new skip' rest
      | O =>
          if prefix old s
          then new ++ replaceFrom old new (String.length old - 1) rest
          else String a (replaceFrom old new 0 rest)
      end
  end.

Definition ReplaceAll (s old new : string) : string :=
  replaceFrom old new 0 s.

(** ** UTF-8 decoding, as [for _, ch := range s] does it *)

Definition RuneError : Z := 65533.

(** For a leading byte of a multi-byte sequence: its length and the range
    accepted for the second byte (the tables [first] and [acceptRanges] of
    [unicode/utf8]). *)
Definition first (s0 : Z) : option (Z * Z * Z) :=
  if (194 <=? s0) && (s0 <=? 223) then Some (2, 128, 191)
  else if s0 =? 224 then Some (3, 160, 191)
  else if (225 <=? s0) && (s0 <=? 236) then Some (3, 128, 191)
  else if s0 =? 237 then Some (3, 128, 159)
  else if (238 <=? s0) && (s0 <=? 239) then Some (3, 128, 191)
  else if s0 =? 240 then Some (4, 144, 191)
  else if (241 <=? s0) && (s0 <=? 243) then Some (4, 128, 191)
  else if s0 =? 244 then Some (4, 128, 143)
  else None.

Definition continuation (b : Z) : bool := (128 <=? b) && (b <=? 191).

(** [utf8.DecodeRuneInString]: the rune at the head of [s] and its width. *)
Definition DecodeRuneInString (s : string) : Z * nat :=
  match s with
  | EmptyString => (RuneError, 0%nat)
  | String c0 rest0 =>
      let s0 := byte c0 in
      if s0 <? 128 then (s0, 1%nat)
      else
        match first s0, rest0 with
        | Some (sz, lo, hi), String c1 rest1 =>
            let s1 := byte c1 in
            if (s1 <? lo) || (hi <? s1) then (RuneError, 1%nat)
            else if sz <=? 2
            then (Z.lor (Z.shiftl (Z.land s0 31) 6) (Z.land s1 63), 2%nat)
            else
              match rest1 with
              | String c2 rest2 =>
                  let s2 := byte c2 in
                  if negb (continuation s2) then (RuneError, 1%nat)
                  else if sz <=? 3
                  then (Z.lor (Z.shiftl (Z.land s0 15) 12)
                          (Z.lor (Z.shiftl (Z.land s1 63) 6) (Z.land s2 63)),
                        3%nat)
                  else
                    match rest2 with
                    | String c3 _ =>
                        let s3 := byte c3 in
                        if negb (continuation s3) then (RuneError, 1%nat)
                        else (Z.lor (Z.shiftl (Z.land s0 7) 18)
                                (Z.lor (Z.shiftl (Z.land s1 63) 12)
                                   (Z.lor (Z.shiftl (Z.land s2 63) 6)
                                      (Z.land s3 63))),
                              4%nat)
                    | EmptyString => (RuneError, 1%nat)
                    end
              | EmptyString => (RuneError, 1%nat)
              end
        | _, _ => (RuneError, 1%nat)
        end
  end.

(** The runes a [range] loop over [s] visits, in order. *)
Fixpoint rangeFrom (skip : nat) (s : string) : list Z :=
  match s with
  | EmptyString => []
  | String _ rest =>
      match skip with
      | S skip' => rangeFrom skip' rest
      | O =>
          let (r, width) := DecodeRuneInString s in
          r :: rangeFrom (width - 1) rest
      end
  end.

Definition runes (s : string) : list Z := rangeFrom 0 s.

End Strings.

(* ================================================================== *)
(** * Instance identifiers *)

Definition hyphen : ascii := "-"%char.

(** [func isLetter(ch byte) bool] *)
Definition isLetter (ch : Z) : bool :=
  ((65 <=? ch) && (ch <=? 90)) || ((97 <=? ch) && (ch <=? 122)).

(** [func isValidDBInstanceIdentifierChar(ch rune) bool] *)
Definition isValidDBInstanceIdentifierChar (ch : Z) : bool :=
  ((65 <=? ch) && (ch <=? 90)) ||
  ((97 <=? ch) && (ch <=? 122)) ||
  ((48 <=? ch) && (ch <=? 57)) ||
  (ch =? 45).

(** The loop [for _, ch := range identifier] of
    [sanitizeDBInstanceIdentifier]. *)
Fixpoint sanitizeRunes (chs : list Z) (validIdentifier : string) : string :=
  match chs with
  | [] => validIdentifier
  | ch :: rest =>
      if isValidDBInstanceIdentifierChar ch
      then sanitizeRunes rest (validIdentifier ++ String (Strings.chr ch) "")
      else sanitizeRunes rest (validIdentifier ++ "-")
  end.

(** [identifier[0]] panics on the empty string. *)
Definition sanitizeDBInstanceIdentifier (identifier : string) : Outcome string :=
  match identifier with
  | EmptyString => Panic "index out of range [0] with length 0"
  | String c0 _ =>
      (* Ensure it starts with a letter *)
      let identifier :=
        if negb (isLetter (Strings.byte c0)) then "a" ++ identifier
        else identifier in
      (* Remove invalid characters *)
      let validIdentifier := sanitizeRunes (Strings.runes identifier) "" in
      (* Remove consecutive hyphens *)
      let validIdentifier := Strings.ReplaceAll validIdentifier "--" "-" in
      (* Trim any leading or trailing hyphens *)
      let validIdentifier := Strings.Trim validIdentifier hyphen in
      Ok validIdentifier
  end.

(** The identifier of a new instance, as [AddReplicas] (role "reader") and
    [AddScheduledReplicas] (role "scheduler") both build it from the
    cluster identifier and a clock reading. *)
Definition newIdentifier (clusterID role : string) (unixNano : Z)
    : Outcome string :=
  let timestamp := itoa unixNano in
  if Strings.len timestamp <? 9
  then Panic "slice bounds out of range"
  else
    (* Use last 9 digits to ensure uniqueness and keep length short *)
    let uniqueID := Strings.drop (Strings.len timestamp - 9) timestamp in
    let baseIdentifier := clusterID ++ "-" ++ role ++ "-" ++ uniqueID in
    (* Ensure the identifier is no more than 63 characters *)
    let baseIdentifier :=
      if Strings.len baseIdentifier >? 63
      then
        (* Ensure it doesn't end with a hyphen *)
        Strings.TrimRight (Strings.take 63 baseIdentifier) hyphen
      else baseIdentifier in
    (* Ensure identifier starts with a letter and contains only allowed
       characters *)
    sanitizeDBInstanceIdentifier baseIdentifier.

(** AWS's constraints on an instance identifier, decidable. *)
Fixpoint noDoubleHyphen (s : string) : bool :=
  match s with
  | String a ((String b _) as rest) =>
      negb (Ascii.eqb a hyphen && Ascii.eqb b hyphen) && noDoubleHyphen rest
  | _ => true
  end.

Fixpoint lastByte (s : string) : option ascii :=
  match s with
  | EmptyString => None
  | String a EmptyString => Some a
  | String _ rest => lastByte rest
  end.

Fixpoint allBytes (p : Z -> bool) (s : string) : bool :=
  match s with
  | EmptyString => true
  | String a rest => p (Strings.byte a) && allBytes p rest
  end.

Definition startsWithLetter (s : string) : bool :=
  match s with
  | EmptyString => false
  | String a _ => isLetter (Strings.byte a)
  end.

Definition noTrailingHyphen (s : string) : bool :=
  match lastByte s with
  | Some a => negb (Ascii.eqb a hyphen)
  | None => true
  end.

Definition validIdentifier (s : string) : bool :=
  (Strings.len s <=? 63) &&
  startsWithLetter s &&
  allBytes isValidDBInstanceIdentifierChar s &&
  noDoubleHyphen s &&
  noTrailingHyphen s.

(* ================================================================== *)
(** * The services behind [DocDBAPI], [RDSAPI], [CloudWatchAPI] and [SNSAPI] *)

Definition liftOutcome {A} (o : Outcome A) : M A := fun w => (o, w).

Definition DescribeDBInstances (clusterFilter : string) : M (list DBInstance) :=
  _ <- request (DescribeDBInstancesCall clusterFilter) ;;
  dir <- getDirectory ;;
  ret (instances dir).

Definition DescribeDBClusters (cluster : string) : M (list DBCluster) :=
  _ <- request (DescribeDBClustersCall cluster) ;;
  dir <- getDirectory ;;
  ret (clusters dir).

Definition ListTagsForResource (resourceName : string) : M (list Tag) :=
  _ <- request (ListTagsForResourceCall resourceName) ;;
  dir <- getDirectory ;;
  ret (tagsOf dir resourceName).

Definition GetMetricStatistics (metricName instanceID : string)
    : M (list Datapoint) :=
  _ <- request (GetMetricStatisticsCall metricName instanceID) ;;
  dir <- getDirectory ;;
  ret (match lookup instanceID (datapoints dir) with
       | Some l => l
       | None => []
       end).

(** The result is the ARN of the response, if it carries one. *)
Definition CreateDBInstance (cluster class identifier : string)
    : M (option string) :=
  r <- request (CreateDBInstanceCall cluster class identifier) ;;
  ret (match r with
       | SucceedNoArn => None
       | _ => Some (arnOf identifier)
       end).

Definition AddTagsToResource (resourceName key value : string) : M unit :=
  _ <- request (AddTagsToResourceCall resourceName key value) ;;
  ret tt.

Definition DeleteDBInstance (identifier : string) : M unit :=
  _ <- request (DeleteDBInstanceCall identifier) ;;
  ret tt.

Definition Publish (message : string) : M unit :=
  _ <- request (PublishCall message) ;;
  ret tt.

(* ================================================================== *)
(** * pkg/notifications *)

Definition SendScaleOutNotification (clusterID : string) (replicasAdded : Z)
    : M unit :=
  let message :=
    "Scaled out cluster " ++ clusterID ++ " by adding "
      ++ itoa replicasAdded ++ " replicas." in
  Publish message.

Definition SendScaleInNotification (clusterID : string) (replicasRemoved : Z)
    : M unit :=
  let message :=
    "Scaled in cluster " ++ clusterID ++ " by removing "
      ++ itoa replicasRemoved ++ " replicas." in
  Publish message.

Definition SendFailureNotification (clusterID errorMessage action : string)
    : M unit :=
  let message :=
    "Failed to " ++ action ++ " on cluster " ++ clusterID ++ ": "
      ++ errorMessage in
  Publish message.

(* ================================================================== *)
(** * pkg/autoscaling: topology and metric *)

Definition GetWriterInstanceIdentifier (d : DocumentDB) : M string :=
  dbClusters <- orElse (DescribeDBClusters (ClusterID d))
                  (fun _ => Log ERROR "Failed to describe DB clusters") ;;
  match dbClusters with
  | [] => fail ("no clusters found with identifier " ++ ClusterID d)
  | dbCluster :: _ =>
      (* Find the writer instance identifier *)
      match find IsClusterWriter (DBClusterMembers dbCluster) with
      | Some member => ret (MemberInstanceIdentifier member)
      | None => fail ("writer instance not found in cluster " ++ ClusterID d)
      end
  end.

Definition isWriter (writerInstanceIdentifier : string) (instance : DBInstance)
    : bool :=
  String.eqb (DBInstanceIdentifier instance) writerInstanceIdentifier.

Definition GetReaderInstances (d : DocumentDB) : M (list DBInstance) :=
  dbInstances <- orElse (DescribeDBInstances (ClusterID d))
                   (fun _ => Log ERROR "Failed to describe DB instances") ;;
  writerInstanceIdentifier <-
    orElse (GetWriterInstanceIdentifier d)
      (fun _ => Log ERROR "Failed to get writer instance identifier") ;;
  (* Skip the writer instance *)
  ret (filter (fun instance => negb (isWriter writerInstanceIdentifier instance))
         dbInstances).

Definition GetCurrentCapacity (d : DocumentDB) : M Z :=
  readerInstances <- GetReaderInstances d ;;
  let capacity := Z.of_nat (List.length readerInstances) in
  Log INFO "Retrieved current capacity" ;;
  ret capacity.

Definition GetWriterInstance (d : DocumentDB) : M DBInstance :=
  dbInstances <- orElse (DescribeDBInstances (ClusterID d))
                   (fun _ => Log ERROR "Failed to describe DB instances") ;;
  writerInstanceIdentifier <- GetWriterInstanceIdentifier d ;;
  match find (isWriter writerInstanceIdentifier) dbInstances with
  | Some instance => ret instance
  | None => fail "writer instance not found"
  end.

(** [sort.Slice] by timestamp, as an insertion sort (datapoints of equal
    timestamp keep their order here; Go leaves their order open). *)
Fixpoint insertDatapoint (p : Datapoint) (l : list Datapoint) : list Datapoint :=
  match l with
  | [] => [p]
  | q :: rest =>
      if Timestamp p <? Timestamp q then p :: l
      else q :: insertDatapoint p rest
  end.

Definition sortDatapoints (l : list Datapoint) : list Datapoint :=
  fold_left (fun acc p => insertDatapoint p acc) l [].

(** [aws.ToFloat64]. *)
Definition ToFloat64 (p : option Q) : Q :=
  match p with
  | Some x => x
  | None => 0%Q
  end.

Fixpoint sumLatestDatapoints (d : DocumentDB) (readerInstances : list DBInstance)
    (totalMetric : Q) : M Q :=
  match readerInstances with
  | [] => ret totalMetric
  | instance :: rest =>
      (* Step 2: Fetch metric for each reader instance *)
      resp <- orElse (GetMetricStatistics (MetricName d)
                        (DBInstanceIdentifier instance))
                (fun _ => Log ERROR "Failed to get metric statistics") ;;
      match resp with
      | [] =>
          Log ERROR "No datapoints found for instance" ;;
          fail ("no datapoints found for instance "
                  ++ DBInstanceIdentifier instance)
      | p :: _ =>
          (* Sort datapoints by timestamp; use the latest datapoint *)
          let latestDatapoint := last (sortDatapoints resp) p in
          sumLatestDatapoints d rest
            (totalMetric + ToFloat64 (Average latestDatapoint))%Q
      end
  end.

Definition GetCurrentMetricValue (d : DocumentDB) : M Q :=
  (* Step 1: Get all reader instances *)
  readerInstances <- GetReaderInstances d ;;
  match readerInstances with
  | [] => fail "no reader instances found"
  | _ =>
      totalMetric <- sumLatestDatapoints d readerInstances 0%Q ;;
      (* Step 3: Calculate average across readers *)
      let averageMetric :=
        (totalMetric
           / Float64.of_int (Z.of_nat (List.length readerInstances)))%Q in
      ret averageMetric
  end.

(* ================================================================== *)
(** * pkg/autoscaling: ownership tags *)

Definition autoscalerTagKey : string := "docdb-autoscaler-created".
Definition schedulerTagKey : string := "docdb-autoscaler-scheduler".

Definition hasTag (key : string) (tagList : list Tag) : bool :=
  existsb (fun tag => String.eqb (Key tag) key && String.eqb (Value tag) "true")
    tagList.

Definition HasAutoscalerTag (d : DocumentDB) (instance : DBInstance) : M bool :=
  tagList <- orElse (ListTagsForResource (DBInstanceArn instance))
               (fun _ => Log ERROR "Failed to list tags for resource") ;;
  ret (hasTag autoscalerTagKey tagList).

Definition HasSchedulerTag (d : DocumentDB) (instance : DBInstance) : M bool :=
  tagList <- orElse (ListTagsForResource (DBInstanceArn instance))
               (fun _ => Log ERROR "Failed to list tags for resource") ;;
  ret (hasTag schedulerTagKey tagList).

(* ================================================================== *)
(** * pkg/autoscaling: instance provisioner *)

(** One iteration of the creation loop of [AddReplicas] and
    [AddScheduledReplicas]; the two differ in the role of the identifier,
    the tag and the log texts. *)
Definition createOne (d : DocumentDB) (role tagKey : string)
    (instanceClass : string) (failText tagFailText doneText dryText : string)
    : M unit :=
  (* Generate a shorter unique identifier *)
  unixNano <- UnixNano ;;
  baseIdentifier <- liftOutcome (newIdentifier (ClusterID d) role unixNano) ;;
  if negb (DryRun d)
  then
    result <- orElse (CreateDBInstance (ClusterID d) instanceClass baseIdentifier)
                (fun _ => Log ERROR failText) ;;
    (* Ensure result.DBInstance and result.DBInstance.DBInstanceArn are not nil *)
    match result with
    | None =>
        Log ERROR
          "Failed to retrieve DBInstanceArn from CreateDBInstance response" ;;
        fail ("DBInstanceArn is nil for instance " ++ baseIdentifier)
    | Some instanceArn =>
        (* Tag the new instance to indicate who created it *)
        r <- try (AddTagsToResource instanceArn tagKey "true") ;;
        match r with
        | inr _ => Log ERROR tagFailText
        | inl _ => ret tt
        end ;;
        Log INFO doneText
    end
  else Log INFO dryText.

(** [for i := 0; i < replicasToAdd; i++ { ... }] with [remaining]
    iterations still to run. *)
Fixpoint repeatM (remaining : nat) (body : M unit) : M unit :=
  match remaining with
  | O => ret tt
  | S remaining' => body ;; repeatM remaining' body
  end.

Definition AddReplicas (d : DocumentDB) (replicasToAdd : Z) : M unit :=
  writerInstance <- orElse (GetWriterInstance d)
                      (fun _ => Log ERROR "Failed to get writer instance") ;;
  (* Determine the DBInstanceClass based on INSTANCE_TYPE *)
  let instanceClass :=
    if negb (String.eqb (InstanceType d) "") then InstanceType d
    else DBInstanceClass writerInstance in
  repeatM (Z.to_nat replicasToAdd)
    (createOne d "reader" autoscalerTagKey instanceClass
       "Failed to add replicas" "Failed to tag new read replica"
       "Added read replica" "[Dry Run] Would add read replica").

Definition AddScheduledReplicas (d : DocumentDB) (replicasToAdd : Z) : M unit :=
  instanceClass <-
    (if negb (String.eqb (InstanceType d) "") then ret (InstanceType d)
     else
       writerInstance <- orElse (GetWriterInstance d)
                           (fun _ => Log ERROR "Failed to get writer instance") ;;
       ret (DBInstanceClass writerInstance)) ;;
  repeatM (Z.to_nat replicasToAdd)
    (createOne d "scheduler" schedulerTagKey instanceClass
       "Failed to create scheduled replica" "Failed to tag new scheduled replica"
       "Added scheduled read replica"
       "[Dry Run] Would add scheduled read replica").

Definition available (instance : DBInstance) : bool :=
  String.eqb (DBInstanceStatus instance) "available".

(** The selection loop of [RemoveReplica]. *)
Fixpoint findInstanceToRemove (d : DocumentDB) (writerInstanceIdentifier : string)
    (dbInstances : list DBInstance) : M (option DBInstance) :=
  match dbInstances with
  | [] => ret None
  | instance :: rest =>
      if isWriter writerInstanceIdentifier instance
      then (* Skip the writer instance *)
        findInstanceToRemove d writerInstanceIdentifier rest
      else
        (* Check if the instance has the autoscaler tag *)
        r <- try (HasAutoscalerTag d instance) ;;
        match r with
        | inr _ =>
            Log ERROR "Failed to check autoscaler tag" ;;
            findInstanceToRemove d writerInstanceIdentifier rest
        | inl hasTag =>
            (* Check if the instance is in 'available' state *)
            if negb (available instance)
            then
              Log INFO "Instance is not in 'available' state, skipping" ;;
              findInstanceToRemove d writerInstanceIdentifier rest
            else if hasTag
            then (* Found an instance to remove *) ret (Some instance)
            else findInstanceToRemove d writerInstanceIdentifier rest
        end
  end.

Definition RemoveReplica (d : DocumentDB) : M unit :=
  dbInstances <- orElse (DescribeDBInstances (ClusterID d))
                   (fun _ => Log ERROR "Failed to describe DB instances") ;;
  writerInstanceIdentifier <-
    orElse (GetWriterInstanceIdentifier d)
      (fun _ => Log ERROR "Failed to get writer instance identifier") ;;
  instanceToRemove <-
    findInstanceToRemove d writerInstanceIdentifier dbInstances ;;
  match instanceToRemove with
  | None =>
      Log INFO "No autoscaler-created instances found to remove" ;;
      ret tt (* Nothing to remove *)
  | Some instanceToRemove =>
      (* Remove the instance *)
      if negb (DryRun d)
      then
        orElse (DeleteDBInstance (DBInstanceIdentifier instanceToRemove))
          (fun _ => Log ERROR "Failed to delete read replica") ;;
        Log INFO "Removed read replica"
      else Log INFO "[Dry Run] Would remove read replica"
  end.

Fixpoint RemoveScheduledReplicas (d : DocumentDB) (instances : list DBInstance)
    : M unit :=
  match instances with
  | [] => ret tt
  | instance :: rest =>
      (* Check if the instance is in 'available' state *)
      if negb (available instance)
      then
        Log INFO "Instance is not in 'available' state, skipping" ;;
        RemoveScheduledReplicas d rest
      else
        (* Remove the instance *)
        (if negb (DryRun d)
         then
           orElse (DeleteDBInstance (DBInstanceIdentifier instance))
             (fun _ => Log ERROR "Failed to delete scheduled read replica") ;;
           Log INFO "Removed scheduled read replica"
         else Log INFO "[Dry Run] Would remove scheduled read replica") ;;
        RemoveScheduledReplicas d rest
  end.

(* ================================================================== *)
(** * pkg/autoscaling: reconciler *)

(** The loop of [ExecuteScheduledScalingAction] that collects the instances
    with the scheduler tag. *)
Fixpoint collectScheduled (d : DocumentDB) (readerInstances : list DBInstance)
    (scheduledInstances : list DBInstance) : M (list DBInstance) :=
  match readerInstances with
  | [] => ret scheduledInstances
  | instance :: rest =>
      hasTag <- orElse (HasSchedulerTag d instance)
                  (fun _ => Log ERROR "Failed to check scheduler tag") ;;
      if (hasTag : bool)
      then collectScheduled d rest (scheduledInstances ++ [instance])%list
      else collectScheduled d rest scheduledInstances
  end.

Definition ExecuteScheduledScalingAction (d : DocumentDB) : M unit :=
  Log INFO "Executing scheduled scaling action" ;;
  (* Get current reader instances *)
  readerInstances <- orElse (GetReaderInstances d)
                       (fun _ => Log ERROR "Failed to retrieve reader instances") ;;
  (* Count instances with the scheduler tag *)
  scheduledInstances <- collectScheduled d readerInstances [] ;;
  let currentScheduledReplicas := Z.of_nat (List.length scheduledInstances) in
  Log INFO "Current scheduled replicas" ;;
  (* Determine action based on the presence of scheduled instances *)
  if currentScheduledReplicas >? 0
  then
    (* Scale In: Remove all scheduled instances *)
    Log INFO "Scaling In: Removing scheduled replicas" ;;
    orElse (RemoveScheduledReplicas d scheduledInstances)
      (fun _ => Log ERROR "Failed to remove scheduled replicas") ;;
    (* Send scale-in notification *)
    r <- try (SendScaleInNotification (ClusterID d) currentScheduledReplicas) ;;
    match r with
    | inr _ => Log ERROR "Failed to send scale-in notification"
    | inl _ => ret tt
    end
  else
    (* Scale Out: Add scheduled replicas *)
    let replicasToAdd := ScheduleNumberReplicas d in
    let currentReaders := Z.of_nat (List.length readerInstances) in
    let desiredCapacity := Int64.add currentReaders replicasToAdd in
    (* Enforce MAX_CAPACITY *)
    let overMax := desiredCapacity >? MaxCapacity d in
    let replicasToAdd :=
      if overMax then Int64.sub (MaxCapacity d) currentReaders
      else replicasToAdd in
    if overMax && (replicasToAdd <=? 0)
    then Log INFO "Desired capacity exceeds MAX_CAPACITY. No replicas to add."
    else
      (if overMax
       then Log WARN "Adjusting replicas to add due to MAX_CAPACITY constraint"
       else ret tt) ;;
      (* Enforce MIN_CAPACITY *)
      let underMin := desiredCapacity <? MinCapacity d in
      (if underMin
       then Log INFO
              "Desired capacity is below MIN_CAPACITY. Adjusting to MIN_CAPACITY."
       else ret tt) ;;
      let replicasToAdd :=
        if underMin then Int64.sub (MinCapacity d) currentReaders
        else replicasToAdd in
      Log INFO "Scaling Out: Adding scheduled replicas" ;;
      orElse (AddScheduledReplicas d replicasToAdd)
        (fun _ => Log ERROR "Failed to add scheduled replicas") ;;
      (* Send scale-out notification *)
      r <- try (SendScaleOutNotification (ClusterID d) replicasToAdd) ;;
      match r with
      | inr _ => Log ERROR "Failed to send scale-out notification"
      | inl _ => ret tt
      end.

(** Steps 2 to 4 of [ExecuteMetricBasedScalingAction], for the metric value
    of step 1. *)
Definition scaleToMetric (d : DocumentDB) (currentMetricValue : Q) : M unit :=
  (* Step 2: Retrieve current capacity *)
  currentCapacity <-
    orElse (GetCurrentCapacity d)
      (fun _ => Log ERROR "Failed to retrieve current capacity") ;;
  Log INFO "Retrieved current capacity" ;;
  (* Step 3: Calculate desired capacity *)
  let desiredCapacity :=
    CalculateDesiredCapacity d currentMetricValue currentCapacity in
  Log INFO "Calculated desired capacity" ;;
  (* Step 4: Determine scaling action *)
  if desiredCapacity >? currentCapacity
  then
    (* Scale Out *)
    let replicasToAdd := Int64.sub desiredCapacity currentCapacity in
    Log INFO "Scaling Out" ;;
    orElse (AddReplicas d replicasToAdd)
      (fun _ => Log ERROR "Failed to add replicas") ;;
    (* Send scale-out notification *)
    r <- try (SendScaleOutNotification (ClusterID d) replicasToAdd) ;;
    match r with
    | inr _ => Log ERROR "Failed to send scale-out notification"
    | inl _ => ret tt
    end
  else if desiredCapacity <? currentCapacity
  then
    (* Scale In *)
    let replicasToRemove := 1 in (* Only remove one replica at a time *)
    Log INFO "Scaling In" ;;
    (* Remove the required number of replicas (only 1) *)
    repeatM (Z.to_nat replicasToRemove)
      (orElse (RemoveReplica d)
         (fun _ => Log ERROR "Failed to remove replica")) ;;
    (* Send scale-in notification *)
    r <- try (SendScaleInNotification (ClusterID d) replicasToRemove) ;;
    match r with
    | inr _ => Log ERROR "Failed to send scale-in notification"
    | inl _ => ret tt
    end
  else
    (* No action needed *)
    Log INFO "No scaling action needed".

Definition ExecuteMetricBasedScalingAction (d : DocumentDB) : M unit :=
  (* Step 1: Retrieve current metric value *)
  currentMetricValue <-
    orElse (GetCurrentMetricValue d)
      (fun _ => Log ERROR "Failed to retrieve current metric value") ;;
  Log INFO "Retrieved current metric value" ;;
  scaleToMetric d currentMetricValue.

Definition ExecuteScalingAction (d : DocumentDB) : M unit :=
  if ScheduledScaling d
  then (* Use scheduled scaling logic *) ExecuteScheduledScalingAction d
  else (* Use existing metric-based scaling logic *)
    ExecuteMetricBasedScalingAction d.

(* ================================================================== *)
(** * cmd/lambda: processScaling *)

(** [type ScalingMessage struct] *)
Record ScalingMessage : Type := {
  ScalingType : string;
  NumberReplicas : Z
}.

Definition withSchedule (autoscaler : DocumentDB) (scheduled : bool)
    (numberReplicas : Z) : DocumentDB :=
  {| ClusterID := ClusterID autoscaler;
     MinCapacity := MinCapacity autoscaler;
     MaxCapacity := MaxCapacity autoscaler;
     MetricName := MetricName autoscaler;
     TargetValue := TargetValue autoscaler;
     ScaleInCooldown := ScaleInCooldown autoscaler;
     ScaleOutCooldown := ScaleOutCooldown autoscaler;
     InstanceType := InstanceType autoscaler;
     DryRun := DryRun autoscaler;
     ScheduledScaling := scheduled;
     ScheduleNumberReplicas := numberReplicas |}.

Section Lambda.

(** [json.Unmarshal] into a [ScalingMessage]. *)
Variable jsonUnmarshal : string -> ScalingMessage + error.

(** The autoscaler is passed by pointer and updated in place: the updated
    value is returned with the two counts. *)
Definition processScaling (autoscaler : DocumentDB) (snsMessage : string)
    (maxRetries initialBackoff : Z) : M (DocumentDB * (Z * Z)) :=
  autoscaler <-
    (if negb (String.eqb snsMessage "")
     then
       (* Metric-Based Scaling *)
       match jsonUnmarshal snsMessage with
       | inr err =>
           Log ERROR "Failed to parse scaling message" ;;
           fail err
       | inl scalingMessage =>
           Log INFO "Parsed Scaling Message from SNS" ;;
           (* Update autoscaler settings based on SNS message *)
           ret (withSchedule autoscaler false (NumberReplicas scalingMessage))
       end
     else
       (* Scheduled Scaling *)
       Log INFO "Executing Scheduled Scaling" ;;
       ret autoscaler) ;;
  (* Determine desired action based on scaling settings *)
  let replicasToAdd :=
    if ScheduleNumberReplicas autoscaler >? 0
    then ScheduleNumberReplicas autoscaler else 0 in
  let replicasToRemove :=
    if ScheduleNumberReplicas autoscaler >? 0 then 0
    else if ScheduleNumberReplicas autoscaler <? 0
         then Z.abs (ScheduleNumberReplicas autoscaler) else 0 in
  (* Execute scaling action with retry logic *)
  orElse (executeWithRetry (ExecuteScalingAction autoscaler) maxRetries
            initialBackoff)
    (fun _ => Log ERROR "Scaling action failed after retries") ;;
  (* Determine if additions or removals were performed *)
  (if (replicasToAdd >? 0) && DryRun autoscaler
   then Log INFO "Dry Run: Would add read replicas" else ret tt) ;;
  (if (replicasToRemove >? 0) && DryRun autoscaler
   then Log INFO "Dry Run: Would remove read replicas" else ret tt) ;;
  ret (autoscaler, (replicasToAdd, replicasToRemove)).

End Lambda.

(* ================================================================== *)
(** * Derived views of a world *)

(** The writer as [GetWriterInstanceIdentifier] finds it: the first member
    of the first cluster flagged as the writer. *)
Definition writerOf (dir : Directory) : option string :=
  match clusters dir with
  | [] => None
  | dbCluster :: _ =>
      option_map MemberInstanceIdentifier
        (find IsClusterWriter (DBClusterMembers dbCluster))
  end.

Definition readersOf (writerInstanceIdentifier : string) (dir : Directory)
    : list DBInstance :=
  filter (fun instance => negb (isWriter writerInstanceIdentifier instance))
    (instances dir).

Definition readerCount (writerInstanceIdentifier : string) (dir : Directory)
    : Z :=
  Z.of_nat (List.length (readersOf writerInstanceIdentifier dir)).

(** The tag of the mode in which [d] runs, and the role in the identifiers
    it creates. *)
Definition modeTagKey (d : DocumentDB) : string :=
  if ScheduledScaling d then schedulerTagKey else autoscalerTagKey.

Definition modeRole (d : DocumentDB) : string :=
  if ScheduledScaling d then "scheduler" else "reader".

Definition owned (key : string) (dir : Directory) (instance : DBInstance)
    : bool :=
  hasTag key (tagsOf dir (DBInstanceArn instance)).

(** Kinds of calls. *)
Definition isCreate (c : Call) : bool :=
  match c with CreateDBInstanceCall _ _ _ => true | _ => false end.

Definition isDelete (c : Call) : bool :=
  match c with DeleteDBInstanceCall _ => true | _ => false end.

Definition isTagWrite (c : Call) : bool :=
  match c with AddTagsToResourceCall _ _ _ => true | _ => false end.

Definition isPublish (c : Call) : bool :=
  match c with PublishCall _ => true | _ => false end.

Definition isMutation (c : Call) : bool :=
  isCreate c || isDelete c || isTagWrite c.

(** The directory after a sequence of answered calls. *)
Definition replay (new : list (Call * Reply)) (dir : Directory) : Directory :=
  fold_left (fun dir cr => effect (fst cr) (snd cr) dir) new dir.

(** The replies a sequence of calls takes from a plan, and the plan left. *)
Inductive consumed : list Reply -> list (Call * Reply) -> list Reply -> Prop :=
| consumed_nil (p : list Reply) : consumed p [] p
| consumed_cons (p : list Reply) (c : Call) (new : list (Call * Reply))
    (p' : list Reply) :
    consumed (tl p) new p' ->
    consumed p ((c, hd Succeed p) :: new) p'.

(** The calls issued between two worlds. *)
Definition issued (w w' : World) (new : list (Call * Reply)) : Prop :=
  calls w' = (calls w ++ new)%list /\
  directory w' = replay new (directory w) /\
  slept w' = slept w /\
  consumed (plan w) new (plan w').

(** No call of the trace failed. *)
Definition faultless (new : list (Call * Reply)) : Prop :=
  Forall (fun cr => snd cr = Succeed) new.

(** The error of [executeWithRetry] when every attempt has failed. *)
Definition exhaustedError (maxRetries : Z) : error :=
  "scaling action failed after " ++ itoa maxRetries ++ " attempts".

(** The backoff of [executeWithRetry] after one more failure, and the
    sleeps of [n] failed attempts in a row. *)
Definition nextBackoff (backoff : Z) : Z :=
  let backoff := Int64.mul backoff 2 in
  if backoff >? Int64.mul 32 Duration.Second
  then Int64.mul 32 Duration.Second
  else backoff.

Fixpoint backoffs (n : nat) (backoff : Z) : list Z :=
  match n with
  | O => []
  | S n' => backoff :: backoffs n' (nextBackoff backoff)
  end.

(** An action that always fails, leaving one call in the trace each time it
    runs. *)
Definition alwaysFailing : M unit :=
  _ <- request (DescribeDBClustersCall "probe") ;;
  fail "boom".

Definition emptyDirectory : Directory :=
  {| instances := []; clusters := []; tags := []; datapoints := [] |}.

Definition wallClock (n : nat) : Z := 1730000000123456789 + Z.of_nat n.

Definition mkWorld (dir : Directory) (replies : list Reply) : World :=
  {| directory := dir; clock := wallClock; clockReads := 0;
     plan := replies; calls := []; slept := []; logged := [] |}.

(** ** Shapes of a trace *)

(** Every call of the trace satisfies [ok]. *)
Definition only (ok : Call -> Prop) (new : list (Call * Reply)) : Prop :=
  Forall (fun cr => ok (fst cr)) new.

Definition creates (new : list (Call * Reply)) : nat :=
  List.length (filter (fun cr => isCreate (fst cr)) new).

Definition deletes (new : list (Call * Reply)) : nat :=
  List.length (filter (fun cr => isDelete (fst cr)) new).

Definition describeCall (c : Call) : Prop :=
  match c with
  | DescribeDBInstancesCall _ | DescribeDBClustersCall _ => True
  | _ => False
  end.

Definition metricCall (c : Call) : Prop :=
  match c with
  | GetMetricStatisticsCall _ _ => True
  | _ => False
  end.

Definition listTagsCall (c : Call) : Prop :=
  match c with
  | ListTagsForResourceCall _ => True
  | _ => False
  end.

Definition readCall (c : Call) : Prop :=
  describeCall c \/ metricCall c \/ listTagsCall c.

(** A notification of a scale-out or of a scale-in of the cluster. *)
Definition scaleNotification (d : DocumentDB) (c : Call) : Prop :=
  exists n : Z,
    c = PublishCall ("Scaled out cluster " ++ ClusterID d ++ " by adding "
                       ++ itoa n ++ " replicas.")
    \/ c = PublishCall ("Scaled in cluster " ++ ClusterID d ++ " by removing "
                          ++ itoa n ++ " replicas.").

(** A create of a new instance of the cluster under a generated identifier,
    or the write of an ownership tag; neither is issued under dry-run. *)
Definition creationCall (d : DocumentDB) (role tagKey : string) (c : Call)
    : Prop :=
  DryRun d = false /\
  match c with
  | CreateDBInstanceCall cluster _ identifier =>
      cluster = ClusterID d /\
      exists unixNano, newIdentifier (ClusterID d) role unixNano = Ok identifier
  | AddTagsToResourceCall _ key value => key = tagKey /\ value = "true"
  | _ => False
  end.

(** A delete of a reader of [dir] that is available and carries the tag
    [tagKey] with value "true"; not issued under dry-run. *)
Definition removalCall (d : DocumentDB) (tagKey : string) (dir : Directory)
    (c : Call) : Prop :=
  DryRun d = false /\
  exists writerInstanceIdentifier instance,
    c = DeleteDBInstanceCall (DBInstanceIdentifier instance) /\
    writerOf dir = Some writerInstanceIdentifier /\
    In instance (readersOf writerInstanceIdentifier dir) /\
    available instance = true /\
    owned tagKey dir instance = true.

Definition mutations (new : list (Call * Reply)) : list (Call * Reply) :=
  filter (fun cr => isMutation (fst cr)) new.

Definition publications (new : list (Call * Reply)) : list (Call * Reply) :=
  filter (fun cr => isPublish (fst cr)) new.

(** The reader [RemoveReplica] picks when every tag read succeeds: the
    first one, in listing order, that is available and carries the
    autoscaler tag. *)
Definition removable (writerInstanceIdentifier : string) (dir : Directory)
    : option DBInstance :=
  find (fun instance =>
          available instance && owned autoscalerTagKey dir instance)
    (readersOf writerInstanceIdentifier dir).

(** The number of replicas a scheduled scale-out asks for, from the current
    number of readers (the arithmetic of [ExecuteScheduledScalingAction]). *)
Definition scheduledReplicas (d : DocumentDB) (currentReaders : Z) : Z :=
  let replicasToAdd := ScheduleNumberReplicas d in
  let desiredCapacity := Int64.add currentReaders replicasToAdd in
  let overMax := desiredCapacity >? MaxCapacity d in
  let replicasToAdd :=
    if overMax then Int64.sub (MaxCapacity d) currentReaders
    else replicasToAdd in
  if overMax && (replicasToAdd <=? 0) then 0
  else if desiredCapacity <? MinCapacity d
       then Int64.sub (MinCapacity d) currentReaders
       else replicasToAdd.

(** What a function does when it starts from the directory [dir], as a
    relation between its outcome and the calls it issues. *)
Definition tracesFrom {A} (dir : Directory) (m : M A)
    (P : Outcome A -> list (Call * Reply) -> Prop) : Prop :=
  forall w, directory w = dir ->
    exists new, issued w (snd (m w)) new /\ P (fst (m w)) new.

Definition traces {A} (m : M A)
    (P : Directory -> Outcome A -> list (Call * Reply) -> Prop) : Prop :=
  forall dir, tracesFrom dir m (P dir).

(** The outcome of a single call [c] whose successful result is [value]. *)
Definition answered {A} (c : Call) (value : Reply -> A)
    (out : Outcome A) (new : list (Call * Reply)) : Prop :=
  exists r, new = [(c, r)] /\
    match r with
    | Fail e => out = Err e
    | _ => out = Ok (value r)
    end.

(** The instances the selection loop of [RemoveReplica] may pick. *)
Definition selectable (d : DocumentDB) (wid : string) (dir : Directory)
    (instance : DBInstance) : bool :=
  negb (isWriter wid instance)
  && (available instance && owned autoscalerTagKey dir instance).

(** What the selection loop of [RemoveReplica] returns. *)
Definition selects (d : DocumentDB) (wid : string)
    (dbInstances : list DBInstance) (dir : Directory)
    (out : Outcome (option DBInstance)) (new : list (Call * Reply)) : Prop :=
  only listTagsCall new /\
  exists o, out = Ok o /\
    (forall i, o = Some i ->
       In i dbInstances /\ selectable d wid dir i = true) /\
    (faultless new -> o = find (selectable d wid dir) dbInstances).

(** What [RemoveReplica] does. *)
Definition removesOne (d : DocumentDB) (dir : Directory) (out : Outcome unit)
    (new : list (Call * Reply)) : Prop :=
  only (fun c => readCall c \/ removalCall d autoscalerTagKey dir c) new /\
  (deletes new <= 1)%nat /\
  creates new = 0%nat /\
  publications new = [] /\
  (faultless new -> forall wid, writerOf dir = Some wid ->
     out = Ok tt /\
     mutations new =
       match removable wid dir with
       | Some i =>
           if DryRun d then []
           else [(DeleteDBInstanceCall (DBInstanceIdentifier i), Succeed)]
       | None => []
       end).

(** A failed tag read is the error of the invocation. *)
Definition tagFailuresSurface {A} (out : Outcome A)
    (new : list (Call * Reply)) : Prop :=
  forall resourceName e,
    In (ListTagsForResourceCall resourceName, Fail e) new -> out = Err e.

(** The calls an invocation in the mode of [d] may issue from [dir]. *)
Definition allowedCall (d : DocumentDB) (dir : Directory) (c : Call) : Prop :=
  readCall c \/
  creationCall d (modeRole d) (modeTagKey d) c \/
  removalCall d (modeTagKey d) dir c \/
  scaleNotification d c.

Definition scaleInMessage (d : DocumentDB) (n : Z) : string :=
  "Scaled in cluster " ++ ClusterID d ++ " by removing "
    ++ itoa n ++ " replicas.".

Definition scaleOutMessage (d : DocumentDB) (n : Z) : string :=
  "Scaled out cluster " ++ ClusterID d ++ " by adding "
    ++ itoa n ++ " replicas.".

(** The readers of [dir] that carry the scheduler tag. *)
Definition scheduledReaders (wid : string) (dir : Directory)
    : list DBInstance :=
  filter (owned schedulerTagKey dir) (readersOf wid dir).

(** How many creates and deletes a scheduled invocation issues. *)
Definition scheduledCounts (d : DocumentDB) (dir : Directory)
    (new : list (Call * Reply)) : Prop :=
  (creates new = 0%nat /\
   (deletes new = 0%nat \/
    exists wid, writerOf dir = Some wid /\ scheduledReaders wid dir <> []))
  \/
  (deletes new = 0%nat /\
   exists wid, writerOf dir = Some wid /\
     (creates new <= Z.to_nat (scheduledReplicas d (readerCount wid dir)))%nat).

(** How many creates and deletes a metric invocation issues for the metric
    value [m]. *)
Definition metricCounts (d : DocumentDB) (m : Q) (dir : Directory)
    (new : list (Call * Reply)) : Prop :=
  (creates new = 0%nat /\ deletes new = 0%nat)
  \/
  exists wid, writerOf dir = Some wid /\
    let cur := readerCount wid dir in
    let desired := CalculateDesiredCapacity d m cur in
    (desired > cur /\ deletes new = 0%nat /\
     (creates new <= Z.to_nat (Int64.sub desired cur))%nat)
    \/
    (desired < cur /\ creates new = 0%nat /\ (deletes new <= 1)%nat).

(** A metric scale-in when no call fails. *)
Definition metricScaleIn (d : DocumentDB) (m : Q) (dir : Directory)
    (out : Outcome unit) (new : list (Call * Reply)) : Prop :=
  faultless new ->
  forall wid, writerOf dir = Some wid ->
    CalculateDesiredCapacity d m (readerCount wid dir) < readerCount wid dir ->
    out = Ok tt /\
    mutations new =
      match removable wid dir with
      | Some i =>
          if DryRun d then []
          else [(DeleteDBInstanceCall (DBInstanceIdentifier i), Succeed)]
      | None => []
      end /\
    publications new = [(PublishCall (scaleInMessage d 1), Succeed)].

(** What a scheduled invocation does. *)
Definition scheduledRun (d : DocumentDB) (dir : Directory)
    (out : Outcome unit) (new : list (Call * Reply)) : Prop :=
  only (allowedCall d dir) new /\
  tagFailuresSurface out new /\
  scheduledCounts d dir new.

(** No tag read of the trace failed. *)
Definition tagReadsOk (new : list (Call * Reply)) : Prop :=
  forall resourceName e,
    ~ In (ListTagsForResourceCall resourceName, Fail e) new.

(** The trace of a notification. *)
Definition notified (message : string) (out : Outcome unit)
    (new : list (Call * Reply)) : Prop :=
  out = Ok tt /\ exists r, new = [(PublishCall message, r)].

(** What steps 2 to 4 of a metric invocation do for the metric value [m]. *)
Definition metricRun (d : DocumentDB) (m : Q) (dir : Directory)
    (out : Outcome unit) (new : list (Call * Reply)) : Prop :=
  only (allowedCall d dir) new /\
  metricCounts d m dir new /\
  metricScaleIn d m dir out new.

(** What one invocation does, in either mode. *)
Definition reconciles (d : DocumentDB) (dir : Directory) (out : Outcome unit)
    (new : list (Call * Reply)) : Prop :=
  only (allowedCall d dir) new /\
  if ScheduledScaling d
  then tagFailuresSurface out new /\ scheduledCounts d dir new
  else exists m, metricCounts d m dir new.

(** A configuration whose bounds make sense as 64-bit counts. *)
Definition sane (d : DocumentDB) : Prop :=
  0 <= MinCapacity d /\
  MaxCapacity d <= Int64.MaxInt64 /\
  Int64.in_range (ScheduleNumberReplicas d).

(** The writer instance as [GetWriterInstance] finds it. *)
Definition writerInstanceOf (wid : string) (dir : Directory)
    : option DBInstance :=
  find (isWriter wid) (instances dir).

(* ================================================================== *)
(** * Scenarios *)

Definition writerNode : DBInstance :=
  {| DBInstanceIdentifier := "writer-instance";
     DBInstanceArn := "arn:aws:docdb:region:account-id:db:writer-instance";
     DBInstanceClass := "db.r6g.large";
     DBInstanceStatus := "available" |}.

Definition readerNode (identifier : string) : DBInstance :=
  {| DBInstanceIdentifier := identifier;
     DBInstanceArn := "arn:aws:docdb:region:account-id:db:" ++ identifier;
     DBInstanceClass := "db.r6g.large";
     DBInstanceStatus := "available" |}.

Definition memberOf (isWriter : bool) (i : DBInstance) : DBClusterMember :=
  {| MemberInstanceIdentifier := DBInstanceIdentifier i;
     IsClusterWriter := isWriter |}.

(** A cluster "test-cluster" with [writerNode] and the given readers. *)
Definition clusterOf (readers : list DBInstance)
    (tagTable : list (string * list Tag))
    (points : list (string * list Datapoint)) : Directory :=
  {| instances := readers ++ [writerNode];
     clusters :=
       [{| DBClusterIdentifier := "test-cluster";
           DBClusterMembers :=
             memberOf true writerNode :: map (memberOf false) readers |}];
     tags := tagTable;
     datapoints := points |}.

Definition testConfig (scheduled dry : bool) : DocumentDB :=
  {| ClusterID := "test-cluster"; MinCapacity := 1; MaxCapacity := 5;
     MetricName := "CPUUtilization"; TargetValue := 50;
     ScaleInCooldown := 300; ScaleOutCooldown := 300; InstanceType := "";
     DryRun := dry; ScheduledScaling := scheduled;
     ScheduleNumberReplicas := 2 |}.

Definition tagTrue (key : string) : Tag := {| Key := key; Value := "true" |}.

(** The scale-in scenario of the repository's test: the writer and one
    available reader that carries the scheduler tag. *)
Definition scheduledScaleInWorld : World :=
  mkWorld
    (clusterOf [readerNode "scheduled-replica-1"]
       [(DBInstanceArn (readerNode "scheduled-replica-1"),
         [tagTrue schedulerTagKey])]
       [])
    [].

(** The calls answered between two worlds and their effect on the
    directory, whatever else happened (sleeps, log records). *)
Definition extends (w w' : World) (new : list (Call * Reply)) : Prop :=
  calls w' = (calls w ++ new)%list /\
  directory w' = replay new (directory w).

(** The calls the engine may issue under the configuration [d], from any
    directory: reads, scale notifications and, unless dry-run is set,
    changes. *)
Definition permitted (d : DocumentDB) (c : Call) : Prop :=
  readCall c \/ scaleNotification d c \/
  (DryRun d = false /\ isMutation c = true).

(** The text of a failure notification. *)
Definition failureMessage (clusterID errorMessage action : string) : string :=
  "Failed to " ++ action ++ " on cluster " ++ clusterID ++ ": "
    ++ errorMessage.

(** Two readers without any ownership tag, both reporting a low metric. *)
Definition lowPoints (identifiers : list string)
    : list (string * list Datapoint) :=
  map (fun identifier =>
         (identifier, [{| Timestamp := 1730000000; Average := Some 10%Q |}]))
    identifiers.

Definition untaggedWorld : World :=
  mkWorld
    (clusterOf [readerNode "replica-1"; readerNode "replica-2"] []
       (lowPoints ["replica-1"; "replica-2"]))
    [].

(** Two readers that carry the autoscaler tag, both reporting a low metric;
    the ninth call of the invocation (the tag read on the first reader)
    fails. *)
Definition throttledTagReadWorld : World :=
  mkWorld
    (clusterOf [readerNode "replica-1"; readerNode "replica-2"]
       [(DBInstanceArn (readerNode "replica-1"), [tagTrue autoscalerTagKey]);
        (DBInstanceArn (readerNode "replica-2"), [tagTrue autoscalerTagKey])]
       (lowPoints ["replica-1"; "replica-2"]))
    (repeat Succeed 8 ++ [Fail "ThrottlingException"]).

(** Every call [m] issues, from any world, satisfies [ok], and a value it
    returns satisfies [V]. *)
Definition reaches {A} (m : M A) (ok : Call -> Prop) (V : A -> Prop) : Prop :=
  forall w, exists new,
    extends w (snd (m w)) new /\ only ok new /\
    forall a, fst (m w) = Ok a -> V a.

(** The scheduled world in which the service rejects every call of three
    attempts in a row. *)
Definition unreachableWorld : World :=
  mkWorld (clusterOf [] [] []) (repeat (Fail "AccessDenied") 3).

(** A scheduled world whose third call, the tag read on the reader, fails. *)
Definition scheduledThrottledWorld : World :=
  mkWorld (clusterOf [readerNode "replica-1"] [] [])
    [Succeed; Succeed; Fail "ThrottlingException"].

(** A stand-in for [json.Unmarshal] that rejects every message. *)
Definition rejectJSON (message : string) : ScalingMessage + error :=
  inr "invalid character".

(** Cluster identifiers outside AWS's own rules, as the environment
    variable CLUSTER_IDENTIFIER may hold them. *)
Definition underscoreCluster : string := "db___x".

Definition digitCluster : string :=
  "9-lives-documentdb-cluster-for-the-analytics-platform-production".

Definition hyphenCluster : string :=
  "---------------------------------------------------------------".

(** A string on which the sanitizer has nothing to repair but trailing
    hyphens. *)
Definition wellShaped (s : string) : bool :=
  startsWithLetter s &&
  allBytes isValidDBInstanceIdentifierChar s &&
  noDoubleHyphen s.

Definition isDigit (ch : Z) : bool := (48 <=? ch) && (ch <=? 57).

Definition startsWithHyphen (s : string) : bool :=
  match s with
  | String a _ => Ascii.eqb a hyphen
  | EmptyString => false
  end.

(* ================================================================== *)
(** * Further views and scenarios *)

(** The [i]-th sleep of [executeWithRetry]: the initial backoff as it is,
    then its doublings under the cap of 32 seconds. *)
Definition backoffAt (initialBackoff : Z) (i : nat) : Z :=
  match i with
  | O => initialBackoff
  | S _ => Z.min (initialBackoff * 2 ^ Z.of_nat i) (32 * Duration.Second)
  end.

(** An action made of one call: it fails when the service fails. *)
Definition probe : M unit :=
  _ <- request (DescribeDBClustersCall "probe") ;;
  ret tt.

(** A cluster identifier of 63 characters, the longest AWS accepts. *)
Definition longCluster : string :=
  "analytics-platform-production-documentdb-cluster-eu-central-1-a".

(** The datapoints CloudWatch holds for an instance. *)
Definition datapointsOf (dir : Directory) (instanceID : string)
    : list Datapoint :=
  match lookup instanceID (datapoints dir) with
  | Some l => l
  | None => []
  end.

Definition noDatapoints (dir : Directory) (instance : DBInstance) : bool :=
  match datapointsOf dir (DBInstanceIdentifier instance) with
  | [] => true
  | _ => false
  end.

(** [p] is one of [points] and none of them is later. *)
Definition latestOf (points : list Datapoint) (p : Datapoint) : Prop :=
  In p points /\ forall q, In q points -> Timestamp q <= Timestamp p.

(** Datapoints in the order of their timestamps. *)
Fixpoint ascending (l : list Datapoint) : Prop :=
  match l with
  | [] => True
  | p :: rest =>
      Forall (fun q => Timestamp p <= Timestamp q) rest /\ ascending rest
  end.

(** The metric reads of [GetCurrentMetricValue], one per reader. *)
Definition metricReads (d : DocumentDB) (readerInstances : list DBInstance)
    : list Call :=
  map (fun instance =>
         GetMetricStatisticsCall (MetricName d) (DBInstanceIdentifier instance))
    readerInstances.

(** The sum [GetCurrentMetricValue] accumulates over the datapoints it
    picked, in the order of the loop. *)
Definition sumAverages (picks : list Datapoint) (totalMetric : Q) : Q :=
  fold_left (fun acc p => (acc + ToFloat64 (Average p))%Q) picks totalMetric.

(** A world with two readers whose metric has two datapoints each, the
    later one given first. *)
Definition twoPoints (earlier later : Q) : list Datapoint :=
  [{| Timestamp := 1730000300; Average := Some later |};
   {| Timestamp := 1730000000; Average := Some earlier |}].

Definition meteredWorld : World :=
  mkWorld
    (clusterOf [readerNode "replica-1"; readerNode "replica-2"] []
       [("replica-1", twoPoints 10 70); ("replica-2", twoPoints 20 90)])
    [].

(** A cluster that has lost all its readers. *)
Definition readerlessWorld (replies : list Reply) : World :=
  mkWorld (clusterOf [] [] []) replies.

(** What the loop of [GetCurrentMetricValue] returns when no call fails:
    the error of the first reader without datapoints, or the sum over the
    latest datapoint of each reader. *)
Definition sumsLatest (d : DocumentDB) (readerInstances : list DBInstance)
    (totalMetric : Q) (dir : Directory) (out : Outcome Q)
    (new : list (Call * Reply)) : Prop :=
  only metricCall new /\
  (forall msg, out <> Panic msg) /\
  (faultless new ->
   match find (noDatapoints dir) readerInstances with
   | Some instance =>
       out = Err ("no datapoints found for instance "
                    ++ DBInstanceIdentifier instance)
   | None =>
       map fst new = metricReads d readerInstances /\
       exists picks,
         Forall2 (fun instance p =>
                    latestOf (datapointsOf dir (DBInstanceIdentifier instance)) p)
           readerInstances picks /\
         out = Ok (sumAverages picks totalMetric)
   end).

(** What [GetCurrentMetricValue] returns when no call fails, for the
    readers it found. *)
Definition averagesLatest (d : DocumentDB) (readerInstances : list DBInstance)
    (dir : Directory) (out : Outcome Q) (metricCalls : list (Call * Reply))
    : Prop :=
  match readerInstances with
  | [] => out = Err "no reader instances found" /\ metricCalls = []
  | _ =>
      match find (noDatapoints dir) readerInstances with
      | Some instance =>
          out = Err ("no datapoints found for instance "
                       ++ DBInstanceIdentifier instance)
      | None =>
          map fst metricCalls = metricReads d readerInstances /\
          exists picks,
            Forall2 (fun instance p =>
                       latestOf
                         (datapointsOf dir (DBInstanceIdentifier instance)) p)
              readerInstances picks /\
            out = Ok (sumAverages picks 0
                        / Float64.of_int
                            (Z.of_nat (List.length readerInstances)))%Q
      end
  end.

(** What [GetCurrentMetricValue] does: the two describe calls of
    [GetReaderInstances], then the metric reads. *)
Definition readsMetric (d : DocumentDB) (dir : Directory) (out : Outcome Q)
    (new : list (Call * Reply)) : Prop :=
  exists n1 n2, new = (n1 ++ n2)%list /\
    only describeCall n1 /\ only metricCall n2 /\
    (forall msg, out <> Panic msg) /\
    (forall v, out = Ok v ->
       exists wid, writerOf dir = Some wid /\ readersOf wid dir <> []) /\
    (faultless new -> forall wid, writerOf dir = Some wid ->
       averagesLatest d (readersOf wid dir) dir out n2).

(** No reply still to come is a failure. *)
Definition calm (w : World) : Prop := Forall (fun r => r = Succeed) (plan w).

(** The world after the service has accepted the call [c]. *)
Definition served (c : Call) (w : World) : World :=
  {| directory := effect c Succeed (directory w); clock := clock w;
     clockReads := clockReads w; plan := tl (plan w);
     calls := calls w ++ [(c, Succeed)]; slept := slept w;
     logged := logged w |}.

(** The identifier built from the [k]-th reading of the clock. *)
Definition identifierAt (d : DocumentDB) (role : string) (w : World) (k : nat)
    : string :=
  match newIdentifier (ClusterID d) role (clock w k) with
  | Ok identifier => identifier
  | _ => EmptyString
  end.

(** Every reading of the clock gives an identifier (none is too short, and
    the cluster identifier is not made of hyphens only). *)
Definition clockGivesIdentifiers (d : DocumentDB) (role : string) (w : World)
    : Prop :=
  forall k, exists identifier,
    newIdentifier (ClusterID d) role (clock w k) = Ok identifier.

(** The two calls that create an instance and tag it. *)
Definition creationOf (d : DocumentDB) (tagKey instanceClass identifier : string)
    : list (Call * Reply) :=
  [(CreateDBInstanceCall (ClusterID d) instanceClass identifier, Succeed);
   (AddTagsToResourceCall (arnOf identifier) tagKey "true", Succeed)].

(** The identifiers of [n] instances created in a row from the world [w],
    and the calls that create and tag them. *)
Definition identifiersFrom (d : DocumentDB) (role : string) (w : World)
    (n : nat) : list string :=
  map (identifierAt d role w) (seq (clockReads w) n).

Definition creationsOf (d : DocumentDB) (role tagKey instanceClass : string)
    (w : World) (n : nat) : list (Call * Reply) :=
  flat_map (creationOf d tagKey instanceClass) (identifiersFrom d role w n).

(** The instance class [AddReplicas] and [AddScheduledReplicas] give a new
    instance: INSTANCE_TYPE if it is set, the class of the writer
    otherwise. *)
Definition classFor (d : DocumentDB) (writerInstance : DBInstance) : string :=
  if String.eqb (InstanceType d) "" then DBInstanceClass writerInstance
  else InstanceType d.

(** The two describe calls of [GetWriterInstance] and of
    [GetReaderInstances]. *)
Definition describesOf (d : DocumentDB) : list (Call * Reply) :=
  [(DescribeDBInstancesCall (ClusterID d), Succeed);
   (DescribeDBClustersCall (ClusterID d), Succeed)].

(** From [w] to [w']: the calls [new] were all accepted, the clock was read
    [reads] times, and nothing else changed but the log. *)
Definition advanced (w w' : World) (reads : nat) (new : list (Call * Reply))
    : Prop :=
  calls w' = (calls w ++ new)%list /\
  directory w' = replay new (directory w) /\
  slept w' = slept w /\
  clock w' = clock w /\
  clockReads w' = (clockReads w + reads)%nat /\
  plan w' = skipn (List.length new) (plan w).

(** The world after the service has refused the call [c] with error [e]. *)
Definition refused (c : Call) (e : error) (w : World) : World :=
  {| directory := directory w; clock := clock w;
     clockReads := clockReads w; plan := tl (plan w);
     calls := calls w ++ [(c, Fail e)]; slept := slept w;
     logged := logged w |}.

(** The delete calls of [RemoveScheduledReplicas] for a list of instances:
    one for each instance that is available, in the order of the list. *)
Definition removalsOf (instances : list DBInstance) : list Call :=
  map (fun instance => DeleteDBInstanceCall (DBInstanceIdentifier instance))
    (filter available instances).

(** What [RemoveScheduledReplicas] does without dry-run: it walks through
    the delete calls of the list and stops at the first one refused. *)
Definition removesInOrder (instances : list DBInstance) (out : Outcome unit)
    (new : list (Call * Reply)) : Prop :=
  (exists rest, removalsOf instances = (map fst new ++ rest)%list) /\
  (forall msg, out <> Panic msg) /\
  (out = Ok tt -> map fst new = removalsOf instances) /\
  (forall e, out = Err e ->
     exists done c, new = (done ++ [(c, Fail e)])%list) /\
  (faultless new -> out = Ok tt).

(** The scale-in scenario with a second scheduled reader that is still
    being created. *)
Definition creatingNode (identifier : string) : DBInstance :=
  {| DBInstanceIdentifier := identifier;
     DBInstanceArn := "arn:aws:docdb:region:account-id:db:" ++ identifier;
     DBInstanceClass := "db.r6g.large";
     DBInstanceStatus := "creating" |}.

(** At most one notification, as the last call of an invocation that
    returns without error. *)
Definition notifiesLast (out : Outcome unit) (new : list (Call * Reply))
    : Prop :=
  publications new = [] \/
  (out = Ok tt /\
   exists before message r,
     new = (before ++ [(PublishCall message, r)])%list /\
     publications before = []).

(** [m] runs from [w] without error: it returns [value], reads the clock
    [reads] times and issues the calls [new], all accepted. *)
Definition runs {A} (m : M A) (w : World) (value : A) (reads : nat)
    (new : list (Call * Reply)) : Prop :=
  fst (m w) = Ok value /\ advanced w (snd (m w)) reads new.

(** Calls, all accepted. *)
Definition accepted (cs : list Call) : list (Call * Reply) :=
  map (fun c => (c, Succeed)) cs.

(** The tag reads of a pass over [instances], one each. *)
Definition tagReadsOf (instances : list DBInstance) : list Call :=
  map (fun instance => ListTagsForResourceCall (DBInstanceArn instance))
    instances.

(** Whether a scheduled scale-out finds the cluster at its maximum (the
    test of [ExecuteScheduledScalingAction] that ends it without adding). *)
Definition atMaximum (d : DocumentDB) (currentReaders : Z) : bool :=
  (Int64.add currentReaders (ScheduleNumberReplicas d) >? MaxCapacity d)
  && (Int64.sub (MaxCapacity d) currentReaders <=? 0).

(** The value the loop of [GetCurrentMetricValue] takes from a reader: the
    average of the latest of its datapoints. *)
Definition latestAverage (dir : Directory) (instance : DBInstance) : Q :=
  match datapointsOf dir (DBInstanceIdentifier instance) with
  | [] => 0%Q
  | p :: rest => ToFloat64 (Average (last (sortDatapoints (p :: rest)) p))
  end.

Definition sumLatest (dir : Directory) (readerInstances : list DBInstance)
    (totalMetric : Q) : Q :=
  fold_left (fun acc instance => (acc + latestAverage dir instance)%Q)
    readerInstances totalMetric.

(** The metric [GetCurrentMetricValue] reports over these readers. *)
Definition metricOver (dir : Directory) (readerInstances : list DBInstance)
    : Q :=
  (sumLatest dir readerInstances 0
     / Float64.of_int (Z.of_nat (List.length readerInstances)))%Q.

(** Every reader has at least one datapoint. *)
Definition allMetered (dir : Directory) (readerInstances : list DBInstance)
    : Prop :=
  Forall (fun instance =>
            datapointsOf dir (DBInstanceIdentifier instance) <> [])
    readerInstances.

(** The next [n] replies of the plan are all [Succeed]. *)
Definition quietFor (n : nat) (w : World) : Prop :=
  exists rest, plan w = (repeat Succeed n ++ rest)%list.

(** [m] returns the error [e] from [w], after the calls [new] and [reads]
    readings of the clock. *)
Definition fails {A} (m : M A) (w : World) (e : error) (reads : nat)
    (new : list (Call * Reply)) : Prop :=
  fst (m w) = Err e /\ advanced w (snd (m w)) reads new.

(** The describe calls by which [AddScheduledReplicas] learns the class of
    the writer, when INSTANCE_TYPE does not name one. *)
Definition classReads (d : DocumentDB) : list (Call * Reply) :=
  if String.eqb (InstanceType d) "" then describesOf d else [].

(* ================================================================== *)
(** * cmd/lambda: the handlers *)

(** [autoscaling.NewDocumentDB].  The clients, the notifier and the logger
    it stores are the world of the monad. *)
Definition NewDocumentDB (clusterID : string) (minCapacity maxCapacity : Z)
    (metricName : string) (targetValue : Q)
    (scaleInCooldown scaleOutCooldown : Z) (instanceType : string)
    (dryRun : bool) (scheduledScaling : bool) (scheduleNumberReplicas : Z)
    : DocumentDB :=
  {| ClusterID := clusterID;
     MinCapacity := minCapacity;
     MaxCapacity := maxCapacity;
     MetricName := metricName;
     TargetValue := targetValue;
     ScaleInCooldown := scaleInCooldown;
     ScaleOutCooldown := scaleOutCooldown;
     InstanceType := instanceType;
     DryRun := dryRun;
     ScheduledScaling := scheduledScaling;
     ScheduleNumberReplicas := scheduleNumberReplicas |}.

(** [events.SNSEvent] and [events.CloudWatchEvent], the fields the handlers
    read. *)
Record SNSEntity : Type := {
  MessageID : string;
  Subject : string;
  Message : string
}.

Record SNSEventRecord : Type := { SNS : SNSEntity }.

Record SNSEvent : Type := { Records : list SNSEventRecord }.

Record CloudWatchEvent : Type := { Source : string }.

Section Handlers.

(** [os.Getenv]: the value of a variable, empty when it is not set. *)
Variable Getenv : string -> string.

(** The error of [config.LoadDefaultConfig], if it returns one. *)
Variable LoadDefaultConfig : option error.

(** [strconv.Atoi], [strconv.ParseBool] and [strconv.ParseFloat(s, 64)]. *)
Variable Atoi : string -> Z + error.
Variable ParseBool : string -> bool + error.
Variable ParseFloat : string -> Q + error.

(** [json.Unmarshal] into a [ScalingMessage], an [events.SNSEvent] and an
    [events.CloudWatchEvent]. *)
Variable jsonUnmarshal : string -> ScalingMessage + error.
Variable unmarshalSNSEvent : string -> SNSEvent + error.
Variable unmarshalCloudWatchEvent : string -> CloudWatchEvent + error.

(** The variables of the mode: those of scheduled scaling, or those of
    metric-based scaling; the others keep their zero value. *)
Definition readModeVariables (scheduledScaling : bool)
    : M (string * Q * Z * Z * Z) :=
  if scheduledScaling
  then
    (* Scheduled Scaling: Read relevant environment variables *)
    let scheduleNumberReplicasStr := Getenv "SCHEDULE_NUMBER_REPLICAS" in
    (if String.eqb scheduleNumberReplicasStr ""
     then Log ERROR "Environment variable SCHEDULE_NUMBER_REPLICAS is not set" ;;
          fail "SCHEDULE_NUMBER_REPLICAS is not set"
     else ret tt) ;;
    scheduleNumberReplicas <-
      match Atoi scheduleNumberReplicasStr with
      | inr err => Log ERROR "Invalid SCHEDULE_NUMBER_REPLICAS" ;; fail err
      | inl n => ret n
      end ;;
    ret (EmptyString, 0%Q, 0, 0, scheduleNumberReplicas)
  else
    (* Metric-Based Scaling: Read relevant environment variables *)
    let metricName := Getenv "METRIC_NAME" in
    (if String.eqb metricName ""
     then Log ERROR "Environment variable METRIC_NAME is not set" ;;
          fail "METRIC_NAME is not set"
     else ret tt) ;;
    let targetValueStr := Getenv "TARGET_VALUE" in
    (if String.eqb targetValueStr ""
     then Log ERROR "Environment variable TARGET_VALUE is not set" ;;
          fail "TARGET_VALUE is not set"
     else ret tt) ;;
    targetValue <-
      match ParseFloat targetValueStr with
      | inr err => Log ERROR "Invalid TARGET_VALUE" ;; fail err
      | inl x => ret x
      end ;;
    let scaleInCooldownStr := Getenv "SCALE_IN_COOLDOWN" in
    (if String.eqb scaleInCooldownStr ""
     then Log ERROR "Environment variable SCALE_IN_COOLDOWN is not set" ;;
          fail "SCALE_IN_COOLDOWN is not set"
     else ret tt) ;;
    scaleInCooldown <-
      match Atoi scaleInCooldownStr with
      | inr err => Log ERROR "Invalid SCALE_IN_COOLDOWN" ;; fail err
      | inl n => ret n
      end ;;
    let scaleOutCooldownStr := Getenv "SCALE_OUT_COOLDOWN" in
    (if String.eqb scaleOutCooldownStr ""
     then Log ERROR "Environment variable SCALE_OUT_COOLDOWN is not set" ;;
          fail "SCALE_OUT_COOLDOWN is not set"
     else ret tt) ;;
    scaleOutCooldown <-
      match Atoi scaleOutCooldownStr with
      | inr err => Log ERROR "Invalid SCALE_OUT_COOLDOWN" ;; fail err
      | inl n => ret n
      end ;;
    ret (metricName, targetValue, scaleInCooldown, scaleOutCooldown, 0).

(** The first part of [handleSNSEvent] and of [handleCloudWatchEvent], the
    same code in both: it loads the AWS configuration, reads the
    environment and builds the autoscaler; it returns the autoscaler with
    [maxRetries] and [initialBackoff]. *)
Definition readEnvironment : M (DocumentDB * (Z * Z)) :=
  (* Load AWS configuration *)
  match LoadDefaultConfig with
  | Some err => Log ERROR "Failed to load AWS configuration" ;; fail err
  | None => ret tt
  end ;;
  (* Initialize notifier *)
  let snsTopicArn := Getenv "SNS_TOPIC_ARN" in
  (if String.eqb snsTopicArn ""
   then Log ERROR "Environment variable SNS_TOPIC_ARN is not set" ;;
        fail "SNS_TOPIC_ARN is not set"
   else ret tt) ;;
  (* Read common environment variables *)
  let clusterID := Getenv "CLUSTER_IDENTIFIER" in
  (if String.eqb clusterID ""
   then Log ERROR "Environment variable CLUSTER_IDENTIFIER is not set" ;;
        fail "CLUSTER_IDENTIFIER is not set"
   else ret tt) ;;
  let minCapacityStr := Getenv "MIN_CAPACITY" in
  (if String.eqb minCapacityStr ""
   then Log ERROR "Environment variable MIN_CAPACITY is not set" ;;
        fail "MIN_CAPACITY is not set"
   else ret tt) ;;
  minCapacity <-
    match Atoi minCapacityStr with
    | inr err => Log ERROR "Invalid MIN_CAPACITY" ;; fail err
    | inl n => ret n
    end ;;
  let maxCapacityStr := Getenv "MAX_CAPACITY" in
  (if String.eqb maxCapacityStr ""
   then Log ERROR "Environment variable MAX_CAPACITY is not set" ;;
        fail "MAX_CAPACITY is not set"
   else ret tt) ;;
  maxCapacity <-
    match Atoi maxCapacityStr with
    | inr err => Log ERROR "Invalid MAX_CAPACITY" ;; fail err
    | inl n => ret n
    end ;;
  (* Read Scaling Type *)
  let scheduledScalingStr := Getenv "SCHEDULED_SCALING" in
  scheduledScaling <-
    (if negb (String.eqb scheduledScalingStr "")
     then
       match ParseBool scheduledScalingStr with
       | inr err => Log ERROR "Invalid SCHEDULED_SCALING value" ;; fail err
       | inl b => ret b
       end
     else ret false) ;;
  modeVariables <- readModeVariables scheduledScaling ;;
  let '(metricName, targetValue, scaleInCooldown, scaleOutCooldown,
        scheduleNumberReplicas) := modeVariables in
  (* Read Retry Configuration environment variables *)
  let maxRetriesStr := Getenv "MAX_RETRIES" in
  maxRetries <-
    (if negb (String.eqb maxRetriesStr "")
     then
       match Atoi maxRetriesStr with
       | inr err => Log ERROR "Invalid MAX_RETRIES value" ;; fail err
       | inl n => ret n
       end
     else ret 5 (* Default value *)) ;;
  let initialBackoffStr := Getenv "INITIAL_BACKOFF" in
  initialBackoff <-
    (if negb (String.eqb initialBackoffStr "")
     then
       match Atoi initialBackoffStr with
       | inr err => Log ERROR "Invalid INITIAL_BACKOFF value" ;; fail err
       | inl initialBackoffSeconds =>
           ret (Int64.mul initialBackoffSeconds Duration.Second)
       end
     else ret Duration.Second (* Default 1 second *)) ;;
  (* Read DRYRUN flag *)
  let dryRunStr := Getenv "DRYRUN" in
  dryRun <-
    (if negb (String.eqb dryRunStr "")
     then
       match ParseBool dryRunStr with
       | inr err => Log ERROR "Invalid DRYRUN value" ;; fail err
       | inl b => ret b
       end
     else ret false) ;;
  (* Read INSTANCE_TYPE as optional *)
  let instanceType := Getenv "INSTANCE_TYPE" in
  (if String.eqb instanceType ""
   then Log INFO
          "INSTANCE_TYPE not set. Will use writer instance's type for scaling."
   else Log INFO "INSTANCE_TYPE set") ;;
  (* Initialize the DocumentDB autoscaler with the RDS client *)
  let docdbAutoscaler :=
    NewDocumentDB clusterID minCapacity maxCapacity metricName targetValue
      scaleInCooldown scaleOutCooldown instanceType dryRun scheduledScaling
      scheduleNumberReplicas in
  ret (docdbAutoscaler, (maxRetries, initialBackoff)).

(** [for _, record := range snsEvent.Records]: the autoscaler is one object
    that [processScaling] updates in place, so each record starts from the
    autoscaler the record before it has left. *)
Fixpoint processRecords (docdbAutoscaler : DocumentDB)
    (maxRetries initialBackoff : Z) (records : list SNSEventRecord)
    (totalDryRunAdditions totalDryRunRemovals : Z)
    : M (DocumentDB * (Z * Z)) :=
  match records with
  | [] => ret (docdbAutoscaler, (totalDryRunAdditions, totalDryRunRemovals))
  | record :: rest =>
      let snsRecord := SNS record in
      Log INFO "Received SNS message" ;;
      (* Proceed with scaling logic *)
      r <- orElse (processScaling jsonUnmarshal docdbAutoscaler
                     (Message snsRecord) maxRetries initialBackoff)
             (fun _ => Log ERROR "Scaling process failed") ;;
      let docdbAutoscaler := fst r in
      let additions := fst (snd r) in
      let removals := snd (snd r) in
      (* Aggregate dry-run actions *)
      let totalDryRunAdditions :=
        if DryRun docdbAutoscaler
        then Int64.add totalDryRunAdditions additions
        else totalDryRunAdditions in
      let totalDryRunRemovals :=
        if DryRun docdbAutoscaler
        then Int64.add totalDryRunRemovals removals
        else totalDryRunRemovals in
      processRecords docdbAutoscaler maxRetries initialBackoff rest
        totalDryRunAdditions totalDryRunRemovals
  end.

Definition handleSNSEvent (snsEvent : SNSEvent) : M unit :=
  settings <- readEnvironment ;;
  let docdbAutoscaler := fst settings in
  let maxRetries := fst (snd settings) in
  let initialBackoff := snd (snd settings) in
  (* Process each SNS record *)
  r <- processRecords docdbAutoscaler maxRetries initialBackoff
         (Records snsEvent) 0 0 ;;
  let docdbAutoscaler := fst r in
  (* If dry-run, log the aggregated summary *)
  (if DryRun docdbAutoscaler then Log INFO "Dry Run Summary" else ret tt) ;;
  ret tt.

Definition handleCloudWatchEvent (cwEvent : CloudWatchEvent) : M unit :=
  settings <- readEnvironment ;;
  let docdbAutoscaler := fst settings in
  let maxRetries := fst (snd settings) in
  let initialBackoff := snd (snd settings) in
  (* Execute scaling action *)
  r <- orElse (processScaling jsonUnmarshal docdbAutoscaler "" maxRetries
                 initialBackoff)
         (fun _ => Log ERROR "Scheduled scaling action failed") ;;
  let docdbAutoscaler := fst r in
  (* If dry-run, log the aggregated summary *)
  (if DryRun docdbAutoscaler
   then Log INFO "Dry Run Summary"
   else Log INFO "Scheduled scaling action executed successfully") ;;
  ret tt.

(** An event the handler takes for an SNS event, or for a CloudWatch
    event. *)
Definition asSNSEvent (event : string) : option SNSEvent :=
  match unmarshalSNSEvent event with
  | inl snsEvent =>
      if Z.of_nat (List.length (Records snsEvent)) >? 0
      then Some snsEvent else None
  | inr _ => None
  end.

Definition asCloudWatchEvent (event : string) : option CloudWatchEvent :=
  match unmarshalCloudWatchEvent event with
  | inl cwEvent =>
      if negb (String.eqb (Source cwEvent) "") then Some cwEvent else None
  | inr _ => None
  end.

Definition handler (event : string) : M unit :=
  Log INFO "Lambda function invoked" ;;
  (* Attempt to parse as SNSEvent *)
  match asSNSEvent event with
  | Some snsEvent =>
      Log INFO "Detected SNSEvent" ;;
      handleSNSEvent snsEvent
  | None =>
      (* Attempt to parse as CloudWatchEvent *)
      match asCloudWatchEvent event with
      | Some cwEvent =>
          Log INFO "Detected CloudWatchEvent" ;;
          handleCloudWatchEvent cwEvent
      | None =>
          (* If neither, log unsupported event type *)
          Log WARN "Received unsupported event type" ;;
          ret tt
      end
  end.

End Handlers.

(** The variables an invocation cannot do without, in either mode. *)
Definition requiredVariables (scheduledScaling : bool) : list string :=
  ["SNS_TOPIC_ARN"; "CLUSTER_IDENTIFIER"; "MIN_CAPACITY"; "MAX_CAPACITY"]
    ++ (if scheduledScaling
        then ["SCHEDULE_NUMBER_REPLICAS"]
        else ["METRIC_NAME"; "TARGET_VALUE"; "SCALE_IN_COOLDOWN";
              "SCALE_OUT_COOLDOWN"]).

(** Nothing but the log differs between the two worlds. *)
Definition unchanged (w w' : World) : Prop :=
  calls w' = calls w /\ directory w' = directory w /\
  slept w' = slept w /\ plan w' = plan w /\ clockReads w' = clockReads w.

(** An environment given as a list of bindings. *)
Definition environment (bindings : list (string * string)) (name : string)
    : string :=
  match lookup name bindings with
  | Some value => value
  | None => EmptyString
  end.

(** [m] touches nothing but the log, does not panic, and a value it returns
    satisfies [V]. *)
Definition yields {A} (m : M A) (V : A -> Prop) : Prop :=
  forall w,
    unchanged w (snd (m w)) /\
    (forall msg, fst (m w) <> Panic msg) /\
    (forall a, fst (m w) = Ok a -> V a).

(** What the autoscaler, [maxRetries] and [initialBackoff] that
    [readEnvironment] returns have to do with the environment. *)
Definition fromEnvironment (Getenv : string -> string)
    (Atoi : string -> Z + error) (ParseBool : string -> bool + error)
    (ParseFloat : string -> Q + error) (settings : DocumentDB * (Z * Z))
    : Prop :=
  let d := fst settings in
  let maxRetries := fst (snd settings) in
  let initialBackoff := snd (snd settings) in
  (forall name, In name (requiredVariables (ScheduledScaling d)) ->
     Getenv name <> EmptyString) /\
  ClusterID d = Getenv "CLUSTER_IDENTIFIER" /\
  Atoi (Getenv "MIN_CAPACITY") = inl (MinCapacity d) /\
  Atoi (Getenv "MAX_CAPACITY") = inl (MaxCapacity d) /\
  InstanceType d = Getenv "INSTANCE_TYPE" /\
  (if String.eqb (Getenv "SCHEDULED_SCALING") ""
   then ScheduledScaling d = false
   else ParseBool (Getenv "SCHEDULED_SCALING") = inl (ScheduledScaling d)) /\
  (if String.eqb (Getenv "DRYRUN") ""
   then DryRun d = false
   else ParseBool (Getenv "DRYRUN") = inl (DryRun d)) /\
  (if ScheduledScaling d
   then
     Atoi (Getenv "SCHEDULE_NUMBER_REPLICAS") = inl (ScheduleNumberReplicas d)
     /\ MetricName d = EmptyString /\ TargetValue d = 0%Q
     /\ ScaleInCooldown d = 0 /\ ScaleOutCooldown d = 0
   else
     MetricName d = Getenv "METRIC_NAME"
     /\ ParseFloat (Getenv "TARGET_VALUE") = inl (TargetValue d)
     /\ Atoi (Getenv "SCALE_IN_COOLDOWN") = inl (ScaleInCooldown d)
     /\ Atoi (Getenv "SCALE_OUT_COOLDOWN") = inl (ScaleOutCooldown d)
     /\ ScheduleNumberReplicas d = 0) /\
  (if String.eqb (Getenv "MAX_RETRIES") ""
   then maxRetries = 5
   else Atoi (Getenv "MAX_RETRIES") = inl maxRetries) /\
  (if String.eqb (Getenv "INITIAL_BACKOFF") ""
   then initialBackoff = Duration.Second
   else exists initialBackoffSeconds,
          Atoi (Getenv "INITIAL_BACKOFF") = inl initialBackoffSeconds /\
          initialBackoff = Int64.mul initialBackoffSeconds Duration.Second).

(** Stand-ins for [strconv.Atoi], [strconv.ParseBool] and
    [strconv.ParseFloat] on the values of the scenarios, and for the
    decoding of a timer event: as an SNS event it has no records, as a
    CloudWatch event it has a source. *)
Definition decimalAtoi (s : string) : Z + error :=
  match NilZero.int_of_string s with
  | Some i => inl (Z.of_int i)
  | None => inr "strconv.Atoi: invalid syntax"
  end.

Definition parseBool (s : string) : bool + error :=
  if String.eqb s "true" then inl true
  else if String.eqb s "false" then inl false
  else inr "strconv.ParseBool: invalid syntax".

Definition wholeFloat (s : string) : Q + error :=
  match decimalAtoi s with
  | inl n => inl (inject_Z n)
  | inr err => inr err
  end.

Definition noRecords (event : string) : SNSEvent + error :=
  inl {| Records := [] |}.

Definition timerEvent (event : string) : CloudWatchEvent + error :=
  inl {| Source := "aws.events" |}.

(** The environment of a scheduled deployment in dry-run, and the same
    without its cluster identifier. *)
Definition scheduledDryRun : list (string * string) :=
  [("SNS_TOPIC_ARN", "arn:aws:sns:eu-central-1:123456789012:notify");
   ("CLUSTER_IDENTIFIER", "test-cluster");
   ("MIN_CAPACITY", "1");
   ("MAX_CAPACITY", "5");
   ("SCHEDULED_SCALING", "true");
   ("SCHEDULE_NUMBER_REPLICAS", "2");
   ("DRYRUN", "true")].

Definition withoutCluster : list (string * string) :=
  [("SNS_TOPIC_ARN", "arn:aws:sns:eu-central-1:123456789012:notify");
   ("MIN_CAPACITY", "1");
   ("MAX_CAPACITY", "5");
   ("SCHEDULED_SCALING", "true");
   ("SCHEDULE_NUMBER_REPLICAS", "2")].

(** The environment of a scheduled deployment that allows no attempt. *)
Definition withoutRetries : list (string * string) :=
  [("SNS_TOPIC_ARN", "arn:aws:sns:eu-central-1:123456789012:notify");
   ("CLUSTER_IDENTIFIER", "test-cluster");
   ("MIN_CAPACITY", "1");
   ("MAX_CAPACITY", "5");
   ("SCHEDULED_SCALING", "true");
   ("SCHEDULE_NUMBER_REPLICAS", "2");
   ("MAX_RETRIES", "0")].

(* ================================================================== *)
(** * Part II: properties *)

(** ** Machine integers *)

Module Int64Facts.
Import Int64.

Lemma wrap64_small x : in_range x -> wrap64 x = x.
Proof.
  unfold in_range, wrap64, MinInt64, MaxInt64, modulus, half.
  intros H. rewrite Z.mod_small; lia.
Qed.

Lemma wrap64_range x : in_range (wrap64 x).
Proof.
  unfold in_range, wrap64, MinInt64, MaxInt64, modulus, half.
  pose proof (Z.mod_pos_bound (x + 2 ^ 63) (2 ^ 64) ltac:(lia)). lia.
Qed.

End Int64Facts.

(** ** Idealised float64 *)

Module Float64Facts.
Import Float64.

Lemma ltb_lt x y : ltb x y = true <-> (x < y)%Q.
Proof.
  unfold ltb. rewrite negb_true_iff.
  destruct (Qle_bool y x) eqn:E.
  - apply Qle_bool_iff in E. split; [discriminate|].
    intros H. exfalso. apply (Qlt_not_le _ _ H E).
  - split; [intros _|reflexivity].
    apply Qnot_le_lt. intros H. apply Qle_bool_iff in H. congruence.
Qed.

Lemma ltb_ge x y : ltb x y = false <-> (y <= x)%Q.
Proof.
  unfold ltb. rewrite negb_false_iff. apply Qle_bool_iff.
Qed.

Lemma to_int_of_int n : to_int (of_int n) = n.
Proof. unfold to_int, of_int. simpl. apply Z.quot_1_r. Qed.

Lemma of_int_lt a b : (of_int a < of_int b)%Q <-> a < b.
Proof. unfold of_int. rewrite <- Zlt_Qlt. tauto. Qed.

Lemma of_int_le a b : (of_int a <= of_int b)%Q <-> a <= b.
Proof. unfold of_int. rewrite <- Zle_Qle. tauto. Qed.

End Float64Facts.

(** ** Capacity calculator *)

Lemma CalculateDesiredCapacity_round (d : DocumentDB) (metric : Q) (current : Z) :
  MinCapacity d <= MaxCapacity d ->
  CalculateDesiredCapacity d metric current =
  spec_desired metric (TargetValue d) current (MinCapacity d) (MaxCapacity d).
Proof.
  intros Hb. unfold CalculateDesiredCapacity, spec_desired, spec_round, clamp.
  set (p := (metric / TargetValue d * Float64.of_int current)%Q).
  change (inject_Z current) with (Float64.of_int current). fold p.
  assert (R : forall z : Z,
    Float64.to_int
      (if Float64.ltb (inject_Z z) (Float64.of_int (MinCapacity d))
       then Float64.of_int (MinCapacity d)
       else if Float64.gtb (inject_Z z) (Float64.of_int (MaxCapacity d))
            then Float64.of_int (MaxCapacity d) else inject_Z z)
    = Z.max (MinCapacity d) (Z.min z (MaxCapacity d))).
  { intros z. change (inject_Z z) with (Float64.of_int z). unfold Float64.gtb.
    destruct (Float64.ltb (Float64.of_int z) _) eqn:E1.
    - apply Float64Facts.ltb_lt in E1. apply -> Float64Facts.of_int_lt in E1.
      rewrite Float64Facts.to_int_of_int. lia.
    - apply Float64Facts.ltb_ge in E1. apply -> Float64Facts.of_int_le in E1.
      destruct (Float64.ltb (Float64.of_int (MaxCapacity d)) _) eqn:E2.
      + apply Float64Facts.ltb_lt in E2. apply -> Float64Facts.of_int_lt in E2.
        rewrite Float64Facts.to_int_of_int. lia.
      + apply Float64Facts.ltb_ge in E2. apply -> Float64Facts.of_int_le in E2.
        rewrite Float64Facts.to_int_of_int. lia. }
  destruct (Float64.gtb p (Float64.of_int current)) eqn:E; unfold Float64.gtb in E.
  - apply Float64Facts.ltb_lt in E. rewrite Qgt_alt in E. rewrite E.
    unfold Float64.Ceil. apply R.
  - apply Float64Facts.ltb_ge in E. unfold Float64.Floor.
    destruct (p ?= Float64.of_int current)%Q eqn:C.
    + apply R.
    + apply R.
    + rewrite <- Qgt_alt in C. exfalso. apply (Qlt_not_le _ _ C E).
Qed.



(** ** Retrying executor *)

Section RetryFacts.

Variable action : M unit.
Variable maxRetries : Z.

Hypothesis action_fails : forall w, exists e, fst (action w) = Err e.

(** Any observer that sees each run of the action and is blind to logging
    and sleeping. *)
Variable count : World -> nat.
Hypothesis count_action : forall w, count (snd (action w)) = S (count w).
Hypothesis count_Log : forall l msg w, count (snd (Log l msg w)) = count w.
Hypothesis count_Sleep : forall t w, count (snd (Sleep t w)) = count w.

Hypothesis action_slept : forall w, slept (snd (action w)) = slept w.

Lemma retryLoop_failed (n : nat) (attempt backoff : Z) (w : World) (e : error) :
  fst (action w) = Err e ->
  retryLoop action maxRetries (S n) attempt backoff w =
  retryLoop action maxRetries n (Int64.add attempt 1) (nextBackoff backoff)
    (snd (Sleep backoff
            (snd (Log WARN "Scaling action failed, retrying..."
                    (snd (action w)))))).
Proof.
  intros He. cbn [retryLoop]. unfold bind at 1, try.
  destruct (action w) as [o w1]. cbn in He. subst o. reflexivity.
Qed.

Lemma retryLoop_exhausted (n : nat) :
  forall attempt backoff w,
    let r := retryLoop action maxRetries n attempt backoff w in
    fst r = Err (exhaustedError maxRetries) /\
    count (snd r) = (count w + n)%nat /\
    slept (snd r) = (slept w ++ backoffs n backoff)%list.
Proof.
  induction n as [|n IH]; intros attempt backoff w; cbn zeta.
  - cbn. rewrite Nat.add_0_r, app_nil_r. auto.
  - destruct (action_fails w) as [e He].
    rewrite (retryLoop_failed n attempt backoff w e He).
    specialize (IH (Int64.add attempt 1) (nextBackoff backoff)
      (snd (Sleep backoff
              (snd (Log WARN "Scaling action failed, retrying..."
                      (snd (action w))))))).
    cbn zeta in IH. destruct IH as (IH1 & IH2 & IH3).
    split; [exact IH1|]. split.
    + rewrite IH2, count_Sleep, count_Log, count_action. lia.
    + rewrite IH3. cbn [Sleep Log snd slept backoffs].
      rewrite action_slept, <- app_assoc. reflexivity.
Qed.

End RetryFacts.

(** C4. For an action that fails on every run, [executeWithRetry] runs it
    once per attempt ([maxRetries] times, for [maxRetries] below the largest
    [int], where the loop counter cannot wrap), returns the aggregate
    error, and sleeps after every failed attempt, the last one included:
    the sleeps start at [initialBackoff] and double up to the cap of 32
    seconds, so with three attempts and one second they are 1, 2 and 4
    seconds (seven in all, not three). *)
Theorem executeWithRetry_exhausted :
  forall (action : M unit) (count : World -> nat)
         (maxRetries initialBackoff : Z) (w : World),
    maxRetries < Int64.MaxInt64 ->
    (forall w, exists e, fst (action w) = Err e) ->
    (forall w, count (snd (action w)) = S (count w)) ->
    (forall l msg w, count (snd (Log l msg w)) = count w) ->
    (forall t w, count (snd (Sleep t w)) = count w) ->
    (forall w, slept (snd (action w)) = slept w) ->
    let r := executeWithRetry action maxRetries initialBackoff w in
    fst r = Err (exhaustedError maxRetries) /\
    count (snd r) = (count w + Z.to_nat maxRetries)%nat /\
    slept (snd r) =
      (slept w ++ backoffs (Z.to_nat maxRetries) initialBackoff)%list /\
    List.length (backoffs (Z.to_nat maxRetries) initialBackoff)
      = Z.to_nat maxRetries /\
    backoffs 3 Duration.Second =
      [Duration.Second; 2 * Duration.Second; 4 * Duration.Second].
Proof.
  intros action count maxRetries initialBackoff w _ Hf Hc HL HS Hs r.
  destruct (retryLoop_exhausted action maxRetries Hf count Hc HL HS Hs
              (Z.to_nat maxRetries) 1 initialBackoff w) as (H1 & H2 & H3).
  subst r. unfold executeWithRetry.
  repeat split; try assumption.
  clear. generalize initialBackoff.
  induction (Z.to_nat maxRetries); intros b; cbn; [reflexivity|].
  now rewrite IHn.
Qed.

Lemma executeWithRetry_exhausted_witness :
  let r := executeWithRetry alwaysFailing 3 Duration.Second
             (mkWorld emptyDirectory []) in
  fst r = Err "scaling action failed after 3 attempts" /\
  List.length (calls (snd r)) = 3%nat /\
  slept (snd r) = [1000000000; 2000000000; 4000000000].
Proof.
  pose proof (executeWithRetry_exhausted alwaysFailing
                (fun w => List.length (calls w)) 3 Duration.Second
                (mkWorld emptyDirectory [])) as H.
  cbv zeta in H.
  destruct H as (H1 & H2 & H3 & _).
  - reflexivity.
  - intros w. unfold alwaysFailing, bind, request.
    destruct (hd Succeed (plan w)); eexists; reflexivity.
  - intros w. unfold alwaysFailing, bind, request.
    destruct (hd Succeed (plan w)); cbn; rewrite length_app; cbn; lia.
  - reflexivity.
  - reflexivity.
  - intros w. unfold alwaysFailing, bind, request.
    destruct (hd Succeed (plan w)); reflexivity.
  - cbv zeta. split; [exact H1|]. split; [exact H2|]. exact H3.
Defined.

(** C10. With [maxRetries <= 0] the loop body never runs: whatever the
    action, [executeWithRetry] returns the error "scaling action failed
    after N attempts" with N = [maxRetries] and leaves the world as it was
    (no run of the action, no sleep, no log record). *)
Theorem executeWithRetry_nonpositive :
  forall (action : M unit) (maxRetries initialBackoff : Z) (w : World),
    maxRetries <= 0 ->
    executeWithRetry action maxRetries initialBackoff w =
      (Err ("scaling action failed after " ++ itoa maxRetries ++ " attempts"),
       w).
Proof.
  intros action maxRetries initialBackoff w H.
  unfold executeWithRetry.
  replace (Z.to_nat maxRetries) with 0%nat by lia.
  reflexivity.
Qed.

Lemma executeWithRetry_nonpositive_witness :
  executeWithRetry (panic "the action ran") (-2) Duration.Second
    (mkWorld emptyDirectory [])
  = (Err "scaling action failed after -2 attempts", mkWorld emptyDirectory []).
Proof.
  apply (executeWithRetry_nonpositive (panic "the action ran") (-2)
           Duration.Second (mkWorld emptyDirectory [])).
  lia.
Defined.

(** ** Traces: the calls a function issues *)

Lemma replay_app (n1 n2 : list (Call * Reply)) (dir : Directory) :
  replay (n1 ++ n2) dir = replay n2 (replay n1 dir).
Proof. unfold replay. apply fold_left_app. Qed.

#[local] Hint Constructors consumed : core.

Lemma consumed_app (p p1 p2 : list Reply) (n1 n2 : list (Call * Reply)) :
  consumed p n1 p1 -> consumed p1 n2 p2 -> consumed p (n1 ++ n2) p2.
Proof.
  induction 1 as [p|p c new p' _ IH]; intros H2; cbn.
  - exact H2.
  - constructor. apply IH, H2.
Qed.

Lemma consumed_faultless (new : list (Call * Reply)) (p' : list Reply) :
  consumed [] new p' -> faultless new /\ p' = [].
Proof.
  remember [] as p eqn:Ep. induction 1 as [p|p c new p' _ IH]; subst p.
  - split; [constructor | reflexivity].
  - destruct (IH eq_refl) as [F E]. split; [|exact E].
    constructor; [reflexivity | exact F].
Qed.

Lemma faultless_app (n1 n2 : list (Call * Reply)) :
  faultless (n1 ++ n2) <-> faultless n1 /\ faultless n2.
Proof. apply Forall_app. Qed.

Lemma issued_refl (w : World) : issued w w [].
Proof. unfold issued. rewrite app_nil_r. auto. Qed.

Lemma issued_trans (w w1 w2 : World) (n1 n2 : list (Call * Reply)) :
  issued w w1 n1 -> issued w1 w2 n2 -> issued w w2 (n1 ++ n2).
Proof.
  intros (C1 & D1 & S1 & P1) (C2 & D2 & S2 & P2). unfold issued.
  rewrite C2, C1, D2, D1, S2, S1, replay_app, app_assoc.
  repeat split. eapply consumed_app; eassumption.
Qed.

Lemma issued_faultless (w w' : World) (new : list (Call * Reply)) :
  plan w = [] -> issued w w' new -> faultless new /\ plan w' = [].
Proof.
  intros E (_ & _ & _ & P). rewrite E in P. apply consumed_faultless, P.
Qed.

Lemma only_nil (ok : Call -> Prop) : only ok [].
Proof. constructor. Qed.

Lemma only_app (ok : Call -> Prop) (n1 n2 : list (Call * Reply)) :
  only ok (n1 ++ n2) <-> only ok n1 /\ only ok n2.
Proof. apply Forall_app. Qed.

Lemma only_one (ok : Call -> Prop) (c : Call) (r : Reply) :
  ok c -> only ok [(c, r)].
Proof. intros H. constructor; [exact H | constructor]. Qed.

Lemma only_weaken (ok ok' : Call -> Prop) (new : list (Call * Reply)) :
  (forall c, ok c -> ok' c) -> only ok new -> only ok' new.
Proof. intros H. apply Forall_impl. intros a. apply H. Qed.

Lemma creates_app (n1 n2 : list (Call * Reply)) :
  creates (n1 ++ n2) = (creates n1 + creates n2)%nat.
Proof. unfold creates. rewrite filter_app, length_app. reflexivity. Qed.

Lemma deletes_app (n1 n2 : list (Call * Reply)) :
  deletes (n1 ++ n2) = (deletes n1 + deletes n2)%nat.
Proof. unfold deletes. rewrite filter_app, length_app. reflexivity. Qed.

Lemma only_creates_0 (ok : Call -> Prop) (new : list (Call * Reply)) :
  (forall c, ok c -> isCreate c = false) -> only ok new -> creates new = 0%nat.
Proof.
  intros H. unfold only, creates. induction 1 as [|cr l Hc _ IH]; cbn.
  - reflexivity.
  - rewrite (H _ Hc). exact IH.
Qed.

Lemma only_deletes_0 (ok : Call -> Prop) (new : list (Call * Reply)) :
  (forall c, ok c -> isDelete c = false) -> only ok new -> deletes new = 0%nat.
Proof.
  intros H. unfold only, deletes. induction 1 as [|cr l Hc _ IH]; cbn.
  - reflexivity.
  - rewrite (H _ Hc). exact IH.
Qed.

Lemma only_replay (ok : Call -> Prop) (new : list (Call * Reply))
    (dir : Directory) :
  (forall c, ok c -> isMutation c = false) -> only ok new ->
  replay new dir = dir.
Proof.
  intros H. unfold only. induction 1 as [|[c r] l Hc _ IH]; cbn.
  - reflexivity.
  - fold (replay l (effect c r dir)).
    specialize (H _ Hc). cbn in H.
    replace (effect c r dir) with dir; [exact IH|].
    destruct c, r; cbn in H; try discriminate; reflexivity.
Qed.

Lemma readCall_quiet (c : Call) : readCall c -> isMutation c = false.
Proof. destruct c; cbn; intros [H|[H|H]]; cbn in H; tauto. Qed.

Lemma describeCall_read (c : Call) : describeCall c -> readCall c.
Proof. unfold readCall. tauto. Qed.

Lemma listTagsCall_read (c : Call) : listTagsCall c -> readCall c.
Proof. unfold readCall. tauto. Qed.

Lemma reads_replay (new : list (Call * Reply)) (dir : Directory) :
  only readCall new -> replay new dir = dir.
Proof. apply only_replay, readCall_quiet. Qed.

Lemma describes_reads (new : list (Call * Reply)) :
  only describeCall new -> only readCall new.
Proof. apply only_weaken, describeCall_read. Qed.

Lemma listTags_reads (new : list (Call * Reply)) :
  only listTagsCall new -> only readCall new.
Proof. apply only_weaken, listTagsCall_read. Qed.

Lemma describes_replay (new : list (Call * Reply)) (dir : Directory) :
  only describeCall new -> replay new dir = dir.
Proof. intros H. apply reads_replay, describes_reads, H. Qed.

Lemma listTags_replay (new : list (Call * Reply)) (dir : Directory) :
  only listTagsCall new -> replay new dir = dir.
Proof. intros H. apply reads_replay, listTags_reads, H. Qed.

Lemma only_filter_nil (ok : Call -> Prop) (f : Call -> bool)
    (new : list (Call * Reply)) :
  (forall c, ok c -> f c = false) -> only ok new ->
  filter (fun cr => f (fst cr)) new = [].
Proof.
  intros H. unfold only. induction 1 as [|cr l Hc _ IH]; cbn.
  - reflexivity.
  - rewrite (H _ Hc). exact IH.
Qed.

Lemma mutations_app (n1 n2 : list (Call * Reply)) :
  mutations (n1 ++ n2) = (mutations n1 ++ mutations n2)%list.
Proof. apply filter_app. Qed.

Lemma publications_app (n1 n2 : list (Call * Reply)) :
  publications (n1 ++ n2) = (publications n1 ++ publications n2)%list.
Proof. apply filter_app. Qed.

Lemma reads_mutations (new : list (Call * Reply)) :
  only readCall new -> mutations new = [].
Proof. apply only_filter_nil, readCall_quiet. Qed.

Lemma reads_publications (new : list (Call * Reply)) :
  only readCall new -> publications new = [].
Proof.
  apply only_filter_nil. destruct c; cbn; intros [H|[H|H]]; cbn in H; tauto.
Qed.

Lemma reads_creates (new : list (Call * Reply)) :
  only readCall new -> creates new = 0%nat.
Proof.
  apply only_creates_0. destruct c; cbn; intros [H|[H|H]]; cbn in H; tauto.
Qed.

Lemma reads_deletes (new : list (Call * Reply)) :
  only readCall new -> deletes new = 0%nat.
Proof.
  apply only_deletes_0. destruct c; cbn; intros [H|[H|H]]; cbn in H; tauto.
Qed.

Lemma faultless_nil : faultless [].
Proof. constructor. Qed.

Lemma faultless_one (c : Call) (r : Reply) :
  faultless [(c, r)] -> r = Succeed.
Proof. intros F. inversion F as [|? ? Hr _]. exact Hr. Qed.

(** *** Rules *)

Section Rules.

Context {A B : Type}.
Variable dir : Directory.

Lemma tracesFrom_conseq (m : M A)
    (P Q : Outcome A -> list (Call * Reply) -> Prop) :
  tracesFrom dir m P -> (forall out new, P out new -> Q out new) ->
  tracesFrom dir m Q.
Proof.
  intros H HPQ w Hw. destruct (H w Hw) as (new & I & HP).
  exists new. split; [exact I | apply HPQ, HP].
Qed.

Lemma tracesFrom_ret (a : A) (P : Outcome A -> list (Call * Reply) -> Prop) :
  P (Ok a) [] -> tracesFrom dir (ret a) P.
Proof. intros H w _. exists []. split; [apply issued_refl | apply H]. Qed.

Lemma tracesFrom_fail (e : error)
    (P : Outcome A -> list (Call * Reply) -> Prop) :
  P (Err e) [] -> tracesFrom dir (fail e) P.
Proof. intros H w _. exists []. split; [apply issued_refl | apply H]. Qed.

Lemma tracesFrom_liftOutcome (o : Outcome A)
    (P : Outcome A -> list (Call * Reply) -> Prop) :
  P o [] -> tracesFrom dir (liftOutcome o) P.
Proof. intros H w _. exists []. split; [apply issued_refl | apply H]. Qed.

(** Sequencing: the continuation starts from the directory the first part
    leaves, and the traces are appended. *)
Lemma tracesFrom_bind (m : M A) (k : A -> M B)
    (R : Outcome B -> list (Call * Reply) -> Prop) :
  tracesFrom dir m (fun out n1 =>
    match out with
    | Ok a =>
        tracesFrom (replay n1 dir) (k a)
          (fun out' n2 => R out' (n1 ++ n2)%list)
    | Err e => R (Err e) n1
    | Panic msg => R (Panic msg) n1
    end) ->
  tracesFrom dir (bind m k) R.
Proof.
  intros H w Hw. destruct (H w Hw) as (n1 & I1 & H1). unfold bind.
  destruct (m w) as [[a|e|msg] w1]; cbn [fst snd] in *.
  - destruct (H1 w1) as (n2 & I2 & H2).
    + rewrite <- Hw. apply I1.
    + exists (n1 ++ n2)%list. split; [|exact H2].
      eapply issued_trans; eassumption.
  - exists n1. auto.
  - exists n1. auto.
Qed.

Lemma tracesFrom_try (m : M A)
    (P : Outcome (A + error) -> list (Call * Reply) -> Prop) :
  tracesFrom dir m (fun out new =>
    match out with
    | Ok a => P (Ok (inl a)) new
    | Err e => P (Ok (inr e)) new
    | Panic msg => P (Panic msg) new
    end) ->
  tracesFrom dir (try m) P.
Proof.
  intros H w Hw. destruct (H w Hw) as (new & I & HP). unfold try.
  destruct (m w) as [[a|e|msg] w1]; cbn [fst snd] in *; exists new; auto.
Qed.

Lemma tracesFrom_ret_bind (a : A) (k : A -> M B)
    (R : Outcome B -> list (Call * Reply) -> Prop) :
  tracesFrom dir (k a) R -> tracesFrom dir (bind (ret a) k) R.
Proof. intros H w Hw. exact (H w Hw). Qed.

Lemma tracesFrom_Log (l : Level) (msg : string) (k : M A)
    (R : Outcome A -> list (Call * Reply) -> Prop) :
  tracesFrom dir k R -> tracesFrom dir (Log l msg ;; k) R.
Proof.
  intros H w Hw. unfold bind, Log.
  match goal with
  | |- context [k ?w1] => destruct (H w1 Hw) as (new & I & HR)
  end.
  exists new. split; [|exact HR].
  destruct I as (C & D & S & P). unfold issued. cbn in *. auto.
Qed.

Lemma tracesFrom_orElse_Log (m : M A) (l : Level) (msg : string)
    (R : Outcome A -> list (Call * Reply) -> Prop) :
  tracesFrom dir m R -> tracesFrom dir (orElse m (fun _ => Log l msg)) R.
Proof.
  intros H w Hw. destruct (H w Hw) as (new & I & HR).
  unfold orElse, bind, try, Log, fail, ret.
  destruct (m w) as [[a|e|p] w1]; cbn [fst snd] in *; exists new;
    (split; [|exact HR]); exact I.
Qed.

Lemma tracesFrom_UnixNano (k : Z -> M A)
    (R : Outcome A -> list (Call * Reply) -> Prop) :
  (forall t, tracesFrom dir (k t) R) -> tracesFrom dir (bind UnixNano k) R.
Proof.
  intros H w Hw. unfold bind, UnixNano.
  match goal with
  | |- context [k ?t ?w1] => destruct (H t w1 Hw) as (new & I & HR)
  end.
  exists new. split; [|exact HR].
  destruct I as (C & D & S & P). unfold issued. cbn in *. auto.
Qed.

End Rules.

Lemma tracesFrom_Log_last (dir : Directory) (l : Level) (msg : string)
    (R : Outcome unit -> list (Call * Reply) -> Prop) :
  R (Ok tt) [] -> tracesFrom dir (Log l msg) R.
Proof.
  intros H w _. exists []. split; [|apply H].
  unfold issued, Log. cbn. rewrite app_nil_r. auto.
Qed.

(** A query: one entry in the trace, the directory as it was. *)
Lemma traces_query {A} (c : Call) (f : Directory -> A) :
  isMutation c = false ->
  traces (_ <- request c ;; dir <- getDirectory ;; ret (f dir))
    (fun dir => answered c (fun _ => f dir)).
Proof.
  intros Hc dir w <-. unfold bind, request, getDirectory, ret.
  exists [(c, hd Succeed (plan w))].
  assert (E : forall r, effect c r (directory w) = directory w).
  { intros r. destruct c, r; try discriminate Hc; reflexivity. }
  split.
  - unfold issued.
    assert (P : consumed (plan w) [(c, hd Succeed (plan w))] (tl (plan w)))
      by auto.
    destruct (hd Succeed (plan w)) eqn:Er; cbn -[effect];
      rewrite ?E; repeat split; try reflexivity; exact P.
  - unfold answered. exists (hd Succeed (plan w)).
    destruct (hd Succeed (plan w)); cbn -[effect]; rewrite ?E; split;
      reflexivity.
Qed.

(** A command: one entry in the trace. *)
Lemma traces_command {A} (c : Call) (f : Reply -> A) :
  traces (r <- request c ;; ret (f r)) (fun _ => answered c f).
Proof.
  intros dir w _. unfold bind, request, ret.
  exists [(c, hd Succeed (plan w))]. split.
  - unfold issued.
    assert (P : consumed (plan w) [(c, hd Succeed (plan w))] (tl (plan w)))
      by auto.
    destruct (hd Succeed (plan w)); cbn; repeat split; try reflexivity;
      exact P.
  - unfold answered. exists (hd Succeed (plan w)).
    destruct (hd Succeed (plan w)); cbn; split; reflexivity.
Qed.

Lemma answered_only {A} (ok : Call -> Prop) {c : Call} {f : Reply -> A}
    {out : Outcome A} {new : list (Call * Reply)} :
  answered c f out new -> ok c -> only ok new.
Proof. intros (r & -> & _) H. apply only_one, H. Qed.

Lemma answered_Ok {A} {c : Call} {f : Reply -> A} {a : A}
    {new : list (Call * Reply)} (v : A) :
  answered c f (Ok a) new -> (forall r, f r = v) -> a = v.
Proof.
  intros (r & _ & H) Hf. destruct r; try discriminate H;
    inversion H; apply Hf.
Qed.

Lemma answered_sound {A} {c : Call} {f : Reply -> A} {msg : string}
    {new : list (Call * Reply)} :
  answered c f (Panic msg) new -> False.
Proof. intros (r & _ & H). destruct r; discriminate. Qed.

Lemma answered_Err {A} {c : Call} {f : Reply -> A} {e : error}
    {new : list (Call * Reply)} :
  answered c f (Err e) new -> new = [(c, Fail e)].
Proof.
  intros (r & -> & H). destruct r; try discriminate H.
  injection H as ->. reflexivity.
Qed.

Lemma answered_faultless {A} {c : Call} {f : Reply -> A} {out : Outcome A}
    {new : list (Call * Reply)} :
  answered c f out new -> faultless new -> out = Ok (f Succeed).
Proof.
  intros (r & -> & H) F. apply faultless_one in F. subst r. exact H.
Qed.

(** *** Proof steps *)

Ltac trace_norm :=
  repeat rewrite app_nil_r in *;
  repeat rewrite app_nil_l in *.

Ltac split_app :=
  repeat match goal with
    | H : only _ (_ ++ _) |- _ => apply only_app in H; destruct H
    | H : faultless (_ ++ _) |- _ => apply faultless_app in H; destruct H
    | |- only _ (_ ++ _) => apply only_app; split
    | |- faultless (_ ++ _) => apply faultless_app; split
    end.

Ltac quiet :=
  repeat match goal with
    | Ho : only describeCall ?n |- _ =>
        progress (rewrite ?(describes_replay n _ Ho) in * )
    | Ho : only listTagsCall ?n |- _ =>
        progress (rewrite ?(listTags_replay n _ Ho) in * )
    | Ho : only readCall ?n |- _ =>
        progress (rewrite ?(reads_replay n _ Ho) in * )
    end.

Tactic Notation "step" uconstr(H) :=
  apply tracesFrom_bind; eapply tracesFrom_conseq;
  [ first [ apply tracesFrom_orElse_Log; apply H | apply H ]
  | cbn beta; let out := fresh "out" in
    let n := fresh "n" in let Hs := fresh "Hs" in
    intros out n Hs ].

Ltac leaf :=
  first [ apply tracesFrom_ret | apply tracesFrom_fail
        | apply tracesFrom_Log_last | apply tracesFrom_liftOutcome ];
  trace_norm.

(** *** The services *)

Lemma DescribeDBInstances_traces (clusterFilter : string) :
  traces (DescribeDBInstances clusterFilter) (fun dir =>
    answered (DescribeDBInstancesCall clusterFilter) (fun _ => instances dir)).
Proof. apply (traces_query _ instances). reflexivity. Qed.

Lemma DescribeDBClusters_traces (cluster : string) :
  traces (DescribeDBClusters cluster) (fun dir =>
    answered (DescribeDBClustersCall cluster) (fun _ => clusters dir)).
Proof. apply (traces_query _ clusters). reflexivity. Qed.

Lemma ListTagsForResource_traces (resourceName : string) :
  traces (ListTagsForResource resourceName) (fun dir =>
    answered (ListTagsForResourceCall resourceName)
      (fun _ => tagsOf dir resourceName)).
Proof.
  apply (traces_query _ (fun dir => tagsOf dir resourceName)). reflexivity.
Qed.

Lemma GetMetricStatistics_traces (metricName instanceID : string) :
  traces (GetMetricStatistics metricName instanceID) (fun dir out new =>
    only metricCall new).
Proof.
  intros dir. eapply tracesFrom_conseq.
  - apply (traces_query (GetMetricStatisticsCall metricName instanceID)
             (fun dir => match lookup instanceID (datapoints dir) with
                         | Some l => l
                         | None => []
                         end)).
    reflexivity.
  - intros out new (r & -> & _). apply only_one. exact I.
Qed.

Lemma CreateDBInstance_traces (cluster class identifier : string) :
  traces (CreateDBInstance cluster class identifier) (fun _ =>
    answered (CreateDBInstanceCall cluster class identifier)
      (fun r => match r with
                | SucceedNoArn => None
                | _ => Some (arnOf identifier)
                end)).
Proof. apply traces_command. Qed.

Lemma AddTagsToResource_traces (resourceName key value : string) :
  traces (AddTagsToResource resourceName key value) (fun _ =>
    answered (AddTagsToResourceCall resourceName key value) (fun _ => tt)).
Proof. apply (traces_command _ (fun _ => tt)). Qed.

Lemma DeleteDBInstance_traces (identifier : string) :
  traces (DeleteDBInstance identifier) (fun _ =>
    answered (DeleteDBInstanceCall identifier) (fun _ => tt)).
Proof. apply (traces_command _ (fun _ => tt)). Qed.

Lemma Publish_traces (message : string) :
  traces (Publish message) (fun _ =>
    answered (PublishCall message) (fun _ => tt)).
Proof. apply (traces_command _ (fun _ => tt)). Qed.

(** *** Topology *)

Lemma GetWriterInstanceIdentifier_traces (d : DocumentDB) :
  traces (GetWriterInstanceIdentifier d) (fun dir out new =>
    only describeCall new /\
    (forall wid, out = Ok wid -> writerOf dir = Some wid) /\
    (faultless new -> forall wid, writerOf dir = Some wid -> out = Ok wid) /\
    (forall msg, out <> Panic msg)).
Proof.
  intros dir. unfold GetWriterInstanceIdentifier.
  step DescribeDBClusters_traces.
  pose proof (answered_only describeCall Hs I) as Ho.
  destruct out as [dbClusters|e|msg].
  - rewrite (answered_Ok (clusters dir) Hs) by reflexivity.
    unfold writerOf.
    destruct (clusters dir) as [|dbCluster rest].
    + leaf. repeat split; try assumption; discriminate.
    + destruct (find IsClusterWriter (DBClusterMembers dbCluster)) as [member|].
      * leaf. repeat split; try assumption; try discriminate.
        -- intros wid [= <-]. reflexivity.
        -- intros _ wid [= <-]. reflexivity.
      * leaf. repeat split; try assumption; discriminate.
  - repeat split; try assumption; try discriminate.
    intros F. pose proof (answered_faultless Hs F). discriminate.
  - destruct (answered_sound Hs).
Qed.

Lemma GetReaderInstances_traces (d : DocumentDB) :
  traces (GetReaderInstances d) (fun dir out new =>
    only describeCall new /\
    (forall rs, out = Ok rs ->
       exists wid, writerOf dir = Some wid /\ rs = readersOf wid dir) /\
    (faultless new -> forall wid, writerOf dir = Some wid ->
       out = Ok (readersOf wid dir)) /\
    (forall msg, out <> Panic msg)).
Proof.
  intros dir. unfold GetReaderInstances.
  step DescribeDBInstances_traces.
  pose proof (answered_only describeCall Hs I) as Ho.
  destruct out as [dbInstances|e|msg].
  - rewrite (answered_Ok (instances dir) Hs) by reflexivity.
    quiet.
    step GetWriterInstanceIdentifier_traces.
    destruct Hs0 as (Ho' & Hw & Hf & Hp).
    destruct out as [wid|e|msg].
    + leaf.
      split; [split_app; assumption|]. split; [|split; [|discriminate]].
      * intros rs [= <-]. exists wid. split; [apply Hw; reflexivity|].
        reflexivity.
      * intros F wid' Hwid'. split_app.
        specialize (Hf ltac:(assumption) _ Hwid'). inversion Hf. reflexivity.
    + split; [split_app; assumption|].
      split; [discriminate|]. split; [|discriminate].
      intros F wid' Hwid'. split_app.
      specialize (Hf ltac:(assumption) _ Hwid'). discriminate Hf.
    + exfalso. eapply Hp. reflexivity.
  - split; [exact Ho|]. split; [discriminate|]. split; [|discriminate].
    intros F. pose proof (answered_faultless Hs F). discriminate.
  - destruct (answered_sound Hs).
Qed.

Lemma GetCurrentCapacity_traces (d : DocumentDB) :
  traces (GetCurrentCapacity d) (fun dir out new =>
    only describeCall new /\
    (forall n, out = Ok n ->
       exists wid, writerOf dir = Some wid /\ n = readerCount wid dir) /\
    (faultless new -> forall wid, writerOf dir = Some wid ->
       out = Ok (readerCount wid dir)) /\
    (forall msg, out <> Panic msg)).
Proof.
  intros dir. unfold GetCurrentCapacity.
  step GetReaderInstances_traces.
  destruct Hs as (Ho & Hr & Hf & Hp).
  destruct out as [readerInstances|e|msg].
  - apply tracesFrom_Log. leaf.
    destruct (Hr _ eq_refl) as (wid & Hw & ->).
    split; [assumption|]. split; [|split; [|discriminate]].
    + intros k [= <-]. exists wid. split; [assumption | reflexivity].
    + intros F wid' Hw'. rewrite Hw in Hw'. injection Hw' as <-. reflexivity.
  - split; [assumption|]. split; [discriminate|]. split; [|discriminate].
    intros F wid Hw. specialize (Hf F wid Hw). discriminate.
  - exfalso. eapply Hp. reflexivity.
Qed.

Lemma GetWriterInstance_traces (d : DocumentDB) :
  traces (GetWriterInstance d) (fun dir out new => only describeCall new).
Proof.
  intros dir. unfold GetWriterInstance.
  step DescribeDBInstances_traces.
  pose proof (answered_only describeCall Hs I) as Ho.
  destruct out as [dbInstances|e|msg]; [|assumption|assumption].
  step GetWriterInstanceIdentifier_traces.
  destruct Hs0 as (Ho' & _).
  destruct out as [wid|e|msg]; [|split_app; assumption ..].
  destruct (find (isWriter wid) dbInstances); leaf; split_app; assumption.
Qed.

Lemma sumLatestDatapoints_traces (d : DocumentDB)
    (readerInstances : list DBInstance) :
  forall totalMetric,
    traces (sumLatestDatapoints d readerInstances totalMetric)
      (fun dir out new => only readCall new).
Proof.
  induction readerInstances as [|instance rest IH]; intros totalMetric dir;
    cbn [sumLatestDatapoints].
  - leaf. apply only_nil.
  - step GetMetricStatistics_traces.
    assert (Ho : only readCall n).
    { revert Hs. apply only_weaken. unfold readCall. tauto. }
    destruct out as [resp|e|msg]; [|assumption|assumption].
    destruct resp as [|p resp'].
    + apply tracesFrom_Log. leaf. assumption.
    + eapply tracesFrom_conseq; [apply IH|].
      cbn beta. intros out' n' H'. split_app; assumption.
Qed.

Lemma GetCurrentMetricValue_traces (d : DocumentDB) :
  traces (GetCurrentMetricValue d) (fun dir out new => only readCall new).
Proof.
  intros dir. unfold GetCurrentMetricValue.
  step GetReaderInstances_traces.
  destruct Hs as (Ho & _).
  assert (Ho' : only readCall n) by (apply describes_reads, Ho).
  destruct out as [readerInstances|e|msg]; [|assumption|assumption].
  destruct readerInstances as [|instance rest].
  - leaf. assumption.
  - step sumLatestDatapoints_traces.
    destruct out as [total|e|msg]; [leaf| |]; split_app; assumption.
Qed.

(** *** Ownership tags *)

Lemma HasAutoscalerTag_traces (d : DocumentDB) (instance : DBInstance) :
  traces (HasAutoscalerTag d instance) (fun dir =>
    answered (ListTagsForResourceCall (DBInstanceArn instance))
      (fun _ => owned autoscalerTagKey dir instance)).
Proof.
  intros dir. unfold HasAutoscalerTag.
  step ListTagsForResource_traces.
  destruct Hs as (r & -> & Hr).
  destruct out as [tagList|e|msg].
  - leaf. exists r. split; [reflexivity|].
    destruct r; try discriminate Hr; injection Hr as ->; reflexivity.
  - exists r. split; [reflexivity|]. destruct r; try discriminate Hr.
    injection Hr as ->. reflexivity.
  - destruct r; discriminate Hr.
Qed.

Lemma HasSchedulerTag_traces (d : DocumentDB) (instance : DBInstance) :
  traces (HasSchedulerTag d instance) (fun dir =>
    answered (ListTagsForResourceCall (DBInstanceArn instance))
      (fun _ => owned schedulerTagKey dir instance)).
Proof.
  intros dir. unfold HasSchedulerTag.
  step ListTagsForResource_traces.
  destruct Hs as (r & -> & Hr).
  destruct out as [tagList|e|msg].
  - leaf. exists r. split; [reflexivity|].
    destruct r; try discriminate Hr; injection Hr as ->; reflexivity.
  - exists r. split; [reflexivity|]. destruct r; try discriminate Hr.
    injection Hr as ->. reflexivity.
  - destruct r; discriminate Hr.
Qed.

(** *** Provisioner *)

Lemma createOne_traces (d : DocumentDB) (role tagKey instanceClass : string)
    (failText tagFailText doneText dryText : string) :
  traces (createOne d role tagKey instanceClass failText tagFailText doneText
            dryText)
    (fun _ _ new =>
       only (creationCall d role tagKey) new /\ (creates new <= 1)%nat).
Proof.
  intros dir. unfold createOne. apply tracesFrom_UnixNano. intros unixNano.
  apply tracesFrom_bind, tracesFrom_liftOutcome.
  destruct (newIdentifier (ClusterID d) role unixNano) as [baseIdentifier|e|msg]
    eqn:Eid; [|split; [apply only_nil | cbn; lia] ..].
  cbn [app replay fold_left].
  destruct (DryRun d) eqn:Edry; cbn [negb].
  - leaf. split; [apply only_nil | cbn; lia].
  - step CreateDBInstance_traces.
    destruct Hs as (r & -> & Hr).
    assert (Hc : only (creationCall d role tagKey)
                   [(CreateDBInstanceCall (ClusterID d) instanceClass
                       baseIdentifier, r)]).
    { apply only_one. split; [exact Edry|]. split; [reflexivity|].
      exists unixNano. exact Eid. }
    destruct out as [[instanceArn|]|e|msg].
    + apply tracesFrom_bind, tracesFrom_try. eapply tracesFrom_conseq;
        [apply AddTagsToResource_traces|].
      cbn beta. intros out1 n1 (r1 & -> & Hr1).
      assert (Ht : only (creationCall d role tagKey)
                     [(AddTagsToResourceCall instanceArn tagKey "true", r1)]).
      { apply only_one. split; [exact Edry|]. split; reflexivity. }
      destruct out1 as [[]|e|msg].
      * apply tracesFrom_ret_bind. leaf.
        split; [split_app; assumption | cbn; lia].
      * apply tracesFrom_Log. leaf.
        split; [split_app; assumption | cbn; lia].
      * split; [split_app; assumption | cbn; lia].
    + apply tracesFrom_Log. leaf. split; [assumption | cbn; lia].
    + split; [assumption | cbn; lia].
    + split; [assumption | cbn; lia].
Qed.

Lemma repeatM_traces (ok : Call -> Prop) (body : M unit) (n : nat) :
  traces body (fun _ _ new => only ok new /\ (creates new <= 1)%nat) ->
  traces (repeatM n body)
    (fun _ _ new => only ok new /\ (creates new <= n)%nat).
Proof.
  intros Hb. induction n as [|n IH]; intros dir; cbn [repeatM].
  - leaf. split; [apply only_nil | cbn; lia].
  - step Hb. destruct Hs as (Ho & Hc).
    destruct out as [[]|e|msg]; [|split; [assumption|lia] ..].
    eapply tracesFrom_conseq; [apply IH|].
    cbn beta. intros out' n' (Ho' & Hc').
    split; [split_app; assumption|]. rewrite creates_app. lia.
Qed.

Lemma AddReplicas_traces (d : DocumentDB) (replicasToAdd : Z) :
  traces (AddReplicas d replicasToAdd) (fun _ _ new =>
    only (fun c => describeCall c \/ creationCall d "reader" autoscalerTagKey c)
      new /\
    (creates new <= Z.to_nat replicasToAdd)%nat).
Proof.
  intros dir. unfold AddReplicas.
  step GetWriterInstance_traces.
  assert (Ho : only (fun c => describeCall c \/
                       creationCall d "reader" autoscalerTagKey c) n).
  { revert Hs. apply only_weaken. tauto. }
  assert (Hc : creates n = 0%nat)
    by (apply reads_creates, describes_reads, Hs).
  destruct out as [writerInstance|e|msg]; [|split; [assumption|lia] ..].
  eapply tracesFrom_conseq; [apply repeatM_traces, createOne_traces|].
  cbn beta. intros out' n' (Ho' & Hc').
  split.
  - split_app; [assumption|]. revert Ho'. apply only_weaken. tauto.
  - rewrite creates_app. lia.
Qed.

Lemma AddScheduledReplicas_traces (d : DocumentDB) (replicasToAdd : Z) :
  traces (AddScheduledReplicas d replicasToAdd) (fun _ _ new =>
    only (fun c => describeCall c \/
            creationCall d "scheduler" schedulerTagKey c) new /\
    (creates new <= Z.to_nat replicasToAdd)%nat).
Proof.
  intros dir. unfold AddScheduledReplicas.
  apply tracesFrom_bind.
  apply (tracesFrom_conseq _ _ (fun _ new =>
           only describeCall new /\ creates new = 0%nat)).
  - destruct (negb (InstanceType d =? "")%string).
    + leaf. split; [apply only_nil | reflexivity].
    + step GetWriterInstance_traces.
      assert (Hc : creates n = 0%nat)
        by (apply reads_creates, describes_reads, Hs).
      destruct out as [writerInstance|e|msg]; [leaf| |]; auto.
  - cbn beta. intros out n (Hs & Hc).
    assert (Ho : only (fun c => describeCall c \/
                         creationCall d "scheduler" schedulerTagKey c) n).
    { revert Hs. apply only_weaken. tauto. }
    destruct out as [instanceClass|e|msg]; [|split; [assumption|lia] ..].
    eapply tracesFrom_conseq; [apply repeatM_traces, createOne_traces|].
    cbn beta. intros out' n' (Ho' & Hc').
    split.
    + split_app; [assumption|]. revert Ho'. apply only_weaken. tauto.
    + rewrite creates_app. lia.
Qed.

(** *** Removal in metric mode *)

Lemma find_filter {A} (p q : A -> bool) (l : list A) :
  find p (filter q l) = find (fun x => q x && p x) l.
Proof.
  induction l as [|x l IH]; cbn; [reflexivity|].
  destruct (q x); cbn; [|exact IH].
  destruct (p x); [reflexivity | exact IH].
Qed.

Lemma selects_skip (d : DocumentDB) (wid : string) (instance : DBInstance)
    (rest : list DBInstance) (dir : Directory)
    (out : Outcome (option DBInstance)) (n1 n2 : list (Call * Reply)) :
  only listTagsCall n1 ->
  (faultless n1 -> selectable d wid dir instance = false) ->
  selects d wid rest dir out n2 ->
  selects d wid (instance :: rest) dir out (n1 ++ n2).
Proof.
  intros Ho1 Hno (Ho2 & o & -> & Hsel & Hf).
  split; [split_app; assumption|].
  exists o. split; [reflexivity|]. split.
  - intros i Hi. destruct (Hsel i Hi) as [Hin Hs].
    split; [right; exact Hin | exact Hs].
  - intros F. split_app. cbn [find].
    rewrite (Hno ltac:(assumption)). apply Hf; assumption.
Qed.

Lemma findInstanceToRemove_traces (d : DocumentDB) (wid : string)
    (dbInstances : list DBInstance) :
  traces (findInstanceToRemove d wid dbInstances)
    (selects d wid dbInstances).
Proof.
  induction dbInstances as [|instance rest IH]; intros dir;
    cbn [findInstanceToRemove].
  - leaf. split; [apply only_nil|]. exists None.
    split; [reflexivity|]. split; [discriminate | reflexivity].
  - destruct (isWriter wid instance) eqn:Ew.
    + eapply tracesFrom_conseq; [apply IH|].
      cbn beta. intros out new H.
      apply (selects_skip d wid instance rest dir out [] new);
        [apply only_nil | | exact H].
      intros _. unfold selectable. rewrite Ew. reflexivity.
    + apply tracesFrom_bind, tracesFrom_try. eapply tracesFrom_conseq;
        [apply HasAutoscalerTag_traces|].
      cbn beta. intros out n (r & -> & Hr).
      assert (Ho : only listTagsCall
                [(ListTagsForResourceCall (DBInstanceArn instance), r)])
        by (apply only_one; exact I).
      quiet.
      assert (Hskip : (faultless
                [(ListTagsForResourceCall (DBInstanceArn instance), r)] ->
                selectable d wid dir instance = false) ->
              tracesFrom dir (findInstanceToRemove d wid rest)
                (fun out' n2 =>
                   selects d wid (instance :: rest) dir out'
                     ([(ListTagsForResourceCall (DBInstanceArn instance), r)]
                        ++ n2))).
      { intros Hno. eapply tracesFrom_conseq; [apply IH|].
        cbn beta. intros out' n2 H. apply selects_skip; assumption. }
      destruct out as [hasTag|e|msg].
      * assert (Et : hasTag = owned autoscalerTagKey dir instance)
          by (destruct r; try discriminate Hr; injection Hr as ->; reflexivity).
        destruct (available instance) eqn:Ea; cbn [negb].
        -- destruct hasTag.
           ++ leaf. split; [assumption|]. exists (Some instance).
              split; [reflexivity|].
              assert (Hsel : selectable d wid dir instance = true).
              { unfold selectable. rewrite Ew, Ea, <- Et. reflexivity. }
              split.
              ** intros i [= <-]. split; [left; reflexivity | exact Hsel].
              ** intros _. cbn [find]. rewrite Hsel. reflexivity.
           ++ apply Hskip. intros _. unfold selectable.
              rewrite Ew, Ea, <- Et. reflexivity.
        -- apply tracesFrom_Log, Hskip. intros _. unfold selectable.
           rewrite Ew, Ea. reflexivity.
      * apply tracesFrom_Log, Hskip. intros F.
        apply faultless_one in F. subst r. discriminate Hr.
      * destruct r; discriminate Hr.
Qed.

Lemma selectable_removal (d : DocumentDB) (wid : string) (dir : Directory)
    (i : DBInstance) :
  DryRun d = false ->
  writerOf dir = Some wid ->
  In i (instances dir) ->
  selectable d wid dir i = true ->
  removalCall d autoscalerTagKey dir
    (DeleteDBInstanceCall (DBInstanceIdentifier i)).
Proof.
  intros Edry Hw Hin Hs. unfold selectable in Hs.
  apply andb_prop in Hs. destruct Hs as [Hnw Hs].
  apply andb_prop in Hs. destruct Hs as [Ha Ho].
  split; [exact Edry|]. exists wid, i.
  repeat split; try assumption.
  unfold readersOf. apply filter_In. split; assumption.
Qed.

Lemma removable_find (d : DocumentDB) (wid : string) (dir : Directory) :
  removable wid dir = find (selectable d wid dir) (instances dir).
Proof. unfold removable, readersOf. apply find_filter. Qed.

Lemma removesOne_reads (d : DocumentDB) (dir : Directory) (out : Outcome unit)
    (new : list (Call * Reply)) :
  only readCall new ->
  (faultless new -> forall wid, writerOf dir = Some wid ->
     out = Ok tt /\
     match removable wid dir with
     | Some i => DryRun d = true
     | None => True
     end) ->
  removesOne d dir out new.
Proof.
  intros Ho Hf. split; [revert Ho; apply only_weaken; tauto|].
  rewrite (reads_deletes _ Ho), (reads_creates _ Ho),
    (reads_publications _ Ho), (reads_mutations _ Ho).
  split; [lia|]. split; [reflexivity|]. split; [reflexivity|].
  intros F wid Hw. destruct (Hf F wid Hw) as [-> Hr].
  split; [reflexivity|].
  destruct (removable wid dir); [rewrite Hr|]; reflexivity.
Qed.

Lemma removesOne_delete (d : DocumentDB) (dir : Directory) (wid : string)
    (out : Outcome unit) (reads : list (Call * Reply)) (i : DBInstance)
    (r : Reply) :
  only readCall reads ->
  DryRun d = false ->
  writerOf dir = Some wid ->
  In i (instances dir) ->
  selectable d wid dir i = true ->
  (faultless reads -> Some i = find (selectable d wid dir) (instances dir)) ->
  (r = Succeed -> out = Ok tt) ->
  removesOne d dir out
    (reads ++ [(DeleteDBInstanceCall (DBInstanceIdentifier i), r)]).
Proof.
  intros Hreads Edry Hw Hin Hsel Hfind Hout.
  split.
  - apply only_app. split.
    + revert Hreads. apply only_weaken. tauto.
    + apply only_one. right. apply (selectable_removal d wid); assumption.
  - rewrite deletes_app, creates_app, publications_app, mutations_app,
      (reads_deletes _ Hreads), (reads_creates _ Hreads),
      (reads_publications _ Hreads), (reads_mutations _ Hreads).
    cbn. split; [lia|]. split; [reflexivity|]. split; [reflexivity|].
    intros F wid' Hwid'.
    apply faultless_app in F. destruct F as [F1 F2].
    apply faultless_one in F2. subst r.
    split; [apply Hout; reflexivity|].
    rewrite Hw in Hwid'. injection Hwid' as <-.
    rewrite (removable_find d), <- (Hfind F1), Edry. reflexivity.
Qed.

Lemma RemoveReplica_traces (d : DocumentDB) :
  traces (RemoveReplica d) (removesOne d).
Proof.
  intros dir. unfold RemoveReplica.
  step DescribeDBInstances_traces.
  pose proof (answered_only describeCall Hs I) as Ho.
  destruct out as [dbInstances|e|msg].
  2:{ apply removesOne_reads; [apply describes_reads, Ho|].
      intros F. pose proof (answered_faultless Hs F). discriminate. }
  2:{ destruct (answered_sound Hs). }
  rewrite (answered_Ok (instances dir) Hs) by reflexivity.
  quiet. clear Hs.
  step GetWriterInstanceIdentifier_traces.
  destruct Hs as (Ho' & Hw & Hf & Hp).
  destruct out as [wid|e|msg].
  2:{ apply removesOne_reads.
      - apply describes_reads. split_app; assumption.
      - intros F wid Hwid. split_app.
        specialize (Hf ltac:(assumption) wid Hwid). discriminate. }
  2:{ exfalso. eapply Hp. reflexivity. }
  specialize (Hw wid eq_refl). quiet.
  step findInstanceToRemove_traces.
  destruct Hs as (Ho'' & o & -> & Hsel & Hfind). quiet.
  assert (Hreads : only readCall ((n ++ n0) ++ n1)).
  { split_app; [apply describes_reads | apply describes_reads
               | apply listTags_reads]; assumption. }
  assert (Hfind' : faultless ((n ++ n0) ++ n1) ->
                   o = find (selectable d wid dir) (instances dir)).
  { intros F. split_app. apply Hfind. assumption. }
  destruct o as [instanceToRemove|].
  - destruct (DryRun d) eqn:Edry; cbn [negb].
    + leaf. rewrite app_assoc. apply removesOne_reads; [assumption|].
      intros F wid' Hwid'. split; [reflexivity|].
      destruct (removable wid' dir); auto.
    + step DeleteDBInstance_traces.
      destruct Hs as (r & -> & Hr).
      destruct (Hsel _ eq_refl) as [Hin Hs].
      destruct out as [[]|e|msg].
      * leaf. rewrite !app_assoc.
        apply (removesOne_delete d dir wid); try assumption. reflexivity.
      * rewrite !app_assoc.
        apply (removesOne_delete d dir wid); try assumption.
        intros ->. discriminate Hr.
      * destruct r; discriminate Hr.
  - apply tracesFrom_Log. leaf. rewrite app_assoc.
    apply removesOne_reads; [assumption|].
    intros F wid' Hwid'. split; [reflexivity|].
    rewrite Hw in Hwid'. injection Hwid' as <-.
    rewrite (removable_find d), <- (Hfind' F). exact I.
Qed.

(** *** Removal in scheduled mode *)

Lemma RemoveScheduledReplicas_traces (d : DocumentDB)
    (scheduledInstances : list DBInstance) :
  traces (RemoveScheduledReplicas d scheduledInstances) (fun _ _ new =>
    only (fun c => DryRun d = false /\
            exists i, In i scheduledInstances /\ available i = true /\
                      c = DeleteDBInstanceCall (DBInstanceIdentifier i)) new).
Proof.
  induction scheduledInstances as [|instance rest IH]; intros dir;
    cbn [RemoveScheduledReplicas].
  - leaf. apply only_nil.
  - assert (Hrest : forall dir' n1,
      only (fun c => DryRun d = false /\
              exists i, In i (instance :: rest) /\ available i = true /\
                        c = DeleteDBInstanceCall (DBInstanceIdentifier i)) n1 ->
      tracesFrom dir' (RemoveScheduledReplicas d rest) (fun _ n2 =>
        only (fun c => DryRun d = false /\
                exists i, In i (instance :: rest) /\ available i = true /\
                          c = DeleteDBInstanceCall (DBInstanceIdentifier i))
          (n1 ++ n2))).
    { intros dir' n1 H1. eapply tracesFrom_conseq; [apply IH|].
      cbn beta. intros _ n2 H2. split_app; [assumption|].
      revert H2. apply only_weaken. intros c (Hd & i & Hi & Ha & ->).
      split; [exact Hd|]. exists i. split; [right; exact Hi|]. auto. }
    destruct (available instance) eqn:Ea; cbn [negb].
    + apply tracesFrom_bind.
      destruct (DryRun d) eqn:Edry; cbn [negb].
      * leaf. apply Hrest, only_nil.
      * step DeleteDBInstance_traces.
        destruct Hs as (r & -> & Hr).
        assert (Hd : only (fun c => false = false /\
                  exists i, In i (instance :: rest) /\ available i = true /\
                            c = DeleteDBInstanceCall (DBInstanceIdentifier i))
                  [(DeleteDBInstanceCall (DBInstanceIdentifier instance), r)]).
        { apply only_one. split; [reflexivity|]. exists instance.
          split; [left; reflexivity|]. auto. }
        destruct out as [[]|e|msg].
        -- leaf. apply Hrest, Hd.
        -- exact Hd.
        -- exact Hd.
    + apply tracesFrom_Log. apply (Hrest dir []), only_nil.
Qed.

Lemma collectScheduled_traces (d : DocumentDB)
    (readerInstances : list DBInstance) :
  forall scheduledInstances,
    traces (collectScheduled d readerInstances scheduledInstances)
      (fun dir out new =>
         only listTagsCall new /\
         (forall l, out = Ok l ->
            l = (scheduledInstances
                   ++ filter (owned schedulerTagKey dir) readerInstances)%list)
         /\ tagFailuresSurface out new).
Proof.
  induction readerInstances as [|instance rest IH];
    intros scheduledInstances dir; cbn [collectScheduled].
  - leaf. split; [apply only_nil|]. split.
    + intros l [= <-]. cbn. rewrite ?app_nil_r. reflexivity.
    + intros arn e [].
  - step HasSchedulerTag_traces.
    pose proof (answered_only listTagsCall Hs I) as Ho.
    destruct out as [hasTag|e|msg].
    + destruct Hs as (r & -> & Hr). quiet.
      assert (Et : hasTag = owned schedulerTagKey dir instance /\
                   forall e, r <> Fail e).
      { destruct r; try discriminate Hr; injection Hr as ->;
          split; try reflexivity; discriminate. }
      destruct Et as [Et Hnf].
      assert (Hk : forall acc,
        acc = (if hasTag then (scheduledInstances ++ [instance])%list
               else scheduledInstances) ->
        tracesFrom dir (collectScheduled d rest acc) (fun out' n2 =>
          only listTagsCall
            ([(ListTagsForResourceCall (DBInstanceArn instance), r)] ++ n2) /\
          (forall l, out' = Ok l ->
             l = (scheduledInstances
                    ++ filter (owned schedulerTagKey dir) (instance :: rest))
                   %list) /\
          tagFailuresSurface out'
            ([(ListTagsForResourceCall (DBInstanceArn instance), r)] ++ n2))).
      { intros acc ->. eapply tracesFrom_conseq; [apply IH|].
        cbn beta. intros out' n2 (Ho2 & Hl & Ht).
        split; [split_app; assumption|]. split.
        - intros l El. rewrite (Hl l El). cbn [filter]. rewrite <- Et.
          destruct hasTag; [rewrite <- app_assoc|]; reflexivity.
        - intros arn e [Hin|Hin].
          + injection Hin as _ E. destruct (Hnf e). exact E.
          + apply (Ht arn e Hin). }
      destruct hasTag; apply Hk; reflexivity.
    + split; [assumption|]. split; [discriminate|].
      rewrite (answered_Err Hs). intros arn e' [Hin|[]].
      injection Hin as _ ->. reflexivity.
    + destruct (answered_sound Hs).
Qed.

(** *** Notifications *)

Lemma notify_scale_in (d : DocumentDB) (replicasRemoved : Z) :
  traces
    (r <- try (SendScaleInNotification (ClusterID d) replicasRemoved) ;;
     match r with
     | inr _ => Log ERROR "Failed to send scale-in notification"
     | inl _ => ret tt
     end)
    (fun _ => notified (scaleInMessage d replicasRemoved)).
Proof.
  intros dir. apply tracesFrom_bind, tracesFrom_try.
  eapply tracesFrom_conseq; [apply Publish_traces|].
  cbn beta. intros out n (r & -> & Hr).
  destruct out as [[]|e|msg].
  - leaf. split; [reflexivity|]. exists r. reflexivity.
  - leaf. split; [reflexivity|]. exists r. reflexivity.
  - destruct r; discriminate Hr.
Qed.

Lemma notify_scale_out (d : DocumentDB) (replicasAdded : Z) :
  traces
    (r <- try (SendScaleOutNotification (ClusterID d) replicasAdded) ;;
     match r with
     | inr _ => Log ERROR "Failed to send scale-out notification"
     | inl _ => ret tt
     end)
    (fun _ => notified (scaleOutMessage d replicasAdded)).
Proof.
  intros dir. apply tracesFrom_bind, tracesFrom_try.
  eapply tracesFrom_conseq; [apply Publish_traces|].
  cbn beta. intros out n (r & -> & Hr).
  destruct out as [[]|e|msg].
  - leaf. split; [reflexivity|]. exists r. reflexivity.
  - leaf. split; [reflexivity|]. exists r. reflexivity.
  - destruct r; discriminate Hr.
Qed.

Lemma scaleNotification_in (d : DocumentDB) (n : Z) :
  scaleNotification d (PublishCall (scaleInMessage d n)).
Proof. exists n. right. reflexivity. Qed.

Lemma scaleNotification_out (d : DocumentDB) (n : Z) :
  scaleNotification d (PublishCall (scaleOutMessage d n)).
Proof. exists n. left. reflexivity. Qed.

(** *** Tag reads in a trace *)

Lemma tagReadsOk_nil : tagReadsOk [].
Proof. intros arn e []. Qed.

Lemma tagReadsOk_app (n1 n2 : list (Call * Reply)) :
  tagReadsOk n1 -> tagReadsOk n2 -> tagReadsOk (n1 ++ n2).
Proof.
  intros H1 H2 arn e Hin. apply in_app_or in Hin.
  destruct Hin as [Hin|Hin]; [apply (H1 _ _ Hin) | apply (H2 _ _ Hin)].
Qed.

Lemma only_tagReadsOk (ok : Call -> Prop) (new : list (Call * Reply)) :
  (forall c, ok c -> ~ listTagsCall c) -> only ok new -> tagReadsOk new.
Proof.
  intros H Ho arn e Hin. unfold only in Ho. rewrite Forall_forall in Ho.
  apply (H _ (Ho _ Hin)). exact I.
Qed.

Lemma describes_tagReadsOk (new : list (Call * Reply)) :
  only describeCall new -> tagReadsOk new.
Proof. apply only_tagReadsOk. destruct c; cbn; tauto. Qed.

Lemma surfaced_tagReadsOk {A} (a : A) (new : list (Call * Reply)) :
  tagFailuresSurface (Ok a) new -> tagReadsOk new.
Proof. intros H arn e Hin. specialize (H arn e Hin). discriminate. Qed.

Lemma tagReadsOk_surface {A} (out : Outcome A) (new : list (Call * Reply)) :
  tagReadsOk new -> tagFailuresSurface out new.
Proof. intros H arn e Hin. destruct (H arn e Hin). Qed.

Lemma notified_tagReadsOk (message : string) (out : Outcome unit)
    (new : list (Call * Reply)) :
  notified message out new -> tagReadsOk new.
Proof. intros (_ & r & ->) arn e [Hin|[]]. discriminate. Qed.

(** *** Reconciler, scheduled mode *)

Lemma allowed_reads (d : DocumentDB) (dir : Directory)
    (new : list (Call * Reply)) :
  only readCall new -> only (allowedCall d dir) new.
Proof. apply only_weaken. unfold allowedCall. tauto. Qed.

Lemma allowed_notified (d : DocumentDB) (dir : Directory) (message : string)
    (out : Outcome unit) (new : list (Call * Reply)) :
  scaleNotification d (PublishCall message) ->
  notified message out new -> only (allowedCall d dir) new.
Proof.
  intros Hn (_ & r & ->). apply only_one. unfold allowedCall. tauto.
Qed.

Lemma notified_counts (message : string) (out : Outcome unit)
    (new : list (Call * Reply)) :
  notified message out new ->
  creates new = 0%nat /\ deletes new = 0%nat /\ mutations new = [] /\
  exists r, publications new = [(PublishCall message, r)].
Proof.
  intros (_ & r & ->). repeat split. exists r. reflexivity.
Qed.

Lemma creations_counts (d : DocumentDB) (role key : string)
    (new : list (Call * Reply)) :
  only (fun c => describeCall c \/ creationCall d role key c) new ->
  deletes new = 0%nat /\ tagReadsOk new.
Proof.
  intros H. split.
  - revert H. apply only_deletes_0.
    intros c [Hc|[_ Hc]]; destruct c; cbn in *; tauto.
  - revert H. apply only_tagReadsOk.
    intros c [Hc|[_ Hc]]; destruct c; cbn in *; tauto.
Qed.

Lemma allowed_creations_scheduled (d : DocumentDB) (dir : Directory)
    (new : list (Call * Reply)) :
  ScheduledScaling d = true ->
  only (fun c => describeCall c \/
          creationCall d "scheduler" schedulerTagKey c) new ->
  only (allowedCall d dir) new.
Proof.
  intros Hm. apply only_weaken. unfold allowedCall, modeRole, modeTagKey.
  rewrite Hm. unfold readCall. tauto.
Qed.

Lemma allowed_removals_scheduled (d : DocumentDB) (dir : Directory)
    (wid : string) (new : list (Call * Reply)) :
  ScheduledScaling d = true ->
  writerOf dir = Some wid ->
  only (fun c => DryRun d = false /\
          exists i, In i (scheduledReaders wid dir) /\ available i = true /\
                    c = DeleteDBInstanceCall (DBInstanceIdentifier i)) new ->
  only (allowedCall d dir) new /\ creates new = 0%nat /\ tagReadsOk new.
Proof.
  intros Hm Hw H. split; [|split].
  - revert H. apply only_weaken. intros c (Hd & i & Hi & Ha & ->).
    unfold allowedCall, modeTagKey. rewrite Hm. right. right. left.
    unfold scheduledReaders in Hi. apply filter_In in Hi.
    destruct Hi as [Hi Ho].
    split; [exact Hd|]. exists wid, i. auto.
  - revert H. apply only_creates_0. intros c (_ & i & _ & _ & ->). reflexivity.
  - revert H. apply only_tagReadsOk. intros c (_ & i & _ & _ & ->) [].
Qed.

Lemma scheduledRun_reads (d : DocumentDB) (dir : Directory)
    (out : Outcome unit) (new : list (Call * Reply)) :
  only readCall new -> tagFailuresSurface out new -> scheduledRun d dir out new.
Proof.
  intros Ho Ht. split; [apply allowed_reads, Ho|]. split; [exact Ht|].
  left. rewrite (reads_creates _ Ho), (reads_deletes _ Ho). auto.
Qed.

Lemma ExecuteScheduledScalingAction_traces (d : DocumentDB) :
  ScheduledScaling d = true ->
  traces (ExecuteScheduledScalingAction d) (scheduledRun d).
Proof.
  intros Hm dir. unfold ExecuteScheduledScalingAction.
  apply tracesFrom_Log.
  step GetReaderInstances_traces.
  destruct Hs as (Ho & Hr & _ & Hp).
  pose proof (describes_reads _ Ho) as Hreads.
  pose proof (describes_tagReadsOk _ Ho) as Htag.
  destruct out as [readerInstances|e|msg].
  2:{ apply scheduledRun_reads; [assumption | apply tagReadsOk_surface, Htag]. }
  2:{ exfalso. eapply Hp. reflexivity. }
  destruct (Hr _ eq_refl) as (wid & Hw & ->). clear Hr Hp. quiet.
  step collectScheduled_traces.
  destruct Hs as (Ho0 & Hl & Ht).
  assert (Hreads0 : only readCall (n ++ n0)).
  { split_app; [assumption | apply listTags_reads; assumption]. }
  destruct out as [scheduledInstances|e|msg].
  2:{ apply scheduledRun_reads; [assumption|].
      intros arn e' Hin. apply in_app_or in Hin.
      destruct Hin as [Hin|Hin]; [destruct (Htag _ _ Hin)|].
      specialize (Ht _ _ Hin). congruence. }
  2:{ apply scheduledRun_reads; [assumption|].
      intros arn e' Hin. apply in_app_or in Hin.
      destruct Hin as [Hin|Hin]; [destruct (Htag _ _ Hin)|].
      specialize (Ht _ _ Hin). congruence. }
  rewrite (Hl _ eq_refl). cbn [app]. fold (scheduledReaders wid dir).
  pose proof (surfaced_tagReadsOk _ _ Ht) as Htag0. clear Hl Ht. quiet.
  assert (Htags : tagReadsOk (n ++ n0)) by (apply tagReadsOk_app; assumption).
  apply tracesFrom_Log.
  destruct (Z.of_nat (List.length (scheduledReaders wid dir)) >? 0) eqn:Epos.
  - (* Scale In *)
    assert (Hne : scheduledReaders wid dir <> []).
    { intros E. rewrite E in Epos. discriminate Epos. }
    apply tracesFrom_Log.
    step RemoveScheduledReplicas_traces.
    destruct (allowed_removals_scheduled d dir wid _ Hm Hw Hs)
      as (Ha1 & Hc1 & Ht1).
    assert (Hrun : forall out' rest,
      only (allowedCall d dir) rest -> creates rest = 0%nat ->
      tagReadsOk rest ->
      scheduledRun d dir out' (n ++ n0 ++ n1 ++ rest)).
    { intros out' rest Ha Hc Htr. split; [|split].
      - rewrite app_assoc. apply only_app. split;
          [apply allowed_reads, Hreads0 | apply only_app; split; assumption].
      - apply tagReadsOk_surface. rewrite app_assoc.
        repeat apply tagReadsOk_app; assumption.
      - left. rewrite app_assoc, (creates_app (n ++ n0)), (creates_app n1),
          (reads_creates _ Hreads0), Hc1, Hc.
        split; [reflexivity|]. right. exists wid. auto. }
    destruct out as [[]|e|msg].
    + eapply tracesFrom_conseq; [apply notify_scale_in|].
      cbn beta. intros out' n2 Hn.
      apply Hrun.
      * apply (allowed_notified d dir _ _ _ (scaleNotification_in d _) Hn).
      * apply (notified_counts _ _ _ Hn).
      * apply (notified_tagReadsOk _ _ _ Hn).
    + specialize (Hrun (Err e) [] (only_nil _) eq_refl tagReadsOk_nil).
      trace_norm. exact Hrun.
    + specialize (Hrun (Panic msg) [] (only_nil _) eq_refl tagReadsOk_nil).
      trace_norm. exact Hrun.
  - (* Scale Out *)
    fold (readerCount wid dir).
    set (cur := readerCount wid dir).
    set (desired := Int64.add cur (ScheduleNumberReplicas d)).
    assert (Hstop : forall out',
      tagFailuresSurface out' (n ++ n0) -> scheduledRun d dir out' (n ++ n0)).
    { intros out' Hsur. apply scheduledRun_reads; assumption. }
    assert (Hadd : forall replicasToAdd,
      (Z.to_nat replicasToAdd
         <= Z.to_nat (scheduledReplicas d (readerCount wid dir)))%nat ->
      tracesFrom dir
        (orElse (AddScheduledReplicas d replicasToAdd)
           (fun _ => Log ERROR "Failed to add scheduled replicas") ;;
         r <- try (SendScaleOutNotification (ClusterID d) replicasToAdd) ;;
         match r with
         | inr _ => Log ERROR "Failed to send scale-out notification"
         | inl _ => ret tt
         end)
        (fun out' n2 => scheduledRun d dir out' ((n ++ n0) ++ n2))).
    { intros replicasToAdd Hle.
      step AddScheduledReplicas_traces.
      destruct Hs as (Hcr & Hcnt).
      destruct (creations_counts _ _ _ _ Hcr) as (Hdel & Htc).
      pose proof (allowed_creations_scheduled d dir _ Hm Hcr) as Hal.
      assert (Hrun : forall out' rest,
        only (allowedCall d dir) rest -> creates rest = 0%nat ->
        deletes rest = 0%nat -> tagReadsOk rest ->
        scheduledRun d dir out' ((n ++ n0) ++ n1 ++ rest)).
      { intros out' rest Ha Hc Hd Htr. split; [|split].
        - apply only_app. split;
            [apply allowed_reads, Hreads0 | apply only_app; split; assumption].
        - apply tagReadsOk_surface. repeat apply tagReadsOk_app; assumption.
        - right. rewrite (deletes_app (n ++ n0)), (deletes_app n1),
            (creates_app (n ++ n0)), (creates_app n1),
            (reads_creates _ Hreads0), (reads_deletes _ Hreads0), Hdel, Hd, Hc.
          split; [reflexivity|]. exists wid. split; [assumption|]. lia. }
      destruct out as [[]|e|msg].
      - eapply tracesFrom_conseq; [apply notify_scale_out|].
        cbn beta. intros out' n2 Hn. apply Hrun.
        + apply (allowed_notified d dir _ _ _ (scaleNotification_out d _) Hn).
        + apply (notified_counts _ _ _ Hn).
        + apply (notified_counts _ _ _ Hn).
        + apply (notified_tagReadsOk _ _ _ Hn).
      - specialize (Hrun (Err e) [] (only_nil _) eq_refl eq_refl
                      tagReadsOk_nil).
        trace_norm. exact Hrun.
      - specialize (Hrun (Panic msg) [] (only_nil _) eq_refl eq_refl
                      tagReadsOk_nil).
        trace_norm. exact Hrun. }
    unfold scheduledReplicas in Hadd. fold cur desired in Hadd.
    destruct (desired >? MaxCapacity d) eqn:Eover; cbn [andb] in *.
    + destruct (Int64.sub (MaxCapacity d) cur <=? 0) eqn:Ele.
      * leaf. apply Hstop, tagReadsOk_surface, Htags.
      * apply tracesFrom_Log.
        destruct (desired <? MinCapacity d) eqn:Eunder.
        -- apply tracesFrom_Log, tracesFrom_Log.
           eapply tracesFrom_conseq; [apply Hadd; lia|].
           cbn beta. intros out' n2 H. rewrite <- app_assoc in H. exact H.
        -- apply tracesFrom_ret_bind, tracesFrom_Log.
           eapply tracesFrom_conseq; [apply Hadd; lia|].
           cbn beta. intros out' n2 H. rewrite <- app_assoc in H. exact H.
    + apply tracesFrom_ret_bind.
      destruct (desired <? MinCapacity d) eqn:Eunder.
      * apply tracesFrom_Log, tracesFrom_Log.
        eapply tracesFrom_conseq; [apply Hadd; lia|].
        cbn beta. intros out' n2 H. rewrite <- app_assoc in H. exact H.
      * apply tracesFrom_ret_bind, tracesFrom_Log.
        eapply tracesFrom_conseq; [apply Hadd; lia|].
        cbn beta. intros out' n2 H. rewrite <- app_assoc in H. exact H.
Qed.

(** *** Reconciler, metric mode *)

Lemma allowed_creations_metric (d : DocumentDB) (dir : Directory)
    (new : list (Call * Reply)) :
  ScheduledScaling d = false ->
  only (fun c => describeCall c \/
          creationCall d "reader" autoscalerTagKey c) new ->
  only (allowedCall d dir) new.
Proof.
  intros Hm. apply only_weaken. unfold allowedCall, modeRole, modeTagKey.
  rewrite Hm. unfold readCall. tauto.
Qed.

Lemma allowed_removal_metric (d : DocumentDB) (dir : Directory)
    (new : list (Call * Reply)) :
  ScheduledScaling d = false ->
  only (fun c => readCall c \/ removalCall d autoscalerTagKey dir c) new ->
  only (allowedCall d dir) new.
Proof.
  intros Hm. apply only_weaken. unfold allowedCall, modeTagKey.
  rewrite Hm. tauto.
Qed.

Lemma metricRun_reads (d : DocumentDB) (m : Q) (dir : Directory)
    (out : Outcome unit) (new : list (Call * Reply)) :
  only readCall new ->
  (faultless new -> forall wid, writerOf dir = Some wid ->
     CalculateDesiredCapacity d m (readerCount wid dir) < readerCount wid dir ->
     False) ->
  metricRun d m dir out new.
Proof.
  intros Ho Hno. split; [apply allowed_reads, Ho|]. split.
  - left. rewrite (reads_creates _ Ho), (reads_deletes _ Ho). auto.
  - intros F wid Hw Hlt. destruct (Hno F wid Hw Hlt).
Qed.

Lemma scaleToMetric_traces (d : DocumentDB) (m : Q) :
  ScheduledScaling d = false ->
  traces (scaleToMetric d m) (metricRun d m).
Proof.
  intros Hm dir. unfold scaleToMetric.
  step GetCurrentCapacity_traces.
  destruct Hs as (Ho & Hn & Hf & Hp).
  pose proof (describes_reads _ Ho) as Hreads.
  destruct out as [currentCapacity|e|msg].
  2:{ apply metricRun_reads; [assumption|].
      intros F wid Hw _. specialize (Hf F wid Hw). discriminate. }
  2:{ exfalso. eapply Hp. reflexivity. }
  destruct (Hn _ eq_refl) as (wid & Hw & ->). clear Hn Hf Hp. quiet.
  apply tracesFrom_Log, tracesFrom_Log.
  set (cur := readerCount wid dir).
  set (desired := CalculateDesiredCapacity d m cur).
  assert (Hcur : forall wid', writerOf dir = Some wid' ->
                              readerCount wid' dir = cur).
  { intros wid' Hw'. rewrite Hw in Hw'. injection Hw' as <-. reflexivity. }
  destruct (desired >? cur) eqn:Egt.
  - (* Scale Out *)
    apply tracesFrom_Log.
    step AddReplicas_traces.
    destruct Hs as (Hcr & Hcnt).
    destruct (creations_counts _ _ _ _ Hcr) as (Hdel & _).
    pose proof (allowed_creations_metric d dir _ Hm Hcr) as Hal.
    assert (Hrun : forall out' rest,
      only (allowedCall d dir) rest -> creates rest = 0%nat ->
      deletes rest = 0%nat ->
      metricRun d m dir out' (n ++ n0 ++ rest)).
    { intros out' rest Ha Hc Hd. split; [|split].
      - apply only_app. split; [apply allowed_reads, Hreads|].
        apply only_app. split; assumption.
      - right. exists wid. split; [exact Hw|]. left. fold cur desired.
        rewrite (deletes_app n), (deletes_app n0), (creates_app n),
          (creates_app n0), (reads_creates _ Hreads), (reads_deletes _ Hreads),
          Hdel, Hd, Hc.
        split; [lia|]. split; [reflexivity|]. lia.
      - intros _ wid' Hw' Hlt. rewrite (Hcur _ Hw') in Hlt.
        fold desired in Hlt. lia. }
    destruct out as [[]|e|msg].
    + eapply tracesFrom_conseq; [apply notify_scale_out|].
      cbn beta. intros out' n2 Hn. apply Hrun.
      * apply (allowed_notified d dir _ _ _ (scaleNotification_out d _) Hn).
      * apply (notified_counts _ _ _ Hn).
      * apply (notified_counts _ _ _ Hn).
    + specialize (Hrun (Err e) [] (only_nil _) eq_refl eq_refl).
      trace_norm. exact Hrun.
    + specialize (Hrun (Panic msg) [] (only_nil _) eq_refl eq_refl).
      trace_norm. exact Hrun.
  - destruct (desired <? cur) eqn:Elt.
    + (* Scale In *)
      apply tracesFrom_Log.
      change (Z.to_nat 1) with 1%nat. cbn [repeatM].
      apply tracesFrom_bind, tracesFrom_bind.
      eapply tracesFrom_conseq;
        [apply tracesFrom_orElse_Log, RemoveReplica_traces|].
      cbn beta. intros out n0 (Hrm & Hdel & Hcr & Hpub & Hexact).
      pose proof (allowed_removal_metric d dir _ Hm Hrm) as Hal.
      assert (Hrun : forall out' rest,
        only (allowedCall d dir) rest -> creates rest = 0%nat ->
        deletes rest = 0%nat -> mutations rest = [] ->
        (out = Ok tt -> faultless rest ->
           out' = Ok tt /\
           publications rest = [(PublishCall (scaleInMessage d 1), Succeed)]) ->
        metricRun d m dir out' (n ++ n0 ++ rest)).
      { intros out' rest Ha Hc Hd Hmu Hok. split; [|split].
        - apply only_app. split; [apply allowed_reads, Hreads|].
          apply only_app. split; assumption.
        - right. exists wid. split; [exact Hw|]. right. fold cur desired.
          rewrite (deletes_app n), (deletes_app n0), (creates_app n),
            (creates_app n0), (reads_creates _ Hreads),
            (reads_deletes _ Hreads), Hcr, Hd, Hc.
          split; [lia|]. split; [reflexivity|]. lia.
        - intros F wid' Hw' _.
          apply faultless_app in F. destruct F as [F1 F].
          apply faultless_app in F. destruct F as [F2 F3].
          destruct (Hexact F2 wid' Hw') as [Eout Emut].
          destruct (Hok Eout F3) as [-> Epub].
          split; [reflexivity|].
          rewrite (mutations_app n), (mutations_app n0),
            (publications_app n), (publications_app n0),
            (reads_mutations _ Hreads), (reads_publications _ Hreads),
            Emut, Hmu, Hpub, Epub, app_nil_r.
          auto. }
      destruct out as [[]|e|msg].
      * leaf. cbn [app replay fold_left].
        eapply tracesFrom_conseq; [apply notify_scale_in|].
        cbn beta. intros out' n2 Hn. apply Hrun.
        -- apply (allowed_notified d dir _ _ _ (scaleNotification_in d _) Hn).
        -- apply (notified_counts _ _ _ Hn).
        -- apply (notified_counts _ _ _ Hn).
        -- apply (notified_counts _ _ _ Hn).
        -- intros _ F. destruct Hn as (-> & r & ->).
           apply faultless_one in F. subst r. auto.
      * specialize (Hrun (Err e) [] (only_nil _) eq_refl eq_refl eq_refl).
        trace_norm. apply Hrun. discriminate.
      * specialize (Hrun (Panic msg) [] (only_nil _) eq_refl eq_refl eq_refl).
        trace_norm. apply Hrun. discriminate.
    + (* No action needed *)
      leaf. apply metricRun_reads; [assumption|].
      intros _ wid' Hw' Hlt'. rewrite (Hcur _ Hw') in Hlt'.
      fold desired in Hlt'. lia.
Qed.

Lemma ExecuteMetricBasedScalingAction_traces (d : DocumentDB) :
  ScheduledScaling d = false ->
  traces (ExecuteMetricBasedScalingAction d) (fun dir out new =>
    only (allowedCall d dir) new /\ exists m, metricCounts d m dir new).
Proof.
  intros Hm dir. unfold ExecuteMetricBasedScalingAction.
  step GetCurrentMetricValue_traces.
  destruct out as [m|e|msg].
  - quiet. apply tracesFrom_Log.
    eapply tracesFrom_conseq; [apply (scaleToMetric_traces d m Hm)|].
    cbn beta. intros out' n2 (Ha & Hc & _). split.
    + apply only_app. split; [apply allowed_reads, Hs | exact Ha].
    + exists m. destruct Hc as [[Hc Hd]|(wid & Hw & Hc)].
      * left. rewrite creates_app, deletes_app, (reads_creates _ Hs),
          (reads_deletes _ Hs). auto.
      * right. exists wid. split; [exact Hw|]. cbv zeta in *.
        rewrite creates_app, deletes_app, (reads_creates _ Hs),
          (reads_deletes _ Hs). exact Hc.
  - split; [apply allowed_reads, Hs|]. exists 0%Q. left.
    rewrite (reads_creates _ Hs), (reads_deletes _ Hs). auto.
  - split; [apply allowed_reads, Hs|]. exists 0%Q. left.
    rewrite (reads_creates _ Hs), (reads_deletes _ Hs). auto.
Qed.

(** *** Reconciler, either mode *)

Lemma ExecuteScalingAction_traces (d : DocumentDB) :
  traces (ExecuteScalingAction d) (reconciles d).
Proof.
  intros dir. unfold ExecuteScalingAction, reconciles.
  destruct (ScheduledScaling d) eqn:Hm.
  - eapply tracesFrom_conseq;
      [apply (ExecuteScheduledScalingAction_traces d Hm)|].
    cbn beta. intros out new (Ha & Ht & Hc). auto.
  - eapply tracesFrom_conseq;
      [apply (ExecuteMetricBasedScalingAction_traces d Hm)|].
    cbn beta. intros out new H. exact H.
Qed.

(** ** The directory after a trace *)

Lemma effect_clusters (c : Call) (r : Reply) (dir : Directory) :
  clusters (effect c r dir) = clusters dir.
Proof. destruct c, r; reflexivity. Qed.

Lemma replay_writerOf (new : list (Call * Reply)) (dir : Directory) :
  writerOf (replay new dir) = writerOf dir.
Proof.
  revert dir. induction new as [|[c r] new IH]; intros dir; cbn.
  - reflexivity.
  - fold (replay new (effect c r dir)). rewrite IH.
    unfold writerOf. rewrite effect_clusters. reflexivity.
Qed.

Lemma removeInstance_readers (wid identifier : string) (l : list DBInstance) :
  let readers l :=
    List.length (filter (fun i => negb (isWriter wid i)) l) in
  (readers l <= S (readers (removeInstance identifier l)))%nat /\
  (readers (removeInstance identifier l) <= readers l)%nat.
Proof.
  cbv zeta. induction l as [|i l IH]; cbn.
  - lia.
  - destruct (DBInstanceIdentifier i =? identifier)%string.
    + destruct (negb (isWriter wid i)); cbn; lia.
    + cbn. destruct (negb (isWriter wid i)); cbn; lia.
Qed.

Lemma effect_readerCount (wid : string) (c : Call) (r : Reply)
    (dir : Directory) :
  readerCount wid dir - (if isDelete c then 1 else 0)
    <= readerCount wid (effect c r dir)
    <= readerCount wid dir + (if isCreate c then 1 else 0).
Proof.
  unfold readerCount, readersOf.
  destruct r; destruct c; cbn -[Z.of_nat]; try lia.
  - rewrite filter_app, length_app. cbn -[Z.of_nat].
    destruct (negb _); cbn -[Z.of_nat]; lia.
  - pose proof (removeInstance_readers wid identifier (instances dir)) as H.
    cbv zeta in H. lia.
  - rewrite filter_app, length_app. cbn -[Z.of_nat].
    destruct (negb _); cbn -[Z.of_nat]; lia.
  - pose proof (removeInstance_readers wid identifier (instances dir)) as H.
    cbv zeta in H. lia.
Qed.

Lemma replay_readerCount (wid : string) (new : list (Call * Reply))
    (dir : Directory) :
  readerCount wid dir - Z.of_nat (deletes new)
    <= readerCount wid (replay new dir)
    <= readerCount wid dir + Z.of_nat (creates new).
Proof.
  revert dir. induction new as [|[c r] new IH]; intros dir.
  - cbn. lia.
  - change (replay ((c, r) :: new) dir) with (replay new (effect c r dir)).
    specialize (IH (effect c r dir)).
    pose proof (effect_readerCount wid c r dir) as H.
    unfold creates, deletes in *. cbn [filter fst].
    destruct (isCreate c), (isDelete c); cbn [List.length]; lia.
Qed.

(** ** Capacity bounds across an invocation *)

Lemma CalculateDesiredCapacity_bounds (d : DocumentDB) (m : Q) (cur : Z) :
  MinCapacity d <= MaxCapacity d ->
  MinCapacity d <= CalculateDesiredCapacity d m cur <= MaxCapacity d.
Proof.
  intros Hb. rewrite (CalculateDesiredCapacity_round d m cur Hb).
  unfold spec_desired, clamp. lia.
Qed.

Lemma scheduledReplicas_bound (d : DocumentDB) (cur : Z) :
  sane d ->
  MinCapacity d <= cur <= MaxCapacity d ->
  cur + Z.of_nat (Z.to_nat (scheduledReplicas d cur)) <= MaxCapacity d.
Proof.
  intros (Hmin & Hmax & Hs) Hcur.
  unfold Int64.in_range, Int64.MinInt64, Int64.MaxInt64, Int64.half in *.
  unfold scheduledReplicas.
  assert (Esub1 : Int64.sub (MaxCapacity d) cur = MaxCapacity d - cur).
  { apply Int64Facts.wrap64_small.
    unfold Int64.in_range, Int64.MinInt64, Int64.MaxInt64, Int64.half. lia. }
  assert (Esub2 : Int64.sub (MinCapacity d) cur = MinCapacity d - cur).
  { apply Int64Facts.wrap64_small.
    unfold Int64.in_range, Int64.MinInt64, Int64.MaxInt64, Int64.half. lia. }
  rewrite Esub1, Esub2.
  set (desired := Int64.add cur (ScheduleNumberReplicas d)).
  destruct (desired >? MaxCapacity d) eqn:Eover; cbn [andb].
  - destruct (MaxCapacity d - cur <=? 0) eqn:Ele; [lia|].
    destruct (desired <? MinCapacity d) eqn:Eunder; lia.
  - destruct (desired <? MinCapacity d) eqn:Eunder; [lia|].
    destruct (Z.leb_spec (ScheduleNumberReplicas d) 0) as [Hneg|Hpos]; [lia|].
    assert (Hd : desired = cur + ScheduleNumberReplicas d
                 \/ desired = cur + ScheduleNumberReplicas d - 2 ^ 64).
    { unfold desired, Int64.add, Int64.wrap64, Int64.modulus, Int64.half.
      destruct (Z_lt_ge_dec (cur + ScheduleNumberReplicas d) (2 ^ 63))
        as [Hlt|Hge].
      - left. rewrite Z.mod_small; lia.
      - right.
        replace (cur + ScheduleNumberReplicas d + 2 ^ 63)
          with ((cur + ScheduleNumberReplicas d - 2 ^ 63) + 1 * 2 ^ 64) by lia.
        rewrite Z.mod_add by lia. rewrite Z.mod_small; lia. }
    destruct Hd as [Hd|Hd]; lia.
Qed.




(** ** What is deleted, and the writer *)

Lemma find_app_Some {A} (p : A -> bool) (l1 l2 : list A) (a : A) :
  find p l1 = Some a -> find p (l1 ++ l2) = Some a.
Proof.
  induction l1 as [|x l1 IH]; cbn; [discriminate|].
  destruct (p x); [auto | exact IH].
Qed.

Lemma removeInstance_writer (wid identifier : string) (l : list DBInstance) :
  identifier <> wid ->
  find (isWriter wid) (removeInstance identifier l) = find (isWriter wid) l.
Proof.
  intros Hne. induction l as [|i l IH]; cbn; [reflexivity|].
  destruct (DBInstanceIdentifier i =? identifier)%string eqn:Ei.
  - apply String.eqb_eq in Ei. unfold isWriter at 2.
    destruct (DBInstanceIdentifier i =? wid)%string eqn:Ew; [|reflexivity].
    apply String.eqb_eq in Ew. congruence.
  - cbn. rewrite IH. reflexivity.
Qed.

Lemma replay_writerInstance (wid : string) (wi : DBInstance)
    (new : list (Call * Reply)) :
  (forall identifier r,
     In (DeleteDBInstanceCall identifier, r) new -> identifier <> wid) ->
  forall dir,
    writerInstanceOf wid dir = Some wi ->
    writerInstanceOf wid (replay new dir) = Some wi.
Proof.
  unfold writerInstanceOf.
  induction new as [|[c r] new IH]; intros Hdel dir Hwi.
  - exact Hwi.
  - change (replay ((c, r) :: new) dir) with (replay new (effect c r dir)).
    apply IH.
    + intros identifier r' Hin. apply (Hdel identifier r'). right. exact Hin.
    + destruct r; destruct c; cbn; try exact Hwi.
      * apply find_app_Some, Hwi.
      * rewrite removeInstance_writer; [exact Hwi|].
        apply (Hdel identifier Succeed). left. reflexivity.
      * apply find_app_Some, Hwi.
      * rewrite removeInstance_writer; [exact Hwi|].
        apply (Hdel identifier SucceedNoArn). left. reflexivity.
Qed.

Lemma allowed_delete (d : DocumentDB) (dir : Directory) (identifier : string) :
  allowedCall d dir (DeleteDBInstanceCall identifier) ->
  DryRun d = false /\
  exists wid i,
    writerOf dir = Some wid /\
    In i (instances dir) /\
    DBInstanceIdentifier i = identifier /\
    identifier <> wid /\
    available i = true /\
    hasTag (modeTagKey d) (tagsOf dir (DBInstanceArn i)) = true.
Proof.
  intros [[H|[H|H]]|[[_ H]|[H|H]]]; try (cbn in H; tauto).
  - destruct H as (Hdry & wid & i & Hc & Hw & Hin & Ha & Ho).
    injection Hc as ->. split; [exact Hdry|]. exists wid, i.
    unfold readersOf in Hin. apply filter_In in Hin. destruct Hin as [Hin Hnw].
    repeat split; try assumption.
    unfold isWriter in Hnw. apply negb_true_iff, String.eqb_neq in Hnw.
    exact Hnw.
  - destruct H as (n & [H|H]); discriminate.
Qed.

Lemma allowed_create (d : DocumentDB) (dir : Directory)
    (cluster class identifier : string) :
  allowedCall d dir (CreateDBInstanceCall cluster class identifier) ->
  DryRun d = false /\
  cluster = ClusterID d /\
  exists unixNano,
    newIdentifier (ClusterID d) (modeRole d) unixNano = Ok identifier.
Proof.
  intros [[H|[H|H]]|[[Hdry H]|[H|H]]]; try (cbn in H; tauto).
  - destruct H as (_ & wid & i & Hc & _). discriminate.
  - destruct H as (n & [H|H]); discriminate.
Qed.


(** ** Through the retrying executor *)

Lemma extends_refl (w : World) : extends w w [].
Proof. unfold extends. rewrite app_nil_r. auto. Qed.

Lemma extends_trans (w w1 w2 : World) (n1 n2 : list (Call * Reply)) :
  extends w w1 n1 -> extends w1 w2 n2 -> extends w w2 (n1 ++ n2).
Proof.
  intros (C1 & D1) (C2 & D2). unfold extends.
  rewrite C2, C1, D2, D1, replay_app, app_assoc. auto.
Qed.

Lemma issued_extends (w w' : World) (new : list (Call * Reply)) :
  issued w w' new -> extends w w' new.
Proof. intros (C & D & _). split; assumption. Qed.

Lemma retryLoop_extends (ok : Call -> Prop) (action : M unit) (maxRetries : Z) :
  (forall w, exists new, extends w (snd (action w)) new /\ only ok new) ->
  forall n attempt backoff w,
    exists new,
      extends w (snd (retryLoop action maxRetries n attempt backoff w)) new /\
      only ok new.
Proof.
  intros Ha. induction n as [|n IH]; intros attempt backoff w.
  - exists []. split; [apply extends_refl | apply only_nil].
  - cbn [retryLoop]. unfold bind at 1, try.
    destruct (Ha w) as (n1 & E1 & O1).
    destruct (action w) as [[[]|e|msg] w1]; cbn [fst snd] in *.
    + exists n1. auto.
    + unfold bind, Log, Sleep.
      match goal with
      | |- context [retryLoop _ _ n ?a ?b ?w2] =>
          destruct (IH a b w2) as (n2 & E2 & O2)
      end.
      exists (n1 ++ n2)%list. split; [|apply only_app; auto].
      eapply extends_trans; [exact E1|].
      destruct E2 as (C2 & D2). split; [exact C2 | exact D2].
    + exists n1. auto.
Qed.

Lemma allowed_permitted (d : DocumentDB) (dir : Directory) (c : Call) :
  allowedCall d dir c -> permitted d c.
Proof.
  unfold permitted.
  intros [H|[[Hdry H]|[H|H]]]; [tauto | | | tauto].
  - right. right. split; [exact Hdry|]. destruct c; cbn in *; tauto.
  - destruct H as (Hdry & wid & i & -> & _). right. right. auto.
Qed.

Lemma ExecuteScalingAction_permitted (d : DocumentDB) (w : World) :
  exists new,
    extends w (snd (ExecuteScalingAction d w)) new /\ only (permitted d) new.
Proof.
  destruct (ExecuteScalingAction_traces d (directory w) w eq_refl)
    as (new & Hi & Ha & _).
  exists new. split; [apply issued_extends, Hi|].
  revert Ha. apply only_weaken, allowed_permitted.
Qed.

Lemma executeWithRetry_permitted (d : DocumentDB)
    (maxRetries initialBackoff : Z) (w : World) :
  exists new,
    extends w
      (snd (executeWithRetry (ExecuteScalingAction d) maxRetries
              initialBackoff w)) new /\
    only (permitted d) new.
Proof.
  unfold executeWithRetry. apply retryLoop_extends.
  apply ExecuteScalingAction_permitted.
Qed.

Lemma permitted_dry_run (d : DocumentDB) (new : list (Call * Reply)) :
  DryRun d = true -> only (permitted d) new ->
  mutations new = [] /\ forall dir, replay new dir = dir.
Proof.
  intros Hdry Ho.
  assert (Hq : forall c, permitted d c -> isMutation c = false).
  { intros c [H|[(n & [-> | ->])|[H _]]].
    - apply readCall_quiet, H.
    - reflexivity.
    - reflexivity.
    - congruence. }
  split.
  - apply (only_filter_nil (permitted d)); assumption.
  - intros dir. apply (only_replay (permitted d)); assumption.
Qed.



(** ** Metric scale-in *)

Lemma orElse_Log_fst {A} (m : M A) (l : Level) (msg : string) (w : World) :
  fst (orElse m (fun _ => Log l msg) w) = fst (m w).
Proof.
  unfold orElse, bind, try, Log, fail, ret.
  destruct (m w) as [[a|e|p] w1]; reflexivity.
Qed.

(** Sequencing, with the outcome of the first part in view. *)
Lemma bind_first {A B} (m : M A) (k : A -> M B) (w : World)
    (P : Outcome A -> list (Call * Reply) -> Prop)
    (Q : A -> Outcome B -> list (Call * Reply) -> Prop) :
  tracesFrom (directory w) m P ->
  (forall a n1, P (Ok a) n1 ->
     tracesFrom (replay n1 (directory w)) (k a) (Q a)) ->
  exists n1,
    P (fst (m w)) n1 /\
    match fst (m w) with
    | Ok a =>
        exists n2,
          issued w (snd (bind m k w)) (n1 ++ n2) /\
          Q a (fst (bind m k w)) n2
    | Err e =>
        issued w (snd (bind m k w)) n1 /\ fst (bind m k w) = Err e
    | Panic msg =>
        issued w (snd (bind m k w)) n1 /\ fst (bind m k w) = Panic msg
    end.
Proof.
  intros Hm Hk. destruct (Hm w eq_refl) as (n1 & I1 & H1).
  exists n1. split; [exact H1|]. unfold bind.
  destruct (m w) as [[a|e|msg] w1]; cbn [fst snd] in *; [|auto|auto].
  destruct (Hk a n1 H1 w1) as (n2 & I2 & H2).
  - apply I1.
  - exists n2. split; [|exact H2]. eapply issued_trans; eassumption.
Qed.




(** ** Tag read failures *)




(** ** Notifications of failure *)

Section Reaches.

Context {A B : Type}.
Variable ok : Call -> Prop.

Lemma reaches_ret (a : A) (V : A -> Prop) : V a -> reaches (ret a) ok V.
Proof.
  intros Hv w. exists []. split; [apply extends_refl|].
  split; [apply only_nil|]. intros a' [= <-]. exact Hv.
Qed.

Lemma reaches_fail (e : error) (V : A -> Prop) : reaches (fail e) ok V.
Proof.
  intros w. exists []. split; [apply extends_refl|].
  split; [apply only_nil | discriminate].
Qed.

Lemma reaches_bind (m : M A) (k : A -> M B) (U : A -> Prop) (V : B -> Prop) :
  reaches m ok U -> (forall a, U a -> reaches (k a) ok V) ->
  reaches (bind m k) ok V.
Proof.
  intros Hm Hk w. destruct (Hm w) as (n1 & E1 & O1 & U1). unfold bind.
  destruct (m w) as [[a|e|msg] w1]; cbn [fst snd] in *.
  - destruct (Hk a (U1 a eq_refl) w1) as (n2 & E2 & O2 & V2).
    exists (n1 ++ n2)%list. split; [eapply extends_trans; eassumption|].
    split; [apply only_app; auto | exact V2].
  - exists n1. split; [exact E1|]. split; [exact O1 | discriminate].
  - exists n1. split; [exact E1|]. split; [exact O1 | discriminate].
Qed.

Lemma reaches_orElse_Log (m : M A) (l : Level) (msg : string)
    (V : A -> Prop) :
  reaches m ok V -> reaches (orElse m (fun _ => Log l msg)) ok V.
Proof.
  intros Hm w. destruct (Hm w) as (n1 & E1 & O1 & V1).
  unfold orElse, bind, try, Log, fail, ret.
  destruct (m w) as [[a|e|p] w1]; cbn [fst snd] in *; exists n1;
    (split; [exact E1|]); (split; [exact O1|]);
    try discriminate; exact V1.
Qed.

End Reaches.

Lemma reaches_Log (ok : Call -> Prop) (l : Level) (msg : string) :
  reaches (Log l msg) ok (fun _ => True).
Proof.
  intros w. exists []. split; [|split; [apply only_nil | auto]].
  unfold extends, Log. cbn. rewrite app_nil_r. auto.
Qed.

Lemma reaches_when_Log (ok : Call -> Prop) (b : bool) (l : Level)
    (msg : string) :
  reaches (if b then Log l msg else ret tt) ok (fun _ => True).
Proof. destruct b; [apply reaches_Log | apply reaches_ret; exact I]. Qed.

Lemma processScaling_reaches (jsonUnmarshal : string -> ScalingMessage + error)
    (d : DocumentDB) (snsMessage : string) (maxRetries initialBackoff : Z) :
  reaches (processScaling jsonUnmarshal d snsMessage maxRetries initialBackoff)
    (permitted d) (fun _ => True).
Proof.
  unfold processScaling.
  apply (reaches_bind _ _ _ (fun autoscaler =>
           ClusterID autoscaler = ClusterID d /\
           DryRun autoscaler = DryRun d)).
  - destruct (negb (snsMessage =? "")%string).
    + destruct (jsonUnmarshal snsMessage) as [scalingMessage|err].
      * eapply reaches_bind; [apply reaches_Log|].
        intros _ _. apply reaches_ret. split; reflexivity.
      * eapply reaches_bind; [apply reaches_Log|].
        intros _ _. apply reaches_fail.
    + eapply reaches_bind; [apply reaches_Log|].
      intros _ _. apply reaches_ret. split; reflexivity.
  - intros autoscaler [Hc Hdry].
    apply (reaches_bind _ _ _ (fun _ => True)).
    + apply reaches_orElse_Log. intros w.
      destruct (executeWithRetry_permitted autoscaler maxRetries
                  initialBackoff w) as (new & He & Hp).
      exists new. split; [exact He|]. split; [|auto].
      revert Hp. apply only_weaken. unfold permitted, scaleNotification.
      rewrite Hc, Hdry. tauto.
    + intros _ _.
      eapply reaches_bind; [apply reaches_when_Log|]. intros _ _.
      eapply reaches_bind; [apply reaches_when_Log|]. intros _ _.
      apply reaches_ret. exact I.
Qed.

Lemma permitted_publish (d : DocumentDB) (message : string) :
  permitted d (PublishCall message) ->
  exists n, message = scaleOutMessage d n \/ message = scaleInMessage d n.
Proof.
  intros [[H|[H|H]]|[(n & [H|H])|[_ H]]]; try (cbn in H; tauto);
    try discriminate.
  - exists n. left. injection H as ->. reflexivity.
  - exists n. right. injection H as ->. reflexivity.
Qed.

(** C9. What the code does: every notification [processScaling] publishes,
    whatever the outcome, is a scale-out or a scale-in message; the text of
    a failure notification is never published.  When the retrying executor
    exhausts its attempts (here three rejected attempts), the error is
    logged and returned and nothing is sent to the notifier. *)
Theorem processScaling_publishes_no_failure :
  (forall (jsonUnmarshal : string -> ScalingMessage + error) (d : DocumentDB)
          (snsMessage : string) (maxRetries initialBackoff : Z) (w : World),
     let r := processScaling jsonUnmarshal d snsMessage maxRetries
                initialBackoff w in
     exists new,
       extends w (snd r) new /\
       forall message reply,
         In (PublishCall message, reply) new ->
         forall errorMessage action,
           message <> failureMessage (ClusterID d) errorMessage action) /\
  (let r := processScaling rejectJSON (testConfig true false) "" 3
              Duration.Second unreachableWorld in
   fst r = Err "scaling action failed after 3 attempts" /\
   publications (calls (snd r)) = [] /\
   In (ERROR, "Scaling action failed after retries") (logged (snd r))).
Proof.
  split.
  - intros jsonUnmarshal d snsMessage maxRetries initialBackoff w r.
    destruct (processScaling_reaches jsonUnmarshal d snsMessage maxRetries
                initialBackoff w) as (new & He & Hp & _).
    exists new. split; [exact He|].
    intros message reply Hin errorMessage action.
    unfold only in Hp. rewrite Forall_forall in Hp.
    destruct (permitted_publish d message (Hp _ Hin)) as (n & [-> | ->]);
      discriminate.
  - cbv zeta. vm_compute. intuition.
Qed.

(** ** Instance identifiers *)

(** C6. What the code does on cluster identifiers that are not themselves
    valid: three invalid characters in a row leave two consecutive hyphens
    (one pass of [ReplaceAll] halves a run of hyphens, it does not collapse
    it); a leading digit makes the sanitizer prefix a letter after the
    truncation to 63 characters, which gives 64; and 63 hyphens are trimmed
    to the empty string, on which [identifier[0]] panics. *)
Theorem newIdentifier_outside_constraints :
  (sanitizeDBInstanceIdentifier "a---b" = Ok "a--b" /\
   noDoubleHyphen "a--b" = false) /\
  (newIdentifier underscoreCluster "reader" 1730000000123456789
     = Ok "db--x-reader-123456789" /\
   validIdentifier "db--x-reader-123456789" = false) /\
  (newIdentifier digitCluster "reader" 1730000000123456789
     = Ok "a9-lives-documentdb-cluster-for-the-analytics-platform-productio" /\
   Strings.len
     "a9-lives-documentdb-cluster-for-the-analytics-platform-productio" = 64) /\
  (exists msg,
     newIdentifier hyphenCluster "scheduler" 1730000000123456789 = Panic msg) /\
  (let r := ExecuteScalingAction
              {| ClusterID := underscoreCluster; MinCapacity := 1;
                 MaxCapacity := 5; MetricName := "CPUUtilization";
                 TargetValue := 50; ScaleInCooldown := 300;
                 ScaleOutCooldown := 300; InstanceType := "";
                 DryRun := false; ScheduledScaling := true;
                 ScheduleNumberReplicas := 1 |}
              (mkWorld (clusterOf [] [] []) []) in
   In (CreateDBInstanceCall underscoreCluster "db.r6g.large"
         "db--x-scheduler-123456789", Succeed) (calls (snd r))).
Proof.
  split; [split; reflexivity|].
  split; [split; reflexivity|].
  split; [split; reflexivity|].
  split; [eexists; reflexivity|].
  cbv zeta. vm_compute. tauto.
Qed.

(** *** Valid cluster identifiers give valid instance identifiers *)

Lemma allBytes_app (p : Z -> bool) (s1 s2 : string) :
  allBytes p (s1 ++ s2) = allBytes p s1 && allBytes p s2.
Proof.
  induction s1 as [|a s1 IH]; cbn; [reflexivity|].
  rewrite IH, andb_assoc. reflexivity.
Qed.

Lemma allBytes_weaken (p q : Z -> bool) (s : string) :
  (forall b, p b = true -> q b = true) ->
  allBytes p s = true -> allBytes q s = true.
Proof.
  intros H. induction s as [|a s IH]; cbn; [reflexivity|].
  intros Hs. apply andb_prop in Hs. destruct Hs as [Ha Hs].
  rewrite (H _ Ha), (IH Hs). reflexivity.
Qed.

Lemma allBytes_substring (p : Z -> bool) (s : string) :
  forall n m, allBytes p s = true -> allBytes p (substring n m s) = true.
Proof.
  induction s as [|a s IH]; intros n m Hs.
  - destruct n, m; reflexivity.
  - cbn in Hs. apply andb_prop in Hs. destruct Hs as [Ha Hs].
    destruct n as [|n]; [destruct m as [|m]|]; cbn.
    + reflexivity.
    + rewrite Ha, (IH 0%nat m Hs). reflexivity.
    + apply IH, Hs.
Qed.

Lemma noDoubleHyphen_cons (a : ascii) (s : string) :
  noDoubleHyphen (String a s)
  = negb (Ascii.eqb a hyphen && startsWithHyphen s) && noDoubleHyphen s.
Proof. destruct s as [|b s]; cbn; [rewrite andb_false_r|]; reflexivity. Qed.

Lemma noTrailingHyphen_cons (a : ascii) (s : string) :
  noTrailingHyphen (String a s)
  = match s with
    | EmptyString => negb (Ascii.eqb a hyphen)
    | _ => noTrailingHyphen s
    end.
Proof. destruct s; reflexivity. Qed.

Lemma noDoubleHyphen_app (s1 s2 : string) :
  noDoubleHyphen s1 = true -> noDoubleHyphen s2 = true ->
  noTrailingHyphen s1 = true \/ startsWithHyphen s2 = false ->
  noDoubleHyphen (s1 ++ s2) = true.
Proof.
  induction s1 as [|a s1 IH]; intros H1 H2 Hj; [exact H2|].
  change (String a s1 ++ s2) with (String a (s1 ++ s2)).
  rewrite noDoubleHyphen_cons in *.
  apply andb_prop in H1. destruct H1 as [Ha H1].
  rewrite noTrailingHyphen_cons in Hj.
  destruct s1 as [|b s1].
  - cbn [append]. rewrite H2, andb_true_r.
    destruct Hj as [Hj|Hj]; [|rewrite Hj, andb_false_r; reflexivity].
    apply negb_true_iff in Hj. rewrite Hj. reflexivity.
  - rewrite (IH H1 H2 Hj), andb_true_r. exact Ha.
Qed.

Lemma noDoubleHyphen_substring0 (s : string) :
  forall m, noDoubleHyphen s = true ->
            noDoubleHyphen (substring 0 m s) = true.
Proof.
  induction s as [|a s IH]; intros m Hs; [destruct m; reflexivity|].
  destruct m as [|m]; [reflexivity|]. cbn [substring].
  rewrite noDoubleHyphen_cons in *.
  apply andb_prop in Hs. destruct Hs as [Ha Hs].
  rewrite (IH m Hs), andb_true_r.
  destruct (Ascii.eqb a hyphen); [|reflexivity]. cbn in *.
  destruct s as [|b s]; [destruct m; reflexivity|].
  destruct m; [reflexivity|]. cbn in *. exact Ha.
Qed.

Lemma length_substring0 (s : string) :
  forall m, (String.length (substring 0 m s) <= m)%nat.
Proof.
  induction s as [|a s IH]; intros m; destruct m; cbn; try lia.
  specialize (IH m). lia.
Qed.

Lemma TrimRight_length (s : string) (c : ascii) :
  (String.length (Strings.TrimRight s c) <= String.length s)%nat.
Proof.
  induction s as [|a s IH]; cbn; [lia|].
  destruct (Strings.TrimRight s c); [destruct (Ascii.eqb a c)|]; cbn in *; lia.
Qed.

Lemma TrimRight_allBytes (p : Z -> bool) (s : string) (c : ascii) :
  allBytes p s = true -> allBytes p (Strings.TrimRight s c) = true.
Proof.
  induction s as [|a s IH]; cbn; [reflexivity|].
  intros Hs. apply andb_prop in Hs. destruct Hs as [Ha Hs].
  specialize (IH Hs).
  destruct (Strings.TrimRight s c); [destruct (Ascii.eqb a c)|]; cbn in *;
    rewrite ?Ha, ?IH; reflexivity.
Qed.

Lemma TrimRight_startsWithHyphen (s : string) (c : ascii) :
  startsWithHyphen (Strings.TrimRight s c) = true ->
  startsWithHyphen s = true.
Proof.
  destruct s as [|a s]; cbn; [discriminate|].
  destruct (Strings.TrimRight s c); [destruct (Ascii.eqb a c)|]; cbn; auto.
  discriminate.
Qed.

Lemma TrimRight_noDoubleHyphen (s : string) (c : ascii) :
  noDoubleHyphen s = true -> noDoubleHyphen (Strings.TrimRight s c) = true.
Proof.
  induction s as [|a s IH]; [reflexivity|].
  rewrite noDoubleHyphen_cons. intros Hs.
  apply andb_prop in Hs. destruct Hs as [Ha Hs]. specialize (IH Hs).
  pose proof (TrimRight_startsWithHyphen s c) as Hh.
  cbn [Strings.TrimRight].
  destruct (Strings.TrimRight s c) as [|b r] eqn:Et.
  - destruct (Ascii.eqb a c); reflexivity.
  - rewrite noDoubleHyphen_cons, IH, andb_true_r.
    destruct (Ascii.eqb a hyphen); [|reflexivity]. cbn in *.
    destruct (Ascii.eqb b hyphen); [|reflexivity].
    rewrite (Hh eq_refl) in Ha. discriminate.
Qed.

Lemma TrimRight_noTrailingHyphen (s : string) :
  noTrailingHyphen (Strings.TrimRight s hyphen) = true.
Proof.
  induction s as [|a s IH]; [reflexivity|]. cbn [Strings.TrimRight].
  destruct (Strings.TrimRight s hyphen) as [|b r] eqn:Et.
  - destruct (Ascii.eqb a hyphen) eqn:Ea; [reflexivity|].
    unfold noTrailingHyphen. cbn. rewrite Ea. reflexivity.
  - rewrite noTrailingHyphen_cons. exact IH.
Qed.

Lemma isLetter_not_hyphen (a : ascii) :
  isLetter (Strings.byte a) = true -> Ascii.eqb a hyphen = false.
Proof.
  intros H. destruct (Ascii.eqb a hyphen) eqn:E; [|reflexivity].
  apply Ascii.eqb_eq in E. subst a. discriminate H.
Qed.

Lemma TrimRight_startsWithLetter (s : string) :
  startsWithLetter s = true ->
  startsWithLetter (Strings.TrimRight s hyphen) = true.
Proof.
  destruct s as [|a s]; [discriminate|]. cbn. intros Ha.
  destruct (Strings.TrimRight s hyphen); cbn; [|exact Ha].
  rewrite (isLetter_not_hyphen a Ha). exact Ha.
Qed.

Lemma TrimLeft_letter (s : string) :
  startsWithLetter s = true -> Strings.TrimLeft s hyphen = s.
Proof.
  destruct s as [|a s]; [discriminate|]. cbn. intros Ha.
  rewrite (isLetter_not_hyphen a Ha). reflexivity.
Qed.

Lemma valid_is_ascii (b : Z) :
  isValidDBInstanceIdentifierChar b = true -> (b <? 128) = true.
Proof. unfold isValidDBInstanceIdentifierChar. lia. Qed.

Lemma chr_byte (a : ascii) : Strings.chr (Strings.byte a) = a.
Proof.
  unfold Strings.chr, Strings.byte. rewrite N2Z.id. apply ascii_N_embedding.
Qed.

Lemma append_assoc (s1 s2 s3 : string) : (s1 ++ s2) ++ s3 = s1 ++ (s2 ++ s3).
Proof. induction s1 as [|a s1 IH]; cbn; [reflexivity | now rewrite IH]. Qed.

Lemma sanitizeRunes_valid (s : string) :
  forall acc,
    allBytes isValidDBInstanceIdentifierChar s = true ->
    sanitizeRunes (Strings.runes s) acc = acc ++ s.
Proof.
  unfold Strings.runes.
  induction s as [|a s IH]; intros acc Hs.
  - cbn. induction acc as [|b acc IHa]; cbn; [reflexivity | now rewrite <- IHa].
  - cbn in Hs. apply andb_prop in Hs. destruct Hs as [Ha Hs].
    cbn [Strings.rangeFrom Strings.DecodeRuneInString].
    rewrite (valid_is_ascii _ Ha). cbn [Nat.sub sanitizeRunes].
    rewrite Ha, (IH _ Hs), chr_byte, append_assoc. reflexivity.
Qed.

Lemma replaceFrom_noDoubleHyphen (s : string) :
  noDoubleHyphen s = true -> Strings.replaceFrom "--" "-" 0 s = s.
Proof.
  induction s as [|a s IH]; [reflexivity|].
  rewrite noDoubleHyphen_cons. intros Hs.
  apply andb_prop in Hs. destruct Hs as [Ha Hs].
  cbn [Strings.replaceFrom].
  replace (prefix "--" (String a s)) with false.
  - rewrite (IH Hs). reflexivity.
  - symmetry. cbn [prefix]. unfold hyphen in Ha.
    destruct (ascii_dec "-" a) as [<-|Hne]; [|reflexivity].
    destruct s as [|b s]; [reflexivity|]. cbn [prefix].
    destruct (ascii_dec "-" b) as [<-|Hne]; [|reflexivity].
    cbn in Ha. discriminate Ha.
Qed.

Lemma wellShaped_sanitize (s : string) :
  wellShaped s = true ->
  exists identifier,
    sanitizeDBInstanceIdentifier s = Ok identifier /\
    wellShaped identifier = true /\
    noTrailingHyphen identifier = true /\
    (String.length identifier <= String.length s)%nat.
Proof.
  unfold wellShaped. intros H.
  apply andb_prop in H. destruct H as [H Hn].
  apply andb_prop in H. destruct H as [Hl Hv].
  destruct s as [|a s]; [discriminate Hl|].
  unfold sanitizeDBInstanceIdentifier.
  cbn in Hl. rewrite Hl. cbn [negb].
  rewrite (sanitizeRunes_valid _ "" Hv). cbn [append].
  unfold Strings.ReplaceAll. rewrite (replaceFrom_noDoubleHyphen _ Hn).
  unfold Strings.Trim. rewrite TrimLeft_letter by exact Hl.
  eexists. split; [reflexivity|].
  rewrite TrimRight_startsWithLetter by exact Hl.
  rewrite TrimRight_allBytes by exact Hv.
  rewrite TrimRight_noDoubleHyphen by exact Hn.
  rewrite TrimRight_noTrailingHyphen.
  repeat split. apply TrimRight_length.
Qed.

Lemma digits_of_uint (u : Decimal.uint) :
  allBytes isDigit (NilEmpty.string_of_uint u) = true.
Proof. induction u; cbn; try reflexivity; exact IHu. Qed.

Lemma itoa_digits (n : Z) : 0 <= n -> allBytes isDigit (itoa n) = true.
Proof.
  intros Hn. unfold itoa, NilZero.string_of_int.
  destruct n as [|p|p]; [reflexivity | | lia].
  cbn. unfold NilZero.string_of_uint.
  destruct (Pos.to_uint p); try reflexivity; apply digits_of_uint.
Qed.

Lemma startsWithLetter_app (s1 s2 : string) :
  startsWithLetter s1 = true -> startsWithLetter (s1 ++ s2) = true.
Proof. destruct s1; [discriminate | auto]. Qed.

Lemma startsWithLetter_substring0 (s : string) (m : nat) :
  startsWithLetter s = true ->
  startsWithLetter (substring 0 (S m) s) = true.
Proof. destruct s; [discriminate | auto]. Qed.

Lemma digits_no_hyphen (s : string) :
  allBytes isDigit s = true ->
  startsWithHyphen s = false /\ noDoubleHyphen s = true /\
  allBytes isValidDBInstanceIdentifierChar s = true.
Proof.
  intros H. split; [|split].
  - destruct s as [|a s]; [reflexivity|]. cbn in *.
    apply andb_prop in H. destruct H as [Ha _].
    destruct (Ascii.eqb a hyphen) eqn:E; [|reflexivity].
    apply Ascii.eqb_eq in E. subst a. discriminate Ha.
  - induction s as [|a s IH]; [reflexivity|].
    rewrite noDoubleHyphen_cons. cbn in H.
    apply andb_prop in H. destruct H as [Ha Hs]. rewrite (IH Hs), andb_true_r.
    destruct (Ascii.eqb a hyphen) eqn:E; [|reflexivity].
    apply Ascii.eqb_eq in E. subst a. discriminate Ha.
  - revert H. apply allBytes_weaken.
    unfold isDigit, isValidDBInstanceIdentifierChar. lia.
Qed.

(** For a cluster identifier that itself satisfies the constraints and a
    clock reading after the epoch with at least nine digits, the identifier
    handed to the create call satisfies them too. *)
Lemma newIdentifier_valid (clusterID role : string) (unixNano : Z) :
  validIdentifier clusterID = true ->
  role = "reader" \/ role = "scheduler" ->
  0 <= unixNano ->
  9 <= Strings.len (itoa unixNano) ->
  exists identifier,
    newIdentifier clusterID role unixNano = Ok identifier /\
    validIdentifier identifier = true.
Proof.
  unfold validIdentifier. intros Hc Hrole Hpos Hlen.
  repeat (apply andb_prop in Hc; destruct Hc as [Hc ?]).
  unfold newIdentifier.
  replace (Strings.len (itoa unixNano) <? 9) with false by lia.
  set (uniqueID := Strings.drop _ _).
  assert (Hu : allBytes isDigit uniqueID = true).
  { apply allBytes_substring, itoa_digits, Hpos. }
  destruct (digits_no_hyphen _ Hu) as (Hu1 & Hu2 & Hu3).
  set (base := clusterID ++ "-" ++ role ++ "-" ++ uniqueID).
  assert (Hbase : startsWithLetter base = true /\
                  allBytes isValidDBInstanceIdentifierChar base = true /\
                  noDoubleHyphen base = true).
  { unfold base. split; [apply startsWithLetter_app; assumption|]. split.
    - rewrite allBytes_app. apply andb_true_intro. split; [assumption|].
      destruct Hrole as [-> | ->]; cbn; exact Hu3.
    - apply noDoubleHyphen_app; [assumption| |left; assumption].
      destruct Hrole as [-> | ->].
      + apply (noDoubleHyphen_app "-reader-" uniqueID);
          [reflexivity | exact Hu2 | right; exact Hu1].
      + apply (noDoubleHyphen_app "-scheduler-" uniqueID);
          [reflexivity | exact Hu2 | right; exact Hu1]. }
  destruct Hbase as (Hb1 & Hb2 & Hb3).
  assert (Htrunc : exists t,
    (if Strings.len base >? 63
     then Strings.TrimRight (Strings.take 63 base) hyphen else base) = t /\
    wellShaped t = true /\ (String.length t <= 63)%nat).
  { eexists. split; [reflexivity|].
    destruct (Strings.len base >? 63) eqn:E.
    - unfold Strings.take. change (Z.to_nat 63) with 63%nat.
      split.
      + unfold wellShaped.
        rewrite TrimRight_startsWithLetter
          by (apply startsWithLetter_substring0; assumption).
        rewrite TrimRight_allBytes by (apply allBytes_substring; assumption).
        rewrite TrimRight_noDoubleHyphen
          by (apply noDoubleHyphen_substring0; assumption).
        reflexivity.
      + pose proof (TrimRight_length (substring 0 63 base) hyphen).
        pose proof (length_substring0 base 63). lia.
    - split.
      + unfold wellShaped. rewrite Hb1, Hb2, Hb3. reflexivity.
      + unfold Strings.len in E. lia. }
  destruct Htrunc as (t & -> & Ht & Hlt).
  destruct (wellShaped_sanitize t Ht) as (identifier & -> & Hw & Hnt & Hli).
  exists identifier. split; [reflexivity|].
  unfold wellShaped in Hw.
  repeat (apply andb_prop in Hw; destruct Hw as [Hw ?]).
  repeat (apply andb_true_intro; split); try assumption.
  unfold Strings.len. lia.
Qed.

(* ================================================================== *)
(** * Further properties *)

(** ** Capacity calculator: direction and monotonicity *)

Lemma spec_round_mono (p1 p2 : Q) (current : Z) :
  (p1 <= p2)%Q -> spec_round p1 current <= spec_round p2 current.
Proof.
  intros Hp. unfold spec_round.
  destruct (p1 ?= inject_Z current)%Q eqn:C1;
    destruct (p2 ?= inject_Z current)%Q eqn:C2;
    try (apply Qfloor_resp_le, Hp); try (apply Qceiling_resp_le, Hp).
  - rewrite Zle_Qle.
    apply Qle_trans with p1; [apply Qfloor_le|].
    apply Qle_trans with p2; [exact Hp | apply Qle_ceiling].
  - rewrite Zle_Qle.
    apply Qle_trans with p1; [apply Qfloor_le|].
    apply Qle_trans with p2; [exact Hp | apply Qle_ceiling].
  - exfalso. rewrite <- Qgt_alt in C1. apply Qeq_alt in C2.
    rewrite C2 in Hp. apply (Qlt_not_le _ _ C1 Hp).
  - exfalso. rewrite <- Qgt_alt in C1. rewrite <- Qlt_alt in C2.
    apply (Qlt_not_le _ _ C1). apply Qle_trans with p2; [exact Hp|].
    apply Qlt_le_weak, C2.
Qed.

Lemma proportional_mono (m1 m2 target : Q) (current : Z) :
  (0 < target)%Q -> 0 <= current -> (m1 <= m2)%Q ->
  (m1 / target * inject_Z current <= m2 / target * inject_Z current)%Q.
Proof.
  intros Ht Hc Hm.
  apply Qmult_le_compat_r; [|rewrite <- (Zle_Qle 0); exact Hc].
  apply Qmult_le_compat_r; [exact Hm|].
  apply Qlt_le_weak, Qinv_lt_0_compat, Ht.
Qed.



Lemma proportional_at (metric target : Q) (current : Z) :
  (0 < target)%Q -> 0 < current ->
  let p := (metric / target * inject_Z current)%Q in
  ((target < metric)%Q -> (inject_Z current < p)%Q) /\
  ((metric < target)%Q -> (p < inject_Z current)%Q) /\
  ((metric == target)%Q -> (p == inject_Z current)%Q).
Proof.
  intros Ht Hc p.
  assert (Hc' : (0 < inject_Z current)%Q) by (rewrite <- (Zlt_Qlt 0); exact Hc).
  assert (Ht' : ~ (target == 0)%Q).
  { intros E. rewrite E in Ht. apply (Qlt_irrefl _ Ht). }
  assert (E1 : (target / target * inject_Z current == inject_Z current)%Q).
  { field. exact Ht'. }
  assert (Hi : (0 < / target)%Q) by (apply Qinv_lt_0_compat, Ht).
  split; [|split]; intros Hm; subst p.
  - rewrite <- E1 at 1. apply Qmult_lt_compat_r; [exact Hc'|].
    apply Qmult_lt_compat_r; assumption.
  - rewrite <- E1 at 2. apply Qmult_lt_compat_r; [exact Hc'|].
    apply Qmult_lt_compat_r; assumption.
  - rewrite Hm. exact E1.
Qed.



(** ** Retrying executor: how a run ends *)

Section RetryRuns.

Variable action : M unit.
Variable maxRetries : Z.

Hypothesis action_slept : forall w, slept (snd (action w)) = slept w.

(** An observer that each run of the action moves by [step] and that
    logging and sleeping leave alone. *)
Variable count : World -> nat.
Variable step : nat.
Hypothesis count_action :
  forall w, count (snd (action w)) = (count w + step)%nat.
Hypothesis count_Log : forall l msg w, count (snd (Log l msg w)) = count w.
Hypothesis count_Sleep : forall t w, count (snd (Sleep t w)) = count w.

Lemma retryLoop_stops (attempt backoff : Z) (w : World) (n : nat) :
  (forall e, fst (action w) <> Err e) ->
  let r := retryLoop action maxRetries (S n) attempt backoff w in
  (forall e, fst r <> Err e) /\
  slept (snd r) = slept w /\
  count (snd r) = (count w + step)%nat.
Proof.
  intros Hne r. subst r.
  assert (E : exists o,
    retryLoop action maxRetries (S n) attempt backoff w = (o, snd (action w))
    /\ forall e, o <> Err e).
  { cbn [retryLoop]. unfold bind at 1, try.
    destruct (action w) as [[[]|e|msg] w1]; cbn [fst snd] in *.
    - exists (Ok tt). split; [reflexivity | discriminate].
    - destruct (Hne e). reflexivity.
    - exists (Panic msg). split; [reflexivity | discriminate]. }
  destruct E as (o & -> & Ho). cbn [fst snd].
  rewrite action_slept, count_action. auto.
Qed.

Lemma retryLoop_runs (n : nat) :
  forall attempt backoff w,
    let r := retryLoop action maxRetries n attempt backoff w in
    exists failed,
      (failed <= n)%nat /\
      slept (snd r) = (slept w ++ backoffs failed backoff)%list /\
      match fst r with
      | Err e =>
          e = exhaustedError maxRetries /\ failed = n /\
          count (snd r) = (count w + failed * step)%nat
      | _ =>
          (failed < n)%nat /\
          count (snd r) = (count w + (failed + 1) * step)%nat
      end.
Proof.
  induction n as [|n IH]; intros attempt backoff w; cbn zeta.
  - exists 0%nat. cbn. rewrite app_nil_r, Nat.add_0_r. auto.
  - destruct (fst (action w)) as [[]|e|msg] eqn:Ea.
    + destruct (retryLoop_stops attempt backoff w n) as (Hne & Hs & Hc).
      { rewrite Ea. discriminate. }
      exists 0%nat. cbn zeta in *. rewrite Hs, Hc, app_nil_r.
      split; [lia|]. split; [reflexivity|].
      destruct (fst (retryLoop _ _ _ _ _ _)) as [[]|e|msg];
        [split; lia | destruct (Hne e); reflexivity | split; lia].
    + rewrite (retryLoop_failed action maxRetries n attempt backoff w e Ea).
      match goal with
      | |- context [retryLoop _ _ n ?a ?b ?w2] =>
          destruct (IH a b w2) as (failed & Hle & Hsl & Hout)
      end.
      cbn zeta in Hsl, Hout.
      exists (S failed). split; [lia|]. split.
      * rewrite Hsl. cbn [Sleep Log snd slept backoffs].
        rewrite action_slept, <- app_assoc. reflexivity.
      * rewrite count_Sleep, count_Log, count_action in Hout.
        destruct (fst (retryLoop _ _ _ _ _ _)).
        -- destruct Hout. split; lia.
        -- destruct Hout as (-> & -> & Hc). repeat split. lia.
        -- destruct Hout. split; lia.
    + destruct (retryLoop_stops attempt backoff w n) as (Hne & Hs & Hc).
      { rewrite Ea. discriminate. }
      exists 0%nat. cbn zeta in *. rewrite Hs, Hc, app_nil_r.
      split; [lia|]. split; [reflexivity|].
      destruct (fst (retryLoop _ _ _ _ _ _)) as [[]|e|msg'];
        [split; lia | destruct (Hne e); reflexivity | split; lia].
Qed.

End RetryRuns.

Lemma backoffs_length (n : nat) : forall b, List.length (backoffs n b) = n.
Proof. induction n; intros b; cbn; [reflexivity | now rewrite IHn]. Qed.

Lemma nextBackoff_capped (c : Z) :
  0 <= c < 2 ^ 62 ->
  nextBackoff c = Z.min (c * 2) (32 * Duration.Second).
Proof.
  intros Hc. unfold nextBackoff.
  change (Int64.mul 32 Duration.Second) with (32 * Duration.Second).
  unfold Int64.mul. rewrite Int64Facts.wrap64_small.
  - unfold Duration.Second in *. destruct (c * 2 >? 32 * 1000000000) eqn:E; lia.
  - unfold Int64.in_range, Int64.MinInt64, Int64.MaxInt64, Int64.half. lia.
Qed.

Lemma doubled_under_cap (c : Z) (i : nat) :
  0 <= c ->
  Z.min (Z.min (c * 2) (32 * Duration.Second) * 2 ^ Z.of_nat i)
    (32 * Duration.Second)
  = Z.min (c * 2 ^ Z.of_nat (S i)) (32 * Duration.Second).
Proof.
  intros Hc.
  rewrite Nat2Z.inj_succ, Z.pow_succ_r by lia.
  assert (1 <= 2 ^ Z.of_nat i) by (apply (Z.pow_le_mono_r 2 0); lia).
  unfold Duration.Second.
  destruct (Z.le_gt_cases (c * 2) (32 * 1000000000)).
  - rewrite (Z.min_l (c * 2)) by lia. f_equal. lia.
  - rewrite (Z.min_r (c * 2)) by lia. nia.
Qed.

Lemma backoffs_capped (k : nat) :
  forall c, 0 <= c <= 32 * Duration.Second ->
    backoffs k c =
    map (fun i => Z.min (c * 2 ^ Z.of_nat i) (32 * Duration.Second)) (seq 0 k).
Proof.
  induction k as [|k IH]; intros c Hc; [reflexivity|].
  cbn [backoffs seq map]. f_equal.
  - change (2 ^ Z.of_nat 0) with 1. lia.
  - rewrite <- seq_shift, map_map, nextBackoff_capped
      by (unfold Duration.Second in *; lia).
    rewrite IH by (unfold Duration.Second in *; lia).
    apply map_ext. intros i. apply doubled_under_cap. lia.
Qed.

Lemma backoffs_closed (k : nat) (b : Z) :
  0 <= b < 2 ^ 62 ->
  backoffs k b = map (backoffAt b) (seq 0 k).
Proof.
  intros Hb. destruct k as [|k]; [reflexivity|].
  cbn [backoffs seq map backoffAt]. f_equal.
  rewrite <- seq_shift, map_map, nextBackoff_capped by exact Hb.
  rewrite backoffs_capped by (unfold Duration.Second; lia).
  apply map_ext. intros i. cbn [backoffAt]. apply doubled_under_cap. lia.
Qed.



(** X4. The sleeps of [executeWithRetry], for an initial backoff from zero
    up to 2^62 nanoseconds: the first is the initial backoff as given (the
    cap is not applied to it), and the [i]-th after it is
    [min(initialBackoff * 2^i, 32 s)]. *)
Theorem executeWithRetry_backoff_schedule :
  forall (action : M unit) (maxRetries initialBackoff : Z) (w : World),
    maxRetries < Int64.MaxInt64 ->
    0 <= initialBackoff < 2 ^ 62 ->
    (forall w, slept (snd (action w)) = slept w) ->
    let r := executeWithRetry action maxRetries initialBackoff w in
    exists failed : nat,
      (failed <= Z.to_nat maxRetries)%nat /\
      slept (snd r) =
        (slept w ++ map (backoffAt initialBackoff) (seq 0 failed))%list.
Proof.
  intros action maxRetries initialBackoff w _ Hb Hs r.
  destruct (retryLoop_runs action maxRetries Hs (fun _ => 0%nat) 0) with
    (n := Z.to_nat maxRetries) (attempt := 1) (backoff := initialBackoff)
    (w := w) as (failed & Hle & Hsl & _); try reflexivity.
  exists failed. split; [exact Hle|].
  subst r. unfold executeWithRetry. cbn zeta in Hsl.
  rewrite Hsl, (backoffs_closed failed initialBackoff Hb). reflexivity.
Qed.

Lemma executeWithRetry_backoff_schedule_witness :
  let r := executeWithRetry alwaysFailing 8 (5 * Duration.Second)
             (mkWorld emptyDirectory []) in
  exists failed : nat,
    (failed <= 8)%nat /\
    slept (snd r) =
      ([] ++ map (backoffAt (5 * Duration.Second)) (seq 0 failed))%list.
Proof.
  apply (executeWithRetry_backoff_schedule alwaysFailing 8
           (5 * Duration.Second) (mkWorld emptyDirectory [])).
  - reflexivity.
  - unfold Duration.Second. lia.
  - intros w. unfold alwaysFailing, bind, request.
    destruct (hd Succeed (plan w)); reflexivity.
Defined.

(** ** Instance identifiers: what the sanitizer guarantees *)

Lemma length_append (s1 s2 : string) :
  String.length (s1 ++ s2) = (String.length s1 + String.length s2)%nat.
Proof. induction s1 as [|a s1 IH]; cbn; [reflexivity | now rewrite IH]. Qed.

Lemma substring0_append (s1 s2 : string) :
  forall n, (n <= String.length s1)%nat ->
    substring 0 n (s1 ++ s2) = substring 0 n s1.
Proof.
  induction s1 as [|a s1 IH]; intros n Hn.
  - cbn in Hn. replace n with 0%nat by lia. destruct s2; reflexivity.
  - destruct n as [|n]; [reflexivity|]. cbn in *. rewrite IH by lia.
    reflexivity.
Qed.

Lemma length_substring (s : string) :
  forall n m, (n + m <= String.length s)%nat ->
    String.length (substring n m s) = m.
Proof.
  induction s as [|a s IH]; intros n m H; cbn in H.
  - replace n with 0%nat by lia. replace m with 0%nat by lia. reflexivity.
  - destruct n as [|n]; [destruct m as [|m]|]; cbn; try reflexivity.
    + rewrite (IH 0%nat m) by lia. reflexivity.
    + apply IH. lia.
Qed.

Lemma TrimRight_fixed (s : string) :
  noTrailingHyphen s = true -> Strings.TrimRight s hyphen = s.
Proof.
  induction s as [|a s IH]; [reflexivity|].
  rewrite noTrailingHyphen_cons. cbn [Strings.TrimRight].
  destruct s as [|b s].
  - cbn. intros Ha. apply negb_true_iff in Ha. rewrite Ha. reflexivity.
  - intros Hs. rewrite (IH Hs). reflexivity.
Qed.

Lemma noTrailingHyphen_append (s1 s2 : string) :
  s2 <> EmptyString -> noTrailingHyphen s2 = true ->
  noTrailingHyphen (s1 ++ s2) = true.
Proof.
  intros Hne H2. induction s1 as [|a s1 IH]; [exact H2|].
  change (String a s1 ++ s2) with (String a (s1 ++ s2)).
  rewrite noTrailingHyphen_cons.
  destruct (s1 ++ s2) eqn:E; [|exact IH].
  destruct s1; [cbn in E; congruence | discriminate E].
Qed.

Lemma digits_noTrailingHyphen (s : string) :
  allBytes isDigit s = true -> noTrailingHyphen s = true.
Proof.
  induction s as [|a s IH]; [reflexivity|]. cbn [allBytes].
  intros H. apply andb_prop in H. destruct H as [Ha Hs].
  rewrite noTrailingHyphen_cons. destruct s as [|b s]; [|exact (IH Hs)].
  destruct (Ascii.eqb a hyphen) eqn:E; [|reflexivity].
  apply Ascii.eqb_eq in E. subst a. discriminate Ha.
Qed.

Lemma sanitizeDBInstanceIdentifier_wellShaped (s : string) :
  wellShaped s = true -> noTrailingHyphen s = true ->
  sanitizeDBInstanceIdentifier s = Ok s.
Proof.
  unfold wellShaped. intros H Ht.
  apply andb_prop in H. destruct H as [H Hn].
  apply andb_prop in H. destruct H as [Hl Hv].
  destruct s as [|a s]; [discriminate Hl|].
  unfold sanitizeDBInstanceIdentifier.
  cbn in Hl. rewrite Hl. cbn [negb].
  rewrite (sanitizeRunes_valid _ "" Hv). cbn [append].
  unfold Strings.ReplaceAll. rewrite (replaceFrom_noDoubleHyphen _ Hn).
  unfold Strings.Trim. rewrite TrimLeft_letter by exact Hl.
  rewrite TrimRight_fixed by exact Ht. reflexivity.
Qed.

(** X5. An identifier that already satisfies the constraints is left as it
    is by [sanitizeDBInstanceIdentifier]. *)
Theorem sanitizeDBInstanceIdentifier_fixed_point :
  forall s : string,
    validIdentifier s = true ->
    sanitizeDBInstanceIdentifier s = Ok s.
Proof.
  unfold validIdentifier. intros s H.
  repeat (apply andb_prop in H; destruct H as [H ?]).
  apply sanitizeDBInstanceIdentifier_wellShaped; [|assumption].
  unfold wellShaped. repeat (apply andb_true_intro; split); assumption.
Qed.

Lemma sanitizeDBInstanceIdentifier_fixed_point_witness :
  sanitizeDBInstanceIdentifier "test-cluster-reader-123456789"
  = Ok "test-cluster-reader-123456789".
Proof.
  apply (sanitizeDBInstanceIdentifier_fixed_point
           "test-cluster-reader-123456789").
  reflexivity.
Defined.

Lemma sanitizeRunes_acc (chs : list Z) :
  forall acc, sanitizeRunes chs acc = acc ++ sanitizeRunes chs "".
Proof.
  induction chs as [|ch chs IH]; intros acc; cbn [sanitizeRunes].
  - induction acc as [|a acc IHa]; cbn; [reflexivity | now rewrite <- IHa].
  - destruct (isValidDBInstanceIdentifierChar ch);
      rewrite IH, (IH (append "" _)), <- append_assoc; reflexivity.
Qed.

Lemma byte_chr (ch : Z) :
  0 <= ch < 256 -> Strings.byte (Strings.chr ch) = ch.
Proof.
  intros H. unfold Strings.byte, Strings.chr.
  rewrite N_ascii_embedding by lia. lia.
Qed.

Lemma sanitizeRunes_allBytes (chs : list Z) :
  allBytes isValidDBInstanceIdentifierChar (sanitizeRunes chs "") = true.
Proof.
  induction chs as [|ch chs IH]; [reflexivity|]. cbn [sanitizeRunes].
  destruct (isValidDBInstanceIdentifierChar ch) eqn:E;
    rewrite sanitizeRunes_acc, allBytes_app, IH, andb_true_r.
  - cbn. rewrite byte_chr, E; [reflexivity|].
    unfold isValidDBInstanceIdentifierChar in E. lia.
  - reflexivity.
Qed.

Lemma sanitizeRunes_length (chs : list Z) :
  String.length (sanitizeRunes chs "") = List.length chs.
Proof.
  induction chs as [|ch chs IH]; [reflexivity|]. cbn [sanitizeRunes].
  destruct (isValidDBInstanceIdentifierChar ch);
    rewrite sanitizeRunes_acc, length_append, IH; reflexivity.
Qed.

Lemma rangeFrom_length (s : string) :
  forall skip, (List.length (Strings.rangeFrom skip s) <= String.length s)%nat.
Proof.
  induction s as [|a s IH]; intros skip; [cbn; lia|].
  cbn [Strings.rangeFrom String.length].
  destruct skip as [|skip]; [|specialize (IH skip); lia].
  destruct (Strings.DecodeRuneInString (String a s)) as [r width].
  cbn [List.length]. specialize (IH (width - 1)%nat). lia.
Qed.

Lemma replaceFrom_allBytes (p : Z -> bool) (s : string) :
  p (Strings.byte hyphen) = true ->
  forall skip, allBytes p s = true ->
    allBytes p (Strings.replaceFrom "--" "-" skip s) = true.
Proof.
  intros Hp. induction s as [|a s IH]; intros skip Hs; [reflexivity|].
  cbn [allBytes] in Hs. apply andb_prop in Hs. destruct Hs as [Ha Hs].
  cbn [Strings.replaceFrom].
  destruct skip as [|skip]; [|apply IH, Hs].
  destruct (prefix "--" (String a s)).
  - cbn [append allBytes]. rewrite (IH _ Hs), andb_true_r. exact Hp.
  - cbn [allBytes]. rewrite Ha, (IH _ Hs). reflexivity.
Qed.

Lemma replaceFrom_length (s : string) :
  forall skip,
    (String.length (Strings.replaceFrom "--" "-" skip s) <= String.length s)%nat.
Proof.
  induction s as [|a s IH]; intros skip; [cbn; lia|].
  cbn [Strings.replaceFrom String.length].
  destruct skip as [|skip]; [|specialize (IH skip); lia].
  destruct (prefix "--" (String a s)); cbn [append String.length];
    match goal with |- context [Strings.replaceFrom _ _ ?k s] =>
      specialize (IH k) end; lia.
Qed.

Lemma replaceFrom_letter (a : ascii) (s : string) :
  isLetter (Strings.byte a) = true ->
  Strings.replaceFrom "--" "-" 0 (String a s)
  = String a (Strings.replaceFrom "--" "-" 0 s).
Proof.
  intros Ha. cbn [Strings.replaceFrom].
  replace (prefix "--" (String a s)) with false; [reflexivity|].
  symmetry. cbn [prefix].
  destruct (ascii_dec "-" a) as [<-|Hne]; [discriminate Ha | reflexivity].
Qed.

Lemma runes_letter (a : ascii) (s : string) :
  isLetter (Strings.byte a) = true ->
  Strings.runes (String a s) = Strings.byte a :: Strings.runes s.
Proof.
  intros Ha. unfold Strings.runes.
  cbn [Strings.rangeFrom Strings.DecodeRuneInString].
  replace (Strings.byte a <? 128) with true; [reflexivity|].
  unfold isLetter in Ha. lia.
Qed.

Lemma isLetter_valid (ch : Z) :
  isLetter ch = true -> isValidDBInstanceIdentifierChar ch = true.
Proof. unfold isLetter, isValidDBInstanceIdentifierChar. lia. Qed.

(** The sanitizer on a string whose first byte is a letter. *)
Lemma sanitize_from_letter (a : ascii) (s : string) :
  isLetter (Strings.byte a) = true ->
  let r := Strings.Trim
             (Strings.ReplaceAll
                (sanitizeRunes (Strings.runes (String a s)) "") "--" "-")
             hyphen in
  startsWithLetter r = true /\
  allBytes isValidDBInstanceIdentifierChar r = true /\
  noTrailingHyphen r = true /\
  (String.length r <= S (String.length s))%nat.
Proof.
  intros Ha. cbv zeta.
  rewrite (runes_letter a s Ha). cbn [sanitizeRunes].
  rewrite (isLetter_valid _ Ha), sanitizeRunes_acc, chr_byte.
  cbn [append]. unfold Strings.ReplaceAll.
  rewrite (replaceFrom_letter a _ Ha).
  set (t := Strings.replaceFrom "--" "-" 0 _).
  assert (Hv : allBytes isValidDBInstanceIdentifierChar (String a t) = true).
  { cbn [allBytes]. rewrite (isLetter_valid _ Ha). cbn [andb].
    apply replaceFrom_allBytes; [reflexivity | apply sanitizeRunes_allBytes]. }
  assert (Hl : startsWithLetter (String a t) = true) by exact Ha.
  unfold Strings.Trim. rewrite (TrimLeft_letter _ Hl).
  split; [apply TrimRight_startsWithLetter, Hl|].
  split; [apply TrimRight_allBytes, Hv|].
  split; [apply TrimRight_noTrailingHyphen|].
  pose proof (TrimRight_length (String a t) hyphen) as H1.
  pose proof (replaceFrom_length (sanitizeRunes (Strings.runes s) "") 0) as H2.
  fold t in H2. rewrite sanitizeRunes_length in H2.
  pose proof (rangeFrom_length s 0) as H3. fold (Strings.runes s) in H3.
  cbn [String.length] in H1. lia.
Qed.

(** X6. What [sanitizeDBInstanceIdentifier] guarantees on every non-empty
    input, whatever its bytes: it returns a string that starts with a
    letter, is made of letters, digits and hyphens only, does not end with
    a hyphen, and is at most one byte longer than the input. *)
Theorem sanitizeDBInstanceIdentifier_guarantees :
  forall s : string,
    s <> EmptyString ->
    exists identifier,
      sanitizeDBInstanceIdentifier s = Ok identifier /\
      startsWithLetter identifier = true /\
      allBytes isValidDBInstanceIdentifierChar identifier = true /\
      noTrailingHyphen identifier = true /\
      Strings.len identifier <= Strings.len s + 1.
Proof.
  intros s Hne. destruct s as [|c0 s]; [congruence|].
  unfold sanitizeDBInstanceIdentifier.
  destruct (isLetter (Strings.byte c0)) eqn:E; cbn [negb].
  - destruct (sanitize_from_letter c0 s E) as (H1 & H2 & H3 & H4).
    eexists. split; [reflexivity|]. repeat split; try assumption.
    unfold Strings.len. cbn [String.length]. lia.
  - destruct (sanitize_from_letter "a" (String c0 s) eq_refl)
      as (H1 & H2 & H3 & H4).
    cbn [append]. eexists. split; [reflexivity|].
    repeat split; try assumption.
    unfold Strings.len. cbn [String.length] in *. lia.
Qed.

Lemma sanitizeDBInstanceIdentifier_guarantees_witness :
  exists identifier,
    sanitizeDBInstanceIdentifier "9_lives!" = Ok identifier /\
    startsWithLetter identifier = true /\
    allBytes isValidDBInstanceIdentifierChar identifier = true /\
    noTrailingHyphen identifier = true /\
    Strings.len identifier <= Strings.len "9_lives!" + 1.
Proof.
  apply (sanitizeDBInstanceIdentifier_guarantees "9_lives!").
  discriminate.
Defined.

(** X7. For a cluster identifier that itself satisfies the constraints, a
    role "reader" or "scheduler" and a clock reading after the epoch with
    at least nine digits, the identifier built for a new instance satisfies
    the constraints; when the cluster identifier is short enough for
    nothing to be cut, it is the cluster identifier, the role and the last
    nine digits of the clock reading, joined by hyphens. *)
Theorem newIdentifier_meets_constraints :
  forall (clusterID role : string) (unixNano : Z),
    validIdentifier clusterID = true ->
    role = "reader" \/ role = "scheduler" ->
    0 <= unixNano ->
    9 <= Strings.len (itoa unixNano) ->
    (exists identifier,
       newIdentifier clusterID role unixNano = Ok identifier /\
       validIdentifier identifier = true) /\
    (Strings.len clusterID + Strings.len role + 11 <= 63 ->
     newIdentifier clusterID role unixNano =
       Ok (clusterID ++ "-" ++ role ++ "-"
             ++ Strings.drop (Strings.len (itoa unixNano) - 9)
                  (itoa unixNano))).
Proof.
  intros clusterID role unixNano Hc Hrole Hpos Hlen.
  split; [apply newIdentifier_valid; assumption|].
  intros Hshort. unfold validIdentifier in Hc.
  repeat (apply andb_prop in Hc; destruct Hc as [Hc ?]).
  unfold newIdentifier.
  replace (Strings.len (itoa unixNano) <? 9) with false by lia.
  set (uniqueID := Strings.drop _ _).
  assert (Hu : allBytes isDigit uniqueID = true).
  { apply allBytes_substring, itoa_digits, Hpos. }
  assert (Hul : String.length uniqueID = 9%nat).
  { unfold uniqueID, Strings.drop, Strings.len in *.
    rewrite length_substring by lia. lia. }
  destruct (digits_no_hyphen _ Hu) as (Hu1 & Hu2 & Hu3).
  set (base := clusterID ++ "-" ++ role ++ "-" ++ uniqueID).
  assert (Hbl : Strings.len base = Strings.len clusterID + Strings.len role + 11).
  { unfold base, Strings.len. rewrite !length_append, Hul. cbn. lia. }
  replace (Strings.len base >? 63) with false by lia.
  apply sanitizeDBInstanceIdentifier_wellShaped.
  - assert (Hn : noDoubleHyphen base = true).
    { apply noDoubleHyphen_app; [assumption | | left; assumption].
      destruct Hrole as [-> | ->].
      - apply (noDoubleHyphen_app "-reader-" uniqueID);
          [reflexivity | exact Hu2 | right; exact Hu1].
      - apply (noDoubleHyphen_app "-scheduler-" uniqueID);
          [reflexivity | exact Hu2 | right; exact Hu1]. }
    unfold wellShaped. rewrite Hn. unfold base.
    rewrite startsWithLetter_app by assumption.
    rewrite allBytes_app.
    replace (allBytes isValidDBInstanceIdentifierChar
               ("-" ++ role ++ "-" ++ uniqueID)) with true
      by (destruct Hrole as [-> | ->]; cbn; rewrite Hu3; reflexivity).
    rewrite !andb_true_r. assumption.
  - unfold base. rewrite <- !append_assoc.
    apply noTrailingHyphen_append.
    + intros E. rewrite E in Hul. discriminate Hul.
    + apply digits_noTrailingHyphen, Hu.
Qed.

Lemma newIdentifier_meets_constraints_witness :
  newIdentifier "test-cluster" "reader" 1730000000123456789
  = Ok "test-cluster-reader-123456789".
Proof.
  destruct (newIdentifier_meets_constraints "test-cluster" "reader"
              1730000000123456789) as [_ H].
  - reflexivity.
  - left. reflexivity.
  - lia.
  - vm_compute. discriminate.
  - rewrite H; [reflexivity | vm_compute; discriminate].
Defined.

(** X8. A cluster identifier of 63 bytes or more leaves no room for the
    role and the clock reading: every instance identifier built from it is
    the same, whatever the role and the time. *)
Theorem newIdentifier_long_cluster :
  forall (clusterID role1 role2 : string) (t1 t2 : Z),
    63 <= Strings.len clusterID ->
    9 <= Strings.len (itoa t1) ->
    9 <= Strings.len (itoa t2) ->
    newIdentifier clusterID role1 t1 = newIdentifier clusterID role2 t2 /\
    newIdentifier clusterID role1 t1 =
      sanitizeDBInstanceIdentifier
        (Strings.TrimRight (Strings.take 63 clusterID) hyphen).
Proof.
  assert (H : forall clusterID role t,
    63 <= Strings.len clusterID -> 9 <= Strings.len (itoa t) ->
    newIdentifier clusterID role t =
      sanitizeDBInstanceIdentifier
        (Strings.TrimRight (Strings.take 63 clusterID) hyphen)).
  { intros clusterID role t Hc Ht. unfold newIdentifier.
    replace (Strings.len (itoa t) <? 9) with false by lia.
    set (rest := "-" ++ role ++ "-" ++ _).
    replace (Strings.len (clusterID ++ rest) >? 63) with true.
    - unfold Strings.take. change (Z.to_nat 63) with 63%nat.
      rewrite substring0_append; [reflexivity|].
      unfold Strings.len in Hc. lia.
    - symmetry. unfold Strings.len in *. rewrite length_append.
      assert (1 <= String.length rest)%nat by (subst rest; cbn; lia).
      apply Z.gtb_lt. lia. }
  intros clusterID role1 role2 t1 t2 Hc H1 H2.
  rewrite (H clusterID role1 t1 Hc H1), (H clusterID role2 t2 Hc H2).
  split; reflexivity.
Qed.

Lemma newIdentifier_long_cluster_witness :
  newIdentifier longCluster "reader" 1730000000123456789
  = newIdentifier longCluster "scheduler" 1730000000999999999.
Proof.
  apply (newIdentifier_long_cluster longCluster "reader" "scheduler"
           1730000000123456789 1730000000999999999).
  - vm_compute. discriminate.
  - vm_compute. discriminate.
  - vm_compute. discriminate.
Defined.

(** ** The metric: which datapoint is used *)

Lemma insertDatapoint_In (p q : Datapoint) (l : list Datapoint) :
  In q (insertDatapoint p l) <-> q = p \/ In q l.
Proof.
  induction l as [|x l IH]; cbn.
  - intuition congruence.
  - destruct (Timestamp p <? Timestamp x); cbn; rewrite ?IH; intuition congruence.
Qed.

Lemma insertDatapoint_ascending (p : Datapoint) (l : list Datapoint) :
  ascending l -> ascending (insertDatapoint p l).
Proof.
  induction l as [|x l IH]; cbn [insertDatapoint ascending].
  - intros _. split; [constructor | exact I].
  - intros [Hx Hl]. destruct (Timestamp p <? Timestamp x) eqn:E.
    + cbn [ascending]. split; [|split; assumption].
      constructor; [lia|]. revert Hx. apply Forall_impl. intros a. lia.
    + cbn [ascending]. split; [|apply IH, Hl].
      apply Forall_forall. intros q Hq. apply insertDatapoint_In in Hq.
      destruct Hq as [->|Hq]; [lia|].
      rewrite Forall_forall in Hx. apply Hx, Hq.
Qed.

Lemma sortDatapoints_from (l : list Datapoint) :
  forall acc,
    ascending acc ->
    ascending (fold_left (fun acc p => insertDatapoint p acc) l acc) /\
    forall q, In q (fold_left (fun acc p => insertDatapoint p acc) l acc)
              <-> In q l \/ In q acc.
Proof.
  induction l as [|p l IH]; intros acc Ha; cbn [fold_left].
  - split; [exact Ha|]. intros q. cbn. tauto.
  - destruct (IH _ (insertDatapoint_ascending p acc Ha)) as [H1 H2].
    split; [exact H1|]. intros q. rewrite H2, insertDatapoint_In. cbn.
    intuition congruence.
Qed.

Lemma ascending_last (l : list Datapoint) (dflt : Datapoint) :
  ascending l -> l <> [] ->
  In (last l dflt) l /\ forall q, In q l -> Timestamp q <= Timestamp (last l dflt).
Proof.
  induction l as [|p l IH]; intros Ha Hne; [congruence|].
  destruct Ha as [Hp Hl]. destruct l as [|p' l].
  - cbn. split; [auto|]. intros q [->|[]]. lia.
  - destruct (IH Hl ltac:(discriminate)) as [Hin Hmax].
    change (last (p :: p' :: l) dflt) with (last (p' :: l) dflt).
    split; [right; exact Hin|].
    intros q [->|Hq]; [|apply Hmax, Hq].
    rewrite Forall_forall in Hp. apply Hp, Hin.
Qed.

(** X9. The datapoint [GetCurrentMetricValue] uses for an instance is one
    of the datapoints CloudWatch returned, and none of them has a later
    timestamp, whatever the order in which they were returned. *)
Theorem latest_datapoint_is_latest :
  forall (p : Datapoint) (resp : list Datapoint),
    let latestDatapoint := last (sortDatapoints (p :: resp)) p in
    In latestDatapoint (p :: resp) /\
    forall q, In q (p :: resp) -> Timestamp q <= Timestamp latestDatapoint.
Proof.
  intros p resp. cbv zeta. unfold sortDatapoints.
  destruct (sortDatapoints_from (p :: resp) [] I) as [Ha Hin].
  assert (Hne : fold_left (fun acc q => insertDatapoint q acc) (p :: resp) []
                <> []).
  { intros E. specialize (Hin p). rewrite E in Hin.
    destruct Hin as [_ Hin]. apply Hin. left. left. reflexivity. }
  destruct (ascending_last _ p Ha Hne) as [H1 H2].
  split.
  - apply Hin in H1. destruct H1 as [H1|[]]. exact H1.
  - intros q Hq. apply H2, Hin. left. exact Hq.
Qed.

Lemma latestOf_last (p : Datapoint) (resp : list Datapoint) :
  latestOf (p :: resp) (last (sortDatapoints (p :: resp)) p).
Proof.
  destruct (sortDatapoints_from (p :: resp) [] I) as [Ha Hin].
  assert (Hne : fold_left (fun acc q => insertDatapoint q acc) (p :: resp) []
                <> []).
  { intros E. specialize (Hin p). rewrite E in Hin.
    destruct Hin as [_ Hin]. apply Hin. left. left. reflexivity. }
  destruct (ascending_last _ p Ha Hne) as [H1 H2].
  split.
  - apply Hin in H1. destruct H1 as [H1|[]]. exact H1.
  - intros q Hq. apply H2, Hin. left. exact Hq.
Qed.

(** ** The metric: the value returned *)

Lemma GetMetricStatistics_answered (metricName instanceID : string) :
  traces (GetMetricStatistics metricName instanceID) (fun dir =>
    answered (GetMetricStatisticsCall metricName instanceID)
      (fun _ => datapointsOf dir instanceID)).
Proof.
  apply (traces_query (GetMetricStatisticsCall metricName instanceID)
           (fun dir => datapointsOf dir instanceID)).
  reflexivity.
Qed.

Lemma sumLatestDatapoints_exact (d : DocumentDB)
    (readerInstances : list DBInstance) :
  forall totalMetric,
    traces (sumLatestDatapoints d readerInstances totalMetric)
      (sumsLatest d readerInstances totalMetric).
Proof.
  induction readerInstances as [|instance rest IH]; intros totalMetric dir;
    cbn [sumLatestDatapoints].
  - leaf. split; [apply only_nil|]. split; [discriminate|]. intros _. cbn.
    split; [reflexivity|]. exists []. split; [constructor | reflexivity].
  - step GetMetricStatistics_answered.
    pose proof (answered_only metricCall Hs I) as Ho.
    destruct out as [resp|e|msg].
    + destruct Hs as (r & -> & Hr).
      assert (Er : resp = datapointsOf dir (DBInstanceIdentifier instance)).
      { destruct r; try discriminate Hr; injection Hr as ->; reflexivity. }
      assert (Hq : replay [(GetMetricStatisticsCall (MetricName d)
                              (DBInstanceIdentifier instance), r)] dir = dir).
      { apply reads_replay. revert Ho. apply only_weaken.
        unfold readCall. tauto. }
      rewrite Hq.
      destruct resp as [|p resp'].
      * apply tracesFrom_Log. leaf. split; [exact Ho|].
        split; [discriminate|]. intros _.
        cbn [find]. unfold noDatapoints. rewrite <- Er. reflexivity.
      * eapply tracesFrom_conseq; [apply IH|].
        cbn beta. intros out' n' (Ho' & Hnp & Hf).
        split; [apply only_app; split; assumption|].
        split; [exact Hnp|].
        intros F. apply faultless_app in F. destruct F as [F1 F2].
        specialize (Hf F2). cbn [find]. unfold noDatapoints at 1.
        rewrite <- Er.
        destruct (find (noDatapoints dir) rest) as [bad|]; [exact Hf|].
        destruct Hf as (Hcalls & picks & Hp & ->).
        split; [rewrite map_app, Hcalls; reflexivity|].
        exists (last (sortDatapoints (p :: resp')) p :: picks).
        split; [|reflexivity].
        constructor; [|exact Hp]. rewrite <- Er. apply latestOf_last.
    + split; [exact Ho|]. split; [discriminate|]. intros F.
      pose proof (answered_faultless Hs F). discriminate.
    + destruct (answered_sound Hs).
Qed.

Lemma GetCurrentMetricValue_exact (d : DocumentDB) :
  traces (GetCurrentMetricValue d) (readsMetric d).
Proof.
  intros dir. unfold GetCurrentMetricValue.
  step GetReaderInstances_traces.
  destruct Hs as (Ho & Hr & Hf & Hp).
  destruct out as [readerInstances|e|msg].
  2:{ exists n, []. rewrite app_nil_r. split; [reflexivity|].
      split; [exact Ho|]. split; [apply only_nil|].
      split; [discriminate|]. split; [discriminate|].
      intros F wid Hw. specialize (Hf F wid Hw). discriminate. }
  2:{ exfalso. eapply Hp. reflexivity. }
  destruct (Hr _ eq_refl) as (wid & Hw & ->). clear Hr Hf Hp. quiet.
  assert (Hwid : forall wid', writerOf dir = Some wid' -> wid' = wid).
  { intros wid' Hw'. rewrite Hw in Hw'. congruence. }
  destruct (readersOf wid dir) as [|instance rest] eqn:Er.
  - leaf. exists n, []. rewrite app_nil_r. split; [reflexivity|].
    split; [exact Ho|]. split; [apply only_nil|].
    split; [discriminate|]. split; [discriminate|].
    intros _ wid' Hw'. rewrite (Hwid _ Hw'), Er. split; reflexivity.
  - step sumLatestDatapoints_exact.
    destruct Hs as (Hm & Hnp & Hsum).
    assert (Hcase : forall out',
      (forall msg, out' <> Panic msg) ->
      (faultless n0 ->
       averagesLatest d (instance :: rest) dir out' n0) ->
      readsMetric d dir out' (n ++ n0)).
    { intros out' Hnp' Hfl. exists n, n0. split; [reflexivity|].
      split; [exact Ho|]. split; [exact Hm|]. split; [exact Hnp'|]. split.
      - intros _ _. exists wid. split; [exact Hw|]. rewrite Er. discriminate.
      - intros F wid' Hw'. rewrite (Hwid _ Hw'), Er.
        apply faultless_app in F. destruct F as [_ F]. exact (Hfl F). }
    destruct out as [total|e|msg].
    + leaf. apply Hcase; [discriminate|].
      intros F. specialize (Hsum F). unfold averagesLatest.
      destruct (find (noDatapoints dir) (instance :: rest));
        [discriminate Hsum|].
      destruct Hsum as (Hc & picks & Hpk & [= ->]).
      split; [exact Hc|]. exists picks. split; [exact Hpk | reflexivity].
    + apply Hcase; [discriminate|].
      intros F. specialize (Hsum F). unfold averagesLatest.
      destruct (find (noDatapoints dir) (instance :: rest));
        [exact Hsum|].
      destruct Hsum as (_ & picks & _ & E). discriminate E.
    + exfalso. eapply Hnp. reflexivity.
Qed.

Lemma find_none {A} (p : A -> bool) (l : list A) :
  (forall x, In x l -> p x = false) -> find p l = None.
Proof.
  induction l as [|x l IH]; intros H; [reflexivity|]. cbn.
  rewrite (H x (or_introl eq_refl)). apply IH. intros y Hy. apply H. right.
  exact Hy.
Qed.



(** X11. When no call fails, [GetCurrentMetricValue] gives no value for a
    cluster without readers ("no reader instances found", and no metric is
    read), nor when some reader has no datapoint: the error names the first
    such reader in listing order. *)
Theorem GetCurrentMetricValue_unavailable :
  forall (d : DocumentDB) (w : World) (wid : string),
    writerOf (directory w) = Some wid ->
    let readerInstances := readersOf wid (directory w) in
    let r := GetCurrentMetricValue d w in
    exists new, issued w (snd r) new /\ only readCall new /\
      (faultless new ->
       (readerInstances = [] ->
          fst r = Err "no reader instances found" /\ only describeCall new) /\
       (forall instance,
          find (noDatapoints (directory w)) readerInstances = Some instance ->
          fst r = Err ("no datapoints found for instance "
                         ++ DBInstanceIdentifier instance))).
Proof.
  intros d w wid Hw readerInstances r.
  destruct (GetCurrentMetricValue_exact d (directory w) w eq_refl)
    as (new & Hi & n1 & n2 & -> & Ho1 & Ho2 & _ & _ & Hf).
  exists (n1 ++ n2)%list. split; [exact Hi|]. split.
  - apply only_app. split; [apply describes_reads, Ho1|].
    revert Ho2. apply only_weaken. unfold readCall. tauto.
  - intros F. specialize (Hf F wid Hw). unfold averagesLatest in Hf.
    fold readerInstances in Hf. split.
    + intros E. rewrite E in Hf. destruct Hf as [Hout ->].
      rewrite app_nil_r. auto.
    + intros instance Hfind.
      destruct readerInstances as [|i rest]; [discriminate Hfind|].
      rewrite Hfind in Hf. exact Hf.
Qed.

Lemma GetCurrentMetricValue_unavailable_witness :
  let r := GetCurrentMetricValue (testConfig false false)
             (readerlessWorld []) in
  fst r = Err "no reader instances found" /\
  exists new, issued (readerlessWorld []) (snd r) new /\ only readCall new.
Proof.
  pose proof (GetCurrentMetricValue_unavailable (testConfig false false)
                (readerlessWorld []) "writer-instance") as H.
  cbv zeta in H. destruct H as (new & Hi & Ho & _).
  - reflexivity.
  - split; [reflexivity|]. exists new. split; assumption.
Defined.

(** ** Metric mode on a cluster without readers *)

Section RetryInvariant.

Variable action : M unit.
Variable maxRetries : Z.
Variable inv : World -> Prop.
Variable ok : Call -> Prop.

Hypothesis action_fails :
  forall w, inv w ->
    (exists e, fst (action w) = Err e) /\ inv (snd (action w)) /\
    exists new, extends w (snd (action w)) new /\ only ok new.
Hypothesis inv_Log : forall l msg w, inv w -> inv (snd (Log l msg w)).
Hypothesis inv_Sleep : forall t w, inv w -> inv (snd (Sleep t w)).

Lemma retryLoop_fails_under (n : nat) :
  forall attempt backoff w,
    inv w ->
    let r := retryLoop action maxRetries n attempt backoff w in
    fst r = Err (exhaustedError maxRetries) /\ inv (snd r) /\
    exists new, extends w (snd r) new /\ only ok new.
Proof.
  induction n as [|n IH]; intros attempt backoff w Hw; cbn zeta.
  - cbn. split; [reflexivity|]. split; [exact Hw|].
    exists []. split; [apply extends_refl | apply only_nil].
  - destruct (action_fails w Hw) as ((e & He) & Hinv & new1 & He1 & Ho1).
    rewrite (retryLoop_failed action maxRetries n attempt backoff w e He).
    match goal with
    | |- context [retryLoop _ _ n ?a ?b ?w2] =>
        destruct (IH a b w2) as (Hout & Hinv' & new2 & He2 & Ho2)
    end.
    { apply inv_Sleep, inv_Log, Hinv. }
    cbn zeta in *. split; [exact Hout|]. split; [exact Hinv'|].
    exists (new1 ++ new2)%list. split; [|apply only_app; auto].
    eapply extends_trans; [exact He1|].
    destruct He2 as (C2 & D2). split; [exact C2 | exact D2].
Qed.

End RetryInvariant.

Lemma metric_attempt_without_readers (d : DocumentDB) (w : World) :
  ScheduledScaling d = false ->
  (forall wid, writerOf (directory w) = Some wid ->
     readersOf wid (directory w) = []) ->
  (exists e, fst (ExecuteScalingAction d w) = Err e) /\
  exists new, issued w (snd (ExecuteScalingAction d w)) new /\
    only readCall new /\
    (faultless new -> writerOf (directory w) <> None ->
     fst (ExecuteScalingAction d w) = Err "no reader instances found").
Proof.
  intros Hm Hnone.
  assert (T : tracesFrom (directory w) (ExecuteScalingAction d)
                (fun out new =>
                   (exists e, out = Err e) /\ only readCall new /\
                   (faultless new -> writerOf (directory w) <> None ->
                    out = Err "no reader instances found"))).
  { unfold ExecuteScalingAction. rewrite Hm.
    unfold ExecuteMetricBasedScalingAction.
    step GetCurrentMetricValue_exact.
    destruct Hs as (n1 & n2 & -> & Ho1 & Ho2 & Hnp & Hok & Hf).
    assert (Hr : only readCall (n1 ++ n2)).
    { apply only_app. split; [apply describes_reads, Ho1|].
      revert Ho2. apply only_weaken. unfold readCall. tauto. }
    destruct out as [v|e|msg].
    - exfalso. destruct (Hok v eq_refl) as (wid & Hw & Hne).
      apply Hne, Hnone, Hw.
    - split; [eexists; reflexivity|]. split; [exact Hr|].
      intros F Hw. destruct (writerOf (directory w)) as [wid|] eqn:Ew;
        [|congruence].
      specialize (Hf F wid eq_refl). rewrite (Hnone wid eq_refl) in Hf.
      destruct Hf as [Hf _]. injection Hf as ->. reflexivity.
    - exfalso. eapply Hnp. reflexivity. }
  destruct (T w eq_refl) as (new & Hi & He & Ho & Hf).
  split; [exact He|]. exists new. auto.
Qed.

(** X12. Metric mode cannot act on a cluster without readers: every
    attempt fails before any metric is evaluated ("no reader instances
    found" when no call fails), nothing is created, and the retrying
    executor ends with its aggregate error after [maxRetries] attempts,
    the directory being as it was. *)
Theorem metric_mode_needs_a_reader :
  forall (d : DocumentDB) (maxRetries initialBackoff : Z) (w : World),
    ScheduledScaling d = false ->
    maxRetries < Int64.MaxInt64 ->
    (forall wid, writerOf (directory w) = Some wid ->
       readersOf wid (directory w) = []) ->
    (let r := ExecuteScalingAction d w in
     exists new, issued w (snd r) new /\ only readCall new /\
       (exists e, fst r = Err e) /\
       (faultless new -> writerOf (directory w) <> None ->
        fst r = Err "no reader instances found")) /\
    (let r := executeWithRetry (ExecuteScalingAction d) maxRetries
                initialBackoff w in
     fst r = Err (exhaustedError maxRetries) /\
     directory (snd r) = directory w /\
     exists new, extends w (snd r) new /\ only readCall new).
Proof.
  intros d maxRetries initialBackoff w Hm _ Hnone. split.
  - cbv zeta.
    destruct (metric_attempt_without_readers d w Hm Hnone)
      as (He & new & Hi & Ho & Hf).
    exists new. auto.
  - cbv zeta. unfold executeWithRetry.
    destruct (retryLoop_fails_under (ExecuteScalingAction d) maxRetries
                (fun w' => directory w' = directory w) readCall)
      with (n := Z.to_nat maxRetries) (attempt := 1)
           (backoff := initialBackoff) (w := w)
      as (Hout & Hdir & new & He & Ho); try reflexivity.
    + intros w' Hw'.
      destruct (metric_attempt_without_readers d w' Hm)
        as (He & new & Hi & Ho & _).
      { rewrite Hw'. exact Hnone. }
      split; [exact He|]. split.
      * destruct Hi as (_ & -> & _). rewrite reads_replay by exact Ho.
        exact Hw'.
      * exists new. split; [apply issued_extends, Hi | exact Ho].
    + intros l msg w' Hw'. exact Hw'.
    + intros t w' Hw'. exact Hw'.
    + split; [exact Hout|]. split; [exact Hdir|]. exists new. auto.
Qed.

Lemma metric_mode_needs_a_reader_witness :
  let r := executeWithRetry (ExecuteScalingAction (testConfig false false)) 3
             Duration.Second (readerlessWorld []) in
  fst r = Err "scaling action failed after 3 attempts" /\
  directory (snd r) = directory (readerlessWorld []) /\
  List.length (calls (snd r)) = 6%nat.
Proof.
  destruct (metric_mode_needs_a_reader (testConfig false false) 3
              Duration.Second (readerlessWorld [])) as [_ H].
  - reflexivity.
  - reflexivity.
  - intros wid [= <-]. reflexivity.
  - cbv zeta in H. destruct H as (H1 & H2 & _).
    split; [exact H1|]. split; [exact H2 | reflexivity].
Defined.

(** ** The clock: readings long enough for an identifier *)

Lemma of_lu_lt (u : Decimal.uint) :
  Z.of_N (Unsigned.of_lu u) < 10 ^ Z.of_nat (Decimal.nb_digits u).
Proof.
  induction u; cbn [Unsigned.of_lu Decimal.nb_digits];
    rewrite ?Nat2Z.inj_succ, ?Z.pow_succ_r by lia; cbn [Z.of_nat Z.pow];
    lia.
Qed.

Lemma length_string_of_uint (u : Decimal.uint) :
  String.length (NilEmpty.string_of_uint u) = Decimal.nb_digits u.
Proof. induction u; cbn; congruence. Qed.

Lemma itoa_length (n : Z) : 10 ^ 8 <= n -> 9 <= Strings.len (itoa n).
Proof.
  intros Hn. destruct n as [|p|p]; try lia.
  unfold itoa, Strings.len. cbn [Z.to_int NilZero.string_of_int].
  unfold NilZero.string_of_uint.
  pose proof (Unsigned.to_uint_nonnil p) as Hnn.
  pose proof (Unsigned.of_to p) as Hof.
  rewrite Unsigned.of_uint_alt in Hof.
  pose proof (of_lu_lt (Decimal.rev (Pos.to_uint p))) as Hlt.
  rewrite Hof, DecimalFacts.nb_digits_rev in Hlt.
  replace (String.length
             match Pos.to_uint p with
             | Decimal.Nil => "0"
             | _ => NilEmpty.string_of_uint (Pos.to_uint p)
             end) with (Decimal.nb_digits (Pos.to_uint p)).
  - destruct (Nat.le_gt_cases 9 (Decimal.nb_digits (Pos.to_uint p)));
      [lia|].
    exfalso.
    assert (10 ^ Z.of_nat (Decimal.nb_digits (Pos.to_uint p)) <= 10 ^ 8)
      by (apply Z.pow_le_mono_r; lia).
    lia.
  - rewrite <- length_string_of_uint.
    destruct (Pos.to_uint p); try reflexivity. congruence.
Qed.

Lemma clock_after_epoch (d : DocumentDB) (role : string) (w : World) :
  validIdentifier (ClusterID d) = true ->
  role = "reader" \/ role = "scheduler" ->
  (forall k, 10 ^ 8 <= clock w k) ->
  clockGivesIdentifiers d role w.
Proof.
  intros Hv Hr Hk k.
  destruct (newIdentifier_valid (ClusterID d) role (clock w k) Hv Hr)
    as (identifier & E & _).
  - specialize (Hk k). lia.
  - apply itoa_length, Hk.
  - exists identifier. exact E.
Qed.

Lemma wallClock_after_epoch (k : nat) : 10 ^ 8 <= wallClock k.
Proof. unfold wallClock. lia. Qed.

(** ** Provisioner: what a run without failures adds *)

Lemma request_served (c : Call) (w : World) :
  hd Succeed (plan w) = Succeed -> request c w = (Ok Succeed, served c w).
Proof. intros H. unfold request, served. rewrite H. reflexivity. Qed.

Lemma calm_hd (w : World) : calm w -> hd Succeed (plan w) = Succeed.
Proof.
  unfold calm. destruct (plan w) as [|r rest]; [reflexivity|].
  intros H. inversion H. assumption.
Qed.

Lemma calm_hd_tl (w : World) : calm w -> hd Succeed (tl (plan w)) = Succeed.
Proof.
  unfold calm. destruct (plan w) as [|r [|r' rest]]; try reflexivity.
  intros H. inversion H as [|? ? _ H']. inversion H'. assumption.
Qed.

Lemma calm_skipn (w w' : World) (n : nat) :
  calm w -> plan w' = skipn n (plan w) -> calm w'.
Proof.
  unfold calm. intros H ->. rewrite Forall_forall in *.
  intros r Hr. apply H. revert Hr. generalize (plan w). clear.
  induction n as [|n IH]; intros l Hr; [exact Hr|].
  destruct l as [|x l]; [destruct Hr|]. right. apply IH, Hr.
Qed.

Lemma skipn_tl {A} (l : list A) (n : nat) :
  skipn (S n) l = skipn n (tl l).
Proof. destruct l; [destruct n|]; reflexivity. Qed.

Lemma advanced_refl (w : World) : advanced w w 0 [].
Proof.
  unfold advanced. rewrite app_nil_r, Nat.add_0_r. repeat split.
Qed.

Lemma advanced_trans (w w1 w2 : World) (k1 k2 : nat)
    (n1 n2 : list (Call * Reply)) :
  advanced w w1 k1 n1 -> advanced w1 w2 k2 n2 ->
  advanced w w2 (k1 + k2) (n1 ++ n2).
Proof.
  intros (C1 & D1 & S1 & K1 & R1 & P1) (C2 & D2 & S2 & K2 & R2 & P2).
  unfold advanced.
  rewrite C2, C1, D2, D1, S2, S1, K2, K1, R2, R1, P2, P1, replay_app,
    app_assoc, length_app, skipn_skipn, (Nat.add_comm (List.length n2)).
  repeat split. lia.
Qed.

Lemma advanced_served (c : Call) (w : World) :
  advanced w (served c w) 0 [(c, Succeed)].
Proof.
  unfold advanced, served. cbn. rewrite Nat.add_0_r.
  repeat split.
Qed.

Lemma advanced_calm (w w' : World) (k : nat) (new : list (Call * Reply)) :
  calm w -> advanced w w' k new -> calm w'.
Proof. intros Hc (_ & _ & _ & _ & _ & P). eapply calm_skipn; eassumption. Qed.

Lemma advanced_Log (l : Level) (msg : string) (w w' : World) (k : nat)
    (new : list (Call * Reply)) :
  advanced w w' k new -> advanced w (snd (Log l msg w')) k new.
Proof. intros H. exact H. Qed.

Lemma bind_Ok {A B} (m : M A) (k : A -> M B) (w w1 : World) (a : A) :
  m w = (Ok a, w1) -> bind m k w = k a w1.
Proof. intros E. unfold bind. rewrite E. reflexivity. Qed.

Lemma bind_Err {A B} (m : M A) (k : A -> M B) (w w1 : World) (e : error) :
  m w = (Err e, w1) -> bind m k w = (Err e, w1).
Proof. intros E. unfold bind. rewrite E. reflexivity. Qed.

Lemma orElse_Ok {A} (m : M A) (h : error -> M unit) (w w1 : World) (a : A) :
  m w = (Ok a, w1) -> orElse m h w = (Ok a, w1).
Proof. intros E. unfold orElse, bind, try. rewrite E. reflexivity. Qed.

Lemma orElse_Log_Err {A} (m : M A) (l : Level) (msg : string) (w w1 : World)
    (e : error) :
  m w = (Err e, w1) ->
  orElse m (fun _ => Log l msg) w = (Err e, snd (Log l msg w1)).
Proof. intros E. unfold orElse, bind, try. rewrite E. reflexivity. Qed.

Lemma try_Ok {A} (m : M A) (w w1 : World) (a : A) :
  m w = (Ok a, w1) -> try m w = (Ok (inl a), w1).
Proof. intros E. unfold try. rewrite E. reflexivity. Qed.

Lemma try_Err {A} (m : M A) (w w1 : World) (e : error) :
  m w = (Err e, w1) -> try m w = (Ok (inr e), w1).
Proof. intros E. unfold try. rewrite E. reflexivity. Qed.

Lemma DescribeDBInstances_run (clusterFilter : string) (w : World) :
  hd Succeed (plan w) = Succeed ->
  DescribeDBInstances clusterFilter w =
    (Ok (instances (directory w)),
     served (DescribeDBInstancesCall clusterFilter) w).
Proof.
  intros H. unfold DescribeDBInstances.
  rewrite (bind_Ok _ _ _ _ _ (request_served _ w H)). reflexivity.
Qed.

Lemma DescribeDBClusters_run (cluster : string) (w : World) :
  hd Succeed (plan w) = Succeed ->
  DescribeDBClusters cluster w =
    (Ok (clusters (directory w)), served (DescribeDBClustersCall cluster) w).
Proof.
  intros H. unfold DescribeDBClusters.
  rewrite (bind_Ok _ _ _ _ _ (request_served _ w H)). reflexivity.
Qed.

Lemma GetWriterInstanceIdentifier_run (d : DocumentDB) (w : World)
    (wid : string) :
  hd Succeed (plan w) = Succeed ->
  writerOf (directory w) = Some wid ->
  GetWriterInstanceIdentifier d w =
    (Ok wid, served (DescribeDBClustersCall (ClusterID d)) w).
Proof.
  intros H Hw. unfold GetWriterInstanceIdentifier.
  rewrite (bind_Ok _ _ _ _ _
             (orElse_Ok _ _ _ _ _ (DescribeDBClusters_run _ w H))).
  unfold writerOf in Hw.
  destruct (clusters (directory w)) as [|dbCluster rest]; [discriminate Hw|].
  destruct (find IsClusterWriter (DBClusterMembers dbCluster)) as [member|];
    [|discriminate Hw].
  cbn in Hw. injection Hw as ->. reflexivity.
Qed.

Lemma GetWriterInstance_run (d : DocumentDB) (w : World) (wid : string)
    (writerInstance : DBInstance) :
  hd Succeed (plan w) = Succeed ->
  hd Succeed (tl (plan w)) = Succeed ->
  writerOf (directory w) = Some wid ->
  writerInstanceOf wid (directory w) = Some writerInstance ->
  let r := GetWriterInstance d w in
  fst r = Ok writerInstance /\ advanced w (snd r) 0 (describesOf d).
Proof.
  intros H1 H2 Hw Hi. cbv zeta.
  set (w1 := served (DescribeDBInstancesCall (ClusterID d)) w).
  set (w2 := served (DescribeDBClustersCall (ClusterID d)) w1).
  assert (E : GetWriterInstance d w = (Ok writerInstance, w2)).
  { unfold GetWriterInstance.
    rewrite (bind_Ok _ _ _ _ _
               (orElse_Ok _ _ _ _ _ (DescribeDBInstances_run _ w H1))).
    fold w1.
    rewrite (bind_Ok _ _ _ _ _
               (GetWriterInstanceIdentifier_run d w1 wid H2 Hw)).
    fold w2. unfold writerInstanceOf in Hi. rewrite Hi. reflexivity. }
  rewrite E. split; [reflexivity|]. cbn [snd].
  apply (advanced_trans w w1 w2 0 0
           [(DescribeDBInstancesCall (ClusterID d), Succeed)]
           [(DescribeDBClustersCall (ClusterID d), Succeed)]);
    apply advanced_served.
Qed.

Lemma CreateDBInstance_run (cluster class identifier : string) (w : World) :
  hd Succeed (plan w) = Succeed ->
  CreateDBInstance cluster class identifier w =
    (Ok (Some (arnOf identifier)),
     served (CreateDBInstanceCall cluster class identifier) w).
Proof.
  intros H. unfold CreateDBInstance.
  rewrite (bind_Ok _ _ _ _ _ (request_served _ w H)). reflexivity.
Qed.

Lemma AddTagsToResource_run (resourceName key value : string) (w : World) :
  hd Succeed (plan w) = Succeed ->
  AddTagsToResource resourceName key value w =
    (Ok tt, served (AddTagsToResourceCall resourceName key value) w).
Proof.
  intros H. unfold AddTagsToResource.
  rewrite (bind_Ok _ _ _ _ _ (request_served _ w H)). reflexivity.
Qed.

Lemma createOne_run (d : DocumentDB) (role tagKey instanceClass : string)
    (failText tagFailText doneText dryText : string) (w : World)
    (identifier : string) :
  DryRun d = false ->
  hd Succeed (plan w) = Succeed ->
  hd Succeed (tl (plan w)) = Succeed ->
  newIdentifier (ClusterID d) role (clock w (clockReads w)) = Ok identifier ->
  let r := createOne d role tagKey instanceClass failText tagFailText doneText
             dryText w in
  fst r = Ok tt /\
  advanced w (snd r) 1 (creationOf d tagKey instanceClass identifier).
Proof.
  intros Hdry H1 H2 Hid. cbv zeta.
  set (w0 := snd (UnixNano w)).
  set (w1 := served (CreateDBInstanceCall (ClusterID d) instanceClass
                       identifier) w0).
  set (w2 := served (AddTagsToResourceCall (arnOf identifier) tagKey "true")
               w1).
  assert (E : createOne d role tagKey instanceClass failText tagFailText
                doneText dryText w = (Ok tt, snd (Log INFO doneText w2))).
  { unfold createOne.
    rewrite (bind_Ok UnixNano _ w w0 (clock w (clockReads w)) eq_refl).
    rewrite (bind_Ok (liftOutcome _) _ w0 w0 identifier)
      by (unfold liftOutcome; rewrite Hid; reflexivity).
    rewrite Hdry. cbn [negb].
    rewrite (bind_Ok _ _ _ _ _
               (orElse_Ok _ _ _ _ _
                  (CreateDBInstance_run (ClusterID d) instanceClass identifier
                     w0 H1))).
    fold w1.
    rewrite (bind_Ok _ _ _ _ _
               (try_Ok _ _ _ _
                  (AddTagsToResource_run (arnOf identifier) tagKey "true"
                     w1 H2))).
    reflexivity. }
  rewrite E. split; [reflexivity|].
  unfold advanced, creationOf. cbn -[effect replay].
  rewrite <- app_assoc. repeat split.
  - rewrite Nat.add_1_r. reflexivity.
  - destruct (plan w) as [|r1 [|r2 rest]]; reflexivity.
Qed.

Lemma identifierAt_Ok (d : DocumentDB) (role : string) (w : World) (k : nat) :
  clockGivesIdentifiers d role w ->
  newIdentifier (ClusterID d) role (clock w k) = Ok (identifierAt d role w k).
Proof.
  intros H. destruct (H k) as (identifier & E).
  unfold identifierAt. rewrite E. reflexivity.
Qed.

Lemma identifiersFrom_advanced (d : DocumentDB) (role : string)
    (w w' : World) (k : nat) (new : list (Call * Reply)) (n : nat) :
  advanced w w' k new ->
  identifiersFrom d role w' n =
    map (identifierAt d role w) (seq (clockReads w + k) n).
Proof.
  intros (_ & _ & _ & K & R & _). unfold identifiersFrom, identifierAt.
  rewrite K, R. reflexivity.
Qed.

Lemma repeatM_createOne_run (d : DocumentDB)
    (role tagKey instanceClass : string)
    (failText tagFailText doneText dryText : string) :
  DryRun d = false ->
  forall (n : nat) (w : World),
    calm w ->
    clockGivesIdentifiers d role w ->
    let r := repeatM n (createOne d role tagKey instanceClass failText
                          tagFailText doneText dryText) w in
    fst r = Ok tt /\
    advanced w (snd r) n (creationsOf d role tagKey instanceClass w n).
Proof.
  intros Hdry. induction n as [|n IH]; intros w Hc Hk; cbv zeta.
  - cbn. split; [reflexivity | apply advanced_refl].
  - cbn [repeatM].
    destruct (createOne_run d role tagKey instanceClass failText tagFailText
                doneText dryText w (identifierAt d role w (clockReads w))
                Hdry (calm_hd w Hc) (calm_hd_tl w Hc)
                (identifierAt_Ok d role w _ Hk)) as (Hout & Hadv).
    cbv zeta in Hout, Hadv.
    destruct (createOne d role tagKey instanceClass failText tagFailText
                doneText dryText w) as [o w1] eqn:E1.
    cbn [fst snd] in Hout, Hadv. subst o.
    rewrite (bind_Ok _ _ _ _ _ E1).
    assert (Hk1 : clockGivesIdentifiers d role w1).
    { intros k. destruct Hadv as (_ & _ & _ & K & _). rewrite K. apply Hk. }
    destruct (IH w1 (advanced_calm _ _ _ _ Hc Hadv) Hk1) as (Hout2 & Hadv2).
    cbv zeta in Hout2, Hadv2. split; [exact Hout2|].
    replace (creationsOf d role tagKey instanceClass w (S n)) with
      (creationOf d tagKey instanceClass (identifierAt d role w (clockReads w))
         ++ creationsOf d role tagKey instanceClass w1 n)%list.
    + apply (advanced_trans w w1 _ 1 n); assumption.
    + unfold creationsOf.
      rewrite (identifiersFrom_advanced d role w w1 1 _ n Hadv).
      unfold identifiersFrom. cbn [seq map flat_map].
      rewrite Nat.add_1_r. reflexivity.
Qed.

(** *** The directory after creations *)

Lemma hasTag_putTag (resourceName key : string)
    (l : list (string * list Tag)) :
  hasTag key
    (match lookup resourceName (putTag resourceName (tagTrue key) l) with
     | Some ts => ts
     | None => []
     end) = true.
Proof.
  induction l as [|[r ts] l IH]; cbn [putTag lookup].
  - rewrite String.eqb_refl. cbn. rewrite String.eqb_refl. reflexivity.
  - destruct (String.eqb r resourceName) eqn:E; cbn [lookup]; rewrite E.
    + unfold hasTag. rewrite existsb_app. cbn.
      rewrite String.eqb_refl, orb_true_r. reflexivity.
    + exact IH.
Qed.

Lemma hasTag_putTag_kept (resourceName other key : string)
    (l : list (string * list Tag)) :
  hasTag key
    (match lookup other l with Some ts => ts | None => [] end) = true ->
  hasTag key
    (match lookup other (putTag resourceName (tagTrue key) l) with
     | Some ts => ts
     | None => []
     end) = true.
Proof.
  induction l as [|[r ts] l IH]; cbn [putTag lookup].
  - discriminate.
  - destruct (String.eqb r resourceName) eqn:E; cbn [lookup].
    + destruct (String.eqb r other) eqn:Eo; [|auto].
      intros _. unfold hasTag. rewrite existsb_app. cbn.
      rewrite String.eqb_refl, orb_true_r. reflexivity.
    + destruct (String.eqb r other); [auto | exact IH].
Qed.

Lemma replay_creationOf (d : DocumentDB) (tagKey class identifier : string)
    (dir : Directory) :
  replay (creationOf d tagKey class identifier) dir =
    set_tags (putTag (arnOf identifier) (tagTrue tagKey))
      (set_instances (fun l => (l ++ [newInstance class identifier])%list) dir).
Proof. reflexivity. Qed.

Lemma replay_creations (d : DocumentDB) (tagKey class : string)
    (identifiers : list string) :
  forall dir,
    let dir' := replay (flat_map (creationOf d tagKey class) identifiers) dir in
    instances dir' = (instances dir ++ map (newInstance class) identifiers)%list
    /\ clusters dir' = clusters dir
    /\ (forall resourceName,
          hasTag tagKey (tagsOf dir resourceName) = true ->
          hasTag tagKey (tagsOf dir' resourceName) = true)
    /\ (forall identifier, In identifier identifiers ->
          hasTag tagKey (tagsOf dir' (arnOf identifier)) = true).
Proof.
  induction identifiers as [|identifier rest IH]; intros dir; cbv zeta.
  - cbn. rewrite app_nil_r. repeat split; auto; try (intros ? []).
  - cbn [flat_map]. rewrite replay_app, replay_creationOf.
    set (dir1 := set_tags _ _).
    destruct (IH dir1) as (Hi & Hc & Hkeep & Hnew). cbv zeta in *.
    split; [|split; [|split]].
    + rewrite Hi. cbn. rewrite <- app_assoc. reflexivity.
    + rewrite Hc. reflexivity.
    + intros resourceName H. apply Hkeep. unfold tagsOf, dir1. cbn.
      apply hasTag_putTag_kept. exact H.
    + intros i [<-|Hin]; [|apply Hnew, Hin].
      apply Hkeep. unfold tagsOf, dir1. cbn. apply hasTag_putTag.
Qed.

(** X13. [AddReplicas] without dry-run, when no call fails and the clock
    gives usable identifiers: after the two describe calls that find the
    writer, each replica is created and then tagged; the inventory grows by
    exactly [replicasToAdd] instances, of the class INSTANCE_TYPE names or
    else of the writer's class, and each of them carries the autoscaler tag
    with value "true". *)
Theorem AddReplicas_adds_exactly :
  forall (d : DocumentDB) (replicasToAdd : Z) (w : World) (wid : string)
         (writerInstance : DBInstance),
    DryRun d = false ->
    calm w ->
    clockGivesIdentifiers d "reader" w ->
    writerOf (directory w) = Some wid ->
    writerInstanceOf wid (directory w) = Some writerInstance ->
    let n := Z.to_nat replicasToAdd in
    let identifiers := identifiersFrom d "reader" w n in
    let class := classFor d writerInstance in
    let r := AddReplicas d replicasToAdd w in
    fst r = Ok tt /\
    calls (snd r) =
      (calls w ++ describesOf d
         ++ creationsOf d "reader" autoscalerTagKey class w n)%list /\
    List.length identifiers = n /\
    instances (directory (snd r)) =
      (instances (directory w) ++ map (newInstance class) identifiers)%list /\
    (forall identifier, In identifier identifiers ->
       hasTag autoscalerTagKey
         (tagsOf (directory (snd r)) (arnOf identifier)) = true).
Proof.
  intros d replicasToAdd w wid writerInstance Hdry Hc Hk Hw Hi n identifiers
    class r.
  destruct (GetWriterInstance_run d w wid writerInstance (calm_hd w Hc)
              (calm_hd_tl w Hc) Hw Hi)
    as (Hout1 & Hadv1). cbv zeta in Hout1, Hadv1.
  destruct (GetWriterInstance d w) as [o w1] eqn:E1.
  cbn [fst snd] in Hout1, Hadv1. subst o.
  assert (Hk1 : clockGivesIdentifiers d "reader" w1).
  { intros k. destruct Hadv1 as (_ & _ & _ & K & _). rewrite K. apply Hk. }
  destruct (repeatM_createOne_run d "reader" autoscalerTagKey class
              "Failed to add replicas" "Failed to tag new read replica"
              "Added read replica" "[Dry Run] Would add read replica"
              Hdry n w1 (advanced_calm _ _ _ _ Hc Hadv1) Hk1)
    as (Hout2 & Hadv2). cbv zeta in Hout2, Hadv2.
  assert (E : r = repeatM n
                    (createOne d "reader" autoscalerTagKey class
                       "Failed to add replicas" "Failed to tag new read replica"
                       "Added read replica" "[Dry Run] Would add read replica")
                    w1).
  { subst r. unfold AddReplicas.
    rewrite (bind_Ok _ _ _ _ _ (orElse_Ok _ _ _ _ _ E1)).
    unfold class, classFor.
    destruct (String.eqb (InstanceType d) ""); reflexivity. }
  rewrite E. clear E r.
  assert (Ec : creationsOf d "reader" autoscalerTagKey class w1 n
               = creationsOf d "reader" autoscalerTagKey class w n).
  { unfold creationsOf.
    rewrite (identifiersFrom_advanced d "reader" w w1 0 _ n Hadv1).
    rewrite Nat.add_0_r. reflexivity. }
  rewrite Ec in Hadv2.
  pose proof (advanced_trans _ _ _ _ _ _ _ Hadv1 Hadv2) as (C & D & _).
  split; [exact Hout2|]. split; [exact C|].
  split; [unfold identifiers, identifiersFrom; rewrite length_map, length_seq;
          reflexivity|].
  rewrite D, replay_app. unfold creationsOf. fold identifiers.
  destruct (replay_creations d autoscalerTagKey class identifiers
              (replay (describesOf d) (directory w)))
    as (Hin & _ & _ & Htag).
  cbv zeta in Hin, Htag. split; [exact Hin | exact Htag].
Qed.

Lemma AddReplicas_adds_exactly_witness :
  let w := mkWorld (clusterOf [] [] []) [] in
  let r := AddReplicas (testConfig false false) 2 w in
  fst r = Ok tt /\
  instances (directory (snd r)) =
    [writerNode;
     newInstance "db.r6g.large" "test-cluster-reader-123456789";
     newInstance "db.r6g.large" "test-cluster-reader-123456790"].
Proof.
  cbv zeta.
  destruct (AddReplicas_adds_exactly (testConfig false false) 2
              (mkWorld (clusterOf [] [] []) []) "writer-instance" writerNode)
    as (Hout & _ & _ & Hin & _).
  - reflexivity.
  - constructor.
  - apply clock_after_epoch;
      [reflexivity | left; reflexivity | apply wallClock_after_epoch].
  - reflexivity.
  - reflexivity.
  - cbv zeta in Hout, Hin. split; [exact Hout|]. rewrite Hin. reflexivity.
Defined.

(** X14. [AddScheduledReplicas] with INSTANCE_TYPE set does not look at the
    cluster at all: without dry-run, when no call fails and the clock gives
    usable identifiers, its only calls are the create and the tag write of
    each replica; the inventory grows by exactly [replicasToAdd] instances
    of that class, each carrying the scheduler tag with value "true". *)
Theorem AddScheduledReplicas_adds_exactly :
  forall (d : DocumentDB) (replicasToAdd : Z) (w : World),
    DryRun d = false ->
    InstanceType d <> "" ->
    calm w ->
    clockGivesIdentifiers d "scheduler" w ->
    let n := Z.to_nat replicasToAdd in
    let identifiers := identifiersFrom d "scheduler" w n in
    let r := AddScheduledReplicas d replicasToAdd w in
    fst r = Ok tt /\
    calls (snd r) =
      (calls w
         ++ creationsOf d "scheduler" schedulerTagKey (InstanceType d) w n)%list
    /\
    instances (directory (snd r)) =
      (instances (directory w)
         ++ map (newInstance (InstanceType d)) identifiers)%list /\
    (forall identifier, In identifier identifiers ->
       hasTag schedulerTagKey
         (tagsOf (directory (snd r)) (arnOf identifier)) = true).
Proof.
  intros d replicasToAdd w Hdry Hty Hc Hk n identifiers r.
  destruct (repeatM_createOne_run d "scheduler" schedulerTagKey
              (InstanceType d)
              "Failed to create scheduled replica"
              "Failed to tag new scheduled replica"
              "Added scheduled read replica"
              "[Dry Run] Would add scheduled read replica"
              Hdry n w Hc Hk) as (Hout & C & D & _).
  cbv zeta in Hout, C, D.
  assert (E : r = repeatM n
                    (createOne d "scheduler" schedulerTagKey (InstanceType d)
                       "Failed to create scheduled replica"
                       "Failed to tag new scheduled replica"
                       "Added scheduled read replica"
                       "[Dry Run] Would add scheduled read replica") w).
  { subst r. unfold AddScheduledReplicas.
    destruct (String.eqb (InstanceType d) "") eqn:Et.
    - apply String.eqb_eq in Et. congruence.
    - reflexivity. }
  rewrite E. clear E r.
  split; [exact Hout|]. split; [exact C|].
  rewrite D. unfold creationsOf. fold identifiers.
  destruct (replay_creations d schedulerTagKey (InstanceType d) identifiers
              (directory w)) as (Hin & _ & _ & Htag).
  cbv zeta in Hin, Htag. split; [exact Hin | exact Htag].
Qed.

Lemma AddScheduledReplicas_adds_exactly_witness :
  let d := {| ClusterID := "test-cluster"; MinCapacity := 0; MaxCapacity := 5;
              MetricName := ""; TargetValue := 0; ScaleInCooldown := 0;
              ScaleOutCooldown := 0; InstanceType := "db.t3.medium";
              DryRun := false; ScheduledScaling := true;
              ScheduleNumberReplicas := 1 |} in
  let r := AddScheduledReplicas d 1 (mkWorld emptyDirectory []) in
  fst r = Ok tt /\
  calls (snd r) =
    [(CreateDBInstanceCall "test-cluster" "db.t3.medium"
        "test-cluster-scheduler-123456789", Succeed);
     (AddTagsToResourceCall (arnOf "test-cluster-scheduler-123456789")
        schedulerTagKey "true", Succeed)].
Proof.
  cbv zeta.
  match goal with
  | |- fst (AddScheduledReplicas ?d 1 ?w) = _ /\ _ =>
      destruct (AddScheduledReplicas_adds_exactly d 1 w)
        as (Hout & Hc & _)
  end.
  - reflexivity.
  - discriminate.
  - constructor.
  - apply clock_after_epoch;
      [reflexivity | right; reflexivity | apply wallClock_after_epoch].
  - cbv zeta in Hout, Hc. split; [exact Hout|]. rewrite Hc. reflexivity.
Defined.

Lemma GetWriterInstance_found (d : DocumentDB) :
  traces (GetWriterInstance d) (fun dir out new =>
    only describeCall new /\
    (forall instance, out = Ok instance ->
       exists wid, writerOf dir = Some wid /\
                   writerInstanceOf wid dir = Some instance) /\
    (forall msg, out <> Panic msg)).
Proof.
  intros dir. unfold GetWriterInstance.
  step DescribeDBInstances_traces.
  pose proof (answered_only describeCall Hs I) as Ho.
  destruct out as [dbInstances|e|msg].
  - rewrite (answered_Ok (instances dir) Hs) by reflexivity. quiet.
    step GetWriterInstanceIdentifier_traces.
    destruct Hs0 as (Ho' & Hw & _ & Hp).
    assert (Hoo : only describeCall (n ++ n0)) by (split_app; assumption).
    destruct out as [wid|e|msg].
    + specialize (Hw wid eq_refl).
      destruct (find (isWriter wid) (instances dir)) as [instance|] eqn:Ef;
        leaf.
      * split; [exact Hoo|]. split; [|discriminate].
        intros i [= <-]. exists wid. split; [exact Hw | exact Ef].
      * split; [exact Hoo|]. split; discriminate.
    + split; [exact Hoo|]. split; discriminate.
    + exfalso. eapply Hp. reflexivity.
  - split; [exact Ho|]. split; discriminate.
  - destruct (answered_sound Hs).
Qed.

(** X15. [AddReplicas] needs the writer instance even when it has no use
    for it: if the directory shows no writer (no cluster, no member flagged
    as writer, or the flagged member missing from the inventory), it
    returns an error after its describe calls and creates nothing,
    whatever [replicasToAdd] and INSTANCE_TYPE are. *)
Theorem AddReplicas_needs_writer :
  forall (d : DocumentDB) (replicasToAdd : Z) (w : World),
    (forall wid, writerOf (directory w) = Some wid ->
       writerInstanceOf wid (directory w) = None) ->
    let r := AddReplicas d replicasToAdd w in
    (exists e, fst r = Err e) /\
    directory (snd r) = directory w /\
    exists new, issued w (snd r) new /\ only describeCall new.
Proof.
  intros d replicasToAdd w Hno r. subst r.
  assert (T : tracesFrom (directory w) (AddReplicas d replicasToAdd)
                (fun out new => (exists e, out = Err e) /\
                                only describeCall new)).
  { unfold AddReplicas. step GetWriterInstance_found.
    destruct Hs as (Ho & Hok & Hp).
    destruct out as [instance|e|msg].
    - exfalso. destruct (Hok instance eq_refl) as (wid & Hw & Hi).
      rewrite (Hno wid Hw) in Hi. discriminate Hi.
    - split; [eexists; reflexivity | exact Ho].
    - exfalso. eapply Hp. reflexivity. }
  destruct (T w eq_refl) as (new & Hi & He & Ho).
  split; [exact He|]. split.
  - destruct Hi as (_ & -> & _). apply describes_replay, Ho.
  - exists new. auto.
Qed.

Lemma AddReplicas_needs_writer_witness :
  let d := {| ClusterID := "test-cluster"; MinCapacity := 0; MaxCapacity := 5;
              MetricName := "CPUUtilization"; TargetValue := 50;
              ScaleInCooldown := 0; ScaleOutCooldown := 0;
              InstanceType := "db.t3.medium"; DryRun := false;
              ScheduledScaling := false; ScheduleNumberReplicas := 0 |} in
  let r := AddReplicas d 1 (mkWorld emptyDirectory []) in
  fst r = Err "no clusters found with identifier test-cluster" /\
  directory (snd r) = emptyDirectory.
Proof.
  cbv zeta.
  match goal with
  | |- fst (AddReplicas ?d 1 ?w) = _ /\ _ =>
      destruct (AddReplicas_needs_writer d 1 w) as (_ & Hd & _)
  end.
  - intros wid H. discriminate H.
  - cbv zeta in Hd. split; [reflexivity | exact Hd].
Defined.

(** *** When a call of the provisioner fails *)

Lemma request_refused (c : Call) (e : error) (w : World) :
  hd Succeed (plan w) = Fail e -> request c w = (Err e, refused c e w).
Proof.
  intros H. unfold request, refused. rewrite H.
  replace (effect c (Fail e) (directory w)) with (directory w)
    by (destruct c; reflexivity).
  reflexivity.
Qed.

Lemma createOne_tag_refused (d : DocumentDB) (role tagKey instanceClass : string)
    (failText tagFailText doneText dryText : string) (w : World)
    (identifier : string) (e : error) :
  DryRun d = false ->
  hd Succeed (plan w) = Succeed ->
  hd Succeed (tl (plan w)) = Fail e ->
  newIdentifier (ClusterID d) role (clock w (clockReads w)) = Ok identifier ->
  let r := createOne d role tagKey instanceClass failText tagFailText doneText
             dryText w in
  fst r = Ok tt /\
  calls (snd r) =
    (calls w
       ++ [(CreateDBInstanceCall (ClusterID d) instanceClass identifier,
            Succeed);
           (AddTagsToResourceCall (arnOf identifier) tagKey "true", Fail e)])
      %list /\
  instances (directory (snd r)) =
    (instances (directory w) ++ [newInstance instanceClass identifier])%list /\
  tags (directory (snd r)) = tags (directory w).
Proof.
  intros Hdry H1 H2 Hid. cbv zeta.
  set (w0 := snd (UnixNano w)).
  set (w1 := served (CreateDBInstanceCall (ClusterID d) instanceClass
                       identifier) w0).
  set (w2 := refused (AddTagsToResourceCall (arnOf identifier) tagKey "true")
               e w1).
  assert (E : createOne d role tagKey instanceClass failText tagFailText
                doneText dryText w
              = (Ok tt, snd (Log INFO doneText
                               (snd (Log ERROR tagFailText w2))))).
  { unfold createOne.
    rewrite (bind_Ok UnixNano _ w w0 (clock w (clockReads w)) eq_refl).
    rewrite (bind_Ok (liftOutcome _) _ w0 w0 identifier)
      by (unfold liftOutcome; rewrite Hid; reflexivity).
    rewrite Hdry. cbn [negb].
    rewrite (bind_Ok _ _ _ _ _
               (orElse_Ok _ _ _ _ _
                  (CreateDBInstance_run (ClusterID d) instanceClass identifier
                     w0 H1))).
    fold w1.
    assert (Et : AddTagsToResource (arnOf identifier) tagKey "true" w1
                 = (Err e, w2)).
    { unfold AddTagsToResource.
      rewrite (bind_Err _ _ _ _ _ (request_refused _ e w1 H2)). reflexivity. }
    rewrite (bind_Ok _ _ _ _ _ (try_Err _ _ _ _ Et)).
    reflexivity. }
  rewrite E. cbn -[effect]. rewrite <- app_assoc. repeat split.
Qed.

(** X16. A failed tag write does not fail [AddReplicas]: when the create
    is accepted and the tag write that follows is refused, [AddReplicas]
    still returns without error; the new instance is in the inventory and
    the tags of the directory are as they were, so the instance does not
    carry the autoscaler tag. *)
Theorem AddReplicas_ignores_failed_tag_write :
  forall (d : DocumentDB) (w : World) (wid : string)
         (writerInstance : DBInstance) (e : error) (rest : list Reply)
         (identifier : string),
    DryRun d = false ->
    plan w = Succeed :: Succeed :: Succeed :: Fail e :: rest ->
    writerOf (directory w) = Some wid ->
    writerInstanceOf wid (directory w) = Some writerInstance ->
    newIdentifier (ClusterID d) "reader" (clock w (clockReads w))
      = Ok identifier ->
    let class := classFor d writerInstance in
    let r := AddReplicas d 1 w in
    fst r = Ok tt /\
    calls (snd r) =
      (calls w ++ describesOf d
         ++ [(CreateDBInstanceCall (ClusterID d) class identifier, Succeed);
             (AddTagsToResourceCall (arnOf identifier) autoscalerTagKey "true",
              Fail e)])%list /\
    instances (directory (snd r)) =
      (instances (directory w) ++ [newInstance class identifier])%list /\
    tags (directory (snd r)) = tags (directory w).
Proof.
  intros d w wid writerInstance e rest identifier Hdry Hp Hw Hi Hid class r.
  destruct (GetWriterInstance_run d w wid writerInstance) as (Hout1 & Hadv1);
    try assumption; try (rewrite Hp; reflexivity).
  cbv zeta in Hout1, Hadv1.
  destruct (GetWriterInstance d w) as [o w1] eqn:E1.
  cbn [fst snd] in Hout1, Hadv1. subst o.
  destruct Hadv1 as (C1 & D1 & _ & K1 & R1 & P1).
  rewrite Hp in P1. cbn in P1, D1. rewrite Nat.add_0_r in R1.
  destruct (createOne_tag_refused d "reader" autoscalerTagKey class
              "Failed to add replicas" "Failed to tag new read replica"
              "Added read replica" "[Dry Run] Would add read replica"
              w1 identifier e Hdry) as (Hout2 & C2 & I2 & T2).
  { rewrite P1. reflexivity. }
  { rewrite P1. reflexivity. }
  { rewrite K1, R1. exact Hid. }
  cbv zeta in Hout2, C2, I2, T2.
  assert (E : r = bind (createOne d "reader" autoscalerTagKey class
                          "Failed to add replicas"
                          "Failed to tag new read replica"
                          "Added read replica"
                          "[Dry Run] Would add read replica")
                    (fun _ => ret tt) w1).
  { subst r. unfold AddReplicas.
    rewrite (bind_Ok _ _ _ _ _ (orElse_Ok _ _ _ _ _ E1)).
    unfold class, classFor.
    destruct (String.eqb (InstanceType d) ""); reflexivity. }
  rewrite E. clear E r.
  destruct (createOne d "reader" autoscalerTagKey class _ _ _ _ w1)
    as [o w2] eqn:E2.
  cbn [fst snd] in Hout2, C2, I2, T2. subst o.
  rewrite (bind_Ok _ _ _ _ _ E2). cbn [ret fst snd].
  rewrite C2, C1, I2, T2, D1, <- app_assoc. repeat split.
Qed.

Lemma AddReplicas_ignores_failed_tag_write_witness :
  let w := mkWorld (clusterOf [] [] [])
             [Succeed; Succeed; Succeed; Fail "ThrottlingException"] in
  let r := AddReplicas (testConfig false false) 1 w in
  fst r = Ok tt /\
  instances (directory (snd r)) =
    [writerNode; newInstance "db.r6g.large" "test-cluster-reader-123456789"] /\
  tags (directory (snd r)) = [].
Proof.
  cbv zeta.
  destruct (AddReplicas_ignores_failed_tag_write (testConfig false false)
              (mkWorld (clusterOf [] [] [])
                 [Succeed; Succeed; Succeed; Fail "ThrottlingException"])
              "writer-instance" writerNode "ThrottlingException" []
              "test-cluster-reader-123456789")
    as (Hout & _ & Hin & Ht); try reflexivity.
  cbv zeta in Hout, Hin, Ht.
  split; [exact Hout|]. split; [exact Hin | exact Ht].
Defined.

Lemma createOne_create_refused (d : DocumentDB)
    (role tagKey instanceClass : string)
    (failText tagFailText doneText dryText : string) (w : World)
    (identifier : string) (e : error) :
  DryRun d = false ->
  hd Succeed (plan w) = Fail e ->
  newIdentifier (ClusterID d) role (clock w (clockReads w)) = Ok identifier ->
  let r := createOne d role tagKey instanceClass failText tagFailText doneText
             dryText w in
  fst r = Err e /\
  calls (snd r) =
    (calls w
       ++ [(CreateDBInstanceCall (ClusterID d) instanceClass identifier,
            Fail e)])%list /\
  directory (snd r) = directory w.
Proof.
  intros Hdry H1 Hid. cbv zeta.
  set (w0 := snd (UnixNano w)).
  set (w1 := refused (CreateDBInstanceCall (ClusterID d) instanceClass
                        identifier) e w0).
  assert (E : createOne d role tagKey instanceClass failText tagFailText
                doneText dryText w = (Err e, snd (Log ERROR failText w1))).
  { unfold createOne.
    rewrite (bind_Ok UnixNano _ w w0 (clock w (clockReads w)) eq_refl).
    rewrite (bind_Ok (liftOutcome _) _ w0 w0 identifier)
      by (unfold liftOutcome; rewrite Hid; reflexivity).
    rewrite Hdry. cbn [negb].
    assert (Ec : CreateDBInstance (ClusterID d) instanceClass identifier w0
                 = (Err e, w1)).
    { unfold CreateDBInstance.
      rewrite (bind_Err _ _ _ _ _ (request_refused _ e w0 H1)). reflexivity. }
    rewrite (bind_Err _ _ _ _ _ (orElse_Log_Err _ _ _ _ _ _ Ec)).
    reflexivity. }
  rewrite E. cbn. repeat split.
Qed.

Lemma repeat_two (k : nat) :
  repeat Succeed (2 * S k) = Succeed :: Succeed :: repeat Succeed (2 * k).
Proof. replace (2 * S k)%nat with (S (S (2 * k))) by lia. reflexivity. Qed.

Lemma repeatM_createOne_refused (d : DocumentDB)
    (role tagKey instanceClass : string)
    (failText tagFailText doneText dryText : string) (e : error)
    (rest : list Reply) :
  DryRun d = false ->
  forall (k n : nat) (w : World),
    (k < n)%nat ->
    plan w = (repeat Succeed (2 * k) ++ Fail e :: rest)%list ->
    clockGivesIdentifiers d role w ->
    let r := repeatM n (createOne d role tagKey instanceClass failText
                          tagFailText doneText dryText) w in
    fst r = Err e /\
    calls (snd r) =
      (calls w ++ creationsOf d role tagKey instanceClass w k
         ++ [(CreateDBInstanceCall (ClusterID d) instanceClass
                (identifierAt d role w (clockReads w + k)), Fail e)])%list /\
    directory (snd r) =
      replay (creationsOf d role tagKey instanceClass w k) (directory w).
Proof.
  intros Hdry. induction k as [|k IH]; intros n w Hlt Hp Hk; cbv zeta;
    (destruct n as [|n]; [lia|]); cbn [repeatM].
  - destruct (createOne_create_refused d role tagKey instanceClass failText
                tagFailText doneText dryText w
                (identifierAt d role w (clockReads w)) e Hdry)
      as (Hout & C & D).
    { rewrite Hp. reflexivity. }
    { apply identifierAt_Ok, Hk. }
    cbv zeta in Hout, C, D.
    destruct (createOne d role tagKey instanceClass failText tagFailText
                doneText dryText w) as [o w1] eqn:E1.
    cbn [fst snd] in Hout, C, D. subst o.
    rewrite (bind_Err _ _ _ _ _ E1). cbn [fst snd].
    rewrite Nat.add_0_r. cbn. auto.
  - rewrite repeat_two in Hp.
    destruct (createOne_run d role tagKey instanceClass failText tagFailText
                doneText dryText w (identifierAt d role w (clockReads w))
                Hdry) as (Hout & Hadv).
    { rewrite Hp. reflexivity. }
    { rewrite Hp. reflexivity. }
    { apply identifierAt_Ok, Hk. }
    cbv zeta in Hout, Hadv.
    destruct (createOne d role tagKey instanceClass failText tagFailText
                doneText dryText w) as [o w1] eqn:E1.
    cbn [fst snd] in Hout, Hadv. subst o.
    rewrite (bind_Ok _ _ _ _ _ E1).
    pose proof Hadv as (C1 & D1 & _ & K1 & R1 & P1).
    rewrite Hp in P1. cbn in P1.
    assert (Hk1 : clockGivesIdentifiers d role w1).
    { intros j. rewrite K1. apply Hk. }
    destruct (IH n w1 ltac:(lia) P1 Hk1) as (Hout2 & C2 & D2).
    cbv zeta in Hout2, C2, D2.
    assert (Ec : creationsOf d role tagKey instanceClass w (S k)
                 = (creationOf d tagKey instanceClass
                      (identifierAt d role w (clockReads w))
                      ++ creationsOf d role tagKey instanceClass w1 k)%list).
    { unfold creationsOf.
      rewrite (identifiersFrom_advanced d role w w1 1 _ k Hadv).
      unfold identifiersFrom. cbn [seq map flat_map].
      rewrite Nat.add_1_r. reflexivity. }
    assert (Ei : identifierAt d role w1 (clockReads w1 + k)
                 = identifierAt d role w (clockReads w + S k)).
    { unfold identifierAt. rewrite K1, R1.
      replace (clockReads w + 1 + k)%nat with (clockReads w + S k)%nat by lia.
      reflexivity. }
    split; [exact Hout2|]. split.
    + rewrite C2, C1, Ec, Ei, <- !app_assoc. reflexivity.
    + rewrite D2, D1, Ec, replay_app. reflexivity.
Qed.

(** X17. [AddReplicas] stops at the first create the service refuses and
    undoes nothing: when the first [k] replicas are created and tagged and
    the create of the next one fails, it returns that error, the replicas
    still to come are not attempted, and the [k] instances created so far
    stay in the inventory. *)
Theorem AddReplicas_stops_at_failed_create :
  forall (d : DocumentDB) (replicasToAdd : Z) (w : World) (wid : string)
         (writerInstance : DBInstance) (k : nat) (e : error)
         (rest : list Reply),
    DryRun d = false ->
    (k < Z.to_nat replicasToAdd)%nat ->
    plan w = (repeat Succeed (2 + 2 * k) ++ Fail e :: rest)%list ->
    clockGivesIdentifiers d "reader" w ->
    writerOf (directory w) = Some wid ->
    writerInstanceOf wid (directory w) = Some writerInstance ->
    let class := classFor d writerInstance in
    let r := AddReplicas d replicasToAdd w in
    fst r = Err e /\
    calls (snd r) =
      (calls w ++ describesOf d
         ++ creationsOf d "reader" autoscalerTagKey class w k
         ++ [(CreateDBInstanceCall (ClusterID d) class
                (identifierAt d "reader" w (clockReads w + k)), Fail e)])%list
    /\
    instances (directory (snd r)) =
      (instances (directory w)
         ++ map (newInstance class) (identifiersFrom d "reader" w k))%list.
Proof.
  intros d replicasToAdd w wid writerInstance k e rest Hdry Hlt Hp Hk Hw Hi
    class r.
  destruct (GetWriterInstance_run d w wid writerInstance) as (Hout1 & Hadv1);
    try assumption; try (rewrite Hp; reflexivity).
  cbv zeta in Hout1, Hadv1.
  destruct (GetWriterInstance d w) as [o w1] eqn:E1.
  cbn [fst snd] in Hout1, Hadv1. subst o.
  pose proof Hadv1 as (C1 & D1 & _ & K1 & R1 & P1).
  rewrite Hp in P1. cbn in P1, D1. rewrite Nat.add_0_r in R1.
  replace (k + (k + 0))%nat with (2 * k)%nat in P1 by lia.
  assert (Hk1 : clockGivesIdentifiers d "reader" w1).
  { intros j. rewrite K1. apply Hk. }
  destruct (repeatM_createOne_refused d "reader" autoscalerTagKey class
              "Failed to add replicas" "Failed to tag new read replica"
              "Added read replica" "[Dry Run] Would add read replica"
              e rest Hdry k (Z.to_nat replicasToAdd) w1 Hlt P1 Hk1)
    as (Hout2 & C2 & D2).
  cbv zeta in Hout2, C2, D2.
  assert (E : r = repeatM (Z.to_nat replicasToAdd)
                    (createOne d "reader" autoscalerTagKey class
                       "Failed to add replicas" "Failed to tag new read replica"
                       "Added read replica" "[Dry Run] Would add read replica")
                    w1).
  { subst r. unfold AddReplicas.
    rewrite (bind_Ok _ _ _ _ _ (orElse_Ok _ _ _ _ _ E1)).
    unfold class, classFor.
    destruct (String.eqb (InstanceType d) ""); reflexivity. }
  rewrite E. clear E r.
  assert (Ec : creationsOf d "reader" autoscalerTagKey class w1 k
               = creationsOf d "reader" autoscalerTagKey class w k).
  { unfold creationsOf.
    rewrite (identifiersFrom_advanced d "reader" w w1 0 _ k Hadv1).
    rewrite Nat.add_0_r. reflexivity. }
  assert (Ei : identifierAt d "reader" w1 (clockReads w1 + k)
               = identifierAt d "reader" w (clockReads w + k)).
  { unfold identifierAt. rewrite K1, R1. reflexivity. }
  split; [exact Hout2|]. split.
  - rewrite C2, C1, Ec, Ei, <- !app_assoc. reflexivity.
  - rewrite D2, Ec, D1. unfold creationsOf.
    destruct (replay_creations d autoscalerTagKey class
                (identifiersFrom d "reader" w k) (directory w))
      as (Hin & _).
    exact Hin.
Qed.

Lemma AddReplicas_stops_at_failed_create_witness :
  let w := mkWorld (clusterOf [] [] [])
             [Succeed; Succeed; Succeed; Succeed; Fail "QuotaExceeded"] in
  let r := AddReplicas (testConfig false false) 3 w in
  fst r = Err "QuotaExceeded" /\
  instances (directory (snd r)) =
    [writerNode; newInstance "db.r6g.large" "test-cluster-reader-123456789"].
Proof.
  cbv zeta.
  destruct (AddReplicas_stops_at_failed_create (testConfig false false) 3
              (mkWorld (clusterOf [] [] [])
                 [Succeed; Succeed; Succeed; Succeed; Fail "QuotaExceeded"])
              "writer-instance" writerNode 1 "QuotaExceeded" [])
    as (Hout & _ & Hin); try reflexivity.
  - lia.
  - apply clock_after_epoch;
      [reflexivity | left; reflexivity | apply wallClock_after_epoch].
  - cbv zeta in Hout, Hin. split; [exact Hout|]. rewrite Hin. reflexivity.
Defined.

(** ** Scheduled removal: which instances are deleted *)

Lemma RemoveScheduledReplicas_exact (d : DocumentDB)
    (scheduledInstances : list DBInstance) :
  DryRun d = false ->
  traces (RemoveScheduledReplicas d scheduledInstances)
    (fun _ => removesInOrder scheduledInstances).
Proof.
  intros Hdry.
  induction scheduledInstances as [|instance rest IH]; intros dir;
    cbn [RemoveScheduledReplicas].
  - leaf. unfold removesInOrder, removalsOf. cbn.
    split; [exists []; reflexivity|]. split; [discriminate|].
    split; [reflexivity|]. split; [discriminate | reflexivity].
  - destruct (available instance) eqn:Ea; cbn [negb].
    + rewrite Hdry. cbn [negb].
      apply tracesFrom_bind, tracesFrom_bind.
      eapply tracesFrom_conseq;
        [apply tracesFrom_orElse_Log, DeleteDBInstance_traces|].
      cbn beta. intros out n (r & -> & Hr).
      destruct out as [[]|e|msg].
      * apply tracesFrom_Log_last. trace_norm.
        eapply tracesFrom_conseq; [apply IH|].
        cbn beta. intros out' n2 (Hpre & Hnp & Hok & Herr & Hf).
        unfold removesInOrder, removalsOf. cbn [filter]. rewrite Ea.
        cbn [map app]. fold (removalsOf rest).
        split; [|split; [exact Hnp|split; [|split]]].
        -- destruct Hpre as (tail & ->). exists tail. reflexivity.
        -- intros E. rewrite (Hok E). reflexivity.
        -- intros e E. destruct (Herr e E) as (done & c & ->).
           exists ((DeleteDBInstanceCall (DBInstanceIdentifier instance), r)
                     :: done), c. reflexivity.
        -- intros F. apply (faultless_app [_]) in F. apply Hf, F.
      * unfold removesInOrder, removalsOf. cbn [filter]. rewrite Ea.
        cbn [map app].
        split; [eexists; reflexivity|]. split; [discriminate|].
        split; [discriminate|]. split.
        -- intros e' [= <-]. exists [], (DeleteDBInstanceCall
                                          (DBInstanceIdentifier instance)).
           destruct r; try discriminate Hr. injection Hr as ->. reflexivity.
        -- intros F. apply faultless_one in F. subst r. discriminate Hr.
      * destruct r; discriminate Hr.
    + apply tracesFrom_Log.
      eapply tracesFrom_conseq; [apply IH|].
      cbn beta. intros out' n2 H.
      unfold removesInOrder, removalsOf in *. cbn [filter]. rewrite Ea.
      exact H.
Qed.



(** ** Notifications: when one is sent *)

Lemma describes_publications (new : list (Call * Reply)) :
  only describeCall new -> publications new = [].
Proof. intros H. apply reads_publications, describes_reads, H. Qed.

Lemma listTags_publications (new : list (Call * Reply)) :
  only listTagsCall new -> publications new = [].
Proof. intros H. apply reads_publications, listTags_reads, H. Qed.

Lemma removals_publications (d : DocumentDB) (l : list DBInstance)
    (new : list (Call * Reply)) :
  only (fun c => DryRun d = false /\
          exists i, In i l /\ available i = true /\
                    c = DeleteDBInstanceCall (DBInstanceIdentifier i)) new ->
  publications new = [].
Proof.
  apply (only_filter_nil _ isPublish).
  intros c (_ & i & _ & _ & ->). reflexivity.
Qed.

Lemma creations_publications (d : DocumentDB) (role key : string)
    (new : list (Call * Reply)) :
  only (fun c => describeCall c \/ creationCall d role key c) new ->
  publications new = [].
Proof.
  apply (only_filter_nil _ isPublish).
  intros c [Hc|[_ Hc]]; destruct c; cbn in *; tauto.
Qed.

Lemma notifiesLast_notified (before : list (Call * Reply)) (message : string)
    (out : Outcome unit) (new : list (Call * Reply)) :
  publications before = [] -> notified message out new ->
  notifiesLast out (before ++ new).
Proof.
  intros Hb (-> & r & ->). right. split; [reflexivity|].
  exists before, message, r. auto.
Qed.

Lemma ExecuteScheduledScalingAction_notifies (d : DocumentDB) :
  traces (ExecuteScheduledScalingAction d) (fun _ => notifiesLast).
Proof.
  intros dir. unfold ExecuteScheduledScalingAction.
  apply tracesFrom_Log.
  step GetReaderInstances_traces.
  destruct Hs as (Ho & _).
  pose proof (describes_publications _ Ho) as P0.
  destruct out as [readerInstances|e|msg]; [|left; exact P0 ..].
  step collectScheduled_traces.
  destruct Hs as (Ho0 & _).
  pose proof (listTags_publications _ Ho0) as P1.
  assert (P01 : publications (n ++ n0) = [])
    by (rewrite publications_app, P0, P1; reflexivity).
  destruct out as [scheduledInstances|e|msg]; [|left; exact P01 ..].
  apply tracesFrom_Log.
  assert (Hadd : forall dir' replicasToAdd,
    tracesFrom dir'
      (orElse (AddScheduledReplicas d replicasToAdd)
         (fun _ => Log ERROR "Failed to add scheduled replicas") ;;
       r <- try (SendScaleOutNotification (ClusterID d) replicasToAdd) ;;
       match r with
       | inr _ => Log ERROR "Failed to send scale-out notification"
       | inl _ => ret tt
       end)
      (fun out' n2 => notifiesLast out' ((n ++ n0) ++ n2))).
  { intros dir' replicasToAdd.
    step AddScheduledReplicas_traces.
    destruct Hs as (Hcr & _).
    pose proof (creations_publications _ _ _ _ Hcr) as P2.
    assert (P012 : publications ((n ++ n0) ++ n1) = [])
      by (rewrite publications_app, P01, P2; reflexivity).
    destruct out as [[]|e|msg]; [|left; exact P012 ..].
    eapply tracesFrom_conseq; [apply notify_scale_out|].
    cbn beta. intros out' n2 Hn. rewrite app_assoc.
    apply (notifiesLast_notified _ _ _ _ P012 Hn). }
  destruct (Z.of_nat (List.length scheduledInstances) >? 0).
  - apply tracesFrom_Log.
    step RemoveScheduledReplicas_traces.
    pose proof (removals_publications _ _ _ Hs) as P2.
    assert (P012 : publications (n ++ n0 ++ n1) = [])
      by (rewrite !publications_app, P0, P1, P2; reflexivity).
    destruct out as [[]|e|msg]; [|left; exact P012 ..].
    eapply tracesFrom_conseq; [apply notify_scale_in|].
    cbn beta. intros out' n2 Hn.
    replace (n ++ n0 ++ n1 ++ n2)%list with ((n ++ n0 ++ n1) ++ n2)%list
      by (rewrite <- !app_assoc; reflexivity).
    apply (notifiesLast_notified _ _ _ _ P012 Hn).
  - set (cur := Z.of_nat (List.length readerInstances)).
    set (desired := Int64.add cur (ScheduleNumberReplicas d)).
    destruct (desired >? MaxCapacity d); cbn [andb].
    + destruct (Int64.sub (MaxCapacity d) cur <=? 0).
      * leaf. left. exact P01.
      * apply tracesFrom_Log.
        destruct (desired <? MinCapacity d).
        -- apply tracesFrom_Log, tracesFrom_Log.
           eapply tracesFrom_conseq; [apply Hadd|].
           cbn beta. intros out' n2 H. rewrite <- app_assoc in H. exact H.
        -- apply tracesFrom_ret_bind, tracesFrom_Log.
           eapply tracesFrom_conseq; [apply Hadd|].
           cbn beta. intros out' n2 H. rewrite <- app_assoc in H. exact H.
    + apply tracesFrom_ret_bind.
      destruct (desired <? MinCapacity d).
      * apply tracesFrom_Log, tracesFrom_Log.
        eapply tracesFrom_conseq; [apply Hadd|].
        cbn beta. intros out' n2 H. rewrite <- app_assoc in H. exact H.
      * apply tracesFrom_ret_bind, tracesFrom_Log.
        eapply tracesFrom_conseq; [apply Hadd|].
        cbn beta. intros out' n2 H. rewrite <- app_assoc in H. exact H.
Qed.

Lemma ExecuteMetricBasedScalingAction_notifies (d : DocumentDB) :
  traces (ExecuteMetricBasedScalingAction d) (fun _ => notifiesLast).
Proof.
  intros dir. unfold ExecuteMetricBasedScalingAction.
  step GetCurrentMetricValue_traces.
  pose proof (reads_publications _ Hs) as P0.
  destruct out as [m|e|msg]; [|left; exact P0 ..].
  apply tracesFrom_Log. unfold scaleToMetric.
  step GetCurrentCapacity_traces.
  destruct Hs0 as (Ho & _).
  pose proof (describes_publications _ Ho) as P1.
  assert (P01 : publications (n ++ n0) = [])
    by (rewrite publications_app, P0, P1; reflexivity).
  destruct out as [currentCapacity|e|msg]; [|left; exact P01 ..].
  apply tracesFrom_Log, tracesFrom_Log.
  set (desired := CalculateDesiredCapacity d m currentCapacity).
  destruct (desired >? currentCapacity).
  - apply tracesFrom_Log.
    step AddReplicas_traces.
    destruct Hs0 as (Hcr & _).
    pose proof (creations_publications _ _ _ _ Hcr) as P2.
    assert (P012 : publications (n ++ n0 ++ n1) = [])
      by (rewrite !publications_app, P0, P1, P2; reflexivity).
    destruct out as [[]|e|msg]; [|left; exact P012 ..].
    eapply tracesFrom_conseq; [apply notify_scale_out|].
    cbn beta. intros out' n2 Hn.
    replace (n ++ n0 ++ n1 ++ n2)%list with ((n ++ n0 ++ n1) ++ n2)%list
      by (rewrite <- !app_assoc; reflexivity).
    apply (notifiesLast_notified _ _ _ _ P012 Hn).
  - destruct (desired <? currentCapacity).
    + apply tracesFrom_Log.
      change (Z.to_nat 1) with 1%nat. cbn [repeatM].
      apply tracesFrom_bind, tracesFrom_bind.
      eapply tracesFrom_conseq;
        [apply tracesFrom_orElse_Log, RemoveReplica_traces|].
      cbn beta. intros out n1 (_ & _ & _ & P2 & _).
      assert (P012 : publications (n ++ n0 ++ n1) = [])
        by (rewrite !publications_app, P0, P1, P2; reflexivity).
      destruct out as [[]|e|msg]; [|left; exact P012 ..].
      leaf. cbn [app replay fold_left].
      eapply tracesFrom_conseq; [apply notify_scale_in|].
      cbn beta. intros out' n2 Hn.
      replace (n ++ n0 ++ n1 ++ n2)%list with ((n ++ n0 ++ n1) ++ n2)%list
        by (rewrite <- !app_assoc; reflexivity).
      apply (notifiesLast_notified _ _ _ _ P012 Hn).
    + leaf. left. exact P01.
Qed.

(** X19. An invocation publishes at most one notification, as its last
    call, and only when it returns without error; whether the publication
    itself succeeds does not change the outcome. *)
Theorem notification_only_on_success :
  forall (d : DocumentDB) (w : World),
    let r := ExecuteScalingAction d w in
    exists new, issued w (snd r) new /\
      (List.length (publications new) <= 1)%nat /\
      (forall message reply, In (PublishCall message, reply) new ->
         fst r = Ok tt /\
         exists before, new = (before ++ [(PublishCall message, reply)])%list /\
                        publications before = []).
Proof.
  intros d w r. subst r.
  assert (T : tracesFrom (directory w) (ExecuteScalingAction d) notifiesLast).
  { unfold ExecuteScalingAction. destruct (ScheduledScaling d).
    - apply ExecuteScheduledScalingAction_notifies.
    - apply ExecuteMetricBasedScalingAction_notifies. }
  destruct (T w eq_refl) as (new & Hi & Hn).
  exists new. split; [exact Hi|].
  destruct Hn as [Hq|(Hout & before & message & r & -> & Hb)].
  - rewrite Hq. split; [cbn; lia|].
    intros message reply Hin. exfalso.
    assert (Hp : In (PublishCall message, reply) (publications new)).
    { unfold publications. apply filter_In. split; [exact Hin | reflexivity]. }
    rewrite Hq in Hp. destruct Hp.
  - split.
    + rewrite publications_app, Hb. cbn. lia.
    + intros message' reply Hin. split; [exact Hout|].
      apply in_app_or in Hin. destruct Hin as [Hin|[Hin|[]]].
      * exfalso.
        assert (Hp : In (PublishCall message', reply) (publications before)).
        { unfold publications. apply filter_In.
          split; [exact Hin | reflexivity]. }
        rewrite Hb in Hp. destruct Hp.
      * injection Hin as -> ->. exists before. auto.
Qed.

(** ** Runs without failures *)

Lemma runs_ret {A} (a : A) (w : World) : runs (ret a) w a 0 [].
Proof. split; [reflexivity | apply advanced_refl]. Qed.

Lemma runs_bind {A B} (m : M A) (k : A -> M B) (w : World) (a : A) (b : B)
    (k1 k2 : nat) (n1 n2 : list (Call * Reply)) :
  runs m w a k1 n1 ->
  runs (k a) (snd (m w)) b k2 n2 ->
  runs (bind m k) w b (k1 + k2) (n1 ++ n2).
Proof.
  intros (E1 & A1) (E2 & A2). unfold runs, bind.
  destruct (m w) as [o w1]. cbn [fst snd] in *. subst o.
  split; [exact E2|]. eapply advanced_trans; eassumption.
Qed.

Lemma runs_bind_quiet {A B} (m : M A) (k : A -> M B) (w : World) (a : A)
    (b : B) (k1 : nat) (n1 n2 : list (Call * Reply)) :
  runs m w a k1 n1 ->
  runs (k a) (snd (m w)) b 0 n2 ->
  runs (bind m k) w b k1 (n1 ++ n2).
Proof.
  intros R1 R2. rewrite <- (Nat.add_0_r k1).
  exact (runs_bind m k w a b k1 0 n1 n2 R1 R2).
Qed.

Lemma runs_orElse {A} (m : M A) (h : error -> M unit) (w : World) (a : A)
    (k : nat) (new : list (Call * Reply)) :
  runs m w a k new -> runs (orElse m h) w a k new.
Proof.
  intros (E & Ad). unfold runs, orElse, bind, try.
  destruct (m w) as [o w1]. cbn [fst snd] in *. subst o. auto.
Qed.

Lemma runs_try {A} (m : M A) (w : World) (a : A) (k : nat)
    (new : list (Call * Reply)) :
  runs m w a k new -> runs (try m) w (inl a) k new.
Proof.
  intros (E & Ad). unfold runs, try.
  destruct (m w) as [o w1]. cbn [fst snd] in *. subst o. auto.
Qed.

Lemma runs_Log {A} (l : Level) (msg : string) (m : M A) (w : World) (a : A)
    (k : nat) (new : list (Call * Reply)) :
  runs m (snd (Log l msg w)) a k new -> runs (Log l msg ;; m) w a k new.
Proof. intros H. exact H. Qed.

Lemma runs_Log_last (l : Level) (msg : string) (w : World) :
  runs (Log l msg) w tt 0 [].
Proof. split; [reflexivity | apply (advanced_refl w)]. Qed.

Lemma runs_request (c : Call) (w : World) :
  calm w -> runs (request c) w Succeed 0 [(c, Succeed)].
Proof.
  intros Hc. unfold runs. rewrite (request_served c w (calm_hd w Hc)).
  split; [reflexivity | apply advanced_served].
Qed.

Lemma runs_calm {A} (m : M A) (w : World) (a : A) (k : nat)
    (new : list (Call * Reply)) :
  calm w -> runs m w a k new -> calm (snd (m w)).
Proof. intros Hc (_ & Ad). eapply advanced_calm; eassumption. Qed.

Lemma runs_reads {A} (m : M A) (w : World) (a : A) (k : nat)
    (new : list (Call * Reply)) :
  runs m w a k new -> only readCall new ->
  directory (snd (m w)) = directory w.
Proof. intros (_ & _ & D & _) Ho. rewrite D. apply reads_replay, Ho. Qed.

Lemma accepted_app (l1 l2 : list Call) :
  accepted (l1 ++ l2) = (accepted l1 ++ accepted l2)%list.
Proof. apply map_app. Qed.

Lemma accepted_reads (cs : list Call) :
  Forall readCall cs -> only readCall (accepted cs).
Proof.
  unfold only, accepted. intros H. apply Forall_map. exact H.
Qed.

Lemma tagReads_read (l : list DBInstance) : Forall readCall (tagReadsOf l).
Proof.
  unfold tagReadsOf. apply Forall_map, Forall_forall. intros i _.
  right. right. exact I.
Qed.

Lemma describesOf_reads (d : DocumentDB) : only readCall (describesOf d).
Proof. repeat constructor; left; exact I. Qed.

(** *** Topology and tags *)

Lemma GetReaderInstances_runs (d : DocumentDB) (w : World) (wid : string) :
  calm w ->
  writerOf (directory w) = Some wid ->
  runs (GetReaderInstances d) w (readersOf wid (directory w)) 0 (describesOf d).
Proof.
  intros Hc Hw. unfold GetReaderInstances.
  set (w1 := served (DescribeDBInstancesCall (ClusterID d)) w).
  assert (R1 : runs (orElse (DescribeDBInstances (ClusterID d))
                       (fun _ => Log ERROR "Failed to describe DB instances"))
                 w (instances (directory w)) 0
                 [(DescribeDBInstancesCall (ClusterID d), Succeed)]).
  { apply runs_orElse. unfold runs.
    rewrite (DescribeDBInstances_run _ w (calm_hd w Hc)).
    split; [reflexivity | apply advanced_served]. }
  apply (runs_bind _ _ w _ _ 0 0 [_] [_] R1).
  assert (E1 : snd (orElse (DescribeDBInstances (ClusterID d))
                      (fun _ => Log ERROR "Failed to describe DB instances") w)
               = w1).
  { rewrite (orElse_Ok _ _ _ _ _
               (DescribeDBInstances_run _ w (calm_hd w Hc))). reflexivity. }
  rewrite E1.
  assert (Hc1 : calm w1).
  { eapply advanced_calm; [exact Hc | apply advanced_served]. }
  assert (R2 : runs (orElse (GetWriterInstanceIdentifier d)
                       (fun _ => Log ERROR
                                   "Failed to get writer instance identifier"))
                 w1 wid 0 [(DescribeDBClustersCall (ClusterID d), Succeed)]).
  { apply runs_orElse. unfold runs.
    rewrite (GetWriterInstanceIdentifier_run d w1 wid (calm_hd w1 Hc1) Hw).
    split; [reflexivity | apply advanced_served]. }
  apply (runs_bind _ _ w1 _ _ 0 0 [_] [] R2).
  apply runs_ret.
Qed.

Lemma ListTagsForResource_run (resourceName : string) (w : World) :
  hd Succeed (plan w) = Succeed ->
  ListTagsForResource resourceName w =
    (Ok (tagsOf (directory w) resourceName),
     served (ListTagsForResourceCall resourceName) w).
Proof.
  intros H. unfold ListTagsForResource.
  rewrite (bind_Ok _ _ _ _ _ (request_served _ w H)). reflexivity.
Qed.

Lemma HasSchedulerTag_runs (d : DocumentDB) (instance : DBInstance)
    (w : World) :
  calm w ->
  runs (HasSchedulerTag d instance) w
    (owned schedulerTagKey (directory w) instance) 0
    [(ListTagsForResourceCall (DBInstanceArn instance), Succeed)].
Proof.
  intros Hc. unfold HasSchedulerTag, runs.
  rewrite (bind_Ok _ _ _ _ _
             (orElse_Ok _ _ _ _ _
                (ListTagsForResource_run _ w (calm_hd w Hc)))).
  split; [reflexivity | apply advanced_served].
Qed.

Lemma collectScheduled_runs (d : DocumentDB)
    (readerInstances : list DBInstance) :
  forall (scheduledInstances : list DBInstance) (w : World),
    calm w ->
    runs (collectScheduled d readerInstances scheduledInstances) w
      (scheduledInstances
         ++ filter (owned schedulerTagKey (directory w)) readerInstances)%list
      0 (accepted (tagReadsOf readerInstances)).
Proof.
  induction readerInstances as [|instance rest IH];
    intros scheduledInstances w Hc; cbn [collectScheduled].
  - cbn. rewrite app_nil_r. apply runs_ret.
  - pose proof (HasSchedulerTag_runs d instance w Hc) as R1.
    pose proof (runs_orElse _ (fun _ => Log ERROR
                                 "Failed to check scheduler tag") _ _ _ _ R1)
      as R1'.
    apply (runs_bind _ _ w _ _ 0 0 [_] _ R1').
    set (w1 := snd (orElse (HasSchedulerTag d instance) _ w)).
    assert (Hc1 : calm w1) by (apply (runs_calm _ _ _ _ _ Hc R1')).
    assert (Hd1 : directory w1 = directory w).
    { apply (runs_reads _ _ _ _ _ R1'). apply only_one. right. right.
      exact I. }
    cbn [filter].
    destruct (owned schedulerTagKey (directory w) instance).
    + specialize (IH (scheduledInstances ++ [instance])%list w1 Hc1).
      rewrite Hd1, <- app_assoc in IH. exact IH.
    + specialize (IH scheduledInstances w1 Hc1).
      rewrite Hd1 in IH. exact IH.
Qed.

Lemma Publish_runs (message : string) (w : World) :
  calm w -> runs (Publish message) w tt 0 [(PublishCall message, Succeed)].
Proof.
  intros Hc. unfold Publish, runs.
  rewrite (bind_Ok _ _ _ _ _ (request_served _ w (calm_hd w Hc))).
  split; [reflexivity | apply advanced_served].
Qed.

Lemma notify_scale_in_runs (d : DocumentDB) (replicasRemoved : Z) (w : World) :
  calm w ->
  runs (r <- try (SendScaleInNotification (ClusterID d) replicasRemoved) ;;
        match r with
        | inr _ => Log ERROR "Failed to send scale-in notification"
        | inl _ => ret tt
        end) w tt 0
    [(PublishCall (scaleInMessage d replicasRemoved), Succeed)].
Proof.
  intros Hc.
  pose proof (runs_try _ _ _ _ _
                (Publish_runs (scaleInMessage d replicasRemoved) w Hc)) as R.
  apply (runs_bind _ _ w _ _ 0 0 [_] [] R). apply runs_ret.
Qed.

Lemma notify_scale_out_runs (d : DocumentDB) (replicasAdded : Z) (w : World) :
  calm w ->
  runs (r <- try (SendScaleOutNotification (ClusterID d) replicasAdded) ;;
        match r with
        | inr _ => Log ERROR "Failed to send scale-out notification"
        | inl _ => ret tt
        end) w tt 0
    [(PublishCall (scaleOutMessage d replicasAdded), Succeed)].
Proof.
  intros Hc.
  pose proof (runs_try _ _ _ _ _
                (Publish_runs (scaleOutMessage d replicasAdded) w Hc)) as R.
  apply (runs_bind _ _ w _ _ 0 0 [_] [] R). apply runs_ret.
Qed.

Lemma RemoveScheduledReplicas_runs (d : DocumentDB)
    (scheduledInstances : list DBInstance) :
  DryRun d = false ->
  forall w, calm w ->
    runs (RemoveScheduledReplicas d scheduledInstances) w tt 0
      (accepted (removalsOf scheduledInstances)).
Proof.
  intros Hdry.
  induction scheduledInstances as [|instance rest IH]; intros w Hc;
    cbn [RemoveScheduledReplicas].
  - apply runs_ret.
  - unfold removalsOf. cbn [filter].
    destruct (available instance) eqn:Ea; cbn [negb].
    + rewrite Hdry. cbn [negb map accepted].
      assert (R1 : runs (orElse (DeleteDBInstance
                                   (DBInstanceIdentifier instance))
                           (fun _ => Log ERROR
                                       "Failed to delete scheduled read replica")
                         ;; Log INFO "Removed scheduled read replica")
                     w tt 0
                     [(DeleteDBInstanceCall (DBInstanceIdentifier instance),
                       Succeed)]).
      { assert (R0 : runs (DeleteDBInstance (DBInstanceIdentifier instance))
                       w tt 0
                       [(DeleteDBInstanceCall (DBInstanceIdentifier instance),
                         Succeed)]).
        { unfold DeleteDBInstance, runs.
          rewrite (bind_Ok _ _ _ _ _ (request_served _ w (calm_hd w Hc))).
          split; [reflexivity | apply advanced_served]. }
        apply (runs_bind _ _ w _ _ 0 0 [_] []
                 (runs_orElse _ _ _ _ _ _ R0)).
        apply runs_Log_last. }
      apply (runs_bind _ _ w _ _ 0 0 [_] _ R1).
      apply IH. apply (runs_calm _ _ _ _ _ Hc R1).
    + apply runs_Log. apply IH. exact Hc.
Qed.

Lemma creationsOf_advanced (d : DocumentDB) (role tagKey class : string)
    (w w' : World) (new : list (Call * Reply)) (n : nat) :
  advanced w w' 0 new ->
  creationsOf d role tagKey class w' n = creationsOf d role tagKey class w n.
Proof.
  intros H. unfold creationsOf.
  rewrite (identifiersFrom_advanced d role w w' 0 new n H), Nat.add_0_r.
  reflexivity.
Qed.

Lemma clockGivesIdentifiers_advanced (d : DocumentDB) (role : string)
    (w w' : World) (k : nat) (new : list (Call * Reply)) :
  advanced w w' k new ->
  clockGivesIdentifiers d role w -> clockGivesIdentifiers d role w'.
Proof. intros (_ & _ & _ & K & _) H j. rewrite K. apply H. Qed.

Lemma AddScheduledReplicas_runs (d : DocumentDB) (replicasToAdd : Z)
    (w : World) (wid : string) (writerInstance : DBInstance) :
  DryRun d = false ->
  calm w ->
  clockGivesIdentifiers d "scheduler" w ->
  writerOf (directory w) = Some wid ->
  writerInstanceOf wid (directory w) = Some writerInstance ->
  runs (AddScheduledReplicas d replicasToAdd) w tt (Z.to_nat replicasToAdd)
    ((if String.eqb (InstanceType d) "" then describesOf d else [])
       ++ creationsOf d "scheduler" schedulerTagKey
            (classFor d writerInstance) w (Z.to_nat replicasToAdd)).
Proof.
  intros Hdry Hc Hk Hw Hi. unfold AddScheduledReplicas, classFor.
  destruct (String.eqb (InstanceType d) "") eqn:Et; cbn [negb].
  - pose proof (GetWriterInstance_run d w wid writerInstance (calm_hd w Hc)
                  (calm_hd_tl w Hc) Hw Hi) as R0.
    assert (R1 : runs (writerInstance <-
                         orElse (GetWriterInstance d)
                           (fun _ => Log ERROR "Failed to get writer instance") ;;
                       ret (DBInstanceClass writerInstance))
                   w (DBInstanceClass writerInstance) 0 (describesOf d)).
    { rewrite <- (app_nil_r (describesOf d)).
      apply (runs_bind _ _ w _ _ 0 0 _ []
               (runs_orElse _ _ _ _ _ _ R0)).
      apply runs_ret. }
    apply (runs_bind _ _ w _ _ 0 _ _ _ R1).
    destruct R1 as (_ & A1).
    rewrite <- (creationsOf_advanced d "scheduler" schedulerTagKey
                  (DBInstanceClass writerInstance) w _ _ _ A1).
    apply (repeatM_createOne_run d "scheduler" schedulerTagKey
             (DBInstanceClass writerInstance) _ _ _ _ Hdry).
    + eapply advanced_calm; eassumption.
    + eapply clockGivesIdentifiers_advanced; eassumption.
  - apply (runs_bind _ _ w _ _ 0 _ [] _ (runs_ret (InstanceType d) w)).
    apply (repeatM_createOne_run d "scheduler" schedulerTagKey
             (InstanceType d) _ _ _ _ Hdry); assumption.
Qed.

(** *** Scheduled mode *)

Lemma scheduled_scale_in_runs (d : DocumentDB) (w : World) (wid : string) :
  DryRun d = false ->
  calm w ->
  writerOf (directory w) = Some wid ->
  scheduledReaders wid (directory w) <> [] ->
  runs (ExecuteScheduledScalingAction d) w tt 0
    (describesOf d
       ++ accepted (tagReadsOf (readersOf wid (directory w)))
       ++ accepted (removalsOf (scheduledReaders wid (directory w)))
       ++ [(PublishCall
              (scaleInMessage d
                 (Z.of_nat (List.length (scheduledReaders wid (directory w))))),
            Succeed)]).
Proof.
  intros Hdry Hc Hw Hne. unfold ExecuteScheduledScalingAction.
  apply runs_Log.
  set (w0 := snd (Log INFO "Executing scheduled scaling action" w)).
  assert (Hc0 : calm w0) by exact Hc.
  pose proof (runs_orElse _ (fun _ => Log ERROR
                               "Failed to retrieve reader instances")
                _ _ _ _ (GetReaderInstances_runs d w0 wid Hc0 Hw)) as R1.
  apply (runs_bind _ _ w0 _ _ 0 0 _ _ R1).
  set (w1 := snd (orElse (GetReaderInstances d) _ w0)).
  assert (Hc1 : calm w1) by (apply (runs_calm _ _ _ _ _ Hc0 R1)).
  assert (Hd1 : directory w1 = directory w)
    by (apply (runs_reads _ _ _ _ _ R1 (describesOf_reads d))).
  change (directory w0) with (directory w).
  pose proof (collectScheduled_runs d (readersOf wid (directory w)) [] w1 Hc1)
    as R2.
  rewrite Hd1 in R2. cbn [app] in R2. fold (scheduledReaders wid (directory w)) in R2.
  apply (runs_bind _ _ w1 _ _ 0 0 _ _ R2).
  set (w2 := snd (collectScheduled d _ [] w1)).
  assert (Hc2 : calm w2) by (apply (runs_calm _ _ _ _ _ Hc1 R2)).
  cbv zeta. apply runs_Log.
  replace (Z.of_nat (List.length (scheduledReaders wid (directory w))) >? 0)
    with true.
  2:{ symmetry. apply Z.gtb_lt.
      destruct (scheduledReaders wid (directory w)); [congruence | cbn; lia]. }
  apply runs_Log.
  set (w3 := snd (Log INFO "Scaling In: Removing scheduled replicas"
                    (snd (Log INFO "Current scheduled replicas" w2)))).
  assert (Hc3 : calm w3) by exact Hc2.
  pose proof (runs_orElse _ (fun _ => Log ERROR
                               "Failed to remove scheduled replicas")
                _ _ _ _
                (RemoveScheduledReplicas_runs d
                   (scheduledReaders wid (directory w)) Hdry w3 Hc3)) as R3.
  apply (runs_bind _ _ w3 _ _ 0 0 _ _ R3).
  apply notify_scale_in_runs. apply (runs_calm _ _ _ _ _ Hc3 R3).
Qed.

Lemma replay_accepted_reads (cs : list Call) (dir : Directory) :
  Forall readCall cs -> replay (accepted cs) dir = dir.
Proof. intros H. apply reads_replay, accepted_reads, H. Qed.

(** X20. A scheduled scale-in without dry-run, when no call fails: after
    the two describe calls and one tag read per reader, the readers that
    carry the scheduler tag and are available are deleted, in listing
    order, and one notification is published; the count it reports is the
    number of readers that carry the tag, whether or not they were
    available and deleted. *)
Theorem scheduled_scale_in_run :
  forall (d : DocumentDB) (w : World) (wid : string),
    ScheduledScaling d = true ->
    DryRun d = false ->
    calm w ->
    writerOf (directory w) = Some wid ->
    scheduledReaders wid (directory w) <> [] ->
    let scheduled := scheduledReaders wid (directory w) in
    let r := ExecuteScalingAction d w in
    fst r = Ok tt /\
    calls (snd r) =
      (calls w ++ describesOf d
         ++ accepted (tagReadsOf (readersOf wid (directory w)))
         ++ accepted (removalsOf scheduled)
         ++ [(PublishCall
                (scaleInMessage d (Z.of_nat (List.length scheduled))),
              Succeed)])%list /\
    directory (snd r) = replay (accepted (removalsOf scheduled)) (directory w).
Proof.
  intros d w wid Hm Hdry Hc Hw Hne scheduled r. subst r.
  unfold ExecuteScalingAction. rewrite Hm.
  destruct (scheduled_scale_in_runs d w wid Hdry Hc Hw Hne)
    as (Hout & C & D & _).
  split; [exact Hout|]. split; [exact C|].
  rewrite D, !replay_app.
  rewrite (reads_replay (describesOf d)) by apply describesOf_reads.
  rewrite (replay_accepted_reads (tagReadsOf _)) by apply tagReads_read.
  reflexivity.
Qed.

Lemma scheduled_scale_in_run_witness :
  let l := [readerNode "replica-1"; creatingNode "replica-2"] in
  let w := mkWorld
             (clusterOf l
                [(DBInstanceArn (readerNode "replica-1"),
                  [tagTrue schedulerTagKey]);
                 (DBInstanceArn (creatingNode "replica-2"),
                  [tagTrue schedulerTagKey])] []) [] in
  let r := ExecuteScalingAction (testConfig true false) w in
  fst r = Ok tt /\
  mutations (calls (snd r)) = [(DeleteDBInstanceCall "replica-1", Succeed)] /\
  publications (calls (snd r)) =
    [(PublishCall "Scaled in cluster test-cluster by removing 2 replicas.",
      Succeed)].
Proof.
  cbv zeta.
  match goal with
  | |- fst (ExecuteScalingAction ?d ?w) = _ /\ _ =>
      destruct (scheduled_scale_in_run d w "writer-instance")
        as (Hout & Hcalls & _)
  end.
  - reflexivity.
  - reflexivity.
  - constructor.
  - reflexivity.
  - discriminate.
  - cbv zeta in Hout, Hcalls. split; [exact Hout|].
    rewrite Hcalls. split; reflexivity.
Defined.

Lemma scheduledReplicas_not_at_maximum (d : DocumentDB) (currentReaders : Z) :
  atMaximum d currentReaders = false ->
  scheduledReplicas d currentReaders =
    let desiredCapacity :=
      Int64.add currentReaders (ScheduleNumberReplicas d) in
    if desiredCapacity <? MinCapacity d
    then Int64.sub (MinCapacity d) currentReaders
    else if desiredCapacity >? MaxCapacity d
         then Int64.sub (MaxCapacity d) currentReaders
         else ScheduleNumberReplicas d.
Proof.
  unfold atMaximum, scheduledReplicas. cbv zeta. intros H.
  destruct (Int64.add currentReaders (ScheduleNumberReplicas d)
              >? MaxCapacity d) eqn:Eo.
  - rewrite H. reflexivity.
  - reflexivity.
Qed.

Lemma scheduled_scale_out_runs (d : DocumentDB) (w : World) (wid : string)
    (writerInstance : DBInstance) :
  DryRun d = false ->
  calm w ->
  clockGivesIdentifiers d "scheduler" w ->
  writerOf (directory w) = Some wid ->
  writerInstanceOf wid (directory w) = Some writerInstance ->
  scheduledReaders wid (directory w) = [] ->
  atMaximum d (readerCount wid (directory w)) = false ->
  runs (ExecuteScheduledScalingAction d) w tt
    (Z.to_nat (scheduledReplicas d (readerCount wid (directory w))))
    (describesOf d
       ++ accepted (tagReadsOf (readersOf wid (directory w)))
       ++ ((if String.eqb (InstanceType d) "" then describesOf d else [])
             ++ creationsOf d "scheduler" schedulerTagKey
                  (classFor d writerInstance) w
                  (Z.to_nat
                     (scheduledReplicas d (readerCount wid (directory w)))))
       ++ [(PublishCall
              (scaleOutMessage d
                 (scheduledReplicas d (readerCount wid (directory w)))),
            Succeed)]).
Proof.
  intros Hdry Hc Hk Hw Hi Hs Hmax. unfold ExecuteScheduledScalingAction.
  apply runs_Log.
  set (w0 := snd (Log INFO "Executing scheduled scaling action" w)).
  assert (Hc0 : calm w0) by exact Hc.
  pose proof (runs_orElse _ (fun _ => Log ERROR
                               "Failed to retrieve reader instances")
                _ _ _ _ (GetReaderInstances_runs d w0 wid Hc0 Hw)) as R1.
  apply (runs_bind _ _ w0 _ _ 0 _ _ _ R1).
  set (w1 := snd (orElse (GetReaderInstances d) _ w0)) in *.
  assert (Hc1 : calm w1) by (apply (runs_calm _ _ _ _ _ Hc0 R1)).
  assert (Hd1 : directory w1 = directory w)
    by (apply (runs_reads _ _ _ _ _ R1 (describesOf_reads d))).
  change (directory w0) with (directory w) in *.
  pose proof (collectScheduled_runs d (readersOf wid (directory w)) [] w1 Hc1)
    as R2.
  rewrite Hd1 in R2. cbn [app] in R2.
  fold (scheduledReaders wid (directory w)) in R2. rewrite Hs in R2.
  apply (runs_bind _ _ w1 _ _ 0 _ _ _ R2).
  set (w2 := snd (collectScheduled d _ [] w1)) in *.
  assert (Hc2 : calm w2) by (apply (runs_calm _ _ _ _ _ Hc1 R2)).
  assert (A2 : advanced w w2 0
                 (describesOf d
                    ++ accepted (tagReadsOf (readersOf wid (directory w))))).
  { destruct R1 as (_ & A1). destruct R2 as (_ & A2).
    apply (advanced_trans w w1 w2 0 0 _ _ A1 A2). }
  assert (Hd2 : directory w2 = directory w).
  { destruct A2 as (_ & D & _). rewrite D, replay_app.
    rewrite (reads_replay (describesOf d)) by apply describesOf_reads.
    apply replay_accepted_reads, tagReads_read. }
  cbv zeta. apply runs_Log. cbn [List.length Z.of_nat Z.gtb Z.compare].
  fold (readerCount wid (directory w)).
  rewrite (scheduledReplicas_not_at_maximum d _ Hmax). cbv zeta.
  unfold atMaximum in Hmax.
  set (cur := readerCount wid (directory w)) in *.
  assert (Hadd : forall n (w3 : World),
            advanced w2 w3 0 [] ->
            runs (orElse (AddScheduledReplicas d n)
                    (fun _ => Log ERROR "Failed to add scheduled replicas") ;;
                  r <- try (SendScaleOutNotification (ClusterID d) n) ;;
                  match r with
                  | inr _ => Log ERROR "Failed to send scale-out notification"
                  | inl _ => ret tt
                  end) w3 tt (Z.to_nat n)
              (((if String.eqb (InstanceType d) "" then describesOf d else [])
                  ++ creationsOf d "scheduler" schedulerTagKey
                       (classFor d writerInstance) w (Z.to_nat n))
                 ++ [(PublishCall (scaleOutMessage d n), Succeed)])).
  { intros n w3 A3.
    assert (A : advanced w w3 0
                  (describesOf d
                     ++ accepted (tagReadsOf (readersOf wid (directory w))))).
    { pose proof (advanced_trans w w2 w3 0 0 _ _ A2 A3) as A.
      rewrite app_nil_r in A. exact A. }
    assert (Hc3 : calm w3) by (apply (advanced_calm w w3 _ _ Hc A)).
    assert (Hd3 : directory w3 = directory w).
    { destruct A3 as (_ & D & _). rewrite D. exact Hd2. }
    pose proof (AddScheduledReplicas_runs d n w3 wid writerInstance Hdry Hc3
                  (clockGivesIdentifiers_advanced d "scheduler" w w3 _ _ A Hk))
      as R3.
    rewrite Hd3 in R3. specialize (R3 Hw Hi).
    rewrite (creationsOf_advanced d "scheduler" schedulerTagKey _ w w3 _ _ A)
      in R3.
    pose proof (runs_orElse _ (fun _ => Log ERROR
                                 "Failed to add scheduled replicas")
                  _ _ _ _ R3) as R3'.
    apply (runs_bind_quiet _ _ w3 _ _ _ _ _ R3').
    apply notify_scale_out_runs. apply (runs_calm _ _ _ _ _ Hc3 R3'). }
  destruct (Int64.add cur (ScheduleNumberReplicas d) >? MaxCapacity d) eqn:Eo;
    cbn [andb] in Hmax |- *.
  - rewrite Hmax.
    destruct (Int64.add cur (ScheduleNumberReplicas d) <? MinCapacity d);
      apply Hadd; apply (advanced_refl w2).
  - destruct (Int64.add cur (ScheduleNumberReplicas d) <? MinCapacity d);
      apply Hadd; apply (advanced_refl w2).
Qed.

Lemma scheduled_at_maximum_runs (d : DocumentDB) (w : World) (wid : string) :
  calm w ->
  writerOf (directory w) = Some wid ->
  scheduledReaders wid (directory w) = [] ->
  atMaximum d (readerCount wid (directory w)) = true ->
  runs (ExecuteScheduledScalingAction d) w tt 0
    (describesOf d ++ accepted (tagReadsOf (readersOf wid (directory w)))).
Proof.
  intros Hc Hw Hs Hmax. unfold ExecuteScheduledScalingAction.
  apply runs_Log.
  set (w0 := snd (Log INFO "Executing scheduled scaling action" w)).
  assert (Hc0 : calm w0) by exact Hc.
  pose proof (runs_orElse _ (fun _ => Log ERROR
                               "Failed to retrieve reader instances")
                _ _ _ _ (GetReaderInstances_runs d w0 wid Hc0 Hw)) as R1.
  apply (runs_bind _ _ w0 _ _ 0 0 _ _ R1).
  set (w1 := snd (orElse (GetReaderInstances d) _ w0)) in *.
  assert (Hc1 : calm w1) by (apply (runs_calm _ _ _ _ _ Hc0 R1)).
  assert (Hd1 : directory w1 = directory w)
    by (apply (runs_reads _ _ _ _ _ R1 (describesOf_reads d))).
  change (directory w0) with (directory w) in *.
  pose proof (collectScheduled_runs d (readersOf wid (directory w)) [] w1 Hc1)
    as R2.
  rewrite Hd1 in R2. cbn [app] in R2.
  fold (scheduledReaders wid (directory w)) in R2. rewrite Hs in R2.
  rewrite <- (app_nil_r (accepted _)).
  apply (runs_bind _ _ w1 _ _ 0 0 _ _ R2).
  cbv zeta. apply runs_Log. cbn [List.length Z.of_nat Z.gtb Z.compare].
  fold (readerCount wid (directory w)).
  unfold atMaximum in Hmax. apply andb_prop in Hmax as [Eo Hle].
  rewrite Eo, Hle. cbn [andb]. apply runs_Log_last.
Qed.

(** X21. A scheduled scale-out without dry-run, when no call fails and no
    reader carries the scheduler tag: unless the cluster is at its maximum,
    the invocation creates and tags exactly the computed number of
    instances, named from successive clock readings and of the writer's
    class unless INSTANCE_TYPE is set, and then publishes one notification
    that reports that number, also when the number is zero or negative and
    nothing was created. *)
Theorem scheduled_scale_out_run :
  forall (d : DocumentDB) (w : World) (wid : string)
         (writerInstance : DBInstance),
    ScheduledScaling d = true ->
    DryRun d = false ->
    calm w ->
    clockGivesIdentifiers d "scheduler" w ->
    writerOf (directory w) = Some wid ->
    writerInstanceOf wid (directory w) = Some writerInstance ->
    scheduledReaders wid (directory w) = [] ->
    atMaximum d (readerCount wid (directory w)) = false ->
    let replicasToAdd := scheduledReplicas d (readerCount wid (directory w)) in
    let identifiers :=
      identifiersFrom d "scheduler" w (Z.to_nat replicasToAdd) in
    let r := ExecuteScalingAction d w in
    fst r = Ok tt /\
    calls (snd r) =
      (calls w ++ describesOf d
         ++ accepted (tagReadsOf (readersOf wid (directory w)))
         ++ ((if String.eqb (InstanceType d) "" then describesOf d else [])
               ++ creationsOf d "scheduler" schedulerTagKey
                    (classFor d writerInstance) w (Z.to_nat replicasToAdd))
         ++ [(PublishCall (scaleOutMessage d replicasToAdd), Succeed)])%list /\
    instances (directory (snd r)) =
      (instances (directory w)
         ++ map (newInstance (classFor d writerInstance)) identifiers)%list.
Proof.
  intros d w wid writerInstance Hm Hdry Hc Hk Hw Hi Hs Hmax
    replicasToAdd identifiers r. subst r.
  unfold ExecuteScalingAction. rewrite Hm.
  destruct (scheduled_scale_out_runs d w wid writerInstance
              Hdry Hc Hk Hw Hi Hs Hmax) as (Hout & C & D & _).
  fold replicasToAdd in C, D.
  split; [exact Hout|]. split; [exact C|].
  rewrite D, !replay_app.
  rewrite (reads_replay (describesOf d)) by apply describesOf_reads.
  rewrite (replay_accepted_reads (tagReadsOf _)) by apply tagReads_read.
  rewrite (reads_replay (if String.eqb (InstanceType d) "" then _ else _)).
  2:{ destruct (String.eqb (InstanceType d) "");
        [apply describesOf_reads | constructor]. }
  unfold creationsOf. fold identifiers.
  destruct (replay_creations d schedulerTagKey (classFor d writerInstance)
              identifiers (directory w)) as (Hin & _).
  cbv zeta in Hin. exact Hin.
Qed.

Lemma scheduled_scale_out_run_witness :
  let w := mkWorld (clusterOf [readerNode "replica-1"] [] []) [] in
  let r := ExecuteScalingAction (testConfig true false) w in
  fst r = Ok tt /\
  mutations (calls (snd r)) =
    [(CreateDBInstanceCall "test-cluster" "db.r6g.large"
        "test-cluster-scheduler-123456789", Succeed);
     (AddTagsToResourceCall (arnOf "test-cluster-scheduler-123456789")
        schedulerTagKey "true", Succeed);
     (CreateDBInstanceCall "test-cluster" "db.r6g.large"
        "test-cluster-scheduler-123456790", Succeed);
     (AddTagsToResourceCall (arnOf "test-cluster-scheduler-123456790")
        schedulerTagKey "true", Succeed)] /\
  publications (calls (snd r)) =
    [(PublishCall "Scaled out cluster test-cluster by adding 2 replicas.",
      Succeed)].
Proof.
  cbv zeta.
  match goal with
  | |- fst (ExecuteScalingAction ?d ?w) = _ /\ _ =>
      destruct (scheduled_scale_out_run d w "writer-instance" writerNode)
        as (Hout & Hcalls & _)
  end.
  - reflexivity.
  - reflexivity.
  - constructor.
  - apply clock_after_epoch;
      [reflexivity | right; reflexivity | apply wallClock_after_epoch].
  - reflexivity.
  - reflexivity.
  - reflexivity.
  - reflexivity.
  - cbv zeta in Hout, Hcalls. split; [exact Hout|].
    rewrite Hcalls. split; reflexivity.
Defined.

(** X22. A scheduled scale-out that finds the cluster at its maximum (the
    readers plus the configured number exceed MAX_CAPACITY and no room is
    left) returns without error after its reads only: it creates nothing
    and publishes no notification. *)
Theorem scheduled_at_maximum_is_silent :
  forall (d : DocumentDB) (w : World) (wid : string),
    ScheduledScaling d = true ->
    calm w ->
    writerOf (directory w) = Some wid ->
    scheduledReaders wid (directory w) = [] ->
    atMaximum d (readerCount wid (directory w)) = true ->
    let r := ExecuteScalingAction d w in
    fst r = Ok tt /\
    calls (snd r) =
      (calls w ++ describesOf d
         ++ accepted (tagReadsOf (readersOf wid (directory w))))%list /\
    directory (snd r) = directory w.
Proof.
  intros d w wid Hm Hc Hw Hs Hmax r. subst r.
  unfold ExecuteScalingAction. rewrite Hm.
  destruct (scheduled_at_maximum_runs d w wid Hc Hw Hs Hmax)
    as (Hout & C & D & _).
  split; [exact Hout|]. split; [exact C|].
  rewrite D, replay_app.
  rewrite (reads_replay (describesOf d)) by apply describesOf_reads.
  apply replay_accepted_reads, tagReads_read.
Qed.

Lemma scheduled_at_maximum_is_silent_witness :
  let d := {| ClusterID := "test-cluster"; MinCapacity := 0; MaxCapacity := 1;
              MetricName := ""; TargetValue := 0; ScaleInCooldown := 0;
              ScaleOutCooldown := 0; InstanceType := "";
              DryRun := false; ScheduledScaling := true;
              ScheduleNumberReplicas := 2 |} in
  let r := ExecuteScalingAction d
             (mkWorld (clusterOf [readerNode "replica-1"] [] []) []) in
  fst r = Ok tt /\
  mutations (calls (snd r)) = [] /\ publications (calls (snd r)) = [].
Proof.
  cbv zeta.
  match goal with
  | |- fst (ExecuteScalingAction ?d ?w) = _ /\ _ =>
      destruct (scheduled_at_maximum_is_silent d w "writer-instance")
        as (Hout & Hcalls & _)
  end.
  - reflexivity.
  - constructor.
  - reflexivity.
  - reflexivity.
  - reflexivity.
  - cbv zeta in Hout, Hcalls. split; [exact Hout|].
    rewrite Hcalls. split; reflexivity.
Defined.

(** *** Metric mode *)

Lemma GetMetricStatistics_run (metricName instanceID : string) (w : World) :
  hd Succeed (plan w) = Succeed ->
  GetMetricStatistics metricName instanceID w =
    (Ok (datapointsOf (directory w) instanceID),
     served (GetMetricStatisticsCall metricName instanceID) w).
Proof.
  intros H. unfold GetMetricStatistics.
  rewrite (bind_Ok _ _ _ _ _ (request_served _ w H)). reflexivity.
Qed.

Lemma sumLatestDatapoints_runs (d : DocumentDB)
    (readerInstances : list DBInstance) :
  forall (totalMetric : Q) (w : World),
    calm w ->
    allMetered (directory w) readerInstances ->
    runs (sumLatestDatapoints d readerInstances totalMetric) w
      (sumLatest (directory w) readerInstances totalMetric) 0
      (accepted (metricReads d readerInstances)).
Proof.
  induction readerInstances as [|instance rest IH];
    intros totalMetric w Hc Hm; cbn [sumLatestDatapoints].
  - apply runs_ret.
  - inversion Hm as [|? ? Hp Hrest]; subst.
    set (c := GetMetricStatisticsCall (MetricName d)
                (DBInstanceIdentifier instance)).
    assert (R1 : runs (orElse (GetMetricStatistics (MetricName d)
                                 (DBInstanceIdentifier instance))
                         (fun _ => Log ERROR "Failed to get metric statistics"))
                   w (datapointsOf (directory w)
                        (DBInstanceIdentifier instance)) 0 [(c, Succeed)]).
    { apply runs_orElse. unfold runs.
      rewrite (GetMetricStatistics_run _ _ w (calm_hd w Hc)).
      split; [reflexivity | apply advanced_served]. }
    change (accepted (metricReads d (instance :: rest)))
      with ([(c, Succeed)] ++ accepted (metricReads d rest))%list.
    apply (runs_bind _ _ w _ _ 0 0 [_] _ R1).
    assert (Hd : directory (snd (orElse (GetMetricStatistics (MetricName d)
                                 (DBInstanceIdentifier instance))
                         (fun _ => Log ERROR "Failed to get metric statistics")
                         w)) = directory w).
    { apply (runs_reads _ _ _ _ _ R1).
      constructor; [right; left; exact I | constructor]. }
    cbn [sumLatest fold_left]. unfold latestAverage at 2.
    destruct (datapointsOf (directory w) (DBInstanceIdentifier instance))
      as [|p resp] eqn:Ep; [congruence|].
    cbv zeta. fold (sumLatest (directory w) rest).
    rewrite <- Hd. apply IH.
    + apply (runs_calm _ _ _ _ _ Hc R1).
    + rewrite Hd. exact Hrest.
Qed.

Lemma metricReads_read (d : DocumentDB) (l : list DBInstance) :
  Forall readCall (metricReads d l).
Proof.
  unfold metricReads. apply Forall_map, Forall_forall. intros i _.
  right. left. exact I.
Qed.

Lemma GetCurrentMetricValue_runs (d : DocumentDB) (w : World) (wid : string) :
  calm w ->
  writerOf (directory w) = Some wid ->
  readersOf wid (directory w) <> [] ->
  allMetered (directory w) (readersOf wid (directory w)) ->
  runs (GetCurrentMetricValue d) w
    (metricOver (directory w) (readersOf wid (directory w))) 0
    (describesOf d ++ accepted (metricReads d (readersOf wid (directory w)))).
Proof.
  intros Hc Hw Hne Hm. unfold GetCurrentMetricValue.
  pose proof (GetReaderInstances_runs d w wid Hc Hw) as R1.
  apply (runs_bind _ _ w _ _ 0 0 _ _ R1).
  set (w1 := snd (GetReaderInstances d w)) in *.
  assert (Hc1 : calm w1) by (apply (runs_calm _ _ _ _ _ Hc R1)).
  assert (Hd1 : directory w1 = directory w)
    by (apply (runs_reads _ _ _ _ _ R1 (describesOf_reads d))).
  destruct (readersOf wid (directory w)) as [|instance rest] eqn:Er;
    [congruence|].
  pose proof (sumLatestDatapoints_runs d (instance :: rest) 0%Q w1 Hc1) as R2.
  rewrite Hd1 in R2. specialize (R2 Hm).
  rewrite <- (app_nil_r (accepted _)).
  apply (runs_bind _ _ w1 _ _ 0 0 _ [] R2).
  cbv zeta. apply runs_ret.
Qed.

Lemma GetCurrentCapacity_runs (d : DocumentDB) (w : World) (wid : string) :
  calm w ->
  writerOf (directory w) = Some wid ->
  runs (GetCurrentCapacity d) w (readerCount wid (directory w)) 0
    (describesOf d).
Proof.
  intros Hc Hw. unfold GetCurrentCapacity.
  pose proof (GetReaderInstances_runs d w wid Hc Hw) as R1.
  rewrite <- (app_nil_r (describesOf d)).
  apply (runs_bind _ _ w _ _ 0 0 _ [] R1).
  cbv zeta. apply runs_Log. apply runs_ret.
Qed.

Lemma AddReplicas_runs (d : DocumentDB) (replicasToAdd : Z) (w : World)
    (wid : string) (writerInstance : DBInstance) :
  DryRun d = false ->
  calm w ->
  clockGivesIdentifiers d "reader" w ->
  writerOf (directory w) = Some wid ->
  writerInstanceOf wid (directory w) = Some writerInstance ->
  runs (AddReplicas d replicasToAdd) w tt (Z.to_nat replicasToAdd)
    (describesOf d
       ++ creationsOf d "reader" autoscalerTagKey (classFor d writerInstance)
            w (Z.to_nat replicasToAdd)).
Proof.
  intros Hdry Hc Hk Hw Hi. unfold AddReplicas.
  pose proof (GetWriterInstance_run d w wid writerInstance (calm_hd w Hc)
                (calm_hd_tl w Hc) Hw Hi) as R0.
  pose proof (runs_orElse _ (fun _ => Log ERROR "Failed to get writer instance")
                _ _ _ _ R0) as R1.
  apply (runs_bind _ _ w _ _ 0 _ _ _ R1).
  cbv zeta.
  replace (if negb (String.eqb (InstanceType d) "") then InstanceType d
           else DBInstanceClass writerInstance)
    with (classFor d writerInstance)
    by (unfold classFor; destruct (String.eqb (InstanceType d) "");
        reflexivity).
  destruct R1 as (_ & A1).
  rewrite <- (creationsOf_advanced d "reader" autoscalerTagKey
                (classFor d writerInstance) w _ _ _ A1).
  apply (repeatM_createOne_run d "reader" autoscalerTagKey
           (classFor d writerInstance) _ _ _ _ Hdry).
  - eapply advanced_calm; eassumption.
  - eapply clockGivesIdentifiers_advanced; eassumption.
Qed.

Section MetricRun.

Variables (d : DocumentDB) (w : World) (wid : string).
Hypothesis w_calm : calm w.
Hypothesis w_writer : writerOf (directory w) = Some wid.
Hypothesis w_readers : readersOf wid (directory w) <> [].
Hypothesis w_metered : allMetered (directory w) (readersOf wid (directory w)).

Local Abbreviation readerInstances := (readersOf wid (directory w)).
Local Abbreviation currentCapacity := (readerCount wid (directory w)).
Local Abbreviation desiredCapacity :=
  (CalculateDesiredCapacity d (metricOver (directory w) readerInstances)
     currentCapacity).
Local Abbreviation census :=
  (describesOf d ++ accepted (metricReads d readerInstances)
     ++ describesOf d)%list.

Lemma census_reads : only readCall census.
Proof.
  apply only_app. split; [apply describesOf_reads|].
  apply only_app. split; [|apply describesOf_reads].
  apply accepted_reads, metricReads_read.
Qed.

(** The metric-mode action, once its reads are done. *)
Lemma metric_action_runs (k : nat) (new : list (Call * Reply)) :
  (forall w', calm w' -> advanced w w' 0 census ->
     runs
       (Log INFO "Retrieved current capacity" ;;
        Log INFO "Calculated desired capacity" ;;
        if desiredCapacity >? currentCapacity
        then
          Log INFO "Scaling Out" ;;
          orElse (AddReplicas d (Int64.sub desiredCapacity currentCapacity))
            (fun _ => Log ERROR "Failed to add replicas") ;;
          r <- try (SendScaleOutNotification (ClusterID d)
                      (Int64.sub desiredCapacity currentCapacity)) ;;
          match r with
          | inr _ => Log ERROR "Failed to send scale-out notification"
          | inl _ => ret tt
          end
        else if desiredCapacity <? currentCapacity
        then
          Log INFO "Scaling In" ;;
          repeatM (Z.to_nat 1)
            (orElse (RemoveReplica d)
               (fun _ => Log ERROR "Failed to remove replica")) ;;
          r <- try (SendScaleInNotification (ClusterID d) 1) ;;
          match r with
          | inr _ => Log ERROR "Failed to send scale-in notification"
          | inl _ => ret tt
          end
        else Log INFO "No scaling action needed")
       w' tt k new) ->
  runs (ExecuteMetricBasedScalingAction d) w tt k (census ++ new).
Proof.
  intros Hrest. unfold ExecuteMetricBasedScalingAction.
  pose proof (runs_orElse _ (fun _ => Log ERROR
                               "Failed to retrieve current metric value")
                _ _ _ _
                (GetCurrentMetricValue_runs d w wid w_calm w_writer w_readers
                   w_metered)) as R1.
  rewrite <- !app_assoc. rewrite app_assoc.
  apply (runs_bind _ _ w _ _ 0 k _ _ R1).
  set (w1 := snd (orElse (GetCurrentMetricValue d) _ w)) in *.
  assert (Hc1 : calm w1) by (apply (runs_calm _ _ _ _ _ w_calm R1)).
  assert (Hd1 : directory w1 = directory w).
  { apply (runs_reads _ _ _ _ _ R1). apply only_app.
    split; [apply describesOf_reads|].
    apply accepted_reads, metricReads_read. }
  apply runs_Log. unfold scaleToMetric.
  set (w1' := snd (Log INFO "Retrieved current metric value" w1)).
  assert (Hw1 : writerOf (directory w1') = Some wid)
    by exact (eq_trans (f_equal writerOf Hd1) w_writer).
  pose proof (runs_orElse _ (fun _ => Log ERROR
                               "Failed to retrieve current capacity")
                _ _ _ _ (GetCurrentCapacity_runs d w1' wid Hc1 Hw1)) as R2.
  change (directory w1') with (directory w1) in R2. rewrite Hd1 in R2.
  apply (runs_bind _ _ w1' _ _ 0 k _ _ R2).
  apply Hrest.
  - apply (runs_calm _ w1' _ _ _ Hc1 R2).
  - destruct R1 as (_ & A1). destruct R2 as (_ & A2).
    pose proof (advanced_trans w w1' _ 0 0 _ _ A1 A2) as A.
    rewrite <- app_assoc in A. exact A.
Qed.

End MetricRun.





(** ** A retry after a scale-out that failed midway *)

Lemma skipn_repeat_app {A} (x : A) (a b : nat) (rest : list A) :
  skipn a (repeat x (a + b) ++ rest) = (repeat x b ++ rest)%list.
Proof. induction a as [|a IH]; [reflexivity | exact IH]. Qed.

Lemma quietFor_hd (n : nat) (w : World) :
  quietFor (S n) w -> hd Succeed (plan w) = Succeed.
Proof. intros (rest & ->). reflexivity. Qed.

Lemma quietFor_advanced (a b : nat) (w w' : World) (k : nat)
    (new : list (Call * Reply)) :
  quietFor (a + b) w -> advanced w w' k new -> List.length new = a ->
  quietFor b w'.
Proof.
  intros (rest & Hp) (_ & _ & _ & _ & _ & P) <-. exists rest.
  rewrite P, Hp. apply skipn_repeat_app.
Qed.

Lemma quietFor_tl (n : nat) (w : World) :
  quietFor (S (S n)) w -> hd Succeed (tl (plan w)) = Succeed.
Proof. intros (rest & ->). reflexivity. Qed.

Lemma runs_quietFor {A} (m : M A) (w : World) (a : A) (k : nat)
    (new : list (Call * Reply)) (b : nat) :
  quietFor (List.length new + b) w -> runs m w a k new ->
  quietFor b (snd (m w)).
Proof.
  intros Hq (_ & Ad). eapply quietFor_advanced; [exact Hq | exact Ad |].
  reflexivity.
Qed.

Lemma fails_after {A B} (m : M A) (k : A -> M B) (w : World) (a : A)
    (e : error) (k1 k2 : nat) (n1 n2 : list (Call * Reply)) :
  runs m w a k1 n1 ->
  fails (k a) (snd (m w)) e k2 n2 ->
  fails (bind m k) w e (k1 + k2) (n1 ++ n2).
Proof.
  intros (E1 & A1) (E2 & A2). unfold fails, bind.
  destruct (m w) as [o w1]. cbn [fst snd] in *. subst o.
  split; [exact E2|]. eapply advanced_trans; eassumption.
Qed.

Lemma fails_first {A B} (m : M A) (k : A -> M B) (w : World) (e : error)
    (k1 : nat) (n1 : list (Call * Reply)) :
  fails m w e k1 n1 -> fails (bind m k) w e k1 n1.
Proof.
  intros (E1 & A1). unfold fails, bind.
  destruct (m w) as [o w1]. cbn [fst snd] in *. subst o. auto.
Qed.

Lemma fails_orElse {A} (m : M A) (l : Level) (msg : string) (w : World)
    (e : error) (k : nat) (new : list (Call * Reply)) :
  fails m w e k new -> fails (orElse m (fun _ => Log l msg)) w e k new.
Proof.
  intros (E & Ad). unfold fails, orElse, bind, try.
  destruct (m w) as [o w1]. cbn [fst snd] in *. subst o. cbn. auto.
Qed.

Lemma fails_Log {A} (l : Level) (msg : string) (m : M A) (w : World)
    (e : error) (k : nat) (new : list (Call * Reply)) :
  fails m (snd (Log l msg w)) e k new -> fails (Log l msg ;; m) w e k new.
Proof. intros H. exact H. Qed.

Lemma GetReaderInstances_served (d : DocumentDB) (w : World) (wid : string)
    (n : nat) :
  quietFor (2 + n) w ->
  writerOf (directory w) = Some wid ->
  runs (GetReaderInstances d) w (readersOf wid (directory w)) 0 (describesOf d).
Proof.
  intros Hq Hw. unfold GetReaderInstances.
  pose proof (quietFor_hd _ w Hq) as H1. pose proof (quietFor_tl _ w Hq) as H2.
  set (w1 := served (DescribeDBInstancesCall (ClusterID d)) w).
  assert (R1 : runs (orElse (DescribeDBInstances (ClusterID d))
                       (fun _ => Log ERROR "Failed to describe DB instances"))
                 w (instances (directory w)) 0
                 [(DescribeDBInstancesCall (ClusterID d), Succeed)]).
  { apply runs_orElse. unfold runs.
    rewrite (DescribeDBInstances_run _ w H1).
    split; [reflexivity | apply advanced_served]. }
  apply (runs_bind _ _ w _ _ 0 0 [_] [_] R1).
  assert (E1 : snd (orElse (DescribeDBInstances (ClusterID d))
                      (fun _ => Log ERROR "Failed to describe DB instances") w)
               = w1).
  { rewrite (orElse_Ok _ _ _ _ _ (DescribeDBInstances_run _ w H1)).
    reflexivity. }
  rewrite E1.
  assert (R2 : runs (orElse (GetWriterInstanceIdentifier d)
                       (fun _ => Log ERROR
                                   "Failed to get writer instance identifier"))
                 w1 wid 0 [(DescribeDBClustersCall (ClusterID d), Succeed)]).
  { apply runs_orElse. unfold runs.
    rewrite (GetWriterInstanceIdentifier_run d w1 wid H2 Hw).
    split; [reflexivity | apply advanced_served]. }
  apply (runs_bind _ _ w1 _ _ 0 0 [_] [] R2).
  apply runs_ret.
Qed.

Lemma tagReadsOf_length (l : list DBInstance) :
  List.length (accepted (tagReadsOf l)) = List.length l.
Proof. unfold accepted, tagReadsOf. rewrite !length_map. reflexivity. Qed.

Lemma collectScheduled_served (d : DocumentDB)
    (readerInstances : list DBInstance) :
  forall (scheduledInstances : list DBInstance) (w : World) (n : nat),
    quietFor (List.length readerInstances + n) w ->
    runs (collectScheduled d readerInstances scheduledInstances) w
      (scheduledInstances
         ++ filter (owned schedulerTagKey (directory w)) readerInstances)%list
      0 (accepted (tagReadsOf readerInstances)).
Proof.
  induction readerInstances as [|instance rest IH];
    intros scheduledInstances w n Hq; cbn [collectScheduled].
  - cbn. rewrite app_nil_r. apply runs_ret.
  - assert (R1 : runs (HasSchedulerTag d instance) w
                   (owned schedulerTagKey (directory w) instance) 0
                   [(ListTagsForResourceCall (DBInstanceArn instance),
                     Succeed)]).
    { unfold HasSchedulerTag, runs.
      rewrite (bind_Ok _ _ _ _ _
                 (orElse_Ok _ _ _ _ _
                    (ListTagsForResource_run _ w (quietFor_hd _ w Hq)))).
      split; [reflexivity | apply advanced_served]. }
    pose proof (runs_orElse _ (fun _ => Log ERROR
                                 "Failed to check scheduler tag") _ _ _ _ R1)
      as R1'.
    apply (runs_bind _ _ w _ _ 0 0 [_] _ R1').
    set (w1 := snd (orElse (HasSchedulerTag d instance) _ w)).
    assert (Hq1 : quietFor (List.length rest + n) w1)
      by (apply (runs_quietFor _ w _ _ [_] (List.length rest + n) Hq R1')).
    assert (Hd1 : directory w1 = directory w).
    { apply (runs_reads _ _ _ _ _ R1'). apply only_one. right. right.
      exact I. }
    cbn [filter].
    destruct (owned schedulerTagKey (directory w) instance).
    + specialize (IH (scheduledInstances ++ [instance])%list w1 n Hq1).
      rewrite Hd1, <- app_assoc in IH. exact IH.
    + specialize (IH scheduledInstances w1 n Hq1).
      rewrite Hd1 in IH. exact IH.
Qed.

Lemma createOne_fails (d : DocumentDB) (role tagKey instanceClass : string)
    (failText tagFailText doneText dryText : string) (w : World)
    (identifier : string) (e : error) :
  DryRun d = false ->
  hd Succeed (plan w) = Fail e ->
  newIdentifier (ClusterID d) role (clock w (clockReads w)) = Ok identifier ->
  fails (createOne d role tagKey instanceClass failText tagFailText doneText
           dryText) w e 1
    [(CreateDBInstanceCall (ClusterID d) instanceClass identifier, Fail e)].
Proof.
  intros Hdry H1 Hid.
  set (w0 := snd (UnixNano w)).
  set (w1 := refused (CreateDBInstanceCall (ClusterID d) instanceClass
                        identifier) e w0).
  assert (E : createOne d role tagKey instanceClass failText tagFailText
                doneText dryText w = (Err e, snd (Log ERROR failText w1))).
  { unfold createOne.
    rewrite (bind_Ok UnixNano _ w w0 (clock w (clockReads w)) eq_refl).
    rewrite (bind_Ok (liftOutcome _) _ w0 w0 identifier)
      by (unfold liftOutcome; rewrite Hid; reflexivity).
    rewrite Hdry. cbn [negb].
    assert (Ec : CreateDBInstance (ClusterID d) instanceClass identifier w0
                 = (Err e, w1)).
    { unfold CreateDBInstance.
      rewrite (bind_Err _ _ _ _ _ (request_refused _ e w0 H1)). reflexivity. }
    rewrite (bind_Err _ _ _ _ _ (orElse_Log_Err _ _ _ _ _ _ Ec)).
    reflexivity. }
  unfold fails. rewrite E. split; [reflexivity|].
  unfold advanced. cbn -[effect replay]. rewrite Nat.add_1_r.
  repeat split.
Qed.

Lemma repeatM_createOne_fails (d : DocumentDB)
    (role tagKey instanceClass : string)
    (failText tagFailText doneText dryText : string) (e : error)
    (rest : list Reply) :
  DryRun d = false ->
  forall (k n : nat) (w : World),
    (k < n)%nat ->
    plan w = (repeat Succeed (2 * k) ++ Fail e :: rest)%list ->
    clockGivesIdentifiers d role w ->
    fails (repeatM n (createOne d role tagKey instanceClass failText
                        tagFailText doneText dryText)) w e (S k)
      (creationsOf d role tagKey instanceClass w k
         ++ [(CreateDBInstanceCall (ClusterID d) instanceClass
                (identifierAt d role w (clockReads w + k)), Fail e)]).
Proof.
  intros Hdry. induction k as [|k IH]; intros n w Hlt Hp Hk;
    (destruct n as [|n]; [lia|]); cbn [repeatM].
  - apply fails_first. rewrite Nat.add_0_r. cbn [creationsOf app].
    apply createOne_fails; [exact Hdry | rewrite Hp; reflexivity |].
    apply identifierAt_Ok, Hk.
  - rewrite repeat_two in Hp.
    pose proof (createOne_run d role tagKey instanceClass failText tagFailText
                  doneText dryText w (identifierAt d role w (clockReads w))
                  Hdry) as R1.
    cbv zeta in R1.
    assert (R : runs (createOne d role tagKey instanceClass failText
                        tagFailText doneText dryText) w tt 1
                  (creationOf d tagKey instanceClass
                     (identifierAt d role w (clockReads w)))).
    { apply R1; [rewrite Hp; reflexivity | rewrite Hp; reflexivity |].
      apply identifierAt_Ok, Hk. }
    clear R1. pose proof R as (_ & Hadv).
    pose proof Hadv as (_ & _ & _ & K1 & R1 & P1).
    rewrite Hp in P1. cbn in P1.
    set (w1 := snd (createOne d role tagKey instanceClass failText tagFailText
                      doneText dryText w)) in *.
    assert (Hk1 : clockGivesIdentifiers d role w1).
    { intros j. rewrite K1. apply Hk. }
    pose proof (IH n w1 ltac:(lia) P1 Hk1) as F2.
    assert (Ec : creationsOf d role tagKey instanceClass w (S k)
                 = (creationOf d tagKey instanceClass
                      (identifierAt d role w (clockReads w))
                      ++ creationsOf d role tagKey instanceClass w1 k)%list).
    { unfold creationsOf.
      rewrite (identifiersFrom_advanced d role w w1 1 _ k Hadv).
      unfold identifiersFrom. cbn [seq map flat_map].
      rewrite Nat.add_1_r. reflexivity. }
    assert (Ei : identifierAt d role w1 (clockReads w1 + k)
                 = identifierAt d role w (clockReads w + S k)).
    { unfold identifierAt. rewrite K1, R1.
      replace (clockReads w + 1 + k)%nat with (clockReads w + S k)%nat by lia.
      reflexivity. }
    rewrite Ei in F2. rewrite Ec, <- app_assoc.
    exact (fails_after _ _ w tt e 1 (S k) _ _ R F2).
Qed.

Lemma AddScheduledReplicas_fails (d : DocumentDB) (replicasToAdd : Z)
    (w : World) (wid : string) (writerInstance : DBInstance) (k : nat)
    (e : error) (rest : list Reply) :
  DryRun d = false ->
  (k < Z.to_nat replicasToAdd)%nat ->
  plan w = (repeat Succeed (List.length (classReads d) + 2 * k)
              ++ Fail e :: rest)%list ->
  clockGivesIdentifiers d "scheduler" w ->
  writerOf (directory w) = Some wid ->
  writerInstanceOf wid (directory w) = Some writerInstance ->
  fails (AddScheduledReplicas d replicasToAdd) w e (S k)
    (classReads d
       ++ creationsOf d "scheduler" schedulerTagKey
            (classFor d writerInstance) w k
       ++ [(CreateDBInstanceCall (ClusterID d) (classFor d writerInstance)
              (identifierAt d "scheduler" w (clockReads w + k)), Fail e)]).
Proof.
  intros Hdry Hlt Hp Hk Hw Hi. unfold AddScheduledReplicas, classFor.
  unfold classReads in *.
  destruct (String.eqb (InstanceType d) "") eqn:Et; cbn [negb].
  - cbn [List.length describesOf] in Hp.
    pose proof (GetWriterInstance_run d w wid writerInstance) as R0.
    cbv zeta in R0.
    assert (R1 : runs (writerInstance <-
                         orElse (GetWriterInstance d)
                           (fun _ => Log ERROR "Failed to get writer instance") ;;
                       ret (DBInstanceClass writerInstance))
                   w (DBInstanceClass writerInstance) 0 (describesOf d)).
    { rewrite <- (app_nil_r (describesOf d)).
      apply (runs_bind _ _ w writerInstance _ 0 0 _ []).
      - apply runs_orElse. apply R0; try assumption; rewrite Hp; reflexivity.
      - apply runs_ret. }
    apply (fails_after _ _ w _ e 0 (S k) _ _ R1).
    pose proof R1 as (_ & A1). pose proof A1 as (_ & _ & _ & K1 & R1' & P1).
    rewrite Hp in P1. cbn in P1. rewrite Nat.add_0_r in R1'.
    rewrite <- (creationsOf_advanced d "scheduler" schedulerTagKey
                  (DBInstanceClass writerInstance) w _ _ _ A1).
    replace (identifierAt d "scheduler" w (clockReads w + k))
      with (identifierAt d "scheduler"
              (snd ((writerInstance <-
                       orElse (GetWriterInstance d)
                         (fun _ => Log ERROR "Failed to get writer instance") ;;
                     ret (DBInstanceClass writerInstance)) w))
              (clockReads
                 (snd ((writerInstance <-
                          orElse (GetWriterInstance d)
                            (fun _ => Log ERROR
                                        "Failed to get writer instance") ;;
                        ret (DBInstanceClass writerInstance)) w)) + k))
      by (unfold identifierAt; rewrite K1, R1'; reflexivity).
    apply (repeatM_createOne_fails d "scheduler" schedulerTagKey
             (DBInstanceClass writerInstance) _ _ _ _ e rest Hdry k _ _ Hlt).
    + rewrite P1. reflexivity.
    + eapply clockGivesIdentifiers_advanced; eassumption.
  - cbn [List.length app] in Hp |- *.
    exact (repeatM_createOne_fails d "scheduler" schedulerTagKey
             (InstanceType d) _ _ _ _ e rest Hdry k _ _ Hlt Hp Hk).
Qed.

Lemma identifierAt_advanced (d : DocumentDB) (role : string) (w w' : World)
    (new : list (Call * Reply)) (k : nat) :
  advanced w w' 0 new ->
  identifierAt d role w' (clockReads w' + k)
    = identifierAt d role w (clockReads w + k).
Proof.
  intros (_ & _ & _ & K & R & _). unfold identifierAt.
  rewrite K, R, Nat.add_0_r. reflexivity.
Qed.

Lemma scheduled_scale_out_fails (d : DocumentDB) (w : World) (wid : string)
    (writerInstance : DBInstance) (k : nat) (e : error) (rest : list Reply) :
  DryRun d = false ->
  clockGivesIdentifiers d "scheduler" w ->
  writerOf (directory w) = Some wid ->
  writerInstanceOf wid (directory w) = Some writerInstance ->
  scheduledReaders wid (directory w) = [] ->
  atMaximum d (readerCount wid (directory w)) = false ->
  (k < Z.to_nat (scheduledReplicas d (readerCount wid (directory w))))%nat ->
  plan w = (repeat Succeed
              (2 + List.length (readersOf wid (directory w))
                 + List.length (classReads d) + 2 * k)
              ++ Fail e :: rest)%list ->
  fails (ExecuteScheduledScalingAction d) w e (S k)
    (describesOf d
       ++ accepted (tagReadsOf (readersOf wid (directory w)))
       ++ classReads d
       ++ creationsOf d "scheduler" schedulerTagKey
            (classFor d writerInstance) w k
       ++ [(CreateDBInstanceCall (ClusterID d) (classFor d writerInstance)
              (identifierAt d "scheduler" w (clockReads w + k)), Fail e)]).
Proof.
  intros Hdry Hk Hw Hi Hs Hmax Hlt Hp. unfold ExecuteScheduledScalingAction.
  set (lr := List.length (readersOf wid (directory w))) in *.
  set (lc := List.length (classReads d)) in *.
  apply fails_Log.
  set (w0 := snd (Log INFO "Executing scheduled scaling action" w)).
  assert (Hq0 : quietFor (2 + (lr + (lc + 2 * k))) w0).
  { exists (Fail e :: rest). change (plan w0) with (plan w). rewrite Hp.
    f_equal. f_equal. lia. }
  pose proof (runs_orElse _ (fun _ => Log ERROR
                               "Failed to retrieve reader instances")
                _ _ _ _ (GetReaderInstances_served d w0 wid _ Hq0 Hw)) as R1.
  apply (fails_after _ _ w0 _ e 0 (S k) _ _ R1).
  set (w1 := snd (orElse (GetReaderInstances d) _ w0)) in *.
  assert (Hq1 : quietFor (lr + (lc + 2 * k)) w1)
    by (apply (runs_quietFor _ w0 _ _ (describesOf d) _ Hq0 R1)).
  assert (Hd1 : directory w1 = directory w)
    by (apply (runs_reads _ _ _ _ _ R1 (describesOf_reads d))).
  change (directory w0) with (directory w) in *.
  pose proof (collectScheduled_served d (readersOf wid (directory w)) [] w1
                (lc + 2 * k) Hq1) as R2.
  rewrite Hd1 in R2. cbn [app] in R2.
  fold (scheduledReaders wid (directory w)) in R2. rewrite Hs in R2.
  apply (fails_after _ _ w1 _ e 0 (S k) _ _ R2).
  set (w2 := snd (collectScheduled d _ [] w1)) in *.
  assert (A2 : advanced w w2 0
                 (describesOf d
                    ++ accepted (tagReadsOf (readersOf wid (directory w))))).
  { destruct R1 as (_ & A1). destruct R2 as (_ & A2).
    apply (advanced_trans w w1 w2 0 0 _ _ A1 A2). }
  assert (Hd2 : directory w2 = directory w).
  { destruct A2 as (_ & D & _). rewrite D, replay_app.
    rewrite (reads_replay (describesOf d)) by apply describesOf_reads.
    apply replay_accepted_reads, tagReads_read. }
  assert (Hp2 : plan w2 = (repeat Succeed (lc + 2 * k) ++ Fail e :: rest)%list).
  { destruct A2 as (_ & _ & _ & _ & _ & P). rewrite P, Hp.
    rewrite length_app, tagReadsOf_length. fold lr. cbn [List.length describesOf].
    replace (2 + lr + lc + 2 * k)%nat with ((2 + lr) + (lc + 2 * k))%nat by lia.
    apply skipn_repeat_app. }
  cbv zeta. cbn [List.length Z.of_nat Z.gtb Z.compare].
  fold (readerCount wid (directory w)).
  rewrite (scheduledReplicas_not_at_maximum d _ Hmax) in Hlt.
  cbv zeta in Hlt. unfold atMaximum in Hmax.
  set (cur := readerCount wid (directory w)) in *.
  assert (Hadd : forall n (w3 : World),
            (k < Z.to_nat n)%nat ->
            advanced w2 w3 0 [] ->
            fails (orElse (AddScheduledReplicas d n)
                     (fun _ => Log ERROR "Failed to add scheduled replicas") ;;
                   r <- try (SendScaleOutNotification (ClusterID d) n) ;;
                   match r with
                   | inr _ => Log ERROR "Failed to send scale-out notification"
                   | inl _ => ret tt
                   end) w3 e (S k)
              (classReads d
                 ++ creationsOf d "scheduler" schedulerTagKey
                      (classFor d writerInstance) w k
                 ++ [(CreateDBInstanceCall (ClusterID d)
                        (classFor d writerInstance)
                        (identifierAt d "scheduler" w (clockReads w + k)),
                      Fail e)])).
  { intros n w3 Hn A3.
    assert (A : advanced w w3 0
                  (describesOf d
                     ++ accepted (tagReadsOf (readersOf wid (directory w))))).
    { pose proof (advanced_trans w w2 w3 0 0 _ _ A2 A3) as A.
      rewrite app_nil_r in A. exact A. }
    assert (Hd3 : directory w3 = directory w).
    { destruct A3 as (_ & D & _). rewrite D. exact Hd2. }
    assert (Hp3 : plan w3 = plan w2) by (destruct A3 as (_ & _ & _ & _ & _ & P);
                                         exact P).
    apply fails_first, fails_orElse.
    rewrite <- (creationsOf_advanced d "scheduler" schedulerTagKey _ w w3 _ _ A),
      <- (identifierAt_advanced d "scheduler" w w3 _ k A).
    apply (AddScheduledReplicas_fails d n w3 wid writerInstance k e rest Hdry Hn).
    - rewrite Hp3. exact Hp2.
    - eapply clockGivesIdentifiers_advanced; eassumption.
    - rewrite Hd3. exact Hw.
    - rewrite Hd3. exact Hi. }
  destruct (Int64.add cur (ScheduleNumberReplicas d) >? MaxCapacity d) eqn:Eo;
    cbn [andb] in Hmax |- *.
  - rewrite Hmax.
    destruct (Int64.add cur (ScheduleNumberReplicas d) <? MinCapacity d);
      apply Hadd; try exact Hlt; apply (advanced_refl w2).
  - destruct (Int64.add cur (ScheduleNumberReplicas d) <? MinCapacity d);
      apply Hadd; try exact Hlt; apply (advanced_refl w2).
Qed.

Lemma lookup_putTag_other (r r' : string) (t : Tag)
    (l : list (string * list Tag)) :
  r' <> r -> lookup r' (putTag r t l) = lookup r' l.
Proof.
  intros Hne. induction l as [|[r0 ts] l IH]; cbn [putTag lookup].
  - destruct (String.eqb r r') eqn:E; [|reflexivity].
    apply String.eqb_eq in E. congruence.
  - destruct (String.eqb r0 r) eqn:E; cbn [lookup].
    + apply String.eqb_eq in E. subst r0.
      destruct (String.eqb r r') eqn:E'; [|reflexivity].
      apply String.eqb_eq in E'. congruence.
    + rewrite IH. reflexivity.
Qed.

Lemma tagsOf_creations (d : DocumentDB) (tagKey class : string)
    (identifiers : list string) (r : string) :
  ~ In r (map arnOf identifiers) ->
  forall dir,
    tagsOf (replay (flat_map (creationOf d tagKey class) identifiers) dir) r
      = tagsOf dir r.
Proof.
  induction identifiers as [|identifier rest IH]; intros Hn dir;
    [reflexivity|].
  cbn [flat_map]. rewrite replay_app, replay_creationOf.
  rewrite IH by (intros H; apply Hn; right; exact H).
  unfold tagsOf, set_tags, set_instances. cbn [tags].
  rewrite lookup_putTag_other; [reflexivity|].
  intros ->. apply Hn. left. reflexivity.
Qed.

Lemma removalsOf_created (class : string) (identifiers : list string) :
  removalsOf (map (newInstance class) identifiers) = [].
Proof.
  unfold removalsOf.
  induction identifiers as [|identifier rest IH]; [reflexivity | exact IH].
Qed.

Section PartialScaleOut.

Variables (d : DocumentDB) (class wid : string) (identifiers : list string)
  (dir : Directory).

Local Abbreviation dir1 :=
  (replay (flat_map (creationOf d schedulerTagKey class) identifiers) dir).
Local Abbreviation created := (map (newInstance class) identifiers).

Hypothesis fresh_identifiers : ~ In wid identifiers.
Hypothesis fresh_arns :
  forall instance, In instance (readersOf wid dir) ->
    ~ In (DBInstanceArn instance) (map arnOf identifiers).
Hypothesis none_scheduled : scheduledReaders wid dir = [].

Lemma writerOf_created : writerOf dir1 = writerOf dir.
Proof.
  destruct (replay_creations d schedulerTagKey class identifiers dir)
    as (_ & Hc & _).
  cbv zeta in Hc. unfold writerOf. rewrite Hc. reflexivity.
Qed.

Lemma readersOf_created : readersOf wid dir1 = (readersOf wid dir ++ created)%list.
Proof.
  destruct (replay_creations d schedulerTagKey class identifiers dir)
    as (Hi & _).
  cbv zeta in Hi. unfold readersOf. rewrite Hi, filter_app. f_equal.
  clear Hi fresh_arns none_scheduled.
  induction identifiers as [|identifier rest IH]; [reflexivity|].
  cbn [map filter]. unfold isWriter at 1. cbn [DBInstanceIdentifier newInstance].
  destruct (String.eqb identifier wid) eqn:E.
  - apply String.eqb_eq in E. exfalso. apply fresh_identifiers. left. exact E.
  - cbn [negb]. f_equal. apply IH. intros H. apply fresh_identifiers.
    right. exact H.
Qed.

Lemma scheduledReaders_created : scheduledReaders wid dir1 = created.
Proof.
  unfold scheduledReaders. rewrite readersOf_created, filter_app.
  assert (E1 : filter (owned schedulerTagKey dir1) (readersOf wid dir) = []).
  { rewrite <- none_scheduled. unfold scheduledReaders.
    apply filter_ext_in. intros instance Hin. unfold owned.
    rewrite tagsOf_creations by (apply fresh_arns, Hin). reflexivity. }
  rewrite E1. cbn [app].
  destruct (replay_creations d schedulerTagKey class identifiers dir)
    as (_ & _ & _ & Ht).
  cbv zeta in Ht.
  assert (G : forall l,
            (forall i, In i l ->
               hasTag schedulerTagKey (tagsOf dir1 (arnOf i)) = true) ->
            filter (owned schedulerTagKey dir1) (map (newInstance class) l)
              = map (newInstance class) l).
  { induction l as [|identifier rest IH]; intros H; [reflexivity|].
    cbn [map filter]. unfold owned at 1. cbn [DBInstanceArn newInstance].
    rewrite (H identifier) by (left; reflexivity).
    f_equal. apply IH. intros i Hi. apply H. right. exact Hi. }
  apply G, Ht.
Qed.

End PartialScaleOut.

Lemma retryLoop_second_attempt (action : M unit) (maxRetries : Z) (n : nat)
    (attempt backoff : Z) (w w1 w2 : World) (e : error) :
  action w = (Err e, w1) ->
  action (snd (Sleep backoff
                 (snd (Log WARN "Scaling action failed, retrying..." w1))))
    = (Ok tt, w2) ->
  retryLoop action maxRetries (S (S n)) attempt backoff w = (Ok tt, w2).
Proof.
  intros E1 E2.
  set (ws := snd (Sleep backoff
                    (snd (Log WARN "Scaling action failed, retrying..." w1))))
    in *.
  cbn [retryLoop].
  rewrite (bind_Ok _ _ _ _ _ (try_Err _ _ _ _ E1)).
  cbv zeta.
  match goal with
  | |- (_ ;; _ ;; ?m) w1 = _ => change (m ws = (Ok tt, w2))
  end.
  rewrite (bind_Ok _ _ _ _ _ (try_Ok _ _ _ _ E2)). reflexivity.
Qed.

Lemma creationsOf_length (d : DocumentDB) (role tagKey class : string)
    (w : World) (k : nat) :
  List.length (creationsOf d role tagKey class w k) = (2 * k)%nat.
Proof.
  unfold creationsOf, identifiersFrom.
  assert (G : forall l : list nat,
            List.length
              (flat_map (creationOf d tagKey class)
                 (map (identifierAt d role w) l)) = (2 * List.length l)%nat).
  { induction l as [|x l IH]; [reflexivity|].
    cbn [map flat_map]. rewrite length_app, IH. cbn. lia. }
  rewrite G, length_seq. reflexivity.
Qed.

Lemma skipn_past_failure (n : nat) (e : error) (rest : list Reply) :
  skipn (n + 1) (repeat Succeed n ++ Fail e :: rest) = rest.
Proof. induction n as [|n IH]; [reflexivity | exact IH]. Qed.

Lemma classReads_reads (d : DocumentDB) : only readCall (classReads d).
Proof.
  unfold classReads.
  destruct (String.eqb (InstanceType d) "");
    [apply describesOf_reads | constructor].
Qed.

(** X25. In scheduled mode the retry does not resume a scale-out, it
    decides again from the inventory.  When the first attempt has created
    and tagged [k] replicas (at least one) and the create of the next one
    is refused, the attempt returns that error; after one sleep the second
    attempt finds the [k] new readers carrying the scheduler tag, takes the
    scale-in branch, deletes none of them (they are not yet available),
    publishes a scale-in notification that reports [k] removed replicas and
    returns without error.  The [k] instances stay in the inventory and
    the replicas still missing are never created. *)
Theorem scheduled_retry_after_partial_scale_out :
  forall (d : DocumentDB) (w : World) (wid : string)
         (writerInstance : DBInstance) (k : nat) (e : error)
         (rest : list Reply) (maxRetries initialBackoff : Z),
    ScheduledScaling d = true ->
    DryRun d = false ->
    2 <= maxRetries ->
    clockGivesIdentifiers d "scheduler" w ->
    writerOf (directory w) = Some wid ->
    writerInstanceOf wid (directory w) = Some writerInstance ->
    scheduledReaders wid (directory w) = [] ->
    atMaximum d (readerCount wid (directory w)) = false ->
    (0 < k < Z.to_nat (scheduledReplicas d (readerCount wid (directory w))))%nat ->
    plan w = (repeat Succeed
                (2 + List.length (readersOf wid (directory w))
                   + List.length (classReads d) + 2 * k)
                ++ Fail e :: rest)%list ->
    Forall (fun r => r = Succeed) rest ->
    let identifiers := identifiersFrom d "scheduler" w k in
    let class := classFor d writerInstance in
    let created := map (newInstance class) identifiers in
    ~ In wid identifiers ->
    (forall instance, In instance (readersOf wid (directory w)) ->
       ~ In (DBInstanceArn instance) (map arnOf identifiers)) ->
    let r := executeWithRetry (ExecuteScalingAction d) maxRetries
               initialBackoff w in
    fst r = Ok tt /\
    calls (snd r) =
      (calls w
         ++ (describesOf d
               ++ accepted (tagReadsOf (readersOf wid (directory w)))
               ++ classReads d
               ++ creationsOf d "scheduler" schedulerTagKey class w k
               ++ [(CreateDBInstanceCall (ClusterID d) class
                      (identifierAt d "scheduler" w (clockReads w + k)),
                    Fail e)])
         ++ (describesOf d
               ++ accepted
                    (tagReadsOf (readersOf wid (directory w) ++ created))
               ++ [(PublishCall (scaleInMessage d (Z.of_nat k)), Succeed)]))%list
    /\
    slept (snd r) = (slept w ++ [initialBackoff])%list /\
    instances (directory (snd r)) = (instances (directory w) ++ created)%list.
Proof.
  intros d w wid writerInstance k e rest maxRetries initialBackoff Hm Hdry
    Hretries Hk Hw Hi Hs Hmax [Hpos Hlt] Hp Hrest identifiers class created
    Hfid Hfarn r.
  subst r. unfold executeWithRetry.
  destruct (Z.to_nat maxRetries) as [|[|n]] eqn:En; try lia.
  assert (Ea : ExecuteScalingAction d = ExecuteScheduledScalingAction d)
    by (unfold ExecuteScalingAction; rewrite Hm; reflexivity).
  rewrite Ea.
  pose proof (scheduled_scale_out_fails d w wid writerInstance k e rest Hdry
                Hk Hw Hi Hs Hmax Hlt Hp) as (Hout1 & A1).
  fold class in A1.
  destruct (ExecuteScheduledScalingAction d w) as [o1 w1] eqn:E1.
  cbn [fst snd] in Hout1, A1. subst o1.
  set (ws := snd (Sleep initialBackoff
                    (snd (Log WARN "Scaling action failed, retrying..." w1)))).
  destruct A1 as (C1 & D1 & S1 & _ & _ & P1).
  set (dir1 := replay (flat_map (creationOf d schedulerTagKey class)
                         identifiers) (directory w)).
  assert (Hd : directory ws = dir1).
  { change (directory ws) with (directory w1). rewrite D1, !replay_app.
    rewrite (reads_replay (describesOf d)) by apply describesOf_reads.
    rewrite (replay_accepted_reads (tagReadsOf _)) by apply tagReads_read.
    rewrite (reads_replay (classReads d)) by apply classReads_reads.
    reflexivity. }
  assert (Hc : calm ws).
  { unfold calm. change (plan ws) with (plan w1). rewrite P1, Hp.
    rewrite !length_app, tagReadsOf_length, creationsOf_length.
    cbn [List.length describesOf].
    replace (2 + (List.length (readersOf wid (directory w))
                  + (List.length (classReads d) + (2 * k + 1))))%nat
      with (2 + List.length (readersOf wid (directory w))
              + List.length (classReads d) + 2 * k + 1)%nat by lia.
    rewrite skipn_past_failure. exact Hrest. }
  assert (Hw1 : writerOf (directory ws) = Some wid).
  { rewrite Hd. unfold dir1. rewrite writerOf_created. exact Hw. }
  assert (Hsched : scheduledReaders wid (directory ws) = created).
  { rewrite Hd. apply scheduledReaders_created; assumption. }
  assert (Hlen : List.length created = k).
  { unfold created, identifiers, identifiersFrom.
    rewrite !length_map, length_seq. reflexivity. }
  assert (Hne : scheduledReaders wid (directory ws) <> []).
  { rewrite Hsched. intros H. rewrite H in Hlen. cbn in Hlen. lia. }
  pose proof (scheduled_scale_in_runs d ws wid Hdry Hc Hw1 Hne)
    as (Hout2 & C2 & D2 & S2 & _).
  assert (Hrem : removalsOf created = []) by apply removalsOf_created.
  rewrite Hsched, Hlen, Hrem in C2, D2. cbn [accepted map app] in C2, D2.
  rewrite Hd in C2, D2. unfold dir1 in C2.
  rewrite (readersOf_created d class wid identifiers (directory w) Hfid) in C2.
  destruct (ExecuteScheduledScalingAction d ws) as [o2 w2] eqn:E2.
  cbn [fst snd] in Hout2, C2, D2, S2. subst o2.
  rewrite (retryLoop_second_attempt _ maxRetries n 1 initialBackoff w w1 w2 e
             E1 E2).
  cbn [fst snd]. split; [reflexivity|]. split; [|split].
  - rewrite C2. change (calls ws) with (calls w1). rewrite C1.
    rewrite <- !app_assoc. reflexivity.
  - rewrite S2. change (slept ws) with (slept w1 ++ [initialBackoff])%list.
    rewrite S1. reflexivity.
  - rewrite D2, !replay_app.
    rewrite (reads_replay (describesOf d)) by apply describesOf_reads.
    rewrite (replay_accepted_reads (tagReadsOf _)) by apply tagReads_read.
    destruct (replay_creations d schedulerTagKey class identifiers
                (directory w)) as (Hin & _).
    cbv zeta in Hin. exact Hin.
Qed.

Lemma scheduled_retry_after_partial_scale_out_witness :
  let w := mkWorld (clusterOf [readerNode "replica-1"] [] [])
             (repeat Succeed 7 ++ [Fail "InsufficientDBInstanceCapacity"]) in
  let r := executeWithRetry (ExecuteScalingAction (testConfig true false)) 3
             Duration.Second w in
  fst r = Ok tt /\
  mutations (calls (snd r)) =
    [(CreateDBInstanceCall "test-cluster" "db.r6g.large"
        "test-cluster-scheduler-123456789", Succeed);
     (AddTagsToResourceCall (arnOf "test-cluster-scheduler-123456789")
        schedulerTagKey "true", Succeed);
     (CreateDBInstanceCall "test-cluster" "db.r6g.large"
        "test-cluster-scheduler-123456790",
      Fail "InsufficientDBInstanceCapacity")] /\
  publications (calls (snd r)) =
    [(PublishCall "Scaled in cluster test-cluster by removing 1 replicas.",
      Succeed)] /\
  slept (snd r) = [Duration.Second] /\
  map DBInstanceIdentifier (instances (directory (snd r))) =
    ["replica-1"; "writer-instance"; "test-cluster-scheduler-123456789"].
Proof.
  cbv zeta.
  match goal with
  | |- fst (executeWithRetry (ExecuteScalingAction ?d) ?n ?b ?w) = _ /\ _ =>
      destruct (scheduled_retry_after_partial_scale_out d w "writer-instance"
                  writerNode 1 "InsufficientDBInstanceCapacity" [] n b)
        as (Hout & Hcalls & Hslept & Hinst)
  end.
  - reflexivity.
  - reflexivity.
  - lia.
  - apply clock_after_epoch;
      [reflexivity | right; reflexivity | apply wallClock_after_epoch].
  - reflexivity.
  - reflexivity.
  - reflexivity.
  - reflexivity.
  - split; [lia | vm_compute; lia].
  - reflexivity.
  - constructor.
  - vm_compute. intros [H|[]]. discriminate H.
  - intros instance [<-|[]]. vm_compute. intros [H|[]]. discriminate H.
  - cbv zeta in Hout, Hcalls, Hslept, Hinst. split; [exact Hout|].
    rewrite Hcalls, Hslept, Hinst. repeat split; reflexivity.
Defined.

(** ** The handlers: reading the environment *)

Lemma unchanged_refl (w : World) : unchanged w w.
Proof. repeat split. Qed.

Lemma unchanged_trans (w w1 w2 : World) :
  unchanged w w1 -> unchanged w1 w2 -> unchanged w w2.
Proof.
  intros (C1 & D1 & S1 & P1 & R1) (C2 & D2 & S2 & P2 & R2).
  unfold unchanged. rewrite C2, D2, S2, P2, R2. auto.
Qed.

Lemma yields_ret {A} (a : A) (V : A -> Prop) : V a -> yields (ret a) V.
Proof.
  intros Hv w. split; [apply unchanged_refl|]. split; [discriminate|].
  intros a' [= <-]. exact Hv.
Qed.

Lemma yields_fail {A} (e : error) (V : A -> Prop) : yields (fail e) V.
Proof.
  intros w. split; [apply unchanged_refl|]. split; discriminate.
Qed.

Lemma yields_Log (l : Level) (msg : string) :
  yields (Log l msg) (fun _ => True).
Proof.
  intros w. split; [repeat split|]. split; [discriminate | auto].
Qed.

Lemma yields_bind {A B} (m : M A) (k : A -> M B) (U : A -> Prop)
    (V : B -> Prop) :
  yields m U -> (forall a, U a -> yields (k a) V) -> yields (bind m k) V.
Proof.
  intros Hm Hk w. destruct (Hm w) as (U1 & N1 & V1). unfold bind.
  destruct (m w) as [[a|e|msg] w1]; cbn [fst snd] in *.
  - destruct (Hk a (V1 a eq_refl) w1) as (U2 & N2 & V2).
    split; [eapply unchanged_trans; eassumption|]. split; assumption.
  - split; [exact U1|]. split; discriminate.
  - exfalso. exact (N1 msg eq_refl).
Qed.

Lemma yields_Log_fail {A} (l : Level) (msg : string) (e : error)
    (V : A -> Prop) :
  yields (Log l msg ;; fail e) V.
Proof.
  eapply yields_bind; [apply yields_Log|]. intros _ _. apply yields_fail.
Qed.

Lemma yields_required (value : string) (l : Level) (msg : string) (e : error) :
  yields (if String.eqb value "" then Log l msg ;; fail e else ret tt)
    (fun _ => value <> EmptyString).
Proof.
  destruct (String.eqb value "") eqn:E.
  - apply yields_Log_fail.
  - apply yields_ret. intros ->. discriminate E.
Qed.

Lemma yields_parsed {A} (r : A + error) (l : Level) (msg : string) :
  yields (match r with
          | inr err => Log l msg ;; fail err
          | inl a => ret a
          end)
    (fun a => r = inl a).
Proof.
  destruct r as [a|err]; [apply yields_ret; reflexivity|].
  apply yields_Log_fail.
Qed.

Lemma yields_optional {A} (value : string) (r : A + error) (default : A)
    (l : Level) (msg : string) :
  yields (if negb (String.eqb value "")
          then match r with
               | inr err => Log l msg ;; fail err
               | inl a => ret a
               end
          else ret default)
    (fun a => if String.eqb value "" then a = default else r = inl a).
Proof.
  destruct (String.eqb value ""); cbn [negb].
  - apply yields_ret. reflexivity.
  - apply yields_parsed.
Qed.

Section Environment.

Variable Getenv : string -> string.
Variable LoadDefaultConfig : option error.
Variable Atoi : string -> Z + error.
Variable ParseBool : string -> bool + error.
Variable ParseFloat : string -> Q + error.

Lemma readModeVariables_yields (scheduledScaling : bool) :
  yields (readModeVariables Getenv Atoi ParseFloat scheduledScaling)
    (fun v =>
       let '(metricName, targetValue, scaleInCooldown, scaleOutCooldown,
             scheduleNumberReplicas) := v in
       if scheduledScaling
       then
         Getenv "SCHEDULE_NUMBER_REPLICAS" <> EmptyString
         /\ Atoi (Getenv "SCHEDULE_NUMBER_REPLICAS")
              = inl scheduleNumberReplicas
         /\ metricName = EmptyString /\ targetValue = 0%Q
         /\ scaleInCooldown = 0 /\ scaleOutCooldown = 0
       else
         Getenv "METRIC_NAME" <> EmptyString
         /\ Getenv "TARGET_VALUE" <> EmptyString
         /\ Getenv "SCALE_IN_COOLDOWN" <> EmptyString
         /\ Getenv "SCALE_OUT_COOLDOWN" <> EmptyString
         /\ metricName = Getenv "METRIC_NAME"
         /\ ParseFloat (Getenv "TARGET_VALUE") = inl targetValue
         /\ Atoi (Getenv "SCALE_IN_COOLDOWN") = inl scaleInCooldown
         /\ Atoi (Getenv "SCALE_OUT_COOLDOWN") = inl scaleOutCooldown
         /\ scheduleNumberReplicas = 0).
Proof.
  unfold readModeVariables. destruct scheduledScaling; cbv zeta.
  - eapply yields_bind; [apply yields_required|]. intros ? H1.
    eapply yields_bind; [apply yields_parsed|]. intros n H2.
    apply yields_ret. auto 10.
  - eapply yields_bind; [apply yields_required|]. intros ? H1.
    eapply yields_bind; [apply yields_required|]. intros ? H2.
    eapply yields_bind; [apply yields_parsed|]. intros x H3.
    eapply yields_bind; [apply yields_required|]. intros ? H4.
    eapply yields_bind; [apply yields_parsed|]. intros n1 H5.
    eapply yields_bind; [apply yields_required|]. intros ? H6.
    eapply yields_bind; [apply yields_parsed|]. intros n2 H7.
    apply yields_ret. auto 12.
Qed.

Lemma readEnvironment_yields :
  yields (readEnvironment Getenv LoadDefaultConfig Atoi ParseBool ParseFloat)
    (fromEnvironment Getenv Atoi ParseBool ParseFloat).
Proof.
  unfold readEnvironment. cbv zeta.
  eapply yields_bind.
  { instantiate (1 := fun _ => True).
    destruct LoadDefaultConfig;
      [apply yields_Log_fail | apply yields_ret; exact I]. }
  intros _ _.
  eapply yields_bind; [apply yields_required|]. intros ? Htopic.
  eapply yields_bind; [apply yields_required|]. intros ? Hcluster.
  eapply yields_bind; [apply yields_required|]. intros ? Hmin.
  eapply yields_bind; [apply yields_parsed|]. intros minCapacity Emin.
  eapply yields_bind; [apply yields_required|]. intros ? Hmax.
  eapply yields_bind; [apply yields_parsed|]. intros maxCapacity Emax.
  eapply yields_bind; [apply yields_optional|]. intros scheduledScaling Es.
  eapply yields_bind; [apply readModeVariables_yields|].
  intros [[[[metricName targetValue] scaleInCooldown] scaleOutCooldown]
            scheduleNumberReplicas] Hmode.
  eapply yields_bind; [apply yields_optional|]. intros maxRetries Er.
  eapply yields_bind.
  { instantiate
      (1 := fun initialBackoff =>
              if String.eqb (Getenv "INITIAL_BACKOFF") ""
              then initialBackoff = Duration.Second
              else exists initialBackoffSeconds,
                     Atoi (Getenv "INITIAL_BACKOFF")
                       = inl initialBackoffSeconds /\
                     initialBackoff
                       = Int64.mul initialBackoffSeconds Duration.Second).
    destruct (String.eqb (Getenv "INITIAL_BACKOFF") ""); cbn [negb].
    - apply yields_ret. reflexivity.
    - destruct (Atoi (Getenv "INITIAL_BACKOFF")) as [seconds|err].
      + apply yields_ret. exists seconds. auto.
      + apply yields_Log_fail. }
  intros initialBackoff Eb.
  eapply yields_bind; [apply yields_optional|]. intros dryRun Ed.
  eapply yields_bind.
  { instantiate (1 := fun _ => True).
    destruct (String.eqb (Getenv "INSTANCE_TYPE") ""); apply yields_Log. }
  intros _ _. apply yields_ret.
  unfold fromEnvironment, NewDocumentDB, requiredVariables.
  cbn [fst snd ClusterID MinCapacity MaxCapacity InstanceType ScheduledScaling
         DryRun ScheduleNumberReplicas MetricName TargetValue ScaleInCooldown
         ScaleOutCooldown].
  split.
  { intros name Hin. apply in_app_or in Hin.
    destruct Hin as [Hin|Hin].
    - cbn in Hin. destruct Hin as [<-|[<-|[<-|[<-|[]]]]]; assumption.
    - destruct scheduledScaling; cbn in Hin.
      + destruct Hin as [<-|[]]. tauto.
      + destruct Hin as [<-|[<-|[<-|[<-|[]]]]]; tauto. }
  repeat (split; [solve [auto]|]).
  split.
  { destruct scheduledScaling; tauto. }
  split; assumption.
Qed.

End Environment.

(** ** The handlers: what an invocation may touch *)

Lemma reaches_weaken {A} (m : M A) (ok ok' : Call -> Prop)
    (V V' : A -> Prop) :
  (forall c, ok c -> ok' c) -> (forall a, V a -> V' a) ->
  reaches m ok V -> reaches m ok' V'.
Proof.
  intros Hok Hv Hm w. destruct (Hm w) as (new & He & Ho & Ha).
  exists new. split; [exact He|]. split.
  - revert Ho. apply only_weaken, Hok.
  - intros a Ea. apply Hv, Ha, Ea.
Qed.

Lemma yields_reaches {A} (m : M A) (ok : Call -> Prop) (V : A -> Prop) :
  yields m V -> reaches m ok V.
Proof.
  intros Hm w. destruct (Hm w) as ((C & D & _) & _ & Hv).
  exists []. split; [|split; [apply only_nil | exact Hv]].
  unfold extends. rewrite app_nil_r. auto.
Qed.

Lemma processScaling_keeps (jsonUnmarshal : string -> ScalingMessage + error)
    (d : DocumentDB) (snsMessage : string) (maxRetries initialBackoff : Z) :
  reaches (processScaling jsonUnmarshal d snsMessage maxRetries initialBackoff)
    (permitted d)
    (fun r => ClusterID (fst r) = ClusterID d /\ DryRun (fst r) = DryRun d).
Proof.
  unfold processScaling.
  apply (reaches_bind _ _ _ (fun autoscaler =>
           ClusterID autoscaler = ClusterID d /\
           DryRun autoscaler = DryRun d)).
  - destruct (negb (snsMessage =? "")%string).
    + destruct (jsonUnmarshal snsMessage) as [scalingMessage|err].
      * eapply reaches_bind; [apply reaches_Log|].
        intros _ _. apply reaches_ret. split; reflexivity.
      * eapply reaches_bind; [apply reaches_Log|].
        intros _ _. apply reaches_fail.
    + eapply reaches_bind; [apply reaches_Log|].
      intros _ _. apply reaches_ret. split; reflexivity.
  - intros autoscaler [Hc Hdry].
    apply (reaches_bind _ _ _ (fun _ => True)).
    + apply reaches_orElse_Log. intros w.
      destruct (executeWithRetry_permitted autoscaler maxRetries
                  initialBackoff w) as (new & He & Hp).
      exists new. split; [exact He|]. split; [|auto].
      revert Hp. apply only_weaken. unfold permitted, scaleNotification.
      rewrite Hc, Hdry. tauto.
    + intros _ _.
      eapply reaches_bind; [apply reaches_when_Log|]. intros _ _.
      eapply reaches_bind; [apply reaches_when_Log|]. intros _ _.
      apply reaches_ret. split; assumption.
Qed.

Lemma permitted_same (d d' : DocumentDB) (c : Call) :
  ClusterID d' = ClusterID d -> DryRun d' = DryRun d ->
  permitted d' c -> permitted d c.
Proof.
  intros Hc Hdry. unfold permitted, scaleNotification.
  rewrite Hc, Hdry. tauto.
Qed.

Lemma processRecords_reaches
    (jsonUnmarshal : string -> ScalingMessage + error) (d : DocumentDB)
    (maxRetries initialBackoff : Z) (records : list SNSEventRecord) :
  forall (docdbAutoscaler : DocumentDB)
         (totalDryRunAdditions totalDryRunRemovals : Z),
    ClusterID docdbAutoscaler = ClusterID d ->
    DryRun docdbAutoscaler = DryRun d ->
    reaches (processRecords jsonUnmarshal docdbAutoscaler maxRetries
               initialBackoff records totalDryRunAdditions
               totalDryRunRemovals)
      (permitted d) (fun _ => True).
Proof.
  induction records as [|record rest IH];
    intros docdbAutoscaler totalDryRunAdditions totalDryRunRemovals Hc Hdry;
    cbn [processRecords].
  - apply reaches_ret. exact I.
  - cbv zeta. eapply reaches_bind; [apply reaches_Log|]. intros _ _.
    eapply reaches_bind.
    + apply reaches_orElse_Log.
      apply (reaches_weaken _ (permitted docdbAutoscaler) _ _ _
               (fun c => permitted_same d docdbAutoscaler c Hc Hdry)
               (fun a H => H)).
      apply processScaling_keeps.
    + intros r [Hc' Hdry']. apply IH; congruence.
Qed.

Section Invocation.

Variable Getenv : string -> string.
Variable LoadDefaultConfig : option error.
Variable Atoi : string -> Z + error.
Variable ParseBool : string -> bool + error.
Variable ParseFloat : string -> Q + error.
Variable jsonUnmarshal : string -> ScalingMessage + error.
Variable unmarshalSNSEvent : string -> SNSEvent + error.
Variable unmarshalCloudWatchEvent : string -> CloudWatchEvent + error.

Local Abbreviation readEnvironment' :=
  (readEnvironment Getenv LoadDefaultConfig Atoi ParseBool ParseFloat).
Local Abbreviation handler' :=
  (handler Getenv LoadDefaultConfig Atoi ParseBool ParseFloat jsonUnmarshal
     unmarshalSNSEvent unmarshalCloudWatchEvent).

(** The calls of an invocation are those the autoscaler built from the
    environment may issue. *)
Lemma handler_reaches (event : string) (ok : Call -> Prop) :
  (forall settings c,
     fromEnvironment Getenv Atoi ParseBool ParseFloat settings ->
     permitted (fst settings) c -> ok c) ->
  reaches (handler' event) ok (fun _ => True).
Proof.
  intros Hok.
  assert (Henv : reaches readEnvironment' ok
                   (fromEnvironment Getenv Atoi ParseBool ParseFloat))
    by apply yields_reaches, readEnvironment_yields.
  unfold handler.
  eapply reaches_bind; [apply reaches_Log|]. intros _ _.
  destruct (asSNSEvent unmarshalSNSEvent event) as [snsEvent|].
  - eapply reaches_bind; [apply reaches_Log|]. intros _ _.
    unfold handleSNSEvent.
    eapply reaches_bind; [exact Henv|]. intros settings Hs. cbv zeta.
    eapply reaches_bind.
    + apply (reaches_weaken _ (permitted (fst settings)) _ _ _
               (fun c => Hok settings c Hs) (fun a H => H)).
      apply processRecords_reaches; reflexivity.
    + intros r _.
      eapply reaches_bind; [apply reaches_when_Log|]. intros _ _.
      apply reaches_ret. exact I.
  - destruct (asCloudWatchEvent unmarshalCloudWatchEvent event) as [cwEvent|].
    + eapply reaches_bind; [apply reaches_Log|]. intros _ _.
      unfold handleCloudWatchEvent.
      eapply reaches_bind; [exact Henv|]. intros settings Hs. cbv zeta.
      eapply reaches_bind.
      * apply reaches_orElse_Log.
        apply (reaches_weaken _ (permitted (fst settings)) _ _ _
                 (fun c => Hok settings c Hs) (fun a H => H)).
        apply processScaling_keeps.
      * intros r _.
        eapply reaches_bind.
        { instantiate (1 := fun _ => True).
          destruct (DryRun (fst r)); apply reaches_Log. }
        intros _ _. apply reaches_ret. exact I.
    + eapply reaches_bind; [apply reaches_Log|]. intros _ _.
      apply reaches_ret. exact I.
Qed.

End Invocation.

Lemma readEnvironment_incomplete (Getenv : string -> string)
    (LoadDefaultConfig : option error) (Atoi : string -> Z + error)
    (ParseBool : string -> bool + error) (ParseFloat : string -> Q + error)
    (scheduledScaling : bool) (name : string) (w : World) :
  (if String.eqb (Getenv "SCHEDULED_SCALING") ""
   then scheduledScaling = false
   else ParseBool (Getenv "SCHEDULED_SCALING") = inl scheduledScaling) ->
  In name (requiredVariables scheduledScaling) ->
  Getenv name = EmptyString ->
  exists e w',
    readEnvironment Getenv LoadDefaultConfig Atoi ParseBool ParseFloat w
      = (Err e, w') /\ unchanged w w'.
Proof.
  intros Hmode Hin Hunset.
  destruct (readEnvironment_yields Getenv LoadDefaultConfig Atoi ParseBool
              ParseFloat w) as (Hu & Hnp & Hv).
  destruct (readEnvironment Getenv LoadDefaultConfig Atoi ParseBool ParseFloat
              w) as [[settings|e|msg] w'] eqn:E; cbn [fst snd] in *.
  - exfalso. destruct (Hv settings eq_refl) as (Hreq & _ & _ & _ & _ & Hs & _).
    cbv zeta in Hreq, Hs.
    assert (Es : ScheduledScaling (fst settings) = scheduledScaling).
    { destruct (String.eqb (Getenv "SCHEDULED_SCALING") ""); congruence. }
    rewrite Es in Hreq. exact (Hreq name Hin Hunset).
  - exists e, w'. split; [reflexivity | exact Hu].
  - exfalso. exact (Hnp msg eq_refl).
Qed.

(** X26. An invocation whose configuration is incomplete touches nothing.
    When a variable that the mode of the environment requires is not set
    (SNS_TOPIC_ARN, CLUSTER_IDENTIFIER, MIN_CAPACITY, MAX_CAPACITY, and
    SCHEDULE_NUMBER_REPLICAS in scheduled mode or METRIC_NAME, TARGET_VALUE,
    SCALE_IN_COOLDOWN and SCALE_OUT_COOLDOWN otherwise), the handler issues
    no call, does not sleep and leaves the directory as it is, whatever the
    event; it returns an error for an SNS event and for a CloudWatch event,
    and success only for an event it does not support. *)
Theorem incomplete_configuration_touches_nothing :
  forall (Getenv : string -> string) (LoadDefaultConfig : option error)
         (Atoi : string -> Z + error) (ParseBool : string -> bool + error)
         (ParseFloat : string -> Q + error)
         (jsonUnmarshal : string -> ScalingMessage + error)
         (unmarshalSNSEvent : string -> SNSEvent + error)
         (unmarshalCloudWatchEvent : string -> CloudWatchEvent + error)
         (scheduledScaling : bool) (name event : string) (w : World),
    (if String.eqb (Getenv "SCHEDULED_SCALING") ""
     then scheduledScaling = false
     else ParseBool (Getenv "SCHEDULED_SCALING") = inl scheduledScaling) ->
    In name (requiredVariables scheduledScaling) ->
    Getenv name = EmptyString ->
    let r := handler Getenv LoadDefaultConfig Atoi ParseBool ParseFloat
               jsonUnmarshal unmarshalSNSEvent unmarshalCloudWatchEvent
               event w in
    unchanged w (snd r) /\
    match asSNSEvent unmarshalSNSEvent event,
          asCloudWatchEvent unmarshalCloudWatchEvent event with
    | None, None => fst r = Ok tt
    | _, _ => exists e, fst r = Err e
    end.
Proof.
  intros Getenv LoadDefaultConfig Atoi ParseBool ParseFloat jsonUnmarshal
    unmarshalSNSEvent unmarshalCloudWatchEvent scheduledScaling name event w
    Hmode Hin Hunset r.
  subst r. unfold handler.
  set (w0 := snd (Log INFO "Lambda function invoked" w)).
  destruct (asSNSEvent unmarshalSNSEvent event) as [snsEvent|].
  - set (w1 := snd (Log INFO "Detected SNSEvent" w0)).
    destruct (readEnvironment_incomplete Getenv LoadDefaultConfig Atoi
                ParseBool ParseFloat scheduledScaling name w1 Hmode Hin Hunset)
      as (e & w' & E & Hu).
    assert (Er : (Log INFO "Lambda function invoked" ;;
                  Log INFO "Detected SNSEvent" ;;
                  handleSNSEvent Getenv LoadDefaultConfig Atoi ParseBool
                    ParseFloat jsonUnmarshal snsEvent) w = (Err e, w')).
    { change (handleSNSEvent Getenv LoadDefaultConfig Atoi ParseBool
                ParseFloat jsonUnmarshal snsEvent w1 = (Err e, w')).
      unfold handleSNSEvent. apply bind_Err, E. }
    rewrite Er. cbn [fst snd]. split; [exact Hu|].
    exists e. reflexivity.
  - destruct (asCloudWatchEvent unmarshalCloudWatchEvent event) as [cwEvent|].
    + set (w1 := snd (Log INFO "Detected CloudWatchEvent" w0)).
      destruct (readEnvironment_incomplete Getenv LoadDefaultConfig Atoi
                  ParseBool ParseFloat scheduledScaling name w1 Hmode Hin
                  Hunset) as (e & w' & E & Hu).
      assert (Er : (Log INFO "Lambda function invoked" ;;
                    Log INFO "Detected CloudWatchEvent" ;;
                    handleCloudWatchEvent Getenv LoadDefaultConfig Atoi
                      ParseBool ParseFloat jsonUnmarshal cwEvent) w
                   = (Err e, w')).
      { change (handleCloudWatchEvent Getenv LoadDefaultConfig Atoi ParseBool
                  ParseFloat jsonUnmarshal cwEvent w1 = (Err e, w')).
        unfold handleCloudWatchEvent. apply bind_Err, E. }
      rewrite Er. cbn [fst snd]. split; [exact Hu|].
      exists e. reflexivity.
    + split; [repeat split | reflexivity].
Qed.

Lemma incomplete_configuration_touches_nothing_witness :
  let r := handler (environment withoutCluster) None decimalAtoi parseBool
             wholeFloat rejectJSON noRecords timerEvent "{}"
             scheduledScaleInWorld in
  unchanged scheduledScaleInWorld (snd r) /\
  fst r = Err "CLUSTER_IDENTIFIER is not set".
Proof.
  cbv zeta.
  destruct (incomplete_configuration_touches_nothing
              (environment withoutCluster) None decimalAtoi parseBool
              wholeFloat rejectJSON noRecords timerEvent true
              "CLUSTER_IDENTIFIER" "{}" scheduledScaleInWorld)
    as (Hu & _).
  - reflexivity.
  - right. left. reflexivity.
  - reflexivity.
  - split; [exact Hu | reflexivity].
Defined.

(** X27. DRYRUN set to true in the environment reaches every call of an
    invocation: whatever the event (one or several SNS records, or a timer
    event), whatever the messages and the replies of the services, the
    handler issues no create, delete or tag write and leaves the directory
    as it is. *)
Theorem dry_run_variable_forbids_changes :
  forall (Getenv : string -> string) (LoadDefaultConfig : option error)
         (Atoi : string -> Z + error) (ParseBool : string -> bool + error)
         (ParseFloat : string -> Q + error)
         (jsonUnmarshal : string -> ScalingMessage + error)
         (unmarshalSNSEvent : string -> SNSEvent + error)
         (unmarshalCloudWatchEvent : string -> CloudWatchEvent + error)
         (event : string) (w : World),
    Getenv "DRYRUN" <> EmptyString ->
    ParseBool (Getenv "DRYRUN") = inl true ->
    let r := handler Getenv LoadDefaultConfig Atoi ParseBool ParseFloat
               jsonUnmarshal unmarshalSNSEvent unmarshalCloudWatchEvent
               event w in
    exists new,
      calls (snd r) = (calls w ++ new)%list /\
      mutations new = [] /\
      directory (snd r) = directory w.
Proof.
  intros Getenv LoadDefaultConfig Atoi ParseBool ParseFloat jsonUnmarshal
    unmarshalSNSEvent unmarshalCloudWatchEvent event w Hset Hdry r.
  destruct (handler_reaches Getenv LoadDefaultConfig Atoi ParseBool ParseFloat
              jsonUnmarshal unmarshalSNSEvent unmarshalCloudWatchEvent event
              (fun c => isMutation c = false)) with (w := w)
    as (new & (C & D) & Ho & _).
  { intros settings c (_ & _ & _ & _ & _ & _ & Hd & _) Hp. cbv zeta in Hd.
    assert (Ed : DryRun (fst settings) = true).
    { destruct (String.eqb (Getenv "DRYRUN") "") eqn:E.
      - apply String.eqb_eq in E. contradiction.
      - congruence. }
    destruct Hp as [H|[(n & [-> | ->])|[H _]]].
    - apply readCall_quiet, H.
    - reflexivity.
    - reflexivity.
    - congruence. }
  exists new. subst r. split; [exact C|]. split.
  - apply (only_filter_nil (fun c => isMutation c = false)); auto.
  - rewrite D. apply (only_replay (fun c => isMutation c = false)); auto.
Qed.

Lemma dry_run_variable_forbids_changes_witness :
  let r := handler (environment scheduledDryRun) None decimalAtoi parseBool
             wholeFloat rejectJSON noRecords timerEvent "{}"
             scheduledScaleInWorld in
  fst r = Ok tt /\
  mutations (calls (snd r)) = [] /\
  publications (calls (snd r)) =
    [(PublishCall "Scaled in cluster test-cluster by removing 1 replicas.",
      Succeed)] /\
  directory (snd r) = directory scheduledScaleInWorld.
Proof.
  cbv zeta.
  destruct (dry_run_variable_forbids_changes
              (environment scheduledDryRun) None decimalAtoi parseBool
              wholeFloat rejectJSON noRecords timerEvent "{}"
              scheduledScaleInWorld)
    as (new & C & Hm & D).
  - discriminate.
  - reflexivity.
  - cbv zeta in C, D. split; [reflexivity|]. split.
    + rewrite C. exact Hm.
    + split; [reflexivity | exact D].
Defined.

Lemma yields_orElse_Log {A} (m : M A) (l : Level) (msg : string)
    (V : A -> Prop) :
  yields m V -> yields (orElse m (fun _ => Log l msg)) V.
Proof.
  intros Hm w. destruct (Hm w) as (Hu & Hnp & Hv).
  unfold orElse, bind, try, Log, fail, ret.
  destruct (m w) as [[a|e|p] w1]; cbn [fst snd] in *.
  - split; [exact Hu|]. split; [discriminate | exact Hv].
  - split; [|split; discriminate].
    destruct Hu as (C & D & S & P & R). repeat split; assumption.
  - exfalso. exact (Hnp p eq_refl).
Qed.

Lemma executeWithRetry_without_attempts (action : M unit)
    (maxRetries initialBackoff : Z) :
  maxRetries <= 0 ->
  yields (executeWithRetry action maxRetries initialBackoff)
    (fun _ => False).
Proof.
  intros Hn. unfold executeWithRetry.
  replace (Z.to_nat maxRetries) with 0%nat by lia.
  cbn [retryLoop]. apply yields_fail.
Qed.

Lemma processScaling_without_attempts
    (jsonUnmarshal : string -> ScalingMessage + error) (d : DocumentDB)
    (snsMessage : string) (maxRetries initialBackoff : Z) :
  maxRetries <= 0 ->
  yields (processScaling jsonUnmarshal d snsMessage maxRetries initialBackoff)
    (fun _ => False).
Proof.
  intros Hn. unfold processScaling.
  apply (yields_bind _ _ (fun _ => True)).
  - destruct (negb (snsMessage =? "")%string).
    + destruct (jsonUnmarshal snsMessage) as [scalingMessage|err].
      * eapply yields_bind; [apply yields_Log|].
        intros _ _. apply yields_ret. exact I.
      * apply yields_Log_fail.
    + eapply yields_bind; [apply yields_Log|].
      intros _ _. apply yields_ret. exact I.
  - intros autoscaler _. cbv zeta.
    apply (yields_bind _ _ (fun _ => False)); [|intros _ []].
    apply yields_orElse_Log, executeWithRetry_without_attempts, Hn.
Qed.

Lemma processRecords_without_attempts
    (jsonUnmarshal : string -> ScalingMessage + error)
    (docdbAutoscaler : DocumentDB) (maxRetries initialBackoff : Z)
    (records : list SNSEventRecord)
    (totalDryRunAdditions totalDryRunRemovals : Z) :
  maxRetries <= 0 ->
  records <> [] ->
  yields (processRecords jsonUnmarshal docdbAutoscaler maxRetries
            initialBackoff records totalDryRunAdditions totalDryRunRemovals)
    (fun _ => False).
Proof.
  intros Hn Hne. destruct records as [|record rest]; [congruence|].
  cbn [processRecords]. cbv zeta.
  eapply yields_bind; [apply yields_Log|]. intros _ _.
  apply (yields_bind _ _ (fun _ => False)); [|intros _ []].
  apply yields_orElse_Log, processScaling_without_attempts, Hn.
Qed.

Lemma asSNSEvent_records (unmarshalSNSEvent : string -> SNSEvent + error)
    (event : string) (snsEvent : SNSEvent) :
  asSNSEvent unmarshalSNSEvent event = Some snsEvent ->
  Records snsEvent <> [].
Proof.
  unfold asSNSEvent.
  destruct (unmarshalSNSEvent event) as [e|]; [|discriminate].
  destruct (Records e) as [|record rest] eqn:Er; cbn; [discriminate|].
  intros [= <-]. rewrite Er. discriminate.
Qed.

Lemma yields_never {A} (m : M A) (w : World) :
  yields m (fun _ => False) ->
  unchanged w (snd (m w)) /\ exists e, fst (m w) = Err e.
Proof.
  intros Hm. destruct (Hm w) as (Hu & Hnp & Hv). split; [exact Hu|].
  destruct (fst (m w)) as [a|e|msg].
  - destruct (Hv a eq_refl).
  - exists e. reflexivity.
  - destruct (Hnp msg eq_refl).
Qed.

(** X28. MAX_RETRIES set to zero (or less) does not mean one attempt
    without retries, it disables the autoscaler: the handler never runs
    the scaling action.  Whatever the event and the rest of the
    environment, it issues no call and leaves everything as it is, and it
    returns an error for every SNS event and every CloudWatch event. *)
Theorem zero_retries_disable_the_autoscaler :
  forall (Getenv : string -> string) (LoadDefaultConfig : option error)
         (Atoi : string -> Z + error) (ParseBool : string -> bool + error)
         (ParseFloat : string -> Q + error)
         (jsonUnmarshal : string -> ScalingMessage + error)
         (unmarshalSNSEvent : string -> SNSEvent + error)
         (unmarshalCloudWatchEvent : string -> CloudWatchEvent + error)
         (maxRetries : Z) (event : string) (w : World),
    Getenv "MAX_RETRIES" <> EmptyString ->
    Atoi (Getenv "MAX_RETRIES") = inl maxRetries ->
    maxRetries <= 0 ->
    let r := handler Getenv LoadDefaultConfig Atoi ParseBool ParseFloat
               jsonUnmarshal unmarshalSNSEvent unmarshalCloudWatchEvent
               event w in
    unchanged w (snd r) /\
    match asSNSEvent unmarshalSNSEvent event,
          asCloudWatchEvent unmarshalCloudWatchEvent event with
    | None, None => fst r = Ok tt
    | _, _ => exists e, fst r = Err e
    end.
Proof.
  intros Getenv LoadDefaultConfig Atoi ParseBool ParseFloat jsonUnmarshal
    unmarshalSNSEvent unmarshalCloudWatchEvent maxRetries event w Hset Hparse
    Hn r.
  assert (Hretries : forall settings,
            fromEnvironment Getenv Atoi ParseBool ParseFloat settings ->
            fst (snd settings) <= 0).
  { intros settings (_ & _ & _ & _ & _ & _ & _ & _ & Hr & _).
    cbv zeta in Hr.
    destruct (String.eqb (Getenv "MAX_RETRIES") "") eqn:E.
    - apply String.eqb_eq in E. contradiction.
    - rewrite Hparse in Hr. injection Hr as <-. exact Hn. }
  subst r. unfold handler.
  set (w0 := snd (Log INFO "Lambda function invoked" w)).
  destruct (asSNSEvent unmarshalSNSEvent event) as [snsEvent|] eqn:Es.
  - set (w1 := snd (Log INFO "Detected SNSEvent" w0)).
    apply (yields_never
             (handleSNSEvent Getenv LoadDefaultConfig Atoi ParseBool
                ParseFloat jsonUnmarshal snsEvent) w1).
    unfold handleSNSEvent.
    eapply yields_bind; [apply readEnvironment_yields|].
    intros settings Hs. cbv zeta.
    apply (yields_bind _ _ (fun _ => False)); [|intros _ []].
    apply processRecords_without_attempts; [apply Hretries, Hs|].
    eapply asSNSEvent_records, Es.
  - destruct (asCloudWatchEvent unmarshalCloudWatchEvent event) as [cwEvent|].
    + set (w1 := snd (Log INFO "Detected CloudWatchEvent" w0)).
      apply (yields_never
               (handleCloudWatchEvent Getenv LoadDefaultConfig Atoi ParseBool
                  ParseFloat jsonUnmarshal cwEvent) w1).
      unfold handleCloudWatchEvent.
      eapply yields_bind; [apply readEnvironment_yields|].
      intros settings Hs. cbv zeta.
      apply (yields_bind _ _ (fun _ => False)); [|intros _ []].
      apply yields_orElse_Log, processScaling_without_attempts, Hretries, Hs.
    + split; [repeat split | reflexivity].
Qed.

Lemma zero_retries_disable_the_autoscaler_witness :
  let r := handler (environment withoutRetries) None decimalAtoi parseBool
             wholeFloat rejectJSON noRecords timerEvent "{}"
             scheduledScaleInWorld in
  unchanged scheduledScaleInWorld (snd r) /\
  fst r = Err "scaling action failed after 0 attempts".
Proof.
  cbv zeta.
  destruct (zero_retries_disable_the_autoscaler
              (environment withoutRetries) None decimalAtoi parseBool
              wholeFloat rejectJSON noRecords timerEvent 0 "{}"
              scheduledScaleInWorld)
    as (Hu & _).
  - discriminate.
  - reflexivity.
  - lia.
  - split; [exact Hu | reflexivity].
Defined.
